(** * simple_xml: a callback-driven XML parser and its DOM layer

    Shallow embedding of [include/xml_parse.h], [include/xml_dom.h] and the
    callbacks of [examples/xml_parse/main.cpp].

    - A [std::string] is a [list ascii]; [push_back] is [++ [c]].
    - The [int] fields ([pos], [line_number], [column_number], [m_index]) are
      integers in [Z].  They only ever grow by one per consumed character
      (or child), so they stay below the buffer length; signed overflow,
      which C++ leaves undefined, does not arise for buffers that an [int]
      can index.
    - [xml_error] throws: a parsing function returns a [result], and the
      arguments given to the format string are kept in the error value.
    - Every [while] loop and every recursive call consumes one unit of
      fuel; [OutOfFuel] is the only way a run is cut short by the model.
    - DOM entities live in a store indexed by address; an entity pointer is
      an address, [NULL] is [None].  The [assert]s of [xml_dom.h] are
      active: a run that fails one stops with [Aborted].

    The file has three parts: the embedding of the sources, the
    vocabulary of the statements, and the properties. *)

From Stdlib Require Import ZArith Ascii String Lia Bool.
From stdpp Require Import base list strings.

Open Scope Z_scope.

(** ** Strings *)

Abbreviation cpp_string := (list ascii).

(** A string literal, as the character sequence of a [std::string]. *)
Definition str (s : string) : cpp_string := list_ascii_of_string s.

Definition string_eqb (a b : cpp_string) : bool :=
  bool_decide (a = b).

Definition NUL : ascii := Ascii.zero.
Definition LF : ascii := ascii_of_nat 10.
Definition DQUOTE : ascii := ascii_of_nat 34.

(** What [std::endl] writes to a stream. *)
Definition endl : cpp_string := [LF].

(** What [printf] writes for [%s] given [s.c_str()]: the characters of [s]
    before its first NUL. *)
Fixpoint c_str (s : cpp_string) : cpp_string :=
  match s with
  | [] => []
  | c :: s' => if bool_decide (c = NUL) then [] else c :: c_str s'
  end.

(** ** Character classes ([<ctype.h>] in the "C" locale)

    A [char] above 127 is in none of the classes. *)

Definition code (c : ascii) : Z := Z.of_nat (nat_of_ascii c).

Definition isspace (c : ascii) : bool :=
  ((9 <=? code c) && (code c <=? 13)) || (code c =? 32).

Definition isdigit (c : ascii) : bool :=
  (48 <=? code c) && (code c <=? 57).

Definition isalpha (c : ascii) : bool :=
  ((65 <=? code c) && (code c <=? 90)) || ((97 <=? code c) && (code c <=? 122)).

Definition xml_is_space (c : ascii) : bool := isspace c.
Definition xml_is_digit (c : ascii) : bool := isdigit c.
Definition xml_is_alpha (c : ascii) : bool := isalpha c.

Definition xml_is_valid_name_char (c : ascii) : bool :=
  xml_is_alpha c || xml_is_digit c || bool_decide (c = "_"%char).

(** ** Events, errors and results *)

(** One constructor per callback of [xml_callbacks]. *)
Inductive event : Type :=
| BeginTag (name : cpp_string)
| EndTag (name : cpp_string)
| Text (text : cpp_string)
| Comment (comment : cpp_string)
| Attribute (name value : cpp_string).

(** One constructor per call site of [xml_error], with the values that the
    call formats into its message. *)
Inductive xml_fatal_error : Type :=
| PeekOutOfRange (fpos size : Z)
| MatchExpected (expected got : ascii) (line : Z)
| NameExpected (got : ascii) (line : Z)
| ClosingNameMismatch (close_name tag_name : cpp_string) (line : Z)
| HeaderMidway
| ExpectedLt
| CannotStreamAttribute.

(** The outcome of a run: a value, the exception thrown by [xml_error], a
    run cut short by the fuel of the model, or a run that stops at a failed
    [assert] (or uses a pointer or container in a way C++ leaves
    undefined). *)
Inductive result (A : Type) : Type :=
| Ok (a : A)
| Fatal (e : xml_fatal_error)
| OutOfFuel
| Aborted.

Arguments Ok {A} a.
Arguments Fatal {A} e.
Arguments OutOfFuel {A}.
Arguments Aborted {A}.

#[global] Instance result_bind : MBind result := fun A B k r =>
  match r with
  | Ok a => k a
  | Fatal e => Fatal e
  | OutOfFuel => OutOfFuel
  | Aborted => Aborted
  end.

(** ** Callbacks and parser state *)

(** [xml_callbacks]: the five function pointers.  The object behind
    [user_data] has type [U]; a callback returns its new contents.  In C++
    a callback receives its strings by reference; the record is that of
    callbacks that read them and leave them as they are, as the callbacks
    of the repository do (the DOM builder's and the example's). *)
Record xml_callbacks (U : Type) : Type := {
  begin_tag : U -> cpp_string -> U;
  end_tag : U -> cpp_string -> U;
  tag_text : U -> cpp_string -> U;
  comment : U -> cpp_string -> U;
  attribute : U -> cpp_string -> cpp_string -> U
}.

Arguments begin_tag {U}.
Arguments end_tag {U}.
Arguments tag_text {U}.
Arguments comment {U}.
Arguments attribute {U}.

(** [xml_state], with the object that [callbacks->user_data] points to. *)
Record xml_state (U : Type) : Type := {
  buffer : cpp_string;
  pos : Z;
  line_number : Z;
  column_number : Z;
  user_data : U
}.

Arguments buffer {U}.
Arguments pos {U}.
Arguments line_number {U}.
Arguments column_number {U}.
Arguments user_data {U}.

Definition set_user_data {U} (st : xml_state U) (u : U) : xml_state U :=
  {| buffer := buffer st; pos := pos st; line_number := line_number st;
     column_number := column_number st; user_data := u |}.

(** The initializer [{ buffer, 0, 0, 0, &callbacks }]. *)
Definition xml_state_init {U} (buf : cpp_string) (u : U) : xml_state U :=
  {| buffer := buf; pos := 0; line_number := 0; column_number := 0;
     user_data := u |}.

Definition size {U} (st : xml_state U) : Z := Z.of_nat (length (buffer st)).

(** [buffer[i]]; [std::string::operator[]] yields the terminator at [size]. *)
Definition char_at (buf : cpp_string) (i : Z) : ascii :=
  nth (Z.to_nat i) buf NUL.

(** ** Cursor primitives *)

Section Parser.

Context {U : Type} (callbacks : xml_callbacks U).

Local Abbreviation state := (xml_state U).

Definition xml_eof (st : state) : bool := pos st =? size st.

Definition xml_peek (st : state) (offset : Z) : result ascii :=
  let fpos := pos st + offset in
  if (0 <=? fpos) && (fpos <? size st)
  then Ok (char_at (buffer st) (pos st + offset))
  else Fatal (PeekOutOfRange fpos (size st)).

Definition xml_advance (st : state) : state :=
  if bool_decide (char_at (buffer st) (pos st) = LF)
  then {| buffer := buffer st; pos := pos st + 1;
          line_number := line_number st + 1; column_number := 0;
          user_data := user_data st |}
  else {| buffer := buffer st; pos := pos st + 1;
          line_number := line_number st;
          column_number := column_number st + 1;
          user_data := user_data st |}.

Definition xml_match (st : state) (match_ : ascii) : result state :=
  c ← xml_peek st 0;
  if negb (bool_decide (c = match_))
  then Fatal (MatchExpected match_ c (line_number st))
  else Ok (xml_advance st).

Fixpoint xml_eat_space (fuel : nat) (st : state) : result state :=
  match fuel with
  | O => OutOfFuel
  | S fuel' =>
      if xml_eof st then Ok st
      else
        c ← xml_peek st 0;
        if xml_is_space c then xml_eat_space fuel' (xml_advance st)
        else Ok st
  end.

(** ** Lexical productions *)

(** The [while] loop of [xml_parse_string]. *)
Fixpoint xml_parse_string_loop (fuel : nat) (st : state) (s : cpp_string)
  : result (cpp_string * state) :=
  match fuel with
  | O => OutOfFuel
  | S fuel' =>
      if xml_eof st then Ok (s, st)
      else
        c ← xml_peek st 0;
        if negb (bool_decide (c = DQUOTE))
        then
          c' ← xml_peek st 0;
          xml_parse_string_loop fuel' (xml_advance st) (s ++ [c'])
        else Ok (s, st)
  end.

Definition xml_parse_string (fuel : nat) (st : state)
  : result (cpp_string * state) :=
  st ← xml_eat_space fuel st;
  st ← xml_match st DQUOTE;
  '(s, st) ← xml_parse_string_loop fuel st [];
  st ← xml_match st DQUOTE;
  Ok (s ++ [NUL], st).

Fixpoint xml_read_name_loop (fuel : nat) (st : state) (name : cpp_string)
  : result (cpp_string * state) :=
  match fuel with
  | O => OutOfFuel
  | S fuel' =>
      if xml_eof st then Ok (name, st)
      else
        c ← xml_peek st 0;
        if xml_is_valid_name_char c
        then
          c' ← xml_peek st 0;
          xml_read_name_loop fuel' (xml_advance st) (name ++ [c'])
        else Ok (name, st)
  end.

Definition xml_read_name (fuel : nat) (st : state)
  : result (cpp_string * state) :=
  st ← xml_eat_space fuel st;
  c ← xml_peek st 0;
  if negb (xml_is_alpha c)
  then
    c' ← xml_peek st 0;
    Fatal (NameExpected c' (line_number st))
  else xml_read_name_loop fuel st [].

Fixpoint xml_read_text_loop (fuel : nat) (st : state) (text : cpp_string)
  : result (cpp_string * state) :=
  match fuel with
  | O => OutOfFuel
  | S fuel' =>
      if xml_eof st then Ok (text, st)
      else
        c ← xml_peek st 0;
        if negb (bool_decide (c = "<"%char))
        then
          c' ← xml_peek st 0;
          xml_read_text_loop fuel' (xml_advance st) (text ++ [c'])
        else Ok (text, st)
  end.

Definition xml_read_text (fuel : nat) (st : state)
  : result (cpp_string * state) :=
  xml_read_text_loop fuel st [].

Definition xml_read_closing_tag (fuel : nat) (st : state)
  : result (cpp_string * state) :=
  st ← xml_match st "<"%char;
  st ← xml_match st "/"%char;
  '(name, st) ← xml_read_name fuel st;
  st ← xml_match st ">"%char;
  Ok (name, st).

(** The [while] loop of [xml_read_comment]; [hyphen] is the lookback flag.
    When the input ends inside the loop the function returns the empty
    string. *)
Fixpoint xml_read_comment_loop (fuel : nat) (st : state)
    (comment_ : cpp_string) (hyphen : bool) : result (cpp_string * state) :=
  match fuel with
  | O => OutOfFuel
  | S fuel' =>
      if xml_eof st then Ok ([], st)
      else
        c ← xml_peek st 0;
        if bool_decide (c = "-"%char) && negb hyphen
        then xml_read_comment_loop fuel' (xml_advance st) comment_ true
        else
          c ← xml_peek st 0;
          if bool_decide (c = "-"%char) && hyphen
          then
            st ← xml_match (xml_advance st) ">"%char;
            Ok (comment_, st)
          else
            c ← xml_peek st 0;
            xml_read_comment_loop fuel' (xml_advance st) (comment_ ++ [c]) false
  end.

Definition xml_read_comment (fuel : nat) (st : state)
  : result (cpp_string * state) :=
  st ← xml_match st "<"%char;
  st ← xml_match st "!"%char;
  st ← xml_match st "-"%char;
  st ← xml_match st "-"%char;
  xml_read_comment_loop fuel st [] false.

(** [a && b] of C++ where both operands may throw: [b] is evaluated only
    when [a] is true. *)
Definition and_then (a : result bool) (b : result bool) : result bool :=
  x ← a; if x : bool then b else Ok false.

Definition peek_is (st : state) (offset : Z) (c : ascii) : result bool :=
  d ← xml_peek st offset; Ok (bool_decide (d = c)).

Definition peek_is_not (st : state) (offset : Z) (c : ascii) : result bool :=
  d ← xml_peek st offset; Ok (negb (bool_decide (d = c))).

(** The [while] loop of [xml_read_header]. *)
Fixpoint xml_read_header_loop (fuel : nat) (st : state) : result state :=
  match fuel with
  | O => OutOfFuel
  | S fuel' =>
      if xml_eof st then Ok st
      else
        st ← xml_eat_space fuel' st;
        c ← xml_peek st 0;
        if xml_is_alpha c
        then
          '(_, st) ← xml_read_name fuel' st;
          st ← xml_eat_space fuel' st;
          st ← xml_match st "="%char;
          '(_, st) ← xml_parse_string fuel' st;
          xml_read_header_loop fuel' st
        else
          b ← and_then (peek_is st 0 "?"%char) (peek_is st 1 ">"%char);
          if b : bool
          then
            st ← xml_match st "?"%char;
            st ← xml_match st ">"%char;
            xml_eat_space fuel' st
          else xml_read_header_loop fuel' st
  end.

Definition xml_read_header (fuel : nat) (st : state) : result state :=
  st ← xml_match st "<"%char;
  st ← xml_match st "?"%char;
  st ← xml_match st "x"%char;
  st ← xml_match st "m"%char;
  st ← xml_match st "l"%char;
  xml_read_header_loop fuel st.

(** ** The tag parser *)

(** How the attribute loop of [xml_read_tag] is left: by [break] (or by its
    condition turning false), or by the [return] after a self-closing tag. *)
Inductive loop_exit : Type := ByBreak | ByReturn.

Fixpoint xml_read_tag_attributes (fuel : nat) (tag_name : cpp_string)
    (st : state) : result (loop_exit * state) :=
  match fuel with
  | O => OutOfFuel
  | S fuel' =>
      if xml_eof st then Ok (ByBreak, st)
      else
        st ← xml_eat_space fuel' st;
        c ← xml_peek st 0;
        if xml_is_alpha c
        then
          '(attrib_name, st) ← xml_read_name fuel' st;
          st ← xml_eat_space fuel' st;
          st ← xml_match st "="%char;
          '(attrib_value, st) ← xml_parse_string fuel' st;
          let st := set_user_data st
            (attribute callbacks (user_data st) attrib_name attrib_value) in
          xml_read_tag_attributes fuel' tag_name st
        else
          b ← peek_is st 0 ">"%char;
          if b : bool
          then
            st ← xml_match st ">"%char;
            Ok (ByBreak, st)
          else
            b ← and_then (peek_is st 0 "/"%char) (peek_is st 1 ">"%char);
            if b : bool
            then
              st ← xml_match st "/"%char;
              st ← xml_match st ">"%char;
              let st := set_user_data st
                (end_tag callbacks (user_data st) tag_name) in
              st ← xml_eat_space fuel' st;
              Ok (ByReturn, st)
            else xml_read_tag_attributes fuel' tag_name st
  end.

(** [xml_read_tag], and the second [while] loop of its body, which calls
    [xml_read_tag] for a child tag. *)
Fixpoint xml_read_tag (fuel : nat) (st : state) : result state :=
  match fuel with
  | O => OutOfFuel
  | S fuel' =>
      st ← xml_eat_space fuel' st;
      st ← xml_match st "<"%char;
      '(tag_name, st) ← xml_read_name fuel' st;
      let st := set_user_data st
        (begin_tag callbacks (user_data st) tag_name) in
      '(how, st) ← xml_read_tag_attributes fuel' tag_name st;
      match how with
      | ByReturn => Ok st
      | ByBreak => xml_read_tag_body fuel' tag_name st
      end
  end
with xml_read_tag_body (fuel : nat) (tag_name : cpp_string) (st : state)
  : result state :=
  match fuel with
  | O => OutOfFuel
  | S fuel' =>
      if xml_eof st then Ok st
      else
        st ← xml_eat_space fuel' st;
        b ← and_then (peek_is st 0 "<"%char) (peek_is st 1 "/"%char);
        if b : bool
        then
          '(close_name, st) ← xml_read_closing_tag fuel' st;
          if negb (string_eqb close_name tag_name)
          then Fatal (ClosingNameMismatch close_name tag_name (line_number st))
          else
            Ok (set_user_data st (end_tag callbacks (user_data st) tag_name))
        else
          b ← and_then (peek_is st 0 "<"%char) (peek_is st 1 "!"%char);
          if b : bool
          then
            '(comment_, st) ← xml_read_comment fuel' st;
            let st := set_user_data st
              (comment callbacks (user_data st) comment_) in
            xml_read_tag_body fuel' tag_name st
          else
            b ← and_then (peek_is st 0 "<"%char) (peek_is_not st 1 "/"%char);
            if b : bool
            then
              st ← xml_read_tag fuel' st;
              xml_read_tag_body fuel' tag_name st
            else
              '(tag_text_, st) ← xml_read_text fuel' st;
              let st := set_user_data st
                (tag_text callbacks (user_data st) tag_text_) in
              xml_read_tag_body fuel' tag_name st
  end.

(** ** The document driver *)

(** The [if]/[else if] chain inside the loop of [xml_read_document], entered
    when the current character is ['<'].  No branch is taken when the next
    character is neither ['?'], ['!'] nor a letter. *)
Definition xml_read_document_construct (fuel : nat) (first : bool)
    (st : state) : result state :=
  c1 ← xml_peek st 1;
  if bool_decide (c1 = "?"%char)
  then
    _ ← (if negb first then Fatal HeaderMidway else Ok ());
    xml_read_header fuel st
  else
    c1 ← xml_peek st 1;
    if bool_decide (c1 = "!"%char)
    then
      '(comment_, st) ← xml_read_comment fuel st;
      Ok (set_user_data st (comment callbacks (user_data st) comment_))
    else
      c1 ← xml_peek st 1;
      if xml_is_alpha c1
      then xml_read_tag fuel st
      else Ok st.

(** The [while] loop of [xml_read_document].  The local [first] is
    initialised to [true] and no statement of the function assigns it. *)
Fixpoint xml_read_document_loop (fuel : nat) (first : bool) (st : state)
  : result state :=
  match fuel with
  | O => OutOfFuel
  | S fuel' =>
      if xml_eof st then Ok st
      else
        b ← peek_is st 0 "<"%char;
        if b : bool
        then
          st ← xml_read_document_construct fuel' first st;
          st ← xml_eat_space fuel' st;
          xml_read_document_loop fuel' first st
        else Fatal ExpectedLt
  end.

Definition xml_read_document (fuel : nat) (st : state) : result state :=
  st ← xml_eat_space fuel st;
  let first := true in
  xml_read_document_loop fuel first st.

End Parser.

(** ** An event consumer that records the events it receives *)

Definition event_log : xml_callbacks (list event) := {|
  begin_tag := fun log name => log ++ [BeginTag name];
  end_tag := fun log name => log ++ [EndTag name];
  tag_text := fun log text => log ++ [Text text];
  comment := fun log c => log ++ [Comment c];
  attribute := fun log name value => log ++ [Attribute name value]
|}.

(** The events delivered while parsing [buf], when the parse returns. *)
Definition xml_events (fuel : nat) (buf : cpp_string)
  : result (list event) :=
  st ← xml_read_document event_log fuel (xml_state_init buf []);
  Ok (user_data st).


(** ** The example program [examples/xml_parse/main.cpp] *)

Module ParseExample.

(** The [int scope] that [main] hands to the parser as user data, and the
    text written to [stdout].  The [int] is an integer in [Z], as the
    [int] fields of the parser are: it changes by one per tag event. *)
Record printer : Type := {
  scope : Z;
  written : cpp_string
}.

(** [print_scope]: the loop [for( int i=0; i<scope; i++ ) printf("  ")]. *)
Definition print_scope (scope : Z) : cpp_string :=
  concat (replicate (Z.to_nat scope) (str "  ")).

Definition begin_tag (u : printer) (name : cpp_string) : printer :=
  {| scope := scope u + 1;
     written := written u ++ print_scope (scope u)
                ++ str "BEGIN TAG: " ++ c_str name ++ [LF] |}.

Definition end_tag (u : printer) (name : cpp_string) : printer :=
  {| scope := scope u - 1;
     written := written u ++ print_scope (scope u - 1)
                ++ str "END TAG: " ++ c_str name ++ [LF] |}.

Definition tag_text (u : printer) (text : cpp_string) : printer :=
  {| scope := scope u;
     written := written u ++ print_scope (scope u)
                ++ str "TEXT: " ++ c_str text ++ [LF] |}.

Definition comment (u : printer) (comment_ : cpp_string) : printer :=
  {| scope := scope u;
     written := written u ++ print_scope (scope u)
                ++ str "COMMENT: " ++ c_str comment_ ++ [LF] |}.

Definition attribute (u : printer) (name value : cpp_string) : printer :=
  {| scope := scope u;
     written := written u ++ print_scope (scope u)
                ++ str "ATTRIBUTE: " ++ c_str name ++ str "="
                ++ c_str value ++ [LF] |}.

(** [xml_callbacks callbacks = { &scope, begin_tag, end_tag, tag_text,
    comment, attribute }]. *)
Definition callbacks : xml_callbacks printer :=
  Build_xml_callbacks printer begin_tag end_tag tag_text comment attribute.

(** [main], from the buffer that was loaded: the state of the printer when
    [xml_read_document] returns. *)
Definition main (fuel : nat) (buffer : cpp_string) : result printer :=
  let scope := 0 in
  st ← xml_read_document callbacks fuel
         (xml_state_init buffer {| scope := scope; written := [] |});
  Ok (user_data st).

End ParseExample.


(** ** DOM entities *)

Inductive xml_dom_entity_type : Type :=
| XML_DOM_INVALID
| XML_DOM_DOCUMENT
| XML_DOM_TAG
| XML_DOM_ATTRIBUTE
| XML_DOM_COMMENT.

#[global] Instance xml_dom_entity_type_eq_dec : EqDecision xml_dom_entity_type.
Proof. solve_decision. Defined.

(** An entity pointer: [Some a] is the entity stored at address [a]. *)
Abbreviation entity_ptr := (option nat) (only parsing).
Abbreviation NULL := (@None nat) (only parsing).

Record xml_dom_entity : Type := {
  m_type : xml_dom_entity_type;
  m_parent : entity_ptr;
  m_child : list nat;
  m_index : Z;
  m_name : cpp_string;
  m_value : cpp_string
}.

(** The store of allocated entities; [new] allocates at the next address. *)
Abbreviation heap := (list xml_dom_entity).

Module Dom.

(** The default constructor. *)
Definition xml_dom_entity_new : xml_dom_entity :=
  {| m_type := XML_DOM_INVALID; m_parent := NULL; m_child := [];
     m_index := -1; m_name := []; m_value := [] |}.

(** [new xml_dom_entity()]. *)
Definition new_entity (h : heap) : nat * heap :=
  (length h, h ++ [xml_dom_entity_new]).

Definition deref (h : heap) (a : nat) : result xml_dom_entity :=
  match h !! a with
  | Some e => Ok e
  | None => Aborted
  end.

Definition assert (b : bool) : result unit :=
  if b then Ok () else Aborted.

Definition with_type (e : xml_dom_entity) (t : xml_dom_entity_type) :=
  {| m_type := t; m_parent := m_parent e; m_child := m_child e;
     m_index := m_index e; m_name := m_name e; m_value := m_value e |}.

Definition with_parent (e : xml_dom_entity) (p : entity_ptr) :=
  {| m_type := m_type e; m_parent := p; m_child := m_child e;
     m_index := m_index e; m_name := m_name e; m_value := m_value e |}.

Definition with_child (e : xml_dom_entity) (c : list nat) :=
  {| m_type := m_type e; m_parent := m_parent e; m_child := c;
     m_index := m_index e; m_name := m_name e; m_value := m_value e |}.

Definition with_index (e : xml_dom_entity) (i : Z) :=
  {| m_type := m_type e; m_parent := m_parent e; m_child := m_child e;
     m_index := i; m_name := m_name e; m_value := m_value e |}.

Definition with_name (e : xml_dom_entity) (n : cpp_string) :=
  {| m_type := m_type e; m_parent := m_parent e; m_child := m_child e;
     m_index := m_index e; m_name := n; m_value := m_value e |}.

Definition with_value (e : xml_dom_entity) (v : cpp_string) :=
  {| m_type := m_type e; m_parent := m_parent e; m_child := m_child e;
     m_index := m_index e; m_name := m_name e; m_value := v |}.

Definition valid (e : xml_dom_entity) : bool :=
  negb (bool_decide (m_type e = XML_DOM_INVALID)).

(** *** Accessors *)

Definition get_type (h : heap) (this : nat) : result xml_dom_entity_type :=
  e ← deref h this; Ok (m_type e).

Definition set_type (h : heap) (this : nat) (t : xml_dom_entity_type)
  : result heap :=
  e ← deref h this; Ok (<[this := with_type e t]> h).

Definition get_parent (h : heap) (this : nat) : result entity_ptr :=
  e ← deref h this; _ ← assert (valid e); Ok (m_parent e).

Definition set_parent (h : heap) (this : nat) (p : entity_ptr) : result heap :=
  e ← deref h this;
  _ ← assert (valid e);
  Ok (<[this := with_parent e p]> h).

Definition num_children (h : heap) (this : nat) : result Z :=
  e ← deref h this;
  _ ← assert (valid e);
  Ok (Z.of_nat (length (m_child e))).

Definition get_child (h : heap) (this : nat) (index : Z) : result nat :=
  e ← deref h this;
  _ ← assert (valid e);
  n ← num_children h this;
  _ ← assert ((0 <=? index) && (index <? n));
  match m_child e !! Z.to_nat index with
  | Some c => Ok c
  | None => Aborted
  end.

Definition get_name (h : heap) (this : nat) : result cpp_string :=
  e ← deref h this; _ ← assert (valid e); Ok (m_name e).

Definition set_name (h : heap) (this : nat) (name : cpp_string) : result heap :=
  e ← deref h this;
  _ ← assert (valid e);
  Ok (<[this := with_name e name]> h).

Definition get_value (h : heap) (this : nat) : result cpp_string :=
  e ← deref h this; _ ← assert (valid e); Ok (m_value e).

Definition set_value (h : heap) (this : nat) (value : cpp_string)
  : result heap :=
  e ← deref h this;
  _ ← assert (valid e);
  Ok (<[this := with_value e value]> h).

(** *** Mutation *)

(** [child->m_parent = this; child->m_index = num_children();
    m_child.push_back( child )], in this order on the store. *)
Definition add_child (h : heap) (this child : nat) : result heap :=
  e ← deref h this;
  _ ← assert (valid e);
  c ← deref h child;
  let h := <[child := with_parent c (Some this)]> h in
  n ← num_children h this;
  c ← deref h child;
  let h := <[child := with_index c n]> h in
  e ← deref h this;
  Ok (<[this := with_child e (m_child e ++ [child])]> h).

Definition is_tag_or_document (e : xml_dom_entity) : bool :=
  bool_decide (m_type e = XML_DOM_TAG)
  || bool_decide (m_type e = XML_DOM_DOCUMENT).

Definition add_tag (h : heap) (this : nat) (name : cpp_string)
  : result (nat * heap) :=
  e ← deref h this;
  _ ← assert (is_tag_or_document e);
  let '(tag, h) := new_entity h in
  h ← set_type h tag XML_DOM_TAG;
  h ← set_name h tag name;
  h ← add_child h this tag;
  Ok (tag, h).

Definition add_attribute (h : heap) (this : nat) (name value : cpp_string)
  : result (nat * heap) :=
  e ← deref h this;
  _ ← assert (is_tag_or_document e);
  let '(attr, h) := new_entity h in
  h ← set_type h attr XML_DOM_ATTRIBUTE;
  h ← set_name h attr name;
  h ← set_value h attr value;
  h ← add_child h this attr;
  Ok (attr, h).

Definition add_comment (h : heap) (this : nat) (comment_ : cpp_string)
  : result (nat * heap) :=
  e ← deref h this;
  _ ← assert (is_tag_or_document e);
  let '(comm, h) := new_entity h in
  h ← set_type h comm XML_DOM_COMMENT;
  h ← set_value h comm comment_;
  h ← add_child h this comm;
  Ok (comm, h).

(** *** Navigation *)

Definition first_child (h : heap) (this : nat) : result entity_ptr :=
  n ← num_children h this;
  if 0 <? n then c ← get_child h this 0; Ok (Some c) else Ok NULL.

Definition next_child (h : heap) (this child : nat) : result entity_ptr :=
  c ← deref h child;
  _ ← assert (bool_decide (m_parent c = Some this));
  n ← num_children h this;
  if (0 <=? m_index c) && (m_index c <? n - 1)
  then r ← get_child h this (m_index c + 1); Ok (Some r)
  else Ok NULL.

Definition previous_child (h : heap) (this child : nat) : result entity_ptr :=
  c ← deref h child;
  _ ← assert (bool_decide (m_parent c = Some this));
  n ← num_children h this;
  if (0 <=? m_index c) && (m_index c <? n - 1)
  then r ← get_child h this (m_index c - 1); Ok (Some r)
  else Ok NULL.

(** The loop [while( child ){ if( child->m_type == type ) return child;
    child = next_child( child ); } return NULL;]. *)
Fixpoint next_of_type (fuel : nat) (h : heap) (this : nat) (child : entity_ptr)
    (type : xml_dom_entity_type) : result entity_ptr :=
  match fuel with
  | O => OutOfFuel
  | S fuel' =>
      match child with
      | None => Ok NULL
      | Some c =>
          e ← deref h c;
          if bool_decide (m_type e = type) then Ok (Some c)
          else
            child ← next_child h this c;
            next_of_type fuel' h this child type
      end
  end.

(** [first_child( type )]. *)
Definition first_child_type (fuel : nat) (h : heap) (this : nat)
    (type : xml_dom_entity_type) : result entity_ptr :=
  n ← num_children h this;
  if 0 <? n
  then child ← first_child h this; next_of_type fuel h this child type
  else Ok NULL.

Definition first_child_tag fuel h this :=
  first_child_type fuel h this XML_DOM_TAG.
Definition first_child_attribute fuel h this :=
  first_child_type fuel h this XML_DOM_ATTRIBUTE.
Definition first_child_comment fuel h this :=
  first_child_type fuel h this XML_DOM_COMMENT.

(** [next_child( child, type )]. *)
Definition next_child_type (fuel : nat) (h : heap) (this child : nat)
    (type : xml_dom_entity_type) : result entity_ptr :=
  c ← deref h child;
  _ ← assert (bool_decide (m_parent c = Some this));
  child ← next_child h this child;
  next_of_type fuel h this child type.

Definition next_sibling (h : heap) (this : nat) : result entity_ptr :=
  e ← deref h this;
  match m_parent e with
  | None => Ok NULL
  | Some p => next_child h p this
  end.

Definition previous_sibling (h : heap) (this : nat) : result entity_ptr :=
  e ← deref h this;
  match m_parent e with
  | None => Ok NULL
  | Some p => previous_child h p this
  end.

(** [next_sibling( type )]. *)
Definition next_sibling_type (fuel : nat) (h : heap) (this : nat)
    (type : xml_dom_entity_type) : result entity_ptr :=
  e ← deref h this;
  match m_parent e with
  | None => Ok NULL
  | Some p => next_child_type fuel h p this type
  end.

Definition next_sibling_attribute fuel h this :=
  next_sibling_type fuel h this XML_DOM_ATTRIBUTE.

Definition next_sibling_tag fuel h this :=
  next_sibling_type fuel h this XML_DOM_TAG.
Definition next_sibling_comment fuel h this :=
  next_sibling_type fuel h this XML_DOM_COMMENT.

Definition next_child_tag fuel h this child :=
  next_child_type fuel h this child XML_DOM_TAG.
Definition next_child_attribute fuel h this child :=
  next_child_type fuel h this child XML_DOM_ATTRIBUTE.
Definition next_child_comment fuel h this child :=
  next_child_type fuel h this child XML_DOM_COMMENT.

(** *** Navigation by type and name *)

(** [child->m_type == type && child->m_name.compare(name) == 0]. *)
Definition type_name_match (e : xml_dom_entity) (type : xml_dom_entity_type)
    (name : cpp_string) : bool :=
  bool_decide (m_type e = type) && string_eqb (m_name e) name.

(** The loop [while( child ){ if( child->m_type == type &&
    child->m_name.compare(name) == 0 ) return child;
    child = next_child( child ); } return NULL;]. *)
Fixpoint next_of_type_name (fuel : nat) (h : heap) (this : nat)
    (child : entity_ptr) (type : xml_dom_entity_type) (name : cpp_string)
  : result entity_ptr :=
  match fuel with
  | O => OutOfFuel
  | S fuel' =>
      match child with
      | None => Ok NULL
      | Some c =>
          e ← deref h c;
          if type_name_match e type name then Ok (Some c)
          else
            child ← next_child h this c;
            next_of_type_name fuel' h this child type name
      end
  end.

(** [first_child( type, name )]. *)
Definition first_child_type_name (fuel : nat) (h : heap) (this : nat)
    (type : xml_dom_entity_type) (name : cpp_string) : result entity_ptr :=
  n ← num_children h this;
  if 0 <? n
  then
    child ← first_child h this;
    next_of_type_name fuel h this child type name
  else Ok NULL.

Definition first_child_tag_name fuel h this name :=
  first_child_type_name fuel h this XML_DOM_TAG name.
Definition first_child_attribute_name fuel h this name :=
  first_child_type_name fuel h this XML_DOM_ATTRIBUTE name.
Definition first_child_comment_name fuel h this name :=
  first_child_type_name fuel h this XML_DOM_COMMENT name.

(** [next_child( child, type, name )]. *)
Definition next_child_type_name (fuel : nat) (h : heap) (this child : nat)
    (type : xml_dom_entity_type) (name : cpp_string) : result entity_ptr :=
  c ← deref h child;
  _ ← assert (bool_decide (m_parent c = Some this));
  child ← next_child h this child;
  next_of_type_name fuel h this child type name.

Definition next_child_tag_name fuel h this child name :=
  next_child_type_name fuel h this child XML_DOM_TAG name.
Definition next_child_attribute_name fuel h this child name :=
  next_child_type_name fuel h this child XML_DOM_ATTRIBUTE name.

(** [next_sibling( type, name )]. *)
Definition next_sibling_type_name (fuel : nat) (h : heap) (this : nat)
    (type : xml_dom_entity_type) (name : cpp_string) : result entity_ptr :=
  e ← deref h this;
  match m_parent e with
  | None => Ok NULL
  | Some p => next_child_type_name fuel h p this type name
  end.

Definition next_sibling_tag_name fuel h this name :=
  next_sibling_type_name fuel h this XML_DOM_TAG name.
Definition next_sibling_attribute_name fuel h this name :=
  next_sibling_type_name fuel h this XML_DOM_ATTRIBUTE name.

(** *** Navigation towards the first child *)

(** The loop [while( child ){ if( child->m_type == type ) return child;
    child = previous_child( child ); } return NULL;]. *)
Fixpoint previous_of_type (fuel : nat) (h : heap) (this : nat)
    (child : entity_ptr) (type : xml_dom_entity_type) : result entity_ptr :=
  match fuel with
  | O => OutOfFuel
  | S fuel' =>
      match child with
      | None => Ok NULL
      | Some c =>
          e ← deref h c;
          if bool_decide (m_type e = type) then Ok (Some c)
          else
            child ← previous_child h this c;
            previous_of_type fuel' h this child type
      end
  end.

(** [previous_child( child, type )]. *)
Definition previous_child_type (fuel : nat) (h : heap) (this child : nat)
    (type : xml_dom_entity_type) : result entity_ptr :=
  c ← deref h child;
  _ ← assert (bool_decide (m_parent c = Some this));
  child ← previous_child h this child;
  previous_of_type fuel h this child type.

Fixpoint previous_of_type_name (fuel : nat) (h : heap) (this : nat)
    (child : entity_ptr) (type : xml_dom_entity_type) (name : cpp_string)
  : result entity_ptr :=
  match fuel with
  | O => OutOfFuel
  | S fuel' =>
      match child with
      | None => Ok NULL
      | Some c =>
          e ← deref h c;
          if type_name_match e type name then Ok (Some c)
          else
            child ← previous_child h this c;
            previous_of_type_name fuel' h this child type name
      end
  end.

(** [previous_child( child, type, name )]. *)
Definition previous_child_type_name (fuel : nat) (h : heap) (this child : nat)
    (type : xml_dom_entity_type) (name : cpp_string) : result entity_ptr :=
  c ← deref h child;
  _ ← assert (bool_decide (m_parent c = Some this));
  child ← previous_child h this child;
  previous_of_type_name fuel h this child type name.

Definition previous_child_tag fuel h this child :=
  previous_child_type fuel h this child XML_DOM_TAG.
Definition previous_child_tag_name fuel h this child name :=
  previous_child_type_name fuel h this child XML_DOM_TAG name.
Definition previous_child_attribute fuel h this child :=
  previous_child_type fuel h this child XML_DOM_ATTRIBUTE.
Definition previous_child_attribute_name fuel h this child name :=
  previous_child_type_name fuel h this child XML_DOM_ATTRIBUTE name.
Definition previous_child_comment fuel h this child :=
  previous_child_type fuel h this child XML_DOM_COMMENT.

(** [previous_sibling( type )] and [previous_sibling( type, name )]. *)
Definition previous_sibling_type (fuel : nat) (h : heap) (this : nat)
    (type : xml_dom_entity_type) : result entity_ptr :=
  e ← deref h this;
  match m_parent e with
  | None => Ok NULL
  | Some p => previous_child_type fuel h p this type
  end.

Definition previous_sibling_type_name (fuel : nat) (h : heap) (this : nat)
    (type : xml_dom_entity_type) (name : cpp_string) : result entity_ptr :=
  e ← deref h this;
  match m_parent e with
  | None => Ok NULL
  | Some p => previous_child_type_name fuel h p this type name
  end.

Definition previous_sibling_tag fuel h this :=
  previous_sibling_type fuel h this XML_DOM_TAG.
Definition previous_sibling_tag_name fuel h this name :=
  previous_sibling_type_name fuel h this XML_DOM_TAG name.
Definition previous_sibling_attribute fuel h this :=
  previous_sibling_type fuel h this XML_DOM_ATTRIBUTE.
Definition previous_sibling_attribute_name fuel h this name :=
  previous_sibling_type_name fuel h this XML_DOM_ATTRIBUTE name.
Definition previous_sibling_comment fuel h this :=
  previous_sibling_type fuel h this XML_DOM_COMMENT.

(** *** Serialization

    [operator<<( std::ostream&, xml_dom_entity& )].  The header declares it
    as a friend of the class and [examples/xml_dom/main.cpp] calls it; its
    body stands in [xml_dom.h] inside a block comment, and is the text
    embedded here.  The result is the text written to the stream. *)

(** The loop over the attributes of a tag. *)
Fixpoint stream_attributes (fuel : nat) (h : heap) (attr : entity_ptr)
  : result cpp_string :=
  match fuel with
  | O => OutOfFuel
  | S fuel' =>
      match attr with
      | None => Ok []
      | Some a =>
          name ← get_name h a;
          value ← get_value h a;
          attr ← next_sibling_attribute fuel' h a;
          rest ← stream_attributes fuel' h attr;
          Ok (str " " ++ name ++ str "=" ++ [DQUOTE] ++ value ++ [DQUOTE]
              ++ rest)
      end
  end.

(** [item.first_child_tag() == NULL && item.get_value().size() == 0]. *)
Definition has_no_content (fuel : nat) (h : heap) (item : nat) : result bool :=
  t ← first_child_tag fuel h item;
  match t with
  | Some _ => Ok false
  | None => v ← get_value h item; Ok (bool_decide (length v = 0%nat))
  end.

(** [item.first_child_tag() != NULL || item.get_value().size() > 0]. *)
Definition has_content (fuel : nat) (h : heap) (item : nat) : result bool :=
  t ← first_child_tag fuel h item;
  match t with
  | Some _ => Ok true
  | None => v ← get_value h item; Ok (negb (bool_decide (length v = 0%nat)))
  end.

Fixpoint operator_out (fuel : nat) (h : heap) (item : nat)
  : result cpp_string :=
  match fuel with
  | O => OutOfFuel
  | S fuel' =>
      t ← get_type h item;
      if bool_decide (t = XML_DOM_ATTRIBUTE) then Fatal CannotStreamAttribute
      else
        t ← get_type h item;
        opening ←
          match t with
          | XML_DOM_TAG =>
              name ← get_name h item;
              attr ← first_child_attribute fuel' h item;
              attrs ← stream_attributes fuel' h attr;
              b ← has_no_content fuel' h item;
              if b : bool
              then Ok (str "<" ++ name ++ attrs ++ str " />" ++ endl)
              else
                v ← get_value h item;
                Ok (str "<" ++ name ++ attrs ++ str ">" ++ v ++ endl)
          | XML_DOM_COMMENT =>
              v ← get_value h item;
              Ok (str "<!-- " ++ v ++ str "-->" ++ endl)
          | XML_DOM_DOCUMENT =>
              Ok (str "<?xml version=" ++ [DQUOTE] ++ str "1.0" ++ [DQUOTE]
                  ++ str "?>" ++ endl)
          | XML_DOM_ATTRIBUTE | XML_DOM_INVALID => Ok []
          end;
        child ← first_child h item;
        children ← stream_children fuel' h child;
        t ← get_type h item;
        b ← (if bool_decide (t = XML_DOM_TAG)
             then has_content fuel' h item else Ok false);
        if b : bool
        then
          name ← get_name h item;
          Ok (opening ++ children ++ str "</" ++ name ++ str ">" ++ endl)
        else Ok (opening ++ children)
  end
with stream_children (fuel : nat) (h : heap) (child : entity_ptr)
  : result cpp_string :=
  match fuel with
  | O => OutOfFuel
  | S fuel' =>
      match child with
      | None => Ok []
      | Some c =>
          t ← get_type h c;
          out ← (if negb (bool_decide (t = XML_DOM_ATTRIBUTE))
                 then operator_out fuel' h c else Ok []);
          child ← next_sibling h c;
          rest ← stream_children fuel' h child;
          Ok (out ++ rest)
      end
  end.

(** *** The debugging method [print]

    The result is the text written to [stdout]. *)

(** The loop [for( int i=0; i<scope; i++ ) printf("  ")]. *)
Definition print_scope (scope : Z) : cpp_string :=
  concat (replicate (Z.to_nat scope) (str "  ")).

Fixpoint print (fuel : nat) (h : heap) (this : nat) (scope : Z)
  : result cpp_string :=
  match fuel with
  | O => OutOfFuel
  | S fuel' =>
      e ← deref h this;
      line ←
        match m_type e with
        | XML_DOM_INVALID => Ok []
        | XML_DOM_DOCUMENT => Ok (str "DOCUMENT" ++ [LF])
        | XML_DOM_TAG =>
            name ← get_name h this;
            Ok (str "TAG: " ++ c_str name ++ [LF])
        | XML_DOM_COMMENT =>
            value ← get_value h this;
            Ok (str "COMMENT: " ++ c_str value ++ [LF])
        | XML_DOM_ATTRIBUTE =>
            name ← get_name h this;
            value ← get_value h this;
            Ok (str "ATTRIBUTE: " ++ c_str name ++ str "=" ++ c_str value
                ++ [LF])
        end;
      child ← first_child h this;
      rest ← print_children fuel' h child (scope + 1);
      Ok (print_scope scope ++ line ++ rest)
  end
with print_children (fuel : nat) (h : heap) (child : entity_ptr) (scope : Z)
  : result cpp_string :=
  match fuel with
  | O => OutOfFuel
  | S fuel' =>
      match child with
      | None => Ok []
      | Some c =>
          out ← print fuel' h c scope;
          child ← next_sibling h c;
          rest ← print_children fuel' h child scope;
          Ok (out ++ rest)
      end
  end.

(** *** The DOM builder *)

(** The object behind [user_data]: the store and the
    [std::list<xml_dom_entity*>] stack, whose back is the end of the list.
    It is a [result]: [back()] and [pop_back()] on an empty stack are
    undefined, and nothing is known of the builder after that. *)
Definition builder : Type := result (heap * list nat).

Definition back (stack : list nat) : result nat :=
  match last stack with
  | Some a => Ok a
  | None => Aborted
  end.

Definition pop_back (stack : list nat) : result (list nat) :=
  match stack with
  | [] => Aborted
  | _ => Ok (removelast stack)
  end.

Definition front (stack : list nat) : result nat :=
  match stack with
  | a :: _ => Ok a
  | [] => Aborted
  end.

Definition xml_dom_begin_tag_cb (u : builder) (name : cpp_string) : builder :=
  '(h, stack) ← u;
  let '(tag, h) := new_entity h in
  h ← set_type h tag XML_DOM_TAG;
  h ← set_name h tag name;
  top ← back stack;
  h ← add_child h top tag;
  Ok (h, stack ++ [tag]).

Definition xml_dom_end_tag_cb (u : builder) (name : cpp_string) : builder :=
  '(h, stack) ← u;
  stack ← pop_back stack;
  Ok (h, stack).

Definition xml_dom_tag_text_cb (u : builder) (text : cpp_string) : builder :=
  '(h, stack) ← u;
  top ← back stack;
  h ← set_value h top text;
  Ok (h, stack).

Definition xml_dom_comment_cb (u : builder) (comment_ : cpp_string)
  : builder :=
  '(h, stack) ← u;
  let '(text, h) := new_entity h in
  h ← set_type h text XML_DOM_COMMENT;
  h ← set_value h text comment_;
  top ← back stack;
  h ← add_child h top text;
  Ok (h, stack).

Definition xml_dom_attribute_cb (u : builder) (name value : cpp_string)
  : builder :=
  '(h, stack) ← u;
  let '(attrib, h) := new_entity h in
  h ← set_type h attrib XML_DOM_ATTRIBUTE;
  h ← set_name h attrib name;
  h ← set_value h attrib value;
  top ← back stack;
  h ← add_child h top attrib;
  Ok (h, stack).

Definition xml_dom_callbacks : xml_callbacks builder := {|
  begin_tag := xml_dom_begin_tag_cb;
  end_tag := xml_dom_end_tag_cb;
  tag_text := xml_dom_tag_text_cb;
  comment := xml_dom_comment_cb;
  attribute := xml_dom_attribute_cb
|}.

(** The state of the builder when [xml_read_document] returns. *)
Definition xml_dom_build (fuel : nat) (h : heap) (buf : cpp_string)
  : result (heap * list nat) :=
  let stack := [] in
  let '(doc, h) := new_entity h in
  h ← set_type h doc XML_DOM_DOCUMENT;
  let stack := stack ++ [doc] in
  st ← xml_read_document xml_dom_callbacks fuel
         (xml_state_init buf (Ok (h, stack)));
  user_data st.

(** [xml_dom_parse]: the document entity and the store that holds it. *)
Definition xml_dom_parse (fuel : nat) (h : heap) (buf : cpp_string)
  : result (nat * heap) :=
  '(h, stack) ← xml_dom_build fuel h buf;
  doc ← front stack;
  Ok (doc, h).

End Dom.

(** ** Comparing trees *)

(** The part of an entity that the comparison of two trees looks at: its
    type, name, value and, in order, its children. *)
#[local] Unset Elimination Schemes.
Inductive dom_tree : Type :=
| DomNode (type : xml_dom_entity_type) (name value : cpp_string)
    (children : list dom_tree).

#[local] Set Elimination Schemes.

(** The tree below the entity at [a], where the store holds one. *)
Fixpoint snapshot (fuel : nat) (h : heap) (a : nat) : option dom_tree :=
  match fuel with
  | O => None
  | S fuel' =>
      e ← h !! a;
      children ← mapM (snapshot fuel' h) (m_child e);
      Some (DomNode (m_type e) (m_name e) (m_value e) children)
  end.

(** ** Nesting of tag events *)

(** The names of the tags that are open after the events [evs], innermost
    first, when [stack] were open before; [None] when an [EndTag] arrives
    that does not close the innermost open tag. *)
Fixpoint open_tags (stack : list cpp_string) (evs : list event)
  : option (list cpp_string) :=
  match evs with
  | [] => Some stack
  | BeginTag name :: evs => open_tags (name :: stack) evs
  | EndTag name :: evs =>
      match stack with
      | top :: stack =>
          if string_eqb top name then open_tags stack evs else None
      | [] => None
      end
  | _ :: evs => open_tags stack evs
  end.

(** Every [EndTag] closes the innermost open tag and no tag stays open. *)
Definition balanced (evs : list event) : bool :=
  bool_decide (open_tags [] evs = Some []).

(** * Vocabulary of the statements *)

(** ** Fuel *)

(** [refines r r']: [r'] is [r], unless [r] ran out of fuel. *)
Definition refines {A} (r r' : result A) : Prop :=
  r = OutOfFuel \/ r = r'.

(** What a run ensures when it returns. *)
Definition ensures {A} (Q : A -> Prop) (r : result A) : Prop :=
  forall a, r = Ok a -> Q a.

(** ** The cursor seen through the text that remains *)

(** The characters from the current position to the end of the buffer. *)
Definition remaining {U} (st : xml_state U) : cpp_string :=
  drop (Z.to_nat (pos st)) (buffer st).

(** [at_ st rest u]: the cursor is inside the buffer, [rest] is the text
    that remains and [u] the user data. *)
Definition at_ {U} (st : xml_state U) (rest : cpp_string) (u : U) : Prop :=
  0 <= pos st <= size st /\ remaining st = rest /\ user_data st = u.

(** The next character, if there is one, is not in the class [P]. *)
Definition ahead (P : ascii -> bool) (rest : cpp_string) : Prop :=
  match rest with
  | [] => True
  | c :: _ => P c = false
  end.

(** The state after the run has the user data of [st]. *)
Definition keeps {U} (st : xml_state U) : xml_state U -> Prop :=
  fun st' => user_data st' = user_data st.

Definition keeps2 {U A} (st : xml_state U) : A * xml_state U -> Prop :=
  fun p => user_data p.2 = user_data st.

(** A name as [xml_read_name] accepts it: a letter, then name characters. *)
Definition valid_name (name : cpp_string) : bool :=
  match name with
  | [] => false
  | c :: name' => xml_is_alpha c && forallb xml_is_valid_name_char name'
  end.

(** ** Events delivered to a consumer *)

(** Delivering an event to a consumer, and a list of them in order. *)
Definition deliver {U} (cb : xml_callbacks U) (u : U) (ev : event) : U :=
  match ev with
  | BeginTag name => begin_tag cb u name
  | EndTag name => end_tag cb u name
  | Text text => tag_text cb u text
  | Comment c => comment cb u c
  | Attribute name value => attribute cb u name value
  end.

Definition replay {U} (cb : xml_callbacks U) (evs : list event) (u : U) : U :=
  fold_left (deliver cb) evs u.

Fixpoint count_begin (evs : list event) : nat :=
  match evs with
  | [] => 0
  | BeginTag _ :: evs => S (count_begin evs)
  | _ :: evs => count_begin evs
  end.

Fixpoint count_end (evs : list event) : nat :=
  match evs with
  | [] => 0
  | EndTag _ :: evs => S (count_end evs)
  | _ :: evs => count_end evs
  end.

(** The events [evs] close the tags [pre] that were open, innermost
    first, and every tag they open. *)
Definition closes (pre : list cpp_string) (evs : list event) : Prop :=
  forall s, open_tags (pre ++ s) evs = Some s.

(** The events [evs] close no tag that they did not open, or [pre]. *)
Definition nests (pre : list cpp_string) (evs : list event) : Prop :=
  forall s, exists s', open_tags (pre ++ s) evs = Some (s' ++ s).

(** The run delivered events that close [pre], or it stopped at the end of
    the input with events that nest. *)
Definition nested_run (pre : list cpp_string)
    (st st' : xml_state (list event)) : Prop :=
  exists evs,
    user_data st' = user_data st ++ evs /\
    (closes pre evs \/ (xml_eof st' = true /\ nests pre evs)).

(** ** Documents made of tags only *)

(** A sequence of tags: the first tag has a name and its own sequence of
    child tags, and is followed by the rest of the sequence. *)
Inductive forest : Type :=
| Fnil
| Fcons (name : cpp_string) (kids rest : forest).

Fixpoint names_valid (f : forest) : bool :=
  match f with
  | Fnil => true
  | Fcons name kids rest =>
      valid_name name && names_valid kids && names_valid rest
  end.

(** The text of the tags of [f], one after the other, each followed by a
    line feed: [<name />] for a tag without children, otherwise [<name>], a
    line feed, the children and [</name>]. *)
Fixpoint text_of_forest (f : forest) : cpp_string :=
  match f with
  | Fnil => []
  | Fcons name kids rest =>
      match kids with
      | Fnil => str "<" ++ name ++ str " />"
      | Fcons _ _ _ =>
          str "<" ++ name ++ str ">" ++ endl
          ++ text_of_forest kids ++ str "</" ++ name ++ str ">"
      end ++ endl ++ text_of_forest rest
  end.

Definition text_of_tag (name : cpp_string) (kids : forest) : cpp_string :=
  match kids with
  | Fnil => str "<" ++ name ++ str " />"
  | Fcons _ _ _ =>
      str "<" ++ name ++ str ">" ++ endl
      ++ text_of_forest kids ++ str "</" ++ name ++ str ">"
  end.

(** The events of the tags of [f] in document order. *)
Fixpoint events_of_forest (f : forest) : list event :=
  match f with
  | Fnil => []
  | Fcons name kids rest =>
      BeginTag name :: events_of_forest kids
      ++ EndTag name :: events_of_forest rest
  end.

(** The header that serialization writes. *)
Definition header_text : cpp_string :=
  str "<?xml version=" ++ [DQUOTE] ++ str "1.0" ++ [DQUOTE] ++ str "?>".

(** What the body loop of [xml_read_tag] does on the children [f] followed
    by a closing tag named [close]: it delivers the events of the children,
    then compares [close] with the name of the tag. *)
Definition body_spec {U} (cb : xml_callbacks U) (f : forest) : Prop :=
  forall fuel name close (st : xml_state U) ws tl u,
    at_ st (ws ++ text_of_forest f ++ str "</" ++ close ++ str ">" ++ tl) u ->
    Forall (fun c => xml_is_space c = true) ws ->
    valid_name close = true -> names_valid f = true ->
    (length ws + length (text_of_forest f) + length close + 4 < fuel)%nat ->
    exists st',
      at_ st' tl (replay cb (events_of_forest f) u) /\
      xml_read_tag_body cb fuel name st =
        if string_eqb close name
        then Ok (set_user_data st'
                   (end_tag cb (replay cb (events_of_forest f) u) name))
        else Fatal (ClosingNameMismatch close name (line_number st')).

(** ** Concrete documents and stores *)

(** The text [<a x="1" y="2">hi</a>]. *)
Definition doc_attributes : cpp_string :=
  str "<a x=" ++ [DQUOTE] ++ str "1" ++ [DQUOTE] ++ str " y=" ++ [DQUOTE]
  ++ str "2" ++ [DQUOTE] ++ str ">hi</a>".

(** A document and a tag that is not yet attached to it. *)
Definition detached_tag_store : heap :=
  [Dom.with_type Dom.xml_dom_entity_new XML_DOM_DOCUMENT;
   Dom.with_name (Dom.with_type Dom.xml_dom_entity_new XML_DOM_TAG) (str "a")].

(** A document with the two tags [a] and [b] as children, built with
    [add_tag]. *)
Definition two_children : result heap :=
  let '(doc, h) := Dom.new_entity [] in
  h ← Dom.set_type h doc XML_DOM_DOCUMENT;
  '(_, h) ← Dom.add_tag h doc (str "a");
  '(_, h) ← Dom.add_tag h doc (str "b");
  Ok h.

(** ** Links between an entity and its parent *)

(** The entity stores its position: when it has a parent, the parent is in
    the store and the child sequence of the parent holds the entity at the
    entity's own [m_index]. *)
Definition index_holds (h : heap) (a : nat) (e : xml_dom_entity) : bool :=
  match m_parent e with
  | None => true
  | Some p =>
      match h !! p with
      | None => false
      | Some ep =>
          (0 <=? m_index e)
          && bool_decide (m_child ep !! Z.to_nat (m_index e) = Some a)
      end
  end.

(** The index invariant of a store. *)
Definition index_inv (h : heap) : Prop :=
  forall a e, h !! a = Some e -> index_holds h a e = true.

(** The invariant as a test, for concrete stores. *)
Definition index_invb (h : heap) : bool :=
  forallb (fun '(a, e) => index_holds h a e) (imap pair h).

(** Every entry of a child sequence is an entity that records the owner of
    the sequence as its parent and the position of the entry as its
    index. *)
Definition children_inv (h : heap) : Prop :=
  forall p ep i c,
    h !! p = Some ep -> m_child ep !! i = Some c ->
    exists ec, h !! c = Some ec /\ m_parent ec = Some p /\
      m_index ec = Z.of_nat i.

(** [child] is in no child sequence. *)
Definition detached (h : heap) (child : nat) : Prop :=
  forall p ep, h !! p = Some ep -> child ∉ m_child ep.

(** [p] is a valid entity whose child sequence holds [c] at position [i],
    and [c] records [p] and [i]. *)
Definition child_at (h : heap) (p : nat) (i : nat) (c : nat) : Prop :=
  exists ep ec,
    h !! p = Some ep /\ Dom.valid ep = true /\ m_child ep !! i = Some c /\
    h !! c = Some ec /\ m_parent ec = Some p /\ m_index ec = Z.of_nat i.

(** ** Building a tree, writing it and reading it back *)

(** The calls that build a tree: [add_tag], [add_attribute], [add_comment]
    and [set_value], each on the entity at address [this]. *)
Inductive build_step : Type :=
| AddTag (this : nat) (name : cpp_string)
| AddAttribute (this : nat) (name value : cpp_string)
| AddComment (this : nat) (comment_ : cpp_string)
| SetValue (this : nat) (value : cpp_string).

Definition run_step (h : heap) (s : build_step) : result heap :=
  match s with
  | AddTag this name => '(_, h) ← Dom.add_tag h this name; Ok h
  | AddAttribute this name value =>
      '(_, h) ← Dom.add_attribute h this name value; Ok h
  | AddComment this c => '(_, h) ← Dom.add_comment h this c; Ok h
  | SetValue this value => Dom.set_value h this value
  end.

Fixpoint run_steps (h : heap) (steps : list build_step) : result heap :=
  match steps with
  | [] => Ok h
  | s :: steps => h ← run_step h s; run_steps h steps
  end.

(** A new document entity, at address 0 of an empty store, and the calls
    [steps] after it. *)
Definition build_tree (steps : list build_step) : result heap :=
  let '(doc, h) := Dom.new_entity [] in
  h ← Dom.set_type h doc XML_DOM_DOCUMENT;
  run_steps h steps.

(** Write the tree below [root] to a stream and parse the text written. *)
Definition round_trip (fuel : nat) (h : heap) (root : nat)
  : result (nat * heap) :=
  text ← Dom.operator_out fuel h root;
  Dom.xml_dom_parse fuel h text.

(** The calls are all [add_tag] with a name that [xml_read_name] accepts. *)
Definition tags_only (steps : list build_step) : Prop :=
  Forall (fun s => match s with
                   | AddTag _ name => valid_name name = true
                   | _ => False
                   end) steps.

(** *** Stores that hold a sequence of tags *)

(** [repr h lo f cs p i]: the addresses [cs] hold the tags of [f], in
    order, as the children of [p] from position [i] on; every tag has an
    empty value, and no address of the tags is below [lo]. *)
Fixpoint repr (h : heap) (lo : nat) (f : forest) (cs : list nat) (p i : nat)
  : Prop :=
  match f, cs with
  | Fnil, [] => True
  | Fcons name kids rest, c :: cs' =>
      (exists e,
         h !! c = Some e /\ (lo <= c)%nat /\
         m_type e = XML_DOM_TAG /\ m_name e = name /\ m_value e = [] /\
         m_parent e = Some p /\ m_index e = Z.of_nat i /\
         repr h lo kids (m_child e) c 0) /\
      repr h lo rest cs' p (S i)
  | _, _ => False
  end.

(** The document entity at [root] has the tags of [f] as children. *)
Definition doc_repr (h : heap) (lo : nat) (root : nat) (f : forest) : Prop :=
  exists e,
    h !! root = Some e /\ m_type e = XML_DOM_DOCUMENT /\ m_name e = [] /\
    m_value e = [] /\ repr h lo f (m_child e) root 0.

(** One sequence of tags after another. *)
Fixpoint fapp (f g : forest) : forest :=
  match f with
  | Fnil => g
  | Fcons name kids rest => Fcons name kids (fapp rest g)
  end.

(** The number of tags at the top of [f], and a bound on the fuel that
    writing [f] needs. *)
Fixpoint ftop (f : forest) : nat :=
  match f with
  | Fnil => 0
  | Fcons _ _ rest => S (ftop rest)
  end.

Fixpoint fsize (f : forest) : nat :=
  match f with
  | Fnil => 0
  | Fcons _ kids rest => S (S (fsize kids + fsize rest))
  end.

(** The trees that [snapshot] yields for the tags of [f]. *)
Fixpoint trees_of (f : forest) : list dom_tree :=
  match f with
  | Fnil => []
  | Fcons name kids rest =>
      DomNode XML_DOM_TAG name [] (trees_of kids) :: trees_of rest
  end.

(** The depth of the tags of [f]: the fuel that [snapshot] needs. *)
Fixpoint fdepth (f : forest) : nat :=
  match f with
  | Fnil => 0
  | Fcons _ kids rest => Nat.max (S (fdepth kids)) (fdepth rest)
  end.

(** The entity of a new tag [name] that is child number [i] of [p]. *)
Definition tag_entity (name : cpp_string) (p : entity_ptr) (i : Z)
  : xml_dom_entity :=
  {| m_type := XML_DOM_TAG; m_parent := p; m_child := []; m_index := i;
     m_name := name; m_value := [] |}.

(** The store after a new tag [name] was allocated and added to the
    children of [top], whose entity was [etop]. *)
Definition attached (h : heap) (top : nat) (etop : xml_dom_entity)
    (name : cpp_string) : heap :=
  <[top := Dom.with_child etop (m_child etop ++ [length h])]>
    (h ++ [tag_entity name (Some top) (Z.of_nat (length (m_child etop)))]).

(** The fields of an entity other than its children. *)
Definition same_fields (e e' : xml_dom_entity) : Prop :=
  m_type e' = m_type e /\ m_name e' = m_name e /\ m_value e' = m_value e /\
  m_parent e' = m_parent e /\ m_index e' = m_index e.

(** A sequence of one tag without children. *)
Definition leaf (name : cpp_string) : forest := Fcons name Fnil Fnil.

(** The store holds a document at address 0 whose descendants are tags with
    valid names. *)
Definition tag_document (h : heap) : Prop :=
  exists f, names_valid f = true /\ doc_repr h 0 0 f.

(** The round trip of the tree that [steps] build: once the fuel suffices,
    writing the document and parsing the text returns a document whose
    snapshot is the snapshot of the original. *)
Definition round_trip_holds (steps : list build_step) : Prop :=
  forall h, build_tree steps = Ok h ->
    exists (n : nat) (t : dom_tree),
      forall fuel, (n <= fuel)%nat ->
        exists root' h',
          round_trip fuel h 0 = Ok (root', h') /\
          snapshot fuel h 0 = Some t /\
          snapshot fuel h' root' = Some t.

(** ** Searching the children of an entity *)

(** [c] is an entity of [h] that satisfies [P]. *)
Definition entity_test (h : heap) (P : xml_dom_entity -> bool) (c : nat)
  : bool :=
  match h !! c with
  | Some e => P e
  | None => false
  end.

(** The first address of [cs], in order, whose entity satisfies [P]. *)
Definition find_entity (h : heap) (P : xml_dom_entity -> bool)
    (cs : list nat) : option nat :=
  List.find (entity_test h P) cs.

Definition of_type (type : xml_dom_entity_type) (e : xml_dom_entity) : bool :=
  bool_decide (m_type e = type).

Definition of_type_name (type : xml_dom_entity_type) (name : cpp_string)
    (e : xml_dom_entity) : bool :=
  Dom.type_name_match e type name.

(** ** A concrete store and its tree *)

(** The parent-side invariant as a test, for concrete stores. *)
Definition children_invb (h : heap) : bool :=
  forallb (fun '(p, ep) =>
    forallb (fun '(i, c) =>
      match h !! c with
      | Some ec =>
          bool_decide (m_parent ec = Some p)
          && bool_decide (m_index ec = Z.of_nat i)
      | None => false
      end) (imap pair (m_child ep))) (imap pair h).

(** A document (address 0) with one tag [root] (1), which has an attribute
    (2), a comment (3) and the tags [item] (4), with a text, and [last]
    (5). *)
Definition sample_steps : list build_step :=
  [AddTag 0 (str "root"); AddAttribute 1 (str "id") (str "7");
   AddComment 1 (str "note"); AddTag 1 (str "item");
   SetValue 4 (str "text"); AddTag 1 (str "last")].

Definition sample_store : heap :=
  Eval vm_compute in
    match build_tree sample_steps with
    | Ok h => h
    | _ => []
    end.

(** The tree that [sample_store] holds below its document. *)
Definition sample_tree : dom_tree :=
  DomNode XML_DOM_DOCUMENT [] []
    [DomNode XML_DOM_TAG (str "root") []
       [DomNode XML_DOM_ATTRIBUTE (str "id") (str "7") [];
        DomNode XML_DOM_COMMENT [] (str "note") [];
        DomNode XML_DOM_TAG (str "item") (str "text") [];
        DomNode XML_DOM_TAG (str "last") [] []]].

(** ** The text and the listing of a tree *)

Definition tree_type (t : dom_tree) : xml_dom_entity_type :=
  match t with DomNode type _ _ _ => type end.
Definition tree_name (t : dom_tree) : cpp_string :=
  match t with DomNode _ name _ _ => name end.
Definition tree_value (t : dom_tree) : cpp_string :=
  match t with DomNode _ _ value _ => value end.
Definition tree_children (t : dom_tree) : list dom_tree :=
  match t with DomNode _ _ _ children => children end.

Definition is_type (type : xml_dom_entity_type) (t : dom_tree) : bool :=
  bool_decide (tree_type t = type).

(** The text of an attribute inside an opening tag. *)
Definition attribute_text (name value : cpp_string) : cpp_string :=
  str " " ++ name ++ str "=" ++ [DQUOTE] ++ value ++ [DQUOTE].

(** The text of a tree: what a tag, a comment or a document opens with, the
    texts of the children that are not attributes, and the closing tag of a
    tag that has a child tag or a value. *)
Fixpoint render (t : dom_tree) : cpp_string :=
  match t with
  | DomNode type name value children =>
      let content :=
        existsb (is_type XML_DOM_TAG) children
        || negb (bool_decide (length value = 0%nat)) in
      match type with
      | XML_DOM_TAG =>
          str "<" ++ name
          ++ flat_map (fun c =>
               if is_type XML_DOM_ATTRIBUTE c
               then attribute_text (tree_name c) (tree_value c) else [])
               children
          ++ (if content then str ">" ++ value else str " />") ++ endl
      | XML_DOM_COMMENT => str "<!-- " ++ value ++ str "-->" ++ endl
      | XML_DOM_DOCUMENT => header_text ++ endl
      | _ => []
      end
      ++ flat_map (fun c =>
           if is_type XML_DOM_ATTRIBUTE c then [] else render c) children
      ++ match type with
         | XML_DOM_TAG =>
             if content then str "</" ++ name ++ str ">" ++ endl else []
         | _ => []
         end
  end.

(** The entities that [operator<<] visits below [t] are valid: [t] is
    neither invalid nor an attribute, and so is every child that is not an
    attribute. *)
Fixpoint streamable (t : dom_tree) : bool :=
  match t with
  | DomNode type _ _ children =>
      negb (bool_decide (type = XML_DOM_INVALID))
      && negb (bool_decide (type = XML_DOM_ATTRIBUTE))
      && forallb (fun c => is_type XML_DOM_ATTRIBUTE c || streamable c)
           children
  end.

(** A bound on the fuel that writing or printing [t] needs. *)
Fixpoint tree_fuel (t : dom_tree) : nat :=
  match t with
  | DomNode _ _ _ children =>
      S (S (length children + list_sum (map tree_fuel children)))
  end.

(** The line that [print] writes for an entity. *)
Definition print_line (type : xml_dom_entity_type) (name value : cpp_string)
  : cpp_string :=
  match type with
  | XML_DOM_INVALID => []
  | XML_DOM_DOCUMENT => str "DOCUMENT" ++ [LF]
  | XML_DOM_TAG => str "TAG: " ++ c_str name ++ [LF]
  | XML_DOM_COMMENT => str "COMMENT: " ++ c_str value ++ [LF]
  | XML_DOM_ATTRIBUTE =>
      str "ATTRIBUTE: " ++ c_str name ++ str "=" ++ c_str value ++ [LF]
  end.

(** The listing of a tree: one line per entity, in document order, each
    indented by two spaces per level below [scope]. *)
Fixpoint print_tree (scope : Z) (t : dom_tree) : cpp_string :=
  match t with
  | DomNode type name value children =>
      Dom.print_scope scope ++ print_line type name value
      ++ flat_map (print_tree (scope + 1)) children
  end.

(** No entity of the tree has the type [XML_DOM_INVALID]. *)
Fixpoint tree_valid (t : dom_tree) : bool :=
  match t with
  | DomNode type _ _ children =>
      negb (bool_decide (type = XML_DOM_INVALID)) && forallb tree_valid children
  end.

(** ** Well-formed stores *)

(** A well-formed store: the links between parents and children agree,
    every child was allocated after its parent, and no entity is left with
    the type [XML_DOM_INVALID]. *)
Definition wf_store (h : heap) : Prop :=
  children_inv h /\
  (forall p ep c, h !! p = Some ep -> c ∈ m_child ep -> (p < c)%nat) /\
  (forall a e, h !! a = Some e -> Dom.valid e = true).

(** ** A run with any callbacks, seen from the run that records the events *)

(** A function applied to the value of a run that returns. *)
Definition result_map {A B} (f : A -> B) (r : result A) : result B :=
  match r with
  | Ok a => Ok (f a)
  | Fatal e => Fatal e
  | OutOfFuel => OutOfFuel
  | Aborted => Aborted
  end.

(** The cursor of [st] with user data of another type. *)
Definition with_user {U V} (st : xml_state U) (v : V) : xml_state V :=
  {| buffer := buffer st; pos := pos st; line_number := line_number st;
     column_number := column_number st; user_data := v |}.

(** The state of a run with the callbacks [cb], started on the user data
    [u0], at the point where the recording run is in the state [st]: the
    same cursor, and the user data that the events recorded so far
    produce. *)
Definition played {U} (cb : xml_callbacks U) (u0 : U)
    (st : xml_state (list event)) : xml_state U :=
  with_user st (replay cb (user_data st) u0).

Definition played2 {U A} (cb : xml_callbacks U) (u0 : U)
    (p : A * xml_state (list event)) : A * xml_state U :=
  (p.1, played cb u0 p.2).

(** ** The stack of the DOM builder *)

(** The stack of the DOM builder holds entities of the store. *)
Definition stack_ok (h : heap) (stack : list nat) : Prop :=
  Forall (fun a => (a < length h)%nat) stack.

(** Every entity of [h] is in [h'], with the type it has in [h]. *)
Definition types_kept (h h' : heap) : Prop :=
  forall a e, h !! a = Some e ->
    exists e', h' !! a = Some e' /\ m_type e' = m_type e.

(** ** The cursor, its line and its column *)

(** What a run ensures: a property of the value when it returns, and that
    it does not stop at a failed [assert]. *)
Definition safe {A} (Q : A -> Prop) (r : result A) : Prop :=
  match r with
  | Ok a => Q a
  | Aborted => False
  | _ => True
  end.

(** The line and column after the text [consumed], counted from line 0,
    column 0: a line feed starts a new line at column 0, any other
    character moves one column on. *)
Definition position_after (consumed : cpp_string) : Z * Z :=
  fold_left (fun lc c =>
               if bool_decide (c = LF) then (lc.1 + 1, 0) else (lc.1, lc.2 + 1))
    consumed (0, 0).

(** The cursor is inside the buffer [buf], and its line and column are
    those of the text before it. *)
Definition cursor_inv {U} (buf : cpp_string) (st : xml_state U) : Prop :=
  buffer st = buf /\ 0 <= pos st <= size st /\
  (line_number st, column_number st)
  = position_after (take (Z.to_nat (pos st)) buf).

Definition cursor_inv2 {U A} (buf : cpp_string) (p : A * xml_state U) : Prop :=
  cursor_inv buf p.2.

(** ** Well-formed events *)

(** What the parser guarantees of an event it delivers: a tag or attribute
    name is a letter followed by name characters; an attribute value is a
    text without a double quote followed by one NUL; a text is not empty,
    starts with a character that is not white space and holds no ['<']; a
    comment holds no hyphen. *)
Definition event_ok (ev : event) : Prop :=
  match ev with
  | BeginTag name | EndTag name => valid_name name = true
  | Attribute name value =>
      valid_name name = true /\
      exists s, value = s ++ [NUL] /\ DQUOTE ∉ s
  | Text text =>
      (("<"%char) ∉ text) /\
      exists c text', text = c :: text' /\ xml_is_space c = false
  | Comment c => ("-"%char) ∉ c
  end.

(** The run from [st] to [st'] delivered events that are all well formed. *)
Definition delivers_ok (st st' : xml_state (list event)) : Prop :=
  exists evs, user_data st' = user_data st ++ evs /\ Forall event_ok evs.

(** ** Runs that end *)

(** A run that is not cut short by the fuel, and what it ensures when it
    returns. *)
Definition finishes {A} (Q : A -> Prop) (r : result A) : Prop :=
  match r with
  | Ok a => Q a
  | OutOfFuel => False
  | _ => True
  end.

(** The number of characters from the cursor to the end of the buffer. *)
Definition chars_left {U} (st : xml_state U) : nat :=
  Z.to_nat (size st - pos st).

(** [st'] is a cursor on the buffer of [st], at or after the position of
    [st]. *)
Definition forward {U} (st st' : xml_state U) : Prop :=
  buffer st' = buffer st /\ pos st <= pos st' <= size st.

Definition forward2 {U A} (st : xml_state U) (p : A * xml_state U) : Prop :=
  forward st p.2.

(** ** The body of a comment and the attributes of a header *)

(** The body of a comment as the loop of [xml_read_comment] accepts it,
    given the lookback flag: no hyphen follows a hyphen, and with [closed]
    the body does not end with a hyphen. *)
Fixpoint comment_body (closed hyphen : bool) (body : cpp_string) : bool :=
  match body with
  | [] => negb (closed && hyphen)
  | c :: body' =>
      if bool_decide (c = "-"%char)
      then negb hyphen && comment_body closed true body'
      else comment_body closed false body'
  end.

(** The characters of [body] that are not hyphens. *)
Definition without_hyphens (body : cpp_string) : cpp_string :=
  filter (fun c => c <> "-"%char) body.

(** The attributes of a header, each written as an attribute of a tag. *)
Definition attributes_text (attrs : list (cpp_string * cpp_string))
  : cpp_string :=
  flat_map (fun p => attribute_text p.1 p.2) attrs.

(** A name that [xml_read_name] accepts with a value that holds no double
    quote. *)
Definition attribute_ok (p : cpp_string * cpp_string) : Prop :=
  valid_name p.1 = true /\ DQUOTE ∉ p.2.

(** ** Edits of a tree *)

(** The tree [t] with one more child at the end, and with another value. *)
Definition tree_snoc (t child : dom_tree) : dom_tree :=
  match t with
  | DomNode type name value children =>
      DomNode type name value (children ++ [child])
  end.

Definition tree_with_value (t : dom_tree) (value : cpp_string) : dom_tree :=
  match t with
  | DomNode type name _ children => DomNode type name value children
  end.

(** ** Tags with attributes and a body *)

(** An attribute as it is written in a tag: white space, the name, white
    space, ['='], white space, and the value between double quotes. *)
Record attr : Type := {
  a_space : cpp_string;
  a_name : cpp_string;
  a_space_eq : cpp_string;
  a_space_value : cpp_string;
  a_value : cpp_string
}.

Definition attr_text (a : attr) : cpp_string :=
  a_space a ++ a_name a ++ a_space_eq a ++ str "=" ++ a_space_value a
  ++ DQUOTE :: a_value a ++ [DQUOTE].

Definition attrs_text (attrs : list attr) : cpp_string :=
  flat_map attr_text attrs.

Definition space_only (ws : cpp_string) : bool := forallb xml_is_space ws.

(** The white space before the name is not empty, the name is one that
    [xml_read_name] accepts and the value holds no double quote. *)
Definition attr_ok (a : attr) : bool :=
  match a_space a with [] => false | _ :: _ => true end
  && space_only (a_space a) && valid_name (a_name a)
  && space_only (a_space_eq a) && space_only (a_space_value a)
  && forallb (fun c => negb (bool_decide (c = DQUOTE))) (a_value a).

(** The event of an attribute: [xml_parse_string] appends a NUL to the
    value. *)
Definition attr_event (a : attr) : event :=
  Attribute (a_name a) (a_value a ++ [NUL]).

(** What stands between the opening tag and the closing tag of an element,
    item by item; each item but a text carries the white space that
    follows it.
    - [CText text rest]: a text, up to the next ['<'];
    - [CComment body ws rest]: [<!--body-->];
    - [CEmpty name attrs sp ws rest]: [<name attrs sp/>];
    - [CTag name attrs sp ws_in kids sp_close ws rest]:
      [<name attrs sp>ws_in kids</sp_close name>]. *)
Inductive content : Type :=
| CEnd
| CText (text : cpp_string) (rest : content)
| CComment (body ws : cpp_string) (rest : content)
| CEmpty (name : cpp_string) (attrs : list attr) (sp ws : cpp_string)
    (rest : content)
| CTag (name : cpp_string) (attrs : list attr) (sp ws_in : cpp_string)
    (kids : content) (sp_close ws : cpp_string) (rest : content).

Fixpoint text_of_content (c : content) : cpp_string :=
  match c with
  | CEnd => []
  | CText text rest => text ++ text_of_content rest
  | CComment body ws rest =>
      str "<!--" ++ body ++ str "-->" ++ ws ++ text_of_content rest
  | CEmpty name attrs sp ws rest =>
      str "<" ++ name ++ attrs_text attrs ++ sp ++ str "/>" ++ ws
      ++ text_of_content rest
  | CTag name attrs sp ws_in kids sp_close ws rest =>
      str "<" ++ name ++ attrs_text attrs ++ sp ++ str ">" ++ ws_in
      ++ text_of_content kids ++ str "</" ++ sp_close ++ name ++ str ">"
      ++ ws ++ text_of_content rest
  end.

(** The events that the items deliver, in order. *)
Fixpoint events_of_content (c : content) : list event :=
  match c with
  | CEnd => []
  | CText text rest => Text text :: events_of_content rest
  | CComment body ws rest =>
      Comment (without_hyphens body) :: events_of_content rest
  | CEmpty name attrs sp ws rest =>
      BeginTag name :: map attr_event attrs
      ++ EndTag name :: events_of_content rest
  | CTag name attrs sp ws_in kids sp_close ws rest =>
      BeginTag name :: map attr_event attrs ++ events_of_content kids
      ++ EndTag name :: events_of_content rest
  end.

(** A text is not empty, starts with a character that is not white space
    and holds no ['<']. *)
Definition text_ok (text : cpp_string) : bool :=
  match text with
  | [] => false
  | c :: _ =>
      negb (xml_is_space c)
      && forallb (fun c => negb (bool_decide (c = "<"%char))) text
  end.

Definition is_text (c : content) : bool :=
  match c with CText _ _ => true | _ => false end.

(** The items are written as the parser reads them: names are valid,
    white space is white space, the body of a comment has no two hyphens
    in a row and no hyphen at its end, and no text follows a text. *)
Fixpoint content_ok (c : content) : bool :=
  match c with
  | CEnd => true
  | CText text rest => text_ok text && negb (is_text rest) && content_ok rest
  | CComment body ws rest =>
      comment_body true false body && space_only ws && content_ok rest
  | CEmpty name attrs sp ws rest =>
      valid_name name && forallb attr_ok attrs && space_only sp
      && space_only ws && content_ok rest
  | CTag name attrs sp ws_in kids sp_close ws rest =>
      valid_name name && forallb attr_ok attrs && space_only sp
      && space_only ws_in && content_ok kids && space_only sp_close
      && space_only ws && content_ok rest
  end.

(** The outcome of the body loop of [xml_read_tag] for the tag [name] when
    it reaches the closing tag [close]: EndTag is delivered and the run
    returns at [tl] when the names are equal, and the run throws
    otherwise. *)
Definition closes_with {U} (cb : xml_callbacks U) (name close : cpp_string)
    (tl : cpp_string) (u : U) (r : result (xml_state U)) : Prop :=
  if string_eqb close name
  then exists st', r = Ok st' /\ at_ st' tl (end_tag cb u name)
  else exists line, r = Fatal (ClosingNameMismatch close name line).

(** * Properties *)

(** ** More fuel never changes a result *)

Lemma refines_refl {A} (r : result A) : refines r r.
Proof. by right. Qed.

Lemma refines_out {A} (r : result A) : refines OutOfFuel r.
Proof. by left. Qed.

Lemma refines_bind {A B} (r r' : result A) (k k' : A -> result B) :
  refines r r' -> (forall a, refines (k a) (k' a)) ->
  refines (r ≫= k) (r' ≫= k').
Proof.
  intros [-> | <-] Hk; [by left |].
  destruct r as [a | e | |]; simpl; [apply Hk | by right ..].
Qed.

Lemma refines_eq {A} (r r' v : result A) :
  refines r r' -> r = v -> v <> OutOfFuel -> r' = v.
Proof. intros [-> | <-] <- Hv; congruence. Qed.

Create HintDb fuel discriminated.
#[export] Hint Resolve refines_refl refines_out : fuel.

(** One step of a monotonicity proof: descend through the shape shared by
    the two runs. *)
Ltac refines_step :=
  match goal with
  | |- refines (_ ≫= _) (_ ≫= _) => apply refines_bind; [| intros ?]
  | |- refines (if ?b then _ else _) (if ?b then _ else _) => destruct b
  | |- refines (match ?x with _ => _ end) (match ?x with _ => _ end) =>
      destruct x
  | |- refines (let '(_, _) := ?x in _) (let '(_, _) := ?x in _) =>
      destruct x
  end.

Ltac refines_auto := repeat (first [ solve [eauto with fuel] | refines_step ]).

Section Monotone.

Context {U : Type} (cb : xml_callbacks U).

Local Abbreviation state := (xml_state U).

Lemma xml_eat_space_S fuel (st : state) :
  refines (xml_eat_space fuel st) (xml_eat_space (S fuel) st).
Proof.
  revert st; induction fuel as [| fuel IH]; intros st; [apply refines_out |].
  cbn [xml_eat_space]. refines_auto.
Qed.

Lemma xml_parse_string_loop_S fuel (st : state) s :
  refines (xml_parse_string_loop fuel st s)
          (xml_parse_string_loop (S fuel) st s).
Proof.
  revert st s; induction fuel as [| fuel IH]; intros st s;
    [apply refines_out |].
  cbn [xml_parse_string_loop]. refines_auto.
Qed.

Lemma xml_read_name_loop_S fuel (st : state) s :
  refines (xml_read_name_loop fuel st s) (xml_read_name_loop (S fuel) st s).
Proof.
  revert st s; induction fuel as [| fuel IH]; intros st s;
    [apply refines_out |].
  cbn [xml_read_name_loop]. refines_auto.
Qed.

Lemma xml_read_text_loop_S fuel (st : state) s :
  refines (xml_read_text_loop fuel st s) (xml_read_text_loop (S fuel) st s).
Proof.
  revert st s; induction fuel as [| fuel IH]; intros st s;
    [apply refines_out |].
  cbn [xml_read_text_loop]. refines_auto.
Qed.

Lemma xml_read_comment_loop_S fuel (st : state) s b :
  refines (xml_read_comment_loop fuel st s b)
          (xml_read_comment_loop (S fuel) st s b).
Proof.
  revert st s b; induction fuel as [| fuel IH]; intros st s b;
    [apply refines_out |].
  cbn [xml_read_comment_loop]. refines_auto.
Qed.

Hint Resolve xml_eat_space_S xml_parse_string_loop_S xml_read_name_loop_S
  xml_read_text_loop_S xml_read_comment_loop_S : fuel.

Lemma xml_parse_string_S fuel (st : state) :
  refines (xml_parse_string fuel st) (xml_parse_string (S fuel) st).
Proof. unfold xml_parse_string. refines_auto. Qed.

Lemma xml_read_name_S fuel (st : state) :
  refines (xml_read_name fuel st) (xml_read_name (S fuel) st).
Proof. unfold xml_read_name. refines_auto. Qed.

Lemma xml_read_text_S fuel (st : state) :
  refines (xml_read_text fuel st) (xml_read_text (S fuel) st).
Proof. unfold xml_read_text. refines_auto. Qed.

Lemma xml_read_comment_S fuel (st : state) :
  refines (xml_read_comment fuel st) (xml_read_comment (S fuel) st).
Proof. unfold xml_read_comment. refines_auto. Qed.

Hint Resolve xml_parse_string_S xml_read_name_S xml_read_text_S
  xml_read_comment_S : fuel.

Lemma xml_read_closing_tag_S fuel (st : state) :
  refines (xml_read_closing_tag fuel st) (xml_read_closing_tag (S fuel) st).
Proof. unfold xml_read_closing_tag. refines_auto. Qed.

Lemma xml_read_header_loop_S fuel (st : state) :
  refines (xml_read_header_loop fuel st) (xml_read_header_loop (S fuel) st).
Proof.
  revert st; induction fuel as [| fuel IH]; intros st; [apply refines_out |].
  cbn [xml_read_header_loop]. refines_auto.
Qed.

Hint Resolve xml_read_closing_tag_S xml_read_header_loop_S : fuel.

Lemma xml_read_header_S fuel (st : state) :
  refines (xml_read_header fuel st) (xml_read_header (S fuel) st).
Proof. unfold xml_read_header. refines_auto. Qed.

Lemma xml_read_tag_attributes_S fuel name (st : state) :
  refines (xml_read_tag_attributes cb fuel name st)
          (xml_read_tag_attributes cb (S fuel) name st).
Proof.
  revert st; induction fuel as [| fuel IH]; intros st; [apply refines_out |].
  cbn [xml_read_tag_attributes]. refines_auto.
Qed.

Hint Resolve xml_read_header_S xml_read_tag_attributes_S : fuel.

Lemma xml_read_tag_S_both fuel :
  (forall st : state,
      refines (xml_read_tag cb fuel st) (xml_read_tag cb (S fuel) st)) /\
  (forall name (st : state),
      refines (xml_read_tag_body cb fuel name st)
              (xml_read_tag_body cb (S fuel) name st)).
Proof.
  induction fuel as [| fuel [IHt IHb]]; [split; intros; apply refines_out |].
  split; intros.
  - cbn [xml_read_tag]. refines_auto.
  - cbn [xml_read_tag_body]. refines_auto.
Qed.

Lemma xml_read_tag_S fuel (st : state) :
  refines (xml_read_tag cb fuel st) (xml_read_tag cb (S fuel) st).
Proof. apply xml_read_tag_S_both. Qed.

Lemma xml_read_tag_body_S fuel name (st : state) :
  refines (xml_read_tag_body cb fuel name st)
          (xml_read_tag_body cb (S fuel) name st).
Proof. apply xml_read_tag_S_both. Qed.

Hint Resolve xml_read_tag_S xml_read_tag_body_S : fuel.

Lemma xml_read_document_construct_S fuel first (st : state) :
  refines (xml_read_document_construct cb fuel first st)
          (xml_read_document_construct cb (S fuel) first st).
Proof. unfold xml_read_document_construct. refines_auto. Qed.

Hint Resolve xml_read_document_construct_S : fuel.

Lemma xml_read_document_loop_S fuel first (st : state) :
  refines (xml_read_document_loop cb fuel first st)
          (xml_read_document_loop cb (S fuel) first st).
Proof.
  revert st; induction fuel as [| fuel IH]; intros st; [apply refines_out |].
  cbn [xml_read_document_loop]. refines_auto.
Qed.

Hint Resolve xml_read_document_loop_S : fuel.

Lemma xml_read_document_S fuel (st : state) :
  refines (xml_read_document cb fuel st) (xml_read_document cb (S fuel) st).
Proof. unfold xml_read_document. refines_auto. Qed.

(** A result of [xml_read_document] is the result for any larger fuel. *)
Lemma xml_read_document_fuel fuel fuel' (st : state) v :
  xml_read_document cb fuel st = v -> v <> OutOfFuel -> (fuel <= fuel')%nat ->
  xml_read_document cb fuel' st = v.
Proof.
  intros Hv Hne Hle. induction Hle as [| m Hle IH]; [done |].
  eapply refines_eq; [apply xml_read_document_S | exact IH | exact Hne].
Qed.

End Monotone.

Lemma xml_events_fuel fuel fuel' buf v :
  xml_events fuel buf = v -> v <> OutOfFuel -> (fuel <= fuel')%nat ->
  xml_events fuel' buf = v.
Proof.
  unfold xml_events. intros Hv Hne Hle.
  destruct (xml_read_document event_log fuel (xml_state_init buf []))
    as [st | e | |] eqn:Hrun; simpl in Hv; try congruence;
    erewrite xml_read_document_fuel; eauto; done.
Qed.

(** ** The document driver on inputs where no branch consumes a character *)

Section Stuck.

Context {U : Type} (cb : xml_callbacks U).

Lemma xml_eat_space_stay (st : xml_state U) c fuel :
  xml_eof st = false -> xml_peek st 0 = Ok c -> xml_is_space c = false ->
  xml_eat_space (S fuel) st = Ok st.
Proof.
  intros Heof Hpeek Hsp. cbn [xml_eat_space].
  rewrite Heof, Hpeek. simpl. by rewrite Hsp.
Qed.

Lemma xml_eat_space_step (st : xml_state U) c fuel :
  xml_eof st = false -> xml_peek st 0 = Ok c -> xml_is_space c = true ->
  xml_eat_space (S fuel) st = xml_eat_space fuel (xml_advance st).
Proof.
  intros Heof Hpeek Hsp. cbn [xml_eat_space].
  rewrite Heof, Hpeek. simpl. by rewrite Hsp.
Qed.

(** A header loop that stands on a character which is neither white space,
    nor a letter, nor ['?'] makes no progress. *)
Lemma xml_read_header_loop_stuck (st : xml_state U) c :
  xml_eof st = false -> xml_peek st 0 = Ok c ->
  xml_is_space c = false -> xml_is_alpha c = false -> c <> "?"%char ->
  forall fuel, xml_read_header_loop fuel st = OutOfFuel.
Proof.
  intros Heof Hpeek Hsp Hal Hq fuel.
  induction fuel as [| fuel IH]; [done |].
  cbn [xml_read_header_loop]. rewrite Heof.
  destruct fuel as [| fuel]; [done |].
  cbn [xml_eat_space]. rewrite Heof, Hpeek. simpl. rewrite Hsp. simpl.
  rewrite Hpeek. simpl. rewrite Hal.
  unfold and_then, peek_is. rewrite Hpeek. simpl.
  rewrite bool_decide_eq_false_2 by done. simpl. exact IH.
Qed.

(** A document loop that stands on ['<'] followed by a character which is
    neither ['?'], nor ['!'], nor a letter makes no progress. *)
Lemma xml_read_document_loop_stuck (st : xml_state U) c first :
  xml_eof st = false -> xml_peek st 0 = Ok "<"%char -> xml_peek st 1 = Ok c ->
  c <> "?"%char -> c <> "!"%char -> xml_is_alpha c = false ->
  forall fuel, xml_read_document_loop cb fuel first st = OutOfFuel.
Proof.
  intros Heof Hpeek Hpeek1 Hq He Hal fuel.
  induction fuel as [| fuel IH]; [done |].
  cbn [xml_read_document_loop]. rewrite Heof.
  unfold peek_is. rewrite Hpeek. simpl.
  unfold xml_read_document_construct. rewrite Hpeek1. simpl.
  rewrite !bool_decide_eq_false_2 by done. rewrite Hal. simpl.
  destruct fuel as [| fuel]; [done |].
  cbn [xml_eat_space]. rewrite Heof, Hpeek. simpl. exact IH.
Qed.

End Stuck.

(** C1. [xml_read_document] does not return on the buffer ["<1"], nor on
    the buffer ["<?xml 1"]: whatever the fuel, and whatever the callbacks,
    the run is cut short by the fuel.  In the first the document loop, in
    the second the header loop, is left standing on the character ['1']. *)
Theorem xml_read_document_no_progress :
  forall (U : Type) (cb : xml_callbacks U) (u : U) (fuel : nat),
    xml_read_document cb fuel (xml_state_init (str "<1") u) = OutOfFuel /\
    xml_read_document cb fuel (xml_state_init (str "<?xml 1") u) = OutOfFuel.
Proof.
  intros U cb u fuel. split.
  - destruct fuel as [| fuel]; [done |].
    unfold xml_read_document.
    rewrite xml_eat_space_stay with (c := "<"%char) by done.
    by apply xml_read_document_loop_stuck with (c := "1"%char).
  - destruct fuel as [| fuel]; [done |].
    unfold xml_read_document.
    rewrite xml_eat_space_stay with (c := "<"%char) by done.
    cbn [xml_read_document_loop mbind result_bind].
    replace (xml_read_document_construct cb fuel true
               (xml_state_init (str "<?xml 1") u))
      with (@OutOfFuel (xml_state U)); [done |].
    set (st5 := Nat.iter 5 xml_advance (xml_state_init (str "<?xml 1") u)).
    transitivity (xml_read_header_loop fuel st5); [| reflexivity].
    destruct fuel as [| fuel]; [done |].
    cbn [xml_read_header_loop].
    replace (xml_eof st5) with false by done.
    destruct fuel as [| fuel]; [done |].
    rewrite xml_eat_space_step with (c := " "%char) by done.
    destruct fuel as [| fuel]; [done |].
    rewrite xml_eat_space_stay with (c := "1"%char) by done.
    cbn [mbind result_bind].
    replace (xml_peek (xml_advance st5) 0) with (@Ok ascii "1"%char) by done.
    cbn [mbind result_bind].
    replace (xml_is_alpha "1") with false by done.
    replace (and_then (peek_is (xml_advance st5) 0 "?"%char)
               (peek_is (xml_advance st5) 1 ">"%char))
      with (@Ok bool false) by done.
    cbn [mbind result_bind].
    by rewrite xml_read_header_loop_stuck with (c := "1"%char).
Qed.

Lemma xml_dom_build_fuel fuel fuel' h buf v :
  Dom.xml_dom_build fuel h buf = Ok v -> (fuel <= fuel')%nat ->
  Dom.xml_dom_build fuel' h buf = Ok v.
Proof.
  unfold Dom.xml_dom_build. intros Hv Hle.
  destruct (Dom.new_entity h) as [doc h1].
  destruct (Dom.set_type h1 doc XML_DOM_DOCUMENT) as [h2 | | |];
    simpl in *; try done.
  destruct (xml_read_document Dom.xml_dom_callbacks fuel _)
    as [st | e | |] eqn:Hrun; simpl in Hv; try done.
  erewrite xml_read_document_fuel; eauto; done.
Qed.

(** ** Concrete documents *)

(** With the flag [first] cleared, the document loop rejects a header. *)
Lemma header_rejected_when_not_first :
  xml_read_document_loop event_log 10 false (xml_state_init (str "<?xml?>") [])
  = Fatal HeaderMidway.
Proof. reflexivity. Qed.

(** A header that comes first is read and accepted. *)
Lemma header_first_accepted :
  forall fuel : nat, (5 <= fuel)%nat ->
    xml_events fuel (str "<?xml?><a/>")
    = Ok [BeginTag (str "a"); EndTag (str "a")].
Proof. intros fuel Hfuel. by apply (xml_events_fuel 5). Qed.

(** C3. Parsing [<a/><?xml?>], where a header follows a tag, returns
    without error: the parse delivers the two events of the tag and accepts
    the header.  The flag [first] of [xml_read_document] is still [true]
    when the second construct is read. *)
Theorem header_after_tag_accepted :
  forall fuel : nat, (4 <= fuel)%nat ->
    xml_events fuel (str "<a/><?xml?>")
    = Ok [BeginTag (str "a"); EndTag (str "a")].
Proof.
  intros fuel Hfuel. by apply (xml_events_fuel 4).
Qed.

Lemma header_after_tag_accepted_witness :
  xml_events 4 (str "<a/><?xml?>") = Ok [BeginTag (str "a"); EndTag (str "a")].
Proof. apply header_after_tag_accepted. lia. Defined.

(** C4. Parsing [<a x="1" y="2">hi</a>] returns and delivers five events in
    the order BeginTag, Attribute, Attribute, Text, EndTag; the value of each
    Attribute event is the text between the quotes followed by one NUL
    character, which [xml_parse_string] appends. *)
Theorem attribute_value_has_nul :
  forall fuel : nat, (6 <= fuel)%nat ->
    xml_events fuel doc_attributes
    = Ok [BeginTag (str "a");
          Attribute (str "x") (str "1" ++ [NUL]);
          Attribute (str "y") (str "2" ++ [NUL]);
          Text (str "hi");
          EndTag (str "a")].
Proof.
  intros fuel Hfuel. by apply (xml_events_fuel 6).
Qed.

Lemma attribute_value_has_nul_witness :
  xml_events 6 doc_attributes
  = Ok [BeginTag (str "a");
        Attribute (str "x") (str "1" ++ [NUL]);
        Attribute (str "y") (str "2" ++ [NUL]);
        Text (str "hi");
        EndTag (str "a")].
Proof. apply attribute_value_has_nul. lia. Defined.

(** C5. Parsing the comment [<!--a-b-->] returns and delivers one Comment
    event whose text is [ab]: the hyphen between [a] and [b] sets the
    lookback flag and is not added to the comment. *)
Theorem comment_drops_lone_hyphen :
  forall fuel : nat, (6 <= fuel)%nat ->
    xml_events fuel (str "<!--a-b-->") = Ok [Comment (str "ab")].
Proof.
  intros fuel Hfuel. by apply (xml_events_fuel 6).
Qed.

Lemma comment_drops_lone_hyphen_witness :
  xml_events 6 (str "<!--a-b-->") = Ok [Comment (str "ab")].
Proof. apply comment_drops_lone_hyphen. lia. Defined.

(** C10. Parsing [<a], where the input ends inside the tag, returns without
    error after delivering BeginTag("a") and no EndTag: the event stream is
    not balanced, and the stack of the DOM builder holds two entities, the
    document and the tag, when the driver returns. *)
Theorem unclosed_tag_accepted :
  forall fuel : nat, (4 <= fuel)%nat ->
    xml_events fuel (str "<a") = Ok [BeginTag (str "a")] /\
    balanced [BeginTag (str "a")] = false /\
    exists h, Dom.xml_dom_build fuel [] (str "<a") = Ok (h, [0%nat; 1%nat]).
Proof.
  intros fuel Hfuel. split; [by apply (xml_events_fuel 4) |].
  split; [done |].
  eexists. by apply (xml_dom_build_fuel 4).
Qed.

Lemma unclosed_tag_accepted_witness :
  xml_events 4 (str "<a") = Ok [BeginTag (str "a")] /\
  balanced [BeginTag (str "a")] = false /\
  exists h, Dom.xml_dom_build 4 [] (str "<a") = Ok (h, [0%nat; 1%nat]).
Proof. apply unclosed_tag_accepted. lia. Defined.

(** ** The cursor seen through the text that remains *)

Section Cursor.

Context {U : Type}.

Local Abbreviation state := (xml_state U).

Lemma remaining_length (st : state) :
  0 <= pos st <= size st ->
  Z.of_nat (length (remaining st)) = size st - pos st.
Proof. intros H. unfold remaining, size in *. rewrite length_drop. lia. Qed.

Lemma at_nil_eof (st : state) u : at_ st [] u -> xml_eof st = true.
Proof.
  intros (Hpos & Hrem & _). pose proof (remaining_length st Hpos) as Hlen.
  rewrite Hrem in Hlen. simpl in Hlen. unfold xml_eof. lia.
Qed.

Lemma at_cons_eof (st : state) c rest u :
  at_ st (c :: rest) u -> xml_eof st = false.
Proof.
  intros (Hpos & Hrem & _). pose proof (remaining_length st Hpos) as Hlen.
  rewrite Hrem in Hlen. simpl in Hlen. unfold xml_eof. lia.
Qed.

Lemma remaining_char_at (st : state) rest (i : nat) c :
  0 <= pos st -> remaining st = rest -> rest !! i = Some c ->
  char_at (buffer st) (pos st + Z.of_nat i) = c /\
  pos st + Z.of_nat i < size st.
Proof.
  intros Hpos <- Hi. unfold remaining in Hi. rewrite lookup_drop in Hi.
  unfold char_at, size.
  replace (Z.to_nat (pos st + Z.of_nat i)) with (Z.to_nat (pos st) + i)%nat
    by lia.
  split; [by rewrite nth_lookup, Hi |].
  apply lookup_lt_Some in Hi. lia.
Qed.

Lemma at_peek (st : state) rest u (i : nat) c :
  at_ st rest u -> rest !! i = Some c -> xml_peek st (Z.of_nat i) = Ok c.
Proof.
  intros (Hpos & Hrem & _) Hi.
  destruct (remaining_char_at st rest i c) as [Hc Hlt]; [lia | done .. |].
  unfold xml_peek. rewrite Hc.
  replace (0 <=? pos st + Z.of_nat i) with true by lia.
  by replace (pos st + Z.of_nat i <? size st) with true by lia.
Qed.

Lemma at_peek0 (st : state) c rest u :
  at_ st (c :: rest) u -> xml_peek st 0 = Ok c.
Proof. intros H. by apply (at_peek st _ u 0%nat c H). Qed.

Lemma at_peek1 (st : state) c d rest u :
  at_ st (c :: d :: rest) u -> xml_peek st 1 = Ok d.
Proof. intros H. by apply (at_peek st _ u 1%nat d H). Qed.

Lemma at_nil_peek1 (st : state) c u :
  at_ st [c] u -> xml_peek st 1 = Fatal (PeekOutOfRange (pos st + 1) (size st)).
Proof.
  intros (Hpos & Hrem & _). pose proof (remaining_length st Hpos) as Hlen.
  rewrite Hrem in Hlen. simpl in Hlen. unfold xml_peek.
  replace (pos st + 1 <? size st) with false by lia.
  by rewrite andb_false_r.
Qed.

Lemma at_advance (st : state) c rest u :
  at_ st (c :: rest) u -> at_ (xml_advance st) rest u.
Proof.
  intros (Hpos & Hrem & Hu). pose proof (remaining_length st Hpos) as Hlen.
  rewrite Hrem in Hlen. simpl in Hlen.
  assert (remaining (xml_advance st) = rest) as Hrest.
  { unfold xml_advance, remaining in *.
    assert (drop (Z.to_nat (pos st + 1)) (buffer st) = rest) as Hd.
    { replace (Z.to_nat (pos st + 1)) with (Z.to_nat (pos st) + 1)%nat by lia.
      by rewrite <- drop_drop, Hrem. }
    by case_bool_decide. }
  unfold at_. rewrite Hrest.
  unfold xml_advance, size in *. case_bool_decide; simpl; (split; [lia | done]).
Qed.

Lemma at_match (st : state) c rest u :
  at_ st (c :: rest) u -> xml_match st c = Ok (xml_advance st).
Proof.
  intros H. unfold xml_match. rewrite (at_peek0 _ _ _ _ H). simpl.
  by rewrite bool_decide_eq_true_2.
Qed.

Lemma at_match_fail (st : state) c d rest u :
  at_ st (d :: rest) u -> d <> c ->
  xml_match st c = Fatal (MatchExpected c d (line_number st)).
Proof.
  intros H Hne. unfold xml_match. rewrite (at_peek0 _ _ _ _ H). simpl.
  by rewrite bool_decide_eq_false_2.
Qed.

Lemma at_set_user_data (st : state) rest u u' :
  at_ st rest u -> at_ (set_user_data st u') rest u'.
Proof.
  intros (Hpos & Hrem & Hu). unfold at_, set_user_data, remaining, size in *.
  simpl. done.
Qed.

Lemma at_user_data (st : state) rest u : at_ st rest u -> user_data st = u.
Proof. by intros (_ & _ & Hu). Qed.

Lemma at_eq (st : state) rest rest' u :
  at_ st rest u -> rest = rest' -> at_ st rest' u.
Proof. by intros H <-. Qed.

Lemma at_init buf (u : U) : at_ (xml_state_init buf u) buf u.
Proof.
  unfold at_, xml_state_init, remaining, size. simpl. split; [lia | done].
Qed.

(** [peek_is] and its conjunctions at a known position. *)
Lemma at_peek_is (st : state) c d rest u :
  at_ st (d :: rest) u -> peek_is st 0 c = Ok (bool_decide (d = c)).
Proof. intros H. unfold peek_is. by rewrite (at_peek0 _ _ _ _ H). Qed.

Lemma at_peek_is1 (st : state) c d e rest u :
  at_ st (d :: e :: rest) u -> peek_is st 1 c = Ok (bool_decide (e = c)).
Proof. intros H. unfold peek_is. by rewrite (at_peek1 _ _ _ _ _ H). Qed.

Lemma at_peek_is_not1 (st : state) c d e rest u :
  at_ st (d :: e :: rest) u ->
  peek_is_not st 1 c = Ok (negb (bool_decide (e = c))).
Proof. intros H. unfold peek_is_not. by rewrite (at_peek1 _ _ _ _ _ H). Qed.

(** *** White space *)

Lemma xml_eat_space_at fuel (st : state) ws rest u :
  at_ st (ws ++ rest) u -> Forall (fun c => xml_is_space c = true) ws ->
  ahead xml_is_space rest -> (length ws < fuel)%nat ->
  exists st', xml_eat_space fuel st = Ok st' /\ at_ st' rest u.
Proof.
  revert fuel st.
  induction ws as [| c ws IH]; intros fuel st Hat Hws Hrest Hfuel.
  - destruct fuel as [| fuel]; [simpl in Hfuel; lia |].
    exists st. split; [| done]. cbn [xml_eat_space]. simpl in Hat.
    destruct rest as [| d rest].
    + by rewrite (at_nil_eof _ _ Hat).
    + rewrite (at_cons_eof _ _ _ _ Hat), (at_peek0 _ _ _ _ Hat). simpl.
      simpl in Hrest. by rewrite Hrest.
  - destruct fuel as [| fuel]; [simpl in Hfuel; lia |].
    inversion Hws as [| ? ? Hc Hws']; subst.
    cbn [xml_eat_space]. simpl in Hat.
    rewrite (at_cons_eof _ _ _ _ Hat), (at_peek0 _ _ _ _ Hat). simpl.
    rewrite Hc. apply IH; [by eapply at_advance | done .. |].
    simpl in Hfuel. lia.
Qed.

(** No white space ahead: [xml_eat_space] leaves the state as it is. *)
Lemma xml_eat_space_none fuel (st : state) rest u :
  at_ st rest u -> ahead xml_is_space rest -> (0 < fuel)%nat ->
  xml_eat_space fuel st = Ok st.
Proof.
  intros Hat Hrest Hfuel. destruct fuel as [| fuel]; [lia |].
  cbn [xml_eat_space]. destruct rest as [| d rest].
  - by rewrite (at_nil_eof _ _ Hat).
  - rewrite (at_cons_eof _ _ _ _ Hat), (at_peek0 _ _ _ _ Hat). simpl.
    simpl in Hrest. by rewrite Hrest.
Qed.

(** *** Names *)

Lemma alpha_not_space c : xml_is_alpha c = true -> xml_is_space c = false.
Proof.
  unfold xml_is_alpha, xml_is_space, isalpha, isspace. lia.
Qed.

Lemma alpha_name_char c :
  xml_is_alpha c = true -> xml_is_valid_name_char c = true.
Proof. unfold xml_is_valid_name_char. by intros ->. Qed.

Lemma xml_read_name_loop_at fuel (st : state) name rest u acc :
  at_ st (name ++ rest) u -> forallb xml_is_valid_name_char name = true ->
  ahead xml_is_valid_name_char rest -> (length name < fuel)%nat ->
  exists st',
    xml_read_name_loop fuel st acc = Ok (acc ++ name, st') /\ at_ st' rest u.
Proof.
  revert fuel st acc.
  induction name as [| c name IH]; intros fuel st acc Hat Hname Hrest Hfuel.
  - destruct fuel as [| fuel]; [simpl in Hfuel; lia |].
    exists st. rewrite app_nil_r. split; [| done].
    cbn [xml_read_name_loop]. simpl in Hat. destruct rest as [| d rest].
    + by rewrite (at_nil_eof _ _ Hat).
    + rewrite (at_cons_eof _ _ _ _ Hat), (at_peek0 _ _ _ _ Hat). simpl.
      simpl in Hrest. by rewrite Hrest.
  - destruct fuel as [| fuel]; [simpl in Hfuel; lia |].
    simpl in Hname. apply andb_true_iff in Hname as [Hc Hname].
    cbn [xml_read_name_loop]. simpl in Hat.
    rewrite (at_cons_eof _ _ _ _ Hat), (at_peek0 _ _ _ _ Hat). simpl.
    rewrite Hc.
    destruct (IH fuel (xml_advance st) (acc ++ [c])) as (st' & Hrun & Hat');
      [by eapply at_advance | done .. | simpl in Hfuel; lia |].
    exists st'. split; [| done]. rewrite Hrun. by rewrite <- app_assoc.
Qed.

Lemma xml_read_name_at fuel (st : state) name rest u :
  at_ st (name ++ rest) u -> valid_name name = true ->
  ahead xml_is_valid_name_char rest -> (length name < fuel)%nat ->
  exists st', xml_read_name fuel st = Ok (name, st') /\ at_ st' rest u.
Proof.
  intros Hat Hname Hrest Hfuel.
  destruct name as [| c name]; [done |]. simpl in Hname.
  apply andb_true_iff in Hname as [Hc Hname].
  unfold xml_read_name.
  rewrite (xml_eat_space_none fuel st _ u Hat);
    [| simpl; by apply alpha_not_space | lia].
  simpl in Hat. cbn [mbind result_bind].
  rewrite (at_peek0 _ _ _ _ Hat). cbn [mbind result_bind]. rewrite Hc. simpl.
  apply (xml_read_name_loop_at fuel st (c :: name) rest u []); try done.
  simpl. by rewrite (alpha_name_char c Hc).
Qed.

(** *** Quoted strings *)

Lemma xml_parse_string_loop_at fuel (st : state) s rest u acc :
  at_ st (s ++ DQUOTE :: rest) u -> DQUOTE ∉ s -> (length s < fuel)%nat ->
  exists st',
    xml_parse_string_loop fuel st acc = Ok (acc ++ s, st') /\
    at_ st' (DQUOTE :: rest) u.
Proof.
  revert fuel st acc.
  induction s as [| c s IH]; intros fuel st acc Hat Hs Hfuel.
  - destruct fuel as [| fuel]; [simpl in Hfuel; lia |].
    exists st. rewrite app_nil_r. split; [| done].
    cbn [xml_parse_string_loop]. simpl in Hat.
    by rewrite (at_cons_eof _ _ _ _ Hat), (at_peek0 _ _ _ _ Hat).
  - destruct fuel as [| fuel]; [simpl in Hfuel; lia |].
    apply not_elem_of_cons in Hs as [Hc Hs].
    cbn [xml_parse_string_loop]. simpl in Hat.
    rewrite (at_cons_eof _ _ _ _ Hat), (at_peek0 _ _ _ _ Hat). simpl.
    rewrite bool_decide_eq_false_2 by done. simpl.
    destruct (IH fuel (xml_advance st) (acc ++ [c])) as (st' & Hrun & Hat');
      [by eapply at_advance | done | simpl in Hfuel; lia |].
    exists st'. split; [| done]. rewrite Hrun. by rewrite <- app_assoc.
Qed.

Lemma xml_parse_string_at fuel (st : state) s rest u :
  at_ st (DQUOTE :: s ++ DQUOTE :: rest) u -> DQUOTE ∉ s ->
  (length s < fuel)%nat ->
  exists st',
    xml_parse_string fuel st = Ok (s ++ [NUL], st') /\ at_ st' rest u.
Proof.
  intros Hat Hs Hfuel. unfold xml_parse_string.
  rewrite (xml_eat_space_none fuel st _ u Hat); [| done | lia].
  cbn [mbind result_bind]. rewrite (at_match _ _ _ _ Hat).
  cbn [mbind result_bind].
  destruct (xml_parse_string_loop_at fuel (xml_advance st) s rest u [])
    as (st' & Hrun & Hat'); [by eapply at_advance | done .. |].
  rewrite Hrun. cbn [mbind result_bind]. rewrite (at_match _ _ _ _ Hat').
  cbn [mbind result_bind]. eexists. split; [done |]. by eapply at_advance.
Qed.

End Cursor.

(** Two ways to write the same text. *)
Ltac same_text :=
  repeat (progress (simpl; rewrite <- ?app_assoc)); reflexivity.

(** ** Documents made of tags only *)

Lemma replay_app {U} (cb : xml_callbacks U) evs1 evs2 u :
  replay cb (evs1 ++ evs2) u = replay cb evs2 (replay cb evs1 u).
Proof. apply fold_left_app. Qed.

Lemma replay_event_log evs log : replay event_log evs log = log ++ evs.
Proof.
  revert log. unfold replay.
  induction evs as [| ev evs IH]; intros log; simpl.
  - by rewrite app_nil_r.
  - rewrite IH. destruct ev; simpl; by rewrite <- app_assoc.
Qed.

Lemma text_of_forest_cons name kids rest :
  text_of_forest (Fcons name kids rest)
  = text_of_tag name kids ++ endl ++ text_of_forest rest.
Proof. done. Qed.

Lemma text_of_tag_head name kids :
  exists tl, text_of_tag name kids = "<"%char :: name ++ tl.
Proof. destruct kids; eexists; simpl; done. Qed.

Lemma ahead_text_of_forest (P : ascii -> bool) f tl :
  P "<"%char = false -> ahead P tl -> ahead P (text_of_forest f ++ tl).
Proof. intros HP Htl. destruct f as [| name [| ? ? ?] rest]; done. Qed.

Section ParseTags.

Context {U : Type} (cb : xml_callbacks U).

Local Abbreviation state := (xml_state U).

(** The defining equations of the two mutually recursive functions. *)
Lemma xml_read_tag_eq fuel (st : state) :
  xml_read_tag cb (S fuel) st =
    st ← xml_eat_space fuel st;
    st ← xml_match st "<"%char;
    '(tag_name, st) ← xml_read_name fuel st;
    let st := set_user_data st (begin_tag cb (user_data st) tag_name) in
    '(how, st) ← xml_read_tag_attributes cb fuel tag_name st;
    match how with
    | ByReturn => Ok st
    | ByBreak => xml_read_tag_body cb fuel tag_name st
    end.
Proof. done. Qed.

Lemma xml_read_tag_body_eq fuel tag_name (st : state) :
  xml_read_tag_body cb (S fuel) tag_name st =
    if xml_eof st then Ok st
    else
      st ← xml_eat_space fuel st;
      b ← and_then (peek_is st 0 "<"%char) (peek_is st 1 "/"%char);
      if b : bool
      then
        '(close_name, st) ← xml_read_closing_tag fuel st;
        if negb (string_eqb close_name tag_name)
        then Fatal (ClosingNameMismatch close_name tag_name (line_number st))
        else Ok (set_user_data st (end_tag cb (user_data st) tag_name))
      else
        b ← and_then (peek_is st 0 "<"%char) (peek_is st 1 "!"%char);
        if b : bool
        then
          '(comment_, st) ← xml_read_comment fuel st;
          let st := set_user_data st (comment cb (user_data st) comment_) in
          xml_read_tag_body cb fuel tag_name st
        else
          b ← and_then (peek_is st 0 "<"%char) (peek_is_not st 1 "/"%char);
          if b : bool
          then
            st ← xml_read_tag cb fuel st;
            xml_read_tag_body cb fuel tag_name st
          else
            '(tag_text_, st) ← xml_read_text fuel st;
            let st := set_user_data st (tag_text cb (user_data st) tag_text_) in
            xml_read_tag_body cb fuel tag_name st.
Proof. done. Qed.

Lemma at_not_eof (st : state) rest u :
  at_ st rest u -> rest <> [] -> xml_eof st = false.
Proof. destruct rest; [done |]. intros H _. by eapply at_cons_eof. Qed.

Lemma replay_forest_cons name kids rest u :
  replay cb (events_of_forest (Fcons name kids rest)) u
  = replay cb (events_of_forest rest)
      (replay cb (BeginTag name :: events_of_forest kids ++ [EndTag name]) u).
Proof. unfold replay. simpl. by rewrite !fold_left_app. Qed.

Lemma string_eqb_refl s : string_eqb s s = true.
Proof. unfold string_eqb. by rewrite bool_decide_eq_true_2. Qed.

Lemma valid_name_inv name :
  valid_name name = true ->
  exists c name', name = c :: name' /\ xml_is_alpha c = true /\
    forallb xml_is_valid_name_char name' = true.
Proof.
  destruct name as [| c name']; [done |]. simpl.
  intros [? ?]%andb_true_iff. eauto.
Qed.

Lemma xml_read_tag_at name kids fuel (st : state) tl u :
  body_spec cb kids ->
  at_ st (text_of_tag name kids ++ endl ++ tl) u ->
  valid_name name = true -> names_valid kids = true ->
  ahead xml_is_space tl ->
  (length (text_of_tag name kids) + 4 < fuel)%nat ->
  exists st' ws,
    xml_read_tag cb fuel st = Ok st' /\
    at_ st' (ws ++ tl)
      (replay cb (BeginTag name :: events_of_forest kids ++ [EndTag name]) u) /\
    Forall (fun c => xml_is_space c = true) ws /\ (length ws <= 1)%nat.
Proof.
  intros Hkids Hat Hname Hvalid Htl Hfuel.
  destruct fuel as [| fuel]; [lia |]. rewrite xml_read_tag_eq.
  destruct (text_of_tag_head name kids) as [tl0 Htext].
  rewrite (xml_eat_space_none fuel st _ u Hat);
    [| by rewrite Htext | rewrite Htext in Hfuel; simpl in Hfuel; lia].
  cbn [mbind result_bind].
  destruct kids as [| kname kkids krest].
  - (* <name />: the attribute loop returns *)
    simpl in Hat, Hfuel. rewrite length_app in Hfuel. simpl in Hfuel.
    rewrite (at_match _ _ _ _ Hat). cbn [mbind result_bind].
    apply at_advance in Hat. rewrite <- app_assoc in Hat.
    destruct (xml_read_name_at fuel _ _ _ _ Hat Hname) as (st1 & -> & Hat1);
      [done | lia |].
    cbn [mbind result_bind]. rewrite (at_user_data _ _ _ Hat1).
    apply (at_set_user_data _ _ _ (begin_tag cb u name)) in Hat1.
    destruct fuel as [| fuel]; [lia |]. cbn [xml_read_tag_attributes].
    simpl in Hat1. rewrite (at_cons_eof _ _ _ _ Hat1).
    destruct (xml_eat_space_at fuel _ [" "%char] _ _ Hat1)
      as (st2 & -> & Hat2); [by repeat constructor | done | simpl; lia |].
    cbn [mbind result_bind]. rewrite (at_peek0 _ _ _ _ Hat2).
    cbn [mbind result_bind].
    replace (xml_is_alpha "/") with false by done.
    rewrite (at_peek_is _ ">"%char _ _ _ Hat2). cbn [mbind result_bind].
    rewrite bool_decide_eq_false_2 by done.
    unfold and_then.
    rewrite (at_peek_is _ "/"%char _ _ _ Hat2). cbn [mbind result_bind].
    rewrite bool_decide_eq_true_2 by done.
    rewrite (at_peek_is1 _ ">"%char _ _ _ _ Hat2). cbn [mbind result_bind].
    rewrite bool_decide_eq_true_2 by done.
    rewrite (at_match _ _ _ _ Hat2). cbn [mbind result_bind].
    apply at_advance in Hat2.
    rewrite (at_match _ _ _ _ Hat2). cbn [mbind result_bind].
    apply at_advance in Hat2.
    rewrite (at_user_data _ _ _ Hat2).
    apply (at_set_user_data _ _ _
             (end_tag cb (begin_tag cb u name) name)) in Hat2.
    destruct (xml_eat_space_at fuel _ [LF] _ _ Hat2)
      as (st3 & -> & Hat3); [by repeat constructor | done | simpl; lia |].
    cbn [mbind result_bind].
    exists st3, []. split; [done |]. split; [done |].
    split; [constructor | simpl; lia].
  - (* <name> children </name>: the attribute loop breaks, the body loop
       reads the children *)
    remember (Fcons kname kkids krest) as kids eqn:Hk.
    assert (text_of_tag name kids
            = str "<" ++ name ++ str ">" ++ endl ++ text_of_forest kids
              ++ str "</" ++ name ++ str ">") as Htag by (by subst kids).
    rewrite Htag in Hat, Hfuel. clear Htext Htag Hk.
    simpl in Hat, Hfuel. rewrite !length_app in Hfuel. simpl in Hfuel.
    rewrite !length_app in Hfuel. simpl in Hfuel.
    rewrite (at_match _ _ _ _ Hat). cbn [mbind result_bind].
    apply at_advance in Hat. rewrite <- app_assoc in Hat.
    destruct (xml_read_name_at fuel _ _ _ _ Hat Hname) as (st1 & -> & Hat1);
      [done | lia |].
    cbn [mbind result_bind]. rewrite (at_user_data _ _ _ Hat1).
    apply (at_set_user_data _ _ _ (begin_tag cb u name)) in Hat1.
    destruct fuel as [| fuel]; [lia |]. cbn [xml_read_tag_attributes].
    simpl in Hat1. rewrite (at_cons_eof _ _ _ _ Hat1).
    rewrite (xml_eat_space_none fuel _ _ _ Hat1); [| done | lia].
    cbn [mbind result_bind]. rewrite (at_peek0 _ _ _ _ Hat1).
    cbn [mbind result_bind].
    replace (xml_is_alpha ">") with false by done.
    rewrite (at_peek_is _ ">"%char _ _ _ Hat1). cbn [mbind result_bind].
    rewrite bool_decide_eq_true_2 by done.
    rewrite (at_match _ _ _ _ Hat1). cbn [mbind result_bind].
    apply at_advance in Hat1.
    destruct (Hkids (S fuel) name name
                (xml_advance (set_user_data st1 (begin_tag cb u name)))
                [LF] (endl ++ tl) (begin_tag cb u name)) as (st2 & Hat2 & ->).
    + eapply at_eq; [exact Hat1 | same_text].
    + by repeat constructor.
    + done.
    + done.
    + simpl. lia.
    + rewrite string_eqb_refl. eexists _, endl. split; [done |].
      split; [| by repeat constructor].
      replace (replay cb (BeginTag name :: events_of_forest kids
                          ++ [EndTag name]) u)
        with (end_tag cb (replay cb (events_of_forest kids)
                            (begin_tag cb u name)) name)
        by (unfold replay; simpl; by rewrite fold_left_app).
      by eapply at_set_user_data.
Qed.

Lemma alpha_cases c :
  xml_is_alpha c = true ->
  c <> "/"%char /\ c <> "!"%char /\ c <> "?"%char.
Proof. intros Hc. repeat split; intros ->; done. Qed.

Lemma xml_read_tag_body_at f : body_spec cb f.
Proof.
  induction f as [| kname kkids IHkids krest IHrest];
    intros fuel name close st ws tl u Hat Hws Hname Hvalid Hfuel;
    (destruct fuel as [| fuel]; [lia |]); rewrite xml_read_tag_body_eq.
  - (* no child left: the closing tag *)
    simpl in Hat, Hfuel.
    rewrite (at_not_eof _ _ _ Hat) by (by destruct ws).
    destruct (xml_eat_space_at fuel _ ws _ _ Hat) as (st1 & -> & Hat1);
      [done | done | lia |].
    cbn [mbind result_bind]. unfold and_then.
    rewrite (at_peek_is _ "<"%char _ _ _ Hat1). cbn [mbind result_bind].
    rewrite bool_decide_eq_true_2 by done.
    rewrite (at_peek_is1 _ "/"%char _ _ _ _ Hat1). cbn [mbind result_bind].
    rewrite bool_decide_eq_true_2 by done.
    unfold xml_read_closing_tag.
    rewrite (at_match _ _ _ _ Hat1). cbn [mbind result_bind].
    apply at_advance in Hat1.
    rewrite (at_match _ _ _ _ Hat1). cbn [mbind result_bind].
    apply at_advance in Hat1.
    destruct (xml_read_name_at fuel _ _ _ _ Hat1 Hname) as (st2 & -> & Hat2);
      [done | lia |].
    cbn [mbind result_bind]. rewrite (at_match _ _ _ _ Hat2).
    cbn [mbind result_bind]. apply at_advance in Hat2.
    exists (xml_advance st2). split; [done |].
    rewrite (at_user_data _ _ _ Hat2). by destruct (string_eqb close name).
  - (* a child tag, then the rest *)
    simpl in Hvalid.
    apply andb_true_iff in Hvalid as [[Hkname Hkkids]%andb_true_iff Hkrest].
    rewrite text_of_forest_cons in Hat, Hfuel.
    rewrite !length_app in Hfuel. change (length endl) with 1%nat in Hfuel.
    destruct (text_of_tag_head kname kkids) as [tl0 Htext].
    pose proof (f_equal length Htext) as Htaglen. cbn [length] in Htaglen.
    destruct (valid_name_inv _ Hkname) as (c & kname' & -> & Hc & _).
    destruct (alpha_cases c Hc) as (Hc1 & Hc2 & _).
    rewrite (at_not_eof _ _ _ Hat)
      by (rewrite Htext; by destruct ws).
    destruct (xml_eat_space_at fuel _ ws _ _ Hat) as (st1 & -> & Hat1);
      [done | by rewrite Htext | lia |].
    cbn [mbind result_bind]. unfold and_then.
    pose proof Hat1 as Hat1'. rewrite Htext in Hat1'. simpl in Hat1'.
    rewrite (at_peek_is _ "<"%char _ _ _ Hat1').
    rewrite (at_peek_is1 _ "/"%char _ _ _ _ Hat1').
    rewrite (at_peek_is1 _ "!"%char _ _ _ _ Hat1').
    rewrite (at_peek_is_not1 _ "/"%char _ _ _ _ Hat1').
    rewrite (bool_decide_eq_true_2 ("<"%char = "<"%char)) by done.
    rewrite (bool_decide_eq_false_2 (c = "/"%char)) by done.
    rewrite (bool_decide_eq_false_2 (c = "!"%char)) by done.
    cbn [mbind result_bind negb].
    destruct (xml_read_tag_at (c :: kname') kkids fuel st1
                (text_of_forest krest ++ str "</" ++ close ++ str ">" ++ tl) u)
      as (st2 & ws2 & -> & Hat2 & Hws2 & Hlen2).
    + exact IHkids.
    + eapply at_eq; [exact Hat1 | same_text].
    + done.
    + done.
    + by apply ahead_text_of_forest.
    + lia.
    + cbn [mbind result_bind].
      destruct (IHrest fuel name close st2 ws2 tl _ Hat2)
        as (st3 & Hat3 & ->); [done .. | lia |].
      exists st3. by rewrite replay_forest_cons.
Qed.

(** *** The two ways out of the attribute loop *)

Lemma xml_read_tag_attributes_open fuel name (st : state) ws tl u :
  at_ st (ws ++ str ">" ++ tl) u ->
  Forall (fun c => xml_is_space c = true) ws ->
  (length ws + 1 < fuel)%nat ->
  exists st',
    xml_read_tag_attributes cb fuel name st = Ok (ByBreak, st') /\
    at_ st' tl u.
Proof.
  intros Hat Hws Hfuel. destruct fuel as [| fuel]; [lia |].
  cbn [xml_read_tag_attributes].
  rewrite (at_not_eof _ _ _ Hat) by (by destruct ws).
  destruct (xml_eat_space_at fuel _ ws _ _ Hat) as (st1 & -> & Hat1);
    [done | done | lia |].
  cbn [mbind result_bind]. simpl in Hat1. rewrite (at_peek0 _ _ _ _ Hat1).
  cbn [mbind result_bind]. replace (xml_is_alpha ">") with false by done.
  rewrite (at_peek_is _ ">"%char _ _ _ Hat1). cbn [mbind result_bind].
  rewrite bool_decide_eq_true_2 by done.
  rewrite (at_match _ _ _ _ Hat1). cbn [mbind result_bind].
  eexists. split; [done |]. by eapply at_advance.
Qed.

Lemma xml_read_tag_attributes_close fuel name (st : state) ws ws' tl u :
  at_ st (ws ++ str "/>" ++ ws' ++ tl) u ->
  Forall (fun c => xml_is_space c = true) ws ->
  Forall (fun c => xml_is_space c = true) ws' ->
  ahead xml_is_space tl ->
  (length ws + length ws' + 1 < fuel)%nat ->
  exists st',
    xml_read_tag_attributes cb fuel name st = Ok (ByReturn, st') /\
    at_ st' tl (end_tag cb u name).
Proof.
  intros Hat Hws Hws' Htl Hfuel. destruct fuel as [| fuel]; [lia |].
  cbn [xml_read_tag_attributes].
  rewrite (at_not_eof _ _ _ Hat) by (by destruct ws).
  destruct (xml_eat_space_at fuel _ ws _ _ Hat) as (st1 & -> & Hat1);
    [done | done | lia |].
  cbn [mbind result_bind]. simpl in Hat1. rewrite (at_peek0 _ _ _ _ Hat1).
  cbn [mbind result_bind]. replace (xml_is_alpha "/") with false by done.
  rewrite (at_peek_is _ ">"%char _ _ _ Hat1). cbn [mbind result_bind].
  rewrite bool_decide_eq_false_2 by done.
  unfold and_then.
  rewrite (at_peek_is _ "/"%char _ _ _ Hat1). cbn [mbind result_bind].
  rewrite bool_decide_eq_true_2 by done.
  rewrite (at_peek_is1 _ ">"%char _ _ _ _ Hat1). cbn [mbind result_bind].
  rewrite bool_decide_eq_true_2 by done.
  rewrite (at_match _ _ _ _ Hat1). cbn [mbind result_bind].
  apply at_advance in Hat1.
  rewrite (at_match _ _ _ _ Hat1). cbn [mbind result_bind].
  apply at_advance in Hat1.
  rewrite (at_user_data _ _ _ Hat1).
  apply (at_set_user_data _ _ _ (end_tag cb u name)) in Hat1.
  destruct (xml_eat_space_at fuel _ ws' _ _ Hat1) as (st2 & -> & Hat2);
    [done | done | lia |].
  cbn [mbind result_bind]. by exists st2.
Qed.

(** The opening of a tag: its name is read and BeginTag is delivered. *)
Lemma xml_read_tag_open fuel (st : state) name tl u :
  at_ st (str "<" ++ name ++ tl) u -> valid_name name = true ->
  ahead xml_is_valid_name_char tl -> (length name < fuel)%nat ->
  exists st1,
    at_ st1 tl (begin_tag cb u name) /\
    xml_read_tag cb (S fuel) st =
      '(how, st) ← xml_read_tag_attributes cb fuel name st1;
      match how with
      | ByReturn => Ok st
      | ByBreak => xml_read_tag_body cb fuel name st
      end.
Proof.
  intros Hat Hname Htl Hfuel. rewrite xml_read_tag_eq.
  rewrite (xml_eat_space_none fuel st _ u Hat); [| done | lia].
  cbn [mbind result_bind]. simpl in Hat.
  rewrite (at_match _ _ _ _ Hat). cbn [mbind result_bind].
  apply at_advance in Hat.
  destruct (xml_read_name_at fuel _ _ _ _ Hat Hname) as (st1 & -> & Hat1);
    [done | lia |].
  cbn [mbind result_bind]. rewrite (at_user_data _ _ _ Hat1).
  eexists. split; [| done]. by eapply at_set_user_data.
Qed.

Lemma ahead_space_name_char ws tl :
  Forall (fun c => xml_is_space c = true) ws ->
  ahead xml_is_valid_name_char tl ->
  ahead xml_is_valid_name_char (ws ++ tl).
Proof.
  intros Hws Htl. destruct ws as [| c ws]; [done |]. simpl.
  inversion Hws as [| ? ? Hc _]; subst. revert Hc.
  unfold xml_is_valid_name_char, xml_is_space, xml_is_alpha, xml_is_digit,
    isspace, isalpha, isdigit.
  intros Hc. case_bool_decide as Hu; [by subst |]. lia.
Qed.

(** *** The header that serialization writes *)

Lemma xml_read_header_at fuel (st : state) tl u :
  at_ st (header_text ++ endl ++ tl) u -> ahead xml_is_space tl ->
  (12 <= fuel)%nat ->
  exists st', xml_read_header fuel st = Ok st' /\ at_ st' tl u.
Proof.
  intros Hat Htl Hfuel. unfold xml_read_header. simpl in Hat.
  do 5 (rewrite (at_match _ _ _ _ Hat); cbn [mbind result_bind];
        apply at_advance in Hat).
  destruct fuel as [| fuel]; [lia |]. cbn [xml_read_header_loop].
  rewrite (at_cons_eof _ _ _ _ Hat).
  destruct (xml_eat_space_at fuel _ [" "%char] _ _ Hat) as (st1 & -> & Hat1);
    [by repeat constructor | done | simpl; lia |].
  cbn [mbind result_bind]. rewrite (at_peek0 _ _ _ _ Hat1).
  cbn [mbind result_bind]. replace (xml_is_alpha "v") with true by done.
  destruct (xml_read_name_at fuel st1 (str "version") _ _ Hat1)
    as (st2 & -> & Hat2); [done | done | simpl; lia |].
  cbn [mbind result_bind].
  rewrite (xml_eat_space_none fuel _ _ _ Hat2); [| done | lia].
  cbn [mbind result_bind]. rewrite (at_match _ _ _ _ Hat2).
  cbn [mbind result_bind]. apply at_advance in Hat2.
  destruct (xml_parse_string_at fuel _ (str "1.0") _ _ Hat2)
    as (st3 & -> & Hat3).
  { intros H. by repeat (apply elem_of_cons in H as [H | H]; [done |]);
      apply elem_of_nil in H. }
  { simpl; lia. }
  cbn [mbind result_bind].
  destruct fuel as [| fuel]; [lia |]. cbn [xml_read_header_loop].
  rewrite (at_cons_eof _ _ _ _ Hat3).
  rewrite (xml_eat_space_none fuel _ _ _ Hat3); [| done | lia].
  cbn [mbind result_bind]. rewrite (at_peek0 _ _ _ _ Hat3).
  cbn [mbind result_bind]. replace (xml_is_alpha "?") with false by done.
  unfold and_then.
  rewrite (at_peek_is _ "?"%char _ _ _ Hat3). cbn [mbind result_bind].
  rewrite bool_decide_eq_true_2 by done.
  rewrite (at_peek_is1 _ ">"%char _ _ _ _ Hat3). cbn [mbind result_bind].
  rewrite bool_decide_eq_true_2 by done.
  rewrite (at_match _ _ _ _ Hat3). cbn [mbind result_bind].
  apply at_advance in Hat3.
  rewrite (at_match _ _ _ _ Hat3). cbn [mbind result_bind].
  apply at_advance in Hat3.
  apply (xml_eat_space_at fuel _ [LF] _ _ Hat3);
    [by repeat constructor | done | simpl; lia].
Qed.

(** *** The document loop over a sequence of tags *)

Lemma xml_read_document_loop_at f fuel first (st : state) u :
  at_ st (text_of_forest f) u -> names_valid f = true ->
  (length (text_of_forest f) + 6 < fuel)%nat ->
  exists st',
    xml_read_document_loop cb fuel first st = Ok st' /\
    user_data st' = replay cb (events_of_forest f) u.
Proof.
  revert fuel st u.
  induction f as [| kname kkids _ krest IHrest];
    intros fuel st u Hat Hvalid Hfuel;
    (destruct fuel as [| fuel]; [lia |]); cbn [xml_read_document_loop].
  - simpl in Hat. rewrite (at_nil_eof _ _ Hat).
    exists st. split; [done |]. by apply at_user_data in Hat.
  - simpl in Hvalid.
    apply andb_true_iff in Hvalid as [[Hkname Hkkids]%andb_true_iff Hkrest].
    rewrite text_of_forest_cons in Hat, Hfuel.
    rewrite !length_app in Hfuel. change (length endl) with 1%nat in Hfuel.
    destruct (text_of_tag_head kname kkids) as [tl0 Htext].
    pose proof (f_equal length Htext) as Htaglen. cbn [length] in Htaglen.
    destruct (valid_name_inv _ Hkname) as (c & kname' & -> & Hc & _).
    destruct (alpha_cases c Hc) as (Hc1 & Hc2 & Hc3).
    rewrite (at_not_eof _ _ _ Hat) by (by rewrite Htext).
    pose proof Hat as Hat'. rewrite Htext in Hat'. simpl in Hat'.
    rewrite (at_peek_is _ "<"%char _ _ _ Hat'). cbn [mbind result_bind].
    rewrite bool_decide_eq_true_2 by done.
    unfold xml_read_document_construct.
    rewrite (at_peek1 _ _ _ _ _ Hat'). cbn [mbind result_bind].
    rewrite !bool_decide_eq_false_2 by done. rewrite Hc.
    destruct (xml_read_tag_at (c :: kname') kkids fuel st
                (text_of_forest krest) u)
      as (st2 & ws2 & -> & Hat2 & Hws2 & Hlen2).
    + apply xml_read_tag_body_at.
    + exact Hat.
    + done.
    + done.
    + pose proof (ahead_text_of_forest xml_is_space krest []) as Ha.
      rewrite app_nil_r in Ha. by apply Ha.
    + lia.
    + cbn [mbind result_bind].
      destruct (xml_eat_space_at fuel _ ws2 _ _ Hat2) as (st3 & -> & Hat3).
      * done.
      * pose proof (ahead_text_of_forest xml_is_space krest []) as Ha.
        rewrite app_nil_r in Ha. by apply Ha.
      * lia.
      * cbn [mbind result_bind].
        destruct (IHrest fuel st3 _ Hat3) as (st4 & -> & Hu4);
          [done | lia |].
        exists st4. split; [done |].
        rewrite Hu4. unfold replay. simpl. by rewrite !fold_left_app.
Qed.

(** Parsing the header line followed by the text of [f] delivers the
    events of [f]. *)
Lemma xml_read_document_at f fuel u :
  names_valid f = true ->
  (length (text_of_forest f) + 12 < fuel)%nat ->
  exists st',
    xml_read_document cb fuel
      (xml_state_init (header_text ++ endl ++ text_of_forest f) u) = Ok st' /\
    user_data st' = replay cb (events_of_forest f) u.
Proof.
  intros Hvalid Hfuel. unfold xml_read_document.
  pose proof (at_init (header_text ++ endl ++ text_of_forest f) u) as Hat.
  pose proof (ahead_text_of_forest xml_is_space f []) as Ha.
  rewrite app_nil_r in Ha.
  rewrite (xml_eat_space_none fuel _ _ _ Hat); [| done | lia].
  cbn [mbind result_bind].
  destruct fuel as [| fuel]; [lia |]. cbn [xml_read_document_loop].
  rewrite (at_not_eof _ _ _ Hat) by done.
  rewrite (at_peek_is _ "<"%char "<"%char _ _ Hat). cbn [mbind result_bind].
  rewrite bool_decide_eq_true_2 by done.
  unfold xml_read_document_construct.
  rewrite (at_peek1 _ "<"%char "?"%char _ _ Hat). cbn [mbind result_bind].
  rewrite bool_decide_eq_true_2 by done. cbn [negb mbind result_bind].
  destruct (xml_read_header_at fuel _ _ _ Hat) as (st1 & -> & Hat1);
    [by apply Ha | lia |].
  cbn [mbind result_bind].
  rewrite (xml_eat_space_none fuel _ _ _ Hat1); [| by apply Ha | lia].
  cbn [mbind result_bind].
  apply xml_read_document_loop_at; [done | done | lia].
Qed.

End ParseTags.

(** ** The store of DOM entities *)

Lemma bind_Ok {A B} (r : result A) (k : A -> result B) v :
  r ≫= k = Ok v -> exists a, r = Ok a /\ k a = Ok v.
Proof. destruct r as [a | | |]; try done. intros H. by exists a. Qed.

Lemma deref_Ok h a e : Dom.deref h a = Ok e <-> h !! a = Some e.
Proof. unfold Dom.deref. destruct (h !! a); split; congruence. Qed.

Lemma assert_Ok b : Dom.assert b = Ok () <-> b = true.
Proof. unfold Dom.assert. destruct b; split; congruence. Qed.

Lemma Ok_inj {A} (a b : A) : Ok a = Ok b -> a = b.
Proof. congruence. Qed.

(** Take apart a hypothesis saying that a run in the [result] monad
    returned a value. *)
Ltac inv_ok H :=
  lazymatch type of H with
  | _ ≫= _ = Ok _ =>
      let a := fresh "a" in
      let Ha := fresh "Ha" in
      apply bind_Ok in H as (a & Ha & H); inv_ok Ha; inv_ok H
  | Dom.deref _ _ = Ok _ => apply deref_Ok in H
  | Dom.assert _ = Ok ?u => destruct u; apply assert_Ok in H
  | Ok _ = Ok _ => apply Ok_inj in H
  | (let '(_, _) := ?x in _) = Ok _ => destruct x eqn:?; inv_ok H
  | _ => idtac
  end.

Lemma index_invb_true h : index_invb h = true -> index_inv h.
Proof.
  unfold index_invb, index_inv. rewrite forallb_forall.
  intros Hall a e Hae. apply (Hall (a, e)).
  apply list_elem_of_In, list_elem_of_lookup. exists a.
  by rewrite list_lookup_imap, Hae.
Qed.

(** A store [h'] keeps the links of [h] when every child sequence of [h] is
    a prefix of the one in [h'], and every entity of [h'] either has no
    parent, or has the parent and index it has in [h], or satisfies the
    index property in [h'] outright. *)
Lemma index_inv_grow (h h' : heap) :
  index_inv h ->
  (forall p ep, h !! p = Some ep ->
     exists ep', h' !! p = Some ep' /\ m_child ep `prefix_of` m_child ep') ->
  (forall a e', h' !! a = Some e' ->
     index_holds h' a e' = true \/
     exists e, h !! a = Some e /\ m_parent e' = m_parent e /\
       m_index e' = m_index e) ->
  index_inv h'.
Proof.
  intros Hinv Hgrow Hold a e' Hae'.
  destruct (Hold a e' Hae') as [Hok | (e & Hae & Hp & Hi)]; [done |].
  specialize (Hinv a e Hae). unfold index_holds in *.
  rewrite Hp, Hi. destruct (m_parent e) as [p |]; [| done].
  destruct (h !! p) as [ep |] eqn:Hpe; [| done].
  destruct (Hgrow p ep Hpe) as (ep' & -> & Hpre).
  apply andb_true_iff in Hinv as [Hge Hlook].
  apply bool_decide_eq_true_1 in Hlook.
  rewrite Hge. simpl. apply bool_decide_eq_true_2.
  by eapply prefix_lookup_Some.
Qed.

Section DomStore.

Import Dom.

Lemma new_entity_index_inv h a h' :
  index_inv h -> new_entity h = (a, h') -> index_inv h'.
Proof.
  intros Hinv [= <- <-]. apply (index_inv_grow h); [done | |].
  - intros p ep Hp. exists ep. split; [| done]. by apply lookup_app_l_Some.
  - intros a e' Ha. destruct (decide (a < length h)%nat) as [Hlt | Hge].
    + right. exists e'. by rewrite lookup_app_l in Ha.
    + left. rewrite lookup_app_r in Ha by lia.
      destruct (a - length h)%nat; [| done].
      by injection Ha as <-.
Qed.

(** An update of one entity that keeps its parent, index and children. *)
Lemma update_index_inv h a e e' :
  index_inv h -> h !! a = Some e ->
  m_parent e' = m_parent e -> m_index e' = m_index e ->
  m_child e' = m_child e ->
  index_inv (<[a := e']> h).
Proof.
  intros Hinv Ha Hp Hi Hc. apply (index_inv_grow h); [done | |].
  - intros p ep Hpe. destruct (decide (p = a)) as [-> | Hne].
    + exists e'. rewrite list_lookup_insert_eq by by eapply lookup_lt_Some.
      split; [done |]. rewrite Hc. by replace ep with e by congruence.
    + exists ep. by rewrite list_lookup_insert_ne.
  - intros b eb Hb. right. destruct (decide (b = a)) as [-> | Hne].
    + rewrite list_lookup_insert_eq in Hb by by eapply lookup_lt_Some.
      injection Hb as <-. by exists e.
    + rewrite list_lookup_insert_ne in Hb by done. by exists eb.
Qed.

Lemma set_type_index_inv h a t h' :
  index_inv h -> set_type h a t = Ok h' -> index_inv h'.
Proof.
  unfold set_type. intros Hinv H. inv_ok H. subst h'.
  by eapply update_index_inv.
Qed.

Lemma set_name_index_inv h a n h' :
  index_inv h -> set_name h a n = Ok h' -> index_inv h'.
Proof.
  unfold set_name. intros Hinv H. inv_ok H. subst h'.
  by eapply update_index_inv.
Qed.

Lemma set_value_index_inv h a v h' :
  index_inv h -> set_value h a v = Ok h' -> index_inv h'.
Proof.
  unfold set_value. intros Hinv H. inv_ok H. subst h'.
  by eapply update_index_inv.
Qed.

(** What [add_child] does to the store. *)
Lemma add_child_Ok h this child h' :
  add_child h this child = Ok h' ->
  exists e c e' c',
    h !! this = Some e /\ h !! child = Some c /\ valid e = true /\
    h' !! this = Some e' /\ h' !! child = Some c' /\
    length h' = length h /\
    (forall a, a <> this -> a <> child -> h' !! a = h !! a) /\
    m_child e' = m_child e ++ [child] /\
    m_type e' = m_type e /\ m_name e' = m_name e /\ m_value e' = m_value e /\
    (this <> child ->
       m_parent e' = m_parent e /\ m_index e' = m_index e /\
       m_child c' = m_child c) /\
    m_parent c' = Some this /\
    m_index c' = Z.of_nat (length (m_child e)) /\
    m_type c' = m_type c /\ m_name c' = m_name c /\ m_value c' = m_value c.
Proof.
  unfold add_child, num_children. intros H.
  apply bind_Ok in H as (e & He%deref_Ok & H).
  apply bind_Ok in H as ([] & Hv%assert_Ok & H).
  apply bind_Ok in H as (c & Hc%deref_Ok & H).
  apply bind_Ok in H as (n & Hn & H).
  apply bind_Ok in Hn as (e1 & He1%deref_Ok & Hn).
  apply bind_Ok in Hn as ([] & _ & <-%Ok_inj).
  apply bind_Ok in H as (c1 & Hc1%deref_Ok & H).
  apply bind_Ok in H as (e2 & He2%deref_Ok & <-%Ok_inj).
  pose proof (lookup_lt_Some _ _ _ He) as Hlt.
  pose proof (lookup_lt_Some _ _ _ Hc) as Hltc.
  destruct (decide (this = child)) as [-> | Hne].
  - rewrite list_lookup_insert_eq in He1, Hc1 by done.
    injection He1 as <-. injection Hc1 as <-.
    rewrite list_lookup_insert_eq in He2 by (by rewrite length_insert).
    injection He2 as <-.
    assert (e = c) as -> by congruence.
    eexists c, c, _, _. split; [done |]. split; [done |]. split; [done |].
    rewrite !list_lookup_insert_eq by (by rewrite !length_insert).
    split; [done |]. split; [done |].
    rewrite !length_insert. split; [done |].
    split; [intros a Hn1 Hn2; by rewrite !list_lookup_insert_ne |].
    by simpl.
  - rewrite list_lookup_insert_ne in He1 by done.
    rewrite list_lookup_insert_eq in Hc1 by done.
    injection Hc1 as <-.
    rewrite !list_lookup_insert_ne in He2 by done.
    assert (e1 = e) as -> by congruence.
    assert (e2 = e) as -> by congruence.
    eexists e, c, _, _. split; [done |]. split; [done |]. split; [done |].
    rewrite list_lookup_insert_eq by (by rewrite !length_insert).
    rewrite list_lookup_insert_ne by done.
    rewrite list_lookup_insert_eq by (by rewrite !length_insert).
    split; [done |]. split; [done |].
    rewrite !length_insert. split; [done |].
    split; [intros a Hn1 Hn2; by rewrite !list_lookup_insert_ne |].
    by simpl.
Qed.

Lemma add_child_index_inv h this child h' :
  index_inv h -> add_child h this child = Ok h' -> index_inv h'.
Proof.
  intros Hinv H.
  destruct (add_child_Ok _ _ _ _ H)
    as (e & c & e' & c' & He & Hc & Hv & He' & Hc' & Hlen & Hframe & Hch
        & _ & _ & _ & Hsame & Hcp & Hci & _).
  apply (index_inv_grow h); [done | |].
  - intros p ep Hp. destruct (decide (p = this)) as [-> | Hn1].
    + exists e'. split; [done |]. rewrite Hch.
      replace ep with e by congruence. by apply prefix_app_r.
    + destruct (decide (p = child)) as [-> | Hn2].
      * exists c'. split; [done |].
        destruct Hsame as (_ & _ & ->); [done |].
        by replace ep with c by congruence.
      * exists ep. by rewrite Hframe.
  - intros a ea Ha. destruct (decide (a = child)) as [-> | Hn2].
    + left. replace ea with c' by congruence. unfold index_holds.
      rewrite Hcp, He', Hci, Hch.
      replace (0 <=? Z.of_nat (length (m_child e))) with true by lia.
      simpl. apply bool_decide_eq_true_2.
      rewrite Nat2Z.id. by apply list_lookup_middle.
    + right. destruct (decide (a = this)) as [-> | Hn1].
      * exists e. replace ea with e' by congruence.
        destruct Hsame as (-> & -> & _); done.
      * exists ea. by rewrite <- Hframe.
Qed.

End DomStore.

Section IndexInvariant.

Import Dom.

Lemma add_tag_index_inv h this name a h' :
  index_inv h -> add_tag h this name = Ok (a, h') -> index_inv h'.
Proof.
  unfold add_tag. intros Hinv H.
  apply bind_Ok in H as (e & _ & H). apply bind_Ok in H as (? & _ & H).
  destruct (new_entity h) as [tag h0] eqn:Hnew.
  apply bind_Ok in H as (h1 & H1 & H). apply bind_Ok in H as (h2 & H2 & H).
  apply bind_Ok in H as (h3 & H3 & [= <- <-]).
  eapply add_child_index_inv, H3. eapply set_name_index_inv, H2.
  eapply set_type_index_inv, H1. by eapply new_entity_index_inv.
Qed.

Lemma add_attribute_index_inv h this name value a h' :
  index_inv h -> add_attribute h this name value = Ok (a, h') -> index_inv h'.
Proof.
  unfold add_attribute. intros Hinv H.
  apply bind_Ok in H as (e & _ & H). apply bind_Ok in H as (? & _ & H).
  destruct (new_entity h) as [attr h0] eqn:Hnew.
  apply bind_Ok in H as (h1 & H1 & H). apply bind_Ok in H as (h2 & H2 & H).
  apply bind_Ok in H as (h3 & H3 & H).
  apply bind_Ok in H as (h4 & H4 & [= <- <-]).
  eapply add_child_index_inv, H4. eapply set_value_index_inv, H3.
  eapply set_name_index_inv, H2. eapply set_type_index_inv, H1.
  by eapply new_entity_index_inv.
Qed.

Lemma add_comment_index_inv h this c a h' :
  index_inv h -> add_comment h this c = Ok (a, h') -> index_inv h'.
Proof.
  unfold add_comment. intros Hinv H.
  apply bind_Ok in H as (e & _ & H). apply bind_Ok in H as (? & _ & H).
  destruct (new_entity h) as [comm h0] eqn:Hnew.
  apply bind_Ok in H as (h1 & H1 & H). apply bind_Ok in H as (h2 & H2 & H).
  apply bind_Ok in H as (h3 & H3 & [= <- <-]).
  eapply add_child_index_inv, H3. eapply set_value_index_inv, H2.
  eapply set_type_index_inv, H1. by eapply new_entity_index_inv.
Qed.

Lemma xml_dom_begin_tag_cb_index_inv h stack name h' stack' :
  index_inv h -> xml_dom_begin_tag_cb (Ok (h, stack)) name = Ok (h', stack') ->
  index_inv h'.
Proof.
  unfold xml_dom_begin_tag_cb. intros Hinv H. cbn [mbind result_bind] in H.
  destruct (new_entity h) as [tag h0] eqn:Hnew.
  apply bind_Ok in H as (h1 & H1 & H). apply bind_Ok in H as (h2 & H2 & H).
  apply bind_Ok in H as (top & _ & H).
  apply bind_Ok in H as (h3 & H3 & [= <- <-]).
  eapply add_child_index_inv, H3. eapply set_name_index_inv, H2.
  eapply set_type_index_inv, H1. by eapply new_entity_index_inv.
Qed.

Lemma xml_dom_end_tag_cb_index_inv h stack name h' stack' :
  index_inv h -> xml_dom_end_tag_cb (Ok (h, stack)) name = Ok (h', stack') ->
  index_inv h'.
Proof.
  unfold xml_dom_end_tag_cb. intros Hinv H. cbn [mbind result_bind] in H.
  by apply bind_Ok in H as (? & _ & [= <- <-]).
Qed.

Lemma xml_dom_tag_text_cb_index_inv h stack text h' stack' :
  index_inv h -> xml_dom_tag_text_cb (Ok (h, stack)) text = Ok (h', stack') ->
  index_inv h'.
Proof.
  unfold xml_dom_tag_text_cb. intros Hinv H. cbn [mbind result_bind] in H.
  apply bind_Ok in H as (top & _ & H).
  apply bind_Ok in H as (h1 & H1 & [= <- <-]).
  by eapply set_value_index_inv, H1.
Qed.

Lemma xml_dom_comment_cb_index_inv h stack c h' stack' :
  index_inv h -> xml_dom_comment_cb (Ok (h, stack)) c = Ok (h', stack') ->
  index_inv h'.
Proof.
  unfold xml_dom_comment_cb. intros Hinv H. cbn [mbind result_bind] in H.
  destruct (new_entity h) as [text h0] eqn:Hnew.
  apply bind_Ok in H as (h1 & H1 & H). apply bind_Ok in H as (h2 & H2 & H).
  apply bind_Ok in H as (top & _ & H).
  apply bind_Ok in H as (h3 & H3 & [= <- <-]).
  eapply add_child_index_inv, H3. eapply set_value_index_inv, H2.
  eapply set_type_index_inv, H1. by eapply new_entity_index_inv.
Qed.

Lemma xml_dom_attribute_cb_index_inv h stack name value h' stack' :
  index_inv h ->
  xml_dom_attribute_cb (Ok (h, stack)) name value = Ok (h', stack') ->
  index_inv h'.
Proof.
  unfold xml_dom_attribute_cb. intros Hinv H. cbn [mbind result_bind] in H.
  destruct (new_entity h) as [attrib h0] eqn:Hnew.
  apply bind_Ok in H as (h1 & H1 & H). apply bind_Ok in H as (h2 & H2 & H).
  apply bind_Ok in H as (h3 & H3 & H).
  apply bind_Ok in H as (top & _ & H).
  apply bind_Ok in H as (h4 & H4 & [= <- <-]).
  eapply add_child_index_inv, H4. eapply set_value_index_inv, H3.
  eapply set_name_index_inv, H2. eapply set_type_index_inv, H1.
  by eapply new_entity_index_inv.
Qed.

(** The store made by [xml_dom_parse] before it starts the parser. *)
Lemma new_document_index_inv :
  index_inv [with_type xml_dom_entity_new XML_DOM_DOCUMENT].
Proof. by apply index_invb_true. Qed.

End IndexInvariant.

(** C9. In a store where every entity that has a parent is found at its own
    [m_index] in the child sequence of that parent, the same holds after
    [add_child], [add_tag], [add_attribute], [add_comment] and after each
    of the five callbacks of the DOM builder, whenever the operation
    returns.  [add_child] appends the child to the end of the child
    sequence of the receiver, and leaves the child with the receiver as
    parent and with the position of that last element as index. *)
Theorem index_invariant_preserved :
  forall h : heap, index_inv h ->
    (forall this child h',
       Dom.add_child h this child = Ok h' ->
       index_inv h' /\
       exists e e' c',
         h !! this = Some e /\ h' !! this = Some e' /\
         h' !! child = Some c' /\
         m_child e' = m_child e ++ [child] /\
         m_parent c' = Some this /\
         m_index c' = Z.of_nat (length (m_child e')) - 1) /\
    (forall this name a h',
       Dom.add_tag h this name = Ok (a, h') -> index_inv h') /\
    (forall this name value a h',
       Dom.add_attribute h this name value = Ok (a, h') -> index_inv h') /\
    (forall this c a h',
       Dom.add_comment h this c = Ok (a, h') -> index_inv h') /\
    (forall stack name h' stack',
       Dom.xml_dom_begin_tag_cb (Ok (h, stack)) name = Ok (h', stack') ->
       index_inv h') /\
    (forall stack name h' stack',
       Dom.xml_dom_end_tag_cb (Ok (h, stack)) name = Ok (h', stack') ->
       index_inv h') /\
    (forall stack text h' stack',
       Dom.xml_dom_tag_text_cb (Ok (h, stack)) text = Ok (h', stack') ->
       index_inv h') /\
    (forall stack c h' stack',
       Dom.xml_dom_comment_cb (Ok (h, stack)) c = Ok (h', stack') ->
       index_inv h') /\
    (forall stack name value h' stack',
       Dom.xml_dom_attribute_cb (Ok (h, stack)) name value = Ok (h', stack') ->
       index_inv h').
Proof.
  intros h Hinv. repeat split.
  - by eapply add_child_index_inv.
  - destruct (add_child_Ok _ _ _ _ H)
      as (e & c & e' & c' & He & Hc & Hv & He' & Hc' & Hlen & Hframe & Hch
          & _ & _ & _ & _ & Hcp & Hci & _).
    exists e, e', c'. repeat split; try done.
    rewrite Hci, Hch, length_app. simpl. lia.
  - intros. by eapply add_tag_index_inv.
  - intros. by eapply add_attribute_index_inv.
  - intros. by eapply add_comment_index_inv.
  - intros. by eapply xml_dom_begin_tag_cb_index_inv.
  - intros. by eapply xml_dom_end_tag_cb_index_inv.
  - intros. by eapply xml_dom_tag_text_cb_index_inv.
  - intros. by eapply xml_dom_comment_cb_index_inv.
  - intros. by eapply xml_dom_attribute_cb_index_inv.
Qed.

Lemma index_invariant_preserved_witness :
  (exists h', Dom.add_child detached_tag_store 0 1 = Ok h' /\ index_inv h' /\
     exists e e' c',
       detached_tag_store !! 0%nat = Some e /\ h' !! 0%nat = Some e' /\
       h' !! 1%nat = Some c' /\ m_child e' = m_child e ++ [1%nat] /\
       m_parent c' = Some 0%nat /\
       m_index c' = Z.of_nat (length (m_child e')) - 1) /\
  (exists h', Dom.add_tag detached_tag_store 0 (str "b") = Ok (2%nat, h') /\
     index_inv h').
Proof.
  assert (index_inv detached_tag_store) as Hinv
    by (apply index_invb_true; reflexivity).
  destruct (index_invariant_preserved detached_tag_store Hinv)
    as (Hchild & Htag & _).
  split.
  - eexists. split; [vm_compute; reflexivity |]. apply Hchild.
    vm_compute. reflexivity.
  - eexists. split; [vm_compute; reflexivity |].
    apply (Htag 0%nat (str "b") 2%nat).
    vm_compute. reflexivity.
Defined.

(** ** Stepping through the children of an entity *)

Section Navigation.

Import Dom.

Lemma num_children_Ok h p ep :
  h !! p = Some ep -> valid ep = true ->
  num_children h p = Ok (Z.of_nat (length (m_child ep))).
Proof.
  intros Hp Hv. unfold num_children, deref. rewrite Hp. simpl. by rewrite Hv.
Qed.

Lemma get_child_Ok h p ep (i : nat) c :
  h !! p = Some ep -> valid ep = true -> m_child ep !! i = Some c ->
  get_child h p (Z.of_nat i) = Ok c.
Proof.
  intros Hp Hv Hc. unfold get_child. rewrite (num_children_Ok h p ep Hp Hv).
  unfold deref. rewrite Hp. simpl. rewrite Hv. simpl.
  pose proof (lookup_lt_Some _ _ _ Hc) as Hlt.
  replace (0 <=? Z.of_nat i) with true by lia.
  replace (Z.of_nat i <? Z.of_nat (length (m_child ep))) with true by lia.
  simpl. by rewrite Nat2Z.id, Hc.
Qed.

(** [next_child] from the child at position [i] gives the child at position
    [i+1], and [NULL] from the last child. *)
Lemma next_child_at h p i c ep :
  child_at h p i c -> h !! p = Some ep ->
  next_child h p c = Ok (m_child ep !! S i).
Proof.
  intros (ep' & ec & Hp & Hv & Hc & Hec & Hpar & Hidx) Hep.
  assert (ep' = ep) as -> by congruence.
  unfold next_child, deref. rewrite Hec. simpl. rewrite Hpar.
  rewrite bool_decide_eq_true_2 by done. simpl.
  rewrite (num_children_Ok h p ep Hp Hv). simpl. rewrite Hidx.
  replace (0 <=? Z.of_nat i) with true by lia. simpl.
  destruct (m_child ep !! S i) as [d |] eqn:Hd.
  - pose proof (lookup_lt_Some _ _ _ Hd) as Hlt.
    replace (Z.of_nat i <? Z.of_nat (length (m_child ep)) - 1) with true by lia.
    replace (Z.of_nat i + 1) with (Z.of_nat (S i)) by lia.
    by rewrite (get_child_Ok h p ep (S i) d).
  - apply lookup_ge_None in Hd.
    by replace (Z.of_nat i <? Z.of_nat (length (m_child ep)) - 1)
      with false by lia.
Qed.

(** What [previous_child] returns from the child at position [i] of [n]
    children: the child before it when [0 < i < n-1]; it stops at a failed
    [assert] of [get_child] when [i = 0 < n-1]; and [NULL] when
    [i = n-1]. *)
Lemma previous_child_at h p i c ep :
  child_at h p i c -> h !! p = Some ep ->
  previous_child h p c =
    if (S i <? length (m_child ep))%nat
    then match i with
         | O => Aborted
         | S j => match m_child ep !! j with
                  | Some d => Ok (Some d)
                  | None => Aborted
                  end
         end
    else Ok None.
Proof.
  intros (ep' & ec & Hp & Hv & Hc & Hec & Hpar & Hidx) Hep.
  assert (ep' = ep) as -> by congruence.
  unfold previous_child, deref. rewrite Hec. simpl. rewrite Hpar.
  rewrite bool_decide_eq_true_2 by done. simpl.
  rewrite (num_children_Ok h p ep Hp Hv). simpl. rewrite Hidx.
  replace (0 <=? Z.of_nat i) with true by lia. simpl.
  destruct (S i <? length (m_child ep))%nat eqn:Hlt.
  - apply Nat.ltb_lt in Hlt.
    replace (Z.of_nat i <? Z.of_nat (length (m_child ep)) - 1) with true by lia.
    destruct i as [| j].
    + unfold get_child, deref. rewrite Hp. simpl. rewrite Hv. simpl.
      by rewrite (num_children_Ok h p ep Hp Hv).
    + replace (Z.of_nat (S j) - 1) with (Z.of_nat j) by lia.
      destruct (m_child ep !! j) as [d |] eqn:Hd.
      * by rewrite (get_child_Ok h p ep j d).
      * apply lookup_ge_None in Hd. lia.
  - apply Nat.ltb_ge in Hlt.
    by replace (Z.of_nat i <? Z.of_nat (length (m_child ep)) - 1)
      with false by lia.
Qed.

End Navigation.

(** C2. For a document (address 0) with two children, the tags at
    addresses 1 and 2: [next_child] returns the second child from the first
    and [NULL] from the second; [previous_child] returns [NULL] from the
    second child, where the first child is expected, and stops at the
    failed [assert] of [get_child(-1)] from the first child, where [NULL]
    is expected. *)
Theorem previous_child_guard :
  exists h,
    two_children = Ok h /\
    Dom.next_child h 0 1 = Ok (Some 2%nat) /\
    Dom.next_child h 0 2 = Ok None /\
    Dom.previous_child h 0 2 = Ok None /\
    Dom.previous_child h 0 1 = Aborted.
Proof. eexists. split; [vm_compute; reflexivity |]. repeat split. Qed.

(** ** Stores that hold a sequence of tags *)

Section Repr.

Import Dom.

Lemma repr_length h lo f cs p i : repr h lo f cs p i -> length cs = ftop f.
Proof.
  revert cs i. induction f as [| name kids _ rest IH]; intros [| c cs] i;
    simpl; try done.
  intros [_ Hrest]. f_equal. by eapply IH.
Qed.

Lemma ftop_fsize f : (ftop f <= fsize f)%nat.
Proof. induction f; simpl; lia. Qed.

(** Only the entities of the tags matter. *)
Lemma repr_frame h h' lo lo' f cs p i :
  repr h lo f cs p i -> (lo' <= lo)%nat ->
  (forall a e, (lo <= a)%nat -> h !! a = Some e -> h' !! a = Some e) ->
  repr h' lo' f cs p i.
Proof.
  intros H Hlo Hsame. revert cs p i H.
  induction f as [| name kids IHk rest IHr]; intros [| c cs] p i;
    simpl; try done.
  intros [(e & He & Hc & Ht & Hn & Hv & Hp & Hi & Hkids) Hrest].
  split; [| by apply IHr].
  exists e. repeat split; try done; [by apply Hsame | lia | by apply IHk].
Qed.

Lemma repr_app h lo f g cs ds p i :
  repr h lo f cs p i -> repr h lo g ds p (i + length cs) ->
  repr h lo (fapp f g) (cs ++ ds) p i.
Proof.
  revert cs i. induction f as [| name kids _ rest IH]; intros [| c cs] i;
    simpl; try done.
  - intros _. by rewrite Nat.add_0_r.
  - intros [Hc Hrest] Hg. split; [done |]. apply IH; [done |].
    by replace (S i + length cs)%nat with (i + S (length cs))%nat by lia.
Qed.

Lemma names_valid_fapp f g :
  names_valid (fapp f g) = names_valid f && names_valid g.
Proof.
  induction f as [| name kids _ rest IH]; simpl; [done |].
  rewrite IH. by rewrite !andb_assoc.
Qed.

Lemma snapshot_repr h lo f cs p i fuel :
  repr h lo f cs p i -> (fdepth f < fuel)%nat ->
  mapM (snapshot fuel h) cs = Some (trees_of f).
Proof.
  revert f cs p i. induction fuel as [| fuel IHfuel]; intros f; [lia |].
  induction f as [| name kids _ rest IHr]; intros [| c cs] p i;
    simpl; try done.
  intros [(e & He & Hc & Ht & Hn & Hv & Hp & Hi & Hkids) Hrest] Hfuel.
  rewrite He. simpl.
  rewrite (IHfuel kids (m_child e) c 0%nat Hkids) by lia. simpl.
  specialize (IHr cs p (S i) Hrest). simpl in IHr.
  rewrite IHr by lia. simpl. by rewrite Ht, Hn, Hv.
Qed.

Lemma snapshot_doc_repr h lo root f fuel :
  doc_repr h lo root f -> (S (fdepth f) < fuel)%nat ->
  snapshot fuel h root = Some (DomNode XML_DOM_DOCUMENT [] [] (trees_of f)).
Proof.
  intros (e & He & Ht & Hn & Hv & Hrepr) Hfuel.
  destruct fuel as [| fuel]; [lia |]. simpl. rewrite He. simpl.
  rewrite (snapshot_repr h lo f (m_child e) root 0%nat fuel Hrepr) by lia.
  simpl. by rewrite Ht, Hn, Hv.
Qed.

End Repr.

(** *** Writing a sequence of tags *)

Section Serialize.

Import Dom.

Lemma drop_cons_inv {A} (l : list A) i c cs :
  drop i l = c :: cs -> l !! i = Some c /\ drop (S i) l = cs.
Proof.
  intros H. split.
  - rewrite <- (Nat.add_0_r i), <- lookup_drop. by rewrite H.
  - replace (S i) with (i + 1)%nat by lia. rewrite <- drop_drop. by rewrite H.
Qed.

Lemma head_drop {A} (l : list A) i : head (drop i l) = l !! i.
Proof. by rewrite head_lookup, lookup_drop, Nat.add_0_r. Qed.

Lemma first_child_Ok h p ep :
  h !! p = Some ep -> valid ep = true ->
  first_child h p = Ok (head (m_child ep)).
Proof.
  intros Hp Hv. unfold first_child.
  rewrite (num_children_Ok h p ep Hp Hv). cbn [mbind result_bind].
  destruct (m_child ep) as [| c cs] eqn:Hcs; [done |].
  replace (0 <? Z.of_nat (length (c :: cs))) with true
    by (symmetry; apply Z.ltb_lt; rewrite length_cons; lia).
  pose proof (get_child_Ok h p ep 0%nat c Hp Hv) as Hget.
  change (Z.of_nat 0) with 0 in Hget. rewrite Hget; [done | by rewrite Hcs].
Qed.

(** The defining equations of the two mutually recursive functions. *)
Lemma operator_out_eq fuel h item :
  operator_out (S fuel) h item =
    t ← get_type h item;
    if bool_decide (t = XML_DOM_ATTRIBUTE) then Fatal CannotStreamAttribute
    else
      t ← get_type h item;
      opening ←
        match t with
        | XML_DOM_TAG =>
            name ← get_name h item;
            attr ← first_child_attribute fuel h item;
            attrs ← stream_attributes fuel h attr;
            b ← has_no_content fuel h item;
            if b : bool
            then Ok (str "<" ++ name ++ attrs ++ str " />" ++ endl)
            else
              v ← get_value h item;
              Ok (str "<" ++ name ++ attrs ++ str ">" ++ v ++ endl)
        | XML_DOM_COMMENT =>
            v ← get_value h item;
            Ok (str "<!-- " ++ v ++ str "-->" ++ endl)
        | XML_DOM_DOCUMENT =>
            Ok (str "<?xml version=" ++ [DQUOTE] ++ str "1.0" ++ [DQUOTE]
                ++ str "?>" ++ endl)
        | XML_DOM_ATTRIBUTE | XML_DOM_INVALID => Ok []
        end;
      child ← first_child h item;
      children ← stream_children fuel h child;
      t ← get_type h item;
      b ← (if bool_decide (t = XML_DOM_TAG)
           then has_content fuel h item else Ok false);
      if b : bool
      then
        name ← get_name h item;
        Ok (opening ++ children ++ str "</" ++ name ++ str ">" ++ endl)
      else Ok (opening ++ children).
Proof. done. Qed.

Lemma stream_children_eq fuel h child :
  stream_children (S fuel) h child =
    match child with
    | None => Ok []
    | Some c =>
        t ← get_type h c;
        out ← (if negb (bool_decide (t = XML_DOM_ATTRIBUTE))
               then operator_out fuel h c else Ok []);
        child ← next_sibling h c;
        rest ← stream_children fuel h child;
        Ok (out ++ rest)
    end.
Proof. done. Qed.

Context (h : heap) (lo : nat).

(** No child of another type is found among tags. *)
Lemma next_of_type_tags f cs p i ep fuel type :
  repr h lo f cs p i -> h !! p = Some ep -> valid ep = true ->
  drop i (m_child ep) = cs -> type <> XML_DOM_TAG ->
  (length cs < fuel)%nat ->
  next_of_type fuel h p (head cs) type = Ok None.
Proof.
  intros Hrepr Hp Hv. revert cs i fuel Hrepr.
  induction f as [| name kids _ rest IH]; intros [| c cs] i fuel;
    simpl; try done; intros Hrepr Hdrop Htype Hfuel;
    (destruct fuel as [| fuel]; [lia |]); [done |].
  destruct Hrepr as [(e & He & Hc & Ht & Hn & Hval & Hpar & Hi & Hkids) Hrest].
  apply drop_cons_inv in Hdrop as [Hlook Hdrop].
  cbn [next_of_type]. unfold deref. rewrite He. cbn [mbind result_bind].
  rewrite Ht. rewrite bool_decide_eq_false_2 by done.
  rewrite (next_child_at h p i c ep); [| by exists ep, e | done].
  cbn [mbind result_bind]. rewrite <- head_drop, Hdrop.
  apply (IH cs (S i)); try done. lia.
Qed.

Lemma first_child_attribute_tags f p ep fuel :
  repr h lo f (m_child ep) p 0 -> h !! p = Some ep -> valid ep = true ->
  (length (m_child ep) < fuel)%nat ->
  first_child_attribute fuel h p = Ok None.
Proof.
  intros Hrepr Hp Hv Hfuel. unfold first_child_attribute, first_child_type.
  rewrite (num_children_Ok h p ep Hp Hv). cbn [mbind result_bind].
  destruct (0 <? Z.of_nat (length (m_child ep))); [| done].
  rewrite (first_child_Ok h p ep Hp Hv). cbn [mbind result_bind].
  by eapply (next_of_type_tags f (m_child ep) p 0%nat ep).
Qed.

Lemma first_child_tag_tags f p ep fuel :
  repr h lo f (m_child ep) p 0 -> h !! p = Some ep -> valid ep = true ->
  (0 < fuel)%nat ->
  first_child_tag fuel h p = Ok (head (m_child ep)).
Proof.
  intros Hrepr Hp Hv Hfuel. unfold first_child_tag, first_child_type.
  rewrite (num_children_Ok h p ep Hp Hv). cbn [mbind result_bind].
  destruct (m_child ep) as [| c cs] eqn:Hcs; [done |].
  replace (0 <? Z.of_nat (length (c :: cs))) with true
    by (symmetry; apply Z.ltb_lt; rewrite length_cons; lia).
  rewrite (first_child_Ok h p ep Hp Hv). cbn [mbind result_bind].
  rewrite Hcs. destruct fuel as [| fuel]; [lia |].
  destruct f as [| name kids rest]; [done |].
  destruct Hrepr as [(e & He & _ & Ht & _) _].
  simpl. unfold deref. rewrite He. cbn [mbind result_bind].
  by rewrite Ht, bool_decide_eq_true_2.
Qed.

Lemma valid_tag e : m_type e = XML_DOM_TAG -> valid e = true.
Proof. unfold valid. by intros ->. Qed.

(** [stream_children] from a child of [p] writes the tags from that child
    on; [operator_out] on a tag writes the tag. *)
Lemma stream_children_repr f cs p i ep fuel :
  repr h lo f cs p i -> h !! p = Some ep -> valid ep = true ->
  drop i (m_child ep) = cs -> (fsize f + 2 < fuel)%nat ->
  stream_children fuel h (head cs) = Ok (text_of_forest f).
Proof.
  revert cs p i ep fuel.
  induction f as [| name kids IHk rest IHr]; intros [| c cs] p i ep fuel;
    simpl; try done; intros Hrepr Hp Hv Hdrop Hfuel;
    (destruct fuel as [| fuel]; [lia |]); [done |].
  destruct Hrepr as [(e & He & Hc & Ht & Hn & Hval & Hpar & Hi & Hkids) Hrest].
  apply drop_cons_inv in Hdrop as [Hlook Hdrop].
  pose proof (valid_tag e Ht) as Hve.
  pose proof (repr_length _ _ _ _ _ _ Hkids) as Hlen.
  pose proof (ftop_fsize kids) as Htop.
  rewrite stream_children_eq. unfold get_type at 1, deref.
  rewrite He. cbn [mbind result_bind]. rewrite Ht.
  rewrite bool_decide_eq_false_2 by done. cbn [negb].
  (* the tag itself *)
  assert (operator_out fuel h c
          = Ok (text_of_tag name kids ++ endl)) as ->.
  { destruct fuel as [| fuel]; [lia |]. rewrite operator_out_eq.
    unfold get_type, get_name, get_value, deref. rewrite He.
    cbn [mbind result_bind]. rewrite Ht, Hve.
    rewrite bool_decide_eq_false_2 by done. cbn [assert mbind result_bind].
    rewrite (first_child_attribute_tags kids c e) by (done || lia).
    cbn [mbind result_bind].
    destruct fuel as [| fuel]; [lia |]. cbn [stream_attributes].
    cbn [mbind result_bind].
    unfold has_no_content, has_content, get_value, deref.
    rewrite (first_child_tag_tags kids c e) by (done || lia).
    cbn [mbind result_bind]. rewrite He. cbn [mbind result_bind].
    rewrite Hve. cbn [assert mbind result_bind].
    rewrite (first_child_Ok h c e He Hve). cbn [mbind result_bind].
    rewrite (IHk (m_child e) c 0%nat e (S fuel) Hkids He Hve) by (done || lia).
    cbn [mbind result_bind]. rewrite bool_decide_eq_true_2 by done.
    rewrite Hval, Hn.
    destruct (m_child e) as [| d ds] eqn:Hch.
    - destruct kids; [| done]. simpl. rewrite app_nil_r. f_equal. same_text.
    - destruct kids as [| kname kkids krest]; [done |]. cbn [head].
      cbn [mbind result_bind]. unfold text_of_tag.
      remember (text_of_forest (Fcons kname kkids krest)) as tk.
      f_equal. same_text. }
  cbn [mbind result_bind].
  unfold next_sibling, deref. rewrite He. cbn [mbind result_bind].
  rewrite Hpar.
  rewrite (next_child_at h p i c ep); [| by exists ep, e | done].
  cbn [mbind result_bind]. rewrite <- head_drop, Hdrop.
  rewrite (IHr cs p (S i) ep fuel Hrest Hp Hv Hdrop) by lia.
  cbn [mbind result_bind]. f_equal. same_text.
Qed.

(** Writing a document whose children are the tags of [f]. *)
Lemma operator_out_doc_repr root f fuel :
  doc_repr h lo root f -> (fsize f + 3 < fuel)%nat ->
  operator_out fuel h root
  = Ok (header_text ++ endl ++ text_of_forest f).
Proof.
  intros (e & He & Ht & Hn & Hv & Hrepr) Hfuel.
  assert (valid e = true) as Hve by (unfold valid; by rewrite Ht).
  destruct fuel as [| fuel]; [lia |]. rewrite operator_out_eq.
  unfold get_type, deref. rewrite He. cbn [mbind result_bind]. rewrite Ht.
  rewrite bool_decide_eq_false_2 by done. cbn [mbind result_bind].
  rewrite (first_child_Ok h root e He Hve). cbn [mbind result_bind].
  rewrite (stream_children_repr f (m_child e) root 0%nat e fuel Hrepr He Hve)
    by (done || lia).
  cbn [mbind result_bind]. rewrite bool_decide_eq_false_2 by done.
  cbn [mbind result_bind]. f_equal.
Qed.

End Serialize.

(** *** Attaching a new tag *)

Section Attach.

Import Dom.

Lemma insert_last (h : heap) e e' : <[length h := e']> (h ++ [e]) = h ++ [e'].
Proof.
  rewrite insert_app_r_alt by lia. by rewrite Nat.sub_diag.
Qed.

Lemma lookup_last (h : heap) e : (h ++ [e]) !! length h = Some e.
Proof. by rewrite lookup_app_r, Nat.sub_diag by lia. Qed.

(** [new], [set_type( XML_DOM_TAG )], [set_name( name )]. *)
Lemma new_tag_Ok h name :
  (h1 ← set_type (h ++ [xml_dom_entity_new]) (length h) XML_DOM_TAG;
   set_name h1 (length h) name)
  = Ok (h ++ [tag_entity name None (-1)]).
Proof.
  unfold set_type, set_name, deref. rewrite lookup_last.
  cbn [mbind result_bind]. rewrite insert_last, lookup_last.
  cbn [mbind result_bind]. by rewrite insert_last.
Qed.

Lemma add_child_new h top etop name :
  h !! top = Some etop -> valid etop = true ->
  add_child (h ++ [tag_entity name None (-1)]) top (length h)
  = Ok (attached h top etop name).
Proof.
  intros Htop Hv. pose proof (lookup_lt_Some _ _ _ Htop) as Hlt.
  unfold add_child, num_children, deref.
  rewrite (lookup_app_l_Some _ _ _ _ Htop). cbn [mbind result_bind].
  rewrite Hv. cbn [assert mbind result_bind]. rewrite lookup_last.
  cbn [mbind result_bind]. rewrite insert_last.
  rewrite (lookup_app_l_Some _ _ _ _ Htop). cbn [mbind result_bind].
  rewrite Hv. cbn [assert mbind result_bind]. rewrite lookup_last.
  cbn [mbind result_bind]. rewrite insert_last.
  by rewrite (lookup_app_l_Some _ _ _ _ Htop).
Qed.

Lemma add_tag_Ok h this e name :
  h !! this = Some e -> is_tag_or_document e = true ->
  add_tag h this name = Ok (length h, attached h this e name).
Proof.
  intros He Htd. unfold add_tag, deref. rewrite He. cbn [mbind result_bind].
  rewrite Htd. cbn [assert mbind result_bind new_entity].
  pose proof (new_tag_Ok h name) as Hnew.
  destruct (set_type (h ++ [xml_dom_entity_new]) (length h) XML_DOM_TAG)
    as [h1 | | |]; try done. cbn [mbind result_bind] in *. rewrite Hnew.
  cbn [mbind result_bind]. rewrite (add_child_new h this e name He); [done |].
  unfold is_tag_or_document, valid in *.
  destruct (m_type e); done.
Qed.

Lemma attached_length h top etop name :
  length (attached h top etop name) = S (length h).
Proof. unfold attached. rewrite length_insert, length_app. simpl. lia. Qed.

Lemma attached_top h top etop name :
  h !! top = Some etop ->
  attached h top etop name !! top
  = Some (with_child etop (m_child etop ++ [length h])).
Proof.
  intros Htop. pose proof (lookup_lt_Some _ _ _ Htop) as Hlt.
  unfold attached. apply list_lookup_insert_eq. rewrite length_app. lia.
Qed.

Lemma attached_new h top etop name :
  h !! top = Some etop ->
  attached h top etop name !! length h
  = Some (tag_entity name (Some top) (Z.of_nat (length (m_child etop)))).
Proof.
  intros Htop. pose proof (lookup_lt_Some _ _ _ Htop) as Hlt.
  unfold attached. rewrite list_lookup_insert_ne by lia. apply lookup_last.
Qed.

Lemma attached_other h top etop name a e :
  a <> top -> h !! a = Some e -> attached h top etop name !! a = Some e.
Proof.
  intros Hne Ha. unfold attached. rewrite list_lookup_insert_ne by done.
  by apply lookup_app_l_Some.
Qed.

Lemma same_fields_refl e : same_fields e e.
Proof. by repeat split. Qed.

Lemma same_fields_trans e1 e2 e3 :
  same_fields e1 e2 -> same_fields e2 e3 -> same_fields e1 e3.
Proof.
  intros (? & ? & ? & ? & ?) (? & ? & ? & ? & ?). repeat split; congruence.
Qed.

Lemma same_fields_valid e e' : same_fields e e' -> valid e = valid e'.
Proof. intros (Ht & _). unfold valid. by rewrite Ht. Qed.

(** The new tag, seen as a sequence of one tag without children. *)
Lemma repr_attached_new h lo top etop name :
  h !! top = Some etop -> (lo <= length h)%nat ->
  repr (attached h top etop name) lo (Fcons name Fnil Fnil) [length h]
    top (length (m_child etop)).
Proof.
  intros Htop Hlo. simpl. split; [| done].
  eexists. split; [by apply attached_new |]. by repeat split.
Qed.

End Attach.

(** *** The builder on the events of a sequence of tags *)

Section Builder.

Import Dom.

Lemma back_snoc stack top : back (stack ++ [top]) = Ok top.
Proof. unfold back. by rewrite last_snoc. Qed.

Lemma pop_back_snoc stack top : pop_back (stack ++ [top]) = Ok stack.
Proof.
  unfold pop_back. rewrite removelast_last.
  by destruct stack.
Qed.

Lemma xml_dom_begin_tag_cb_Ok h stack top etop name :
  h !! top = Some etop -> valid etop = true ->
  xml_dom_begin_tag_cb (Ok (h, stack ++ [top])) name
  = Ok (attached h top etop name, (stack ++ [top]) ++ [length h]).
Proof.
  intros Htop Hv. unfold xml_dom_begin_tag_cb.
  cbn [mbind result_bind new_entity].
  pose proof (new_tag_Ok h name) as Hnew.
  destruct (set_type (h ++ [xml_dom_entity_new]) (length h) XML_DOM_TAG)
    as [h1 | | |]; try done. cbn [mbind result_bind] in *. rewrite Hnew.
  cbn [mbind result_bind]. rewrite back_snoc. cbn [mbind result_bind].
  by rewrite (add_child_new h top etop name Htop Hv).
Qed.

Lemma build_forest f :
  forall h stack top etop,
    h !! top = Some etop -> valid etop = true ->
    exists h' cs etop',
      replay xml_dom_callbacks (events_of_forest f) (Ok (h, stack ++ [top]))
      = Ok (h', stack ++ [top]) /\
      (length h <= length h')%nat /\
      (forall a e, a <> top -> h !! a = Some e -> h' !! a = Some e) /\
      h' !! top = Some etop' /\
      m_child etop' = m_child etop ++ cs /\
      same_fields etop etop' /\
      repr h' (length h) f cs top (length (m_child etop)).
Proof.
  induction f as [| name kids IHk rest IHr]; intros h stack top etop Htop Hv.
  - exists h, [], etop. rewrite app_nil_r.
    repeat split; try done.
  - pose proof (lookup_lt_Some _ _ _ Htop) as Hlt.
    cbn [events_of_forest]. unfold replay. cbn [fold_left deliver].
    rewrite fold_left_app. cbn [fold_left deliver].
    cbn [begin_tag end_tag xml_dom_callbacks].
    rewrite (xml_dom_begin_tag_cb_Ok h stack top etop name Htop Hv).
    set (h1 := attached h top etop name).
    destruct (IHk h1 (stack ++ [top]) (length h)
                (tag_entity name (Some top) (Z.of_nat (length (m_child etop)))))
      as (h2 & csk & ec & Hrun2 & Hlen2 & Hframe2 & Hc2 & Hch2 & Hsf2 & Hrepr2);
      [by apply attached_new | done |].
    unfold replay in Hrun2. rewrite Hrun2.
    unfold xml_dom_end_tag_cb. cbn [mbind result_bind].
    rewrite pop_back_snoc. cbn [mbind result_bind].
    assert (h2 !! top = Some (with_child etop (m_child etop ++ [length h])))
      as Htop2.
    { apply Hframe2; [lia | by apply attached_top]. }
    destruct (IHr h2 stack top _ Htop2)
      as (h3 & csr & etop3 & Hrun3 & Hlen3 & Hframe3 & Htop3 & Hch3 & Hsf3
          & Hrepr3); [done |].
    unfold replay in Hrun3. rewrite Hrun3.
    assert (length h1 = S (length h)) as Hlen1 by apply attached_length.
    exists h3, (length h :: csr), etop3.
    split; [done |]. split; [lia |].
    split.
    { intros a e Hne Ha. pose proof (lookup_lt_Some _ _ _ Ha) as Hlta.
      apply Hframe3; [done |]. apply Hframe2; [lia |].
      by apply attached_other. }
    split; [done |].
    split; [rewrite Hch3; simpl; by rewrite <- app_assoc |].
    split; [done |].
    simpl. split.
    + exists ec. destruct Hsf2 as (Ht & Hn & Hval & Hpar & Hidx).
      split; [apply Hframe3; [lia | done] |].
      repeat split; try done.
      simpl in Hch2. rewrite Hch2.
      eapply repr_frame; [exact Hrepr2 | lia |].
      intros a e Hlo Ha. apply Hframe3; [lia | done].
    + eapply repr_frame.
      * simpl in Hrepr3. rewrite length_app in Hrepr3. simpl in Hrepr3.
        replace (length (m_child etop) + 1)%nat
          with (S (length (m_child etop))) in Hrepr3 by lia.
        exact Hrepr3.
      * lia.
      * done.
Qed.

End Builder.

(** *** Trees built with [add_tag] *)

Section BuildTags.

Import Dom.

(** Adding a tag below [this] turns a sequence of tags into a sequence of
    tags. *)
Lemma repr_attached h lo this e name f :
  h !! this = Some e -> (lo <= length h)%nat ->
  forall cs p i,
    repr h lo f cs p i ->
    exists f',
      repr (attached h this e name) lo f' cs p i /\
      (names_valid f = true -> valid_name name = true ->
       names_valid f' = true).
Proof.
  intros Hthis Hlo.
  induction f as [| n kids IHk rest IHr]; intros [| c cs] p i; simpl;
    try done.
  - intros _. by exists Fnil.
  - intros [(ec & Hec & Hc & Ht & Hn & Hval & Hpar & Hidx & Hkids) Hrest].
    destruct (IHk _ _ _ Hkids) as (kids' & Hkids' & Hvk).
    destruct (IHr _ _ _ Hrest) as (rest' & Hrest' & Hvr).
    destruct (decide (c = this)) as [-> | Hne].
    + assert (ec = e) as -> by congruence.
      exists (Fcons n (fapp kids' (leaf name)) rest'). split.
      * simpl. split; [| done].
        exists (with_child e (m_child e ++ [length h])).
        split; [by apply attached_top |].
        repeat split; try done. simpl.
        apply repr_app; [done |]. by apply repr_attached_new.
      * simpl. intros [[Hvn Hvkids]%andb_true_iff Hvrest]%andb_true_iff Hname.
        rewrite Hvn, names_valid_fapp, (Hvk Hvkids Hname), (Hvr Hvrest Hname).
        simpl. by rewrite Hname.
    + exists (Fcons n kids' rest'). split.
      * simpl. split; [| done]. exists ec.
        split; [by apply attached_other |]. by repeat split.
      * simpl. intros [[Hvn Hvkids]%andb_true_iff Hvrest]%andb_true_iff Hname.
        by rewrite Hvn, (Hvk Hvkids Hname), (Hvr Hvrest Hname).
Qed.

Lemma add_tag_tag_document h this name a h' :
  tag_document h -> valid_name name = true ->
  add_tag h this name = Ok (a, h') -> tag_document h'.
Proof.
  intros (f & Hvalid & (edoc & Hdoc & Ht & Hn & Hv & Hrepr)) Hname Hadd.
  pose proof Hadd as Hadd'. unfold add_tag in Hadd'.
  apply bind_Ok in Hadd' as (e & He%deref_Ok & Hadd').
  apply bind_Ok in Hadd' as ([] & Htd%assert_Ok & _).
  rewrite (add_tag_Ok h this e name He Htd) in Hadd.
  injection Hadd as <- <-.
  destruct (repr_attached h 0 this e name f He (Nat.le_0_l _) _ _ _ Hrepr)
    as (f' & Hrepr' & Hvalid').
  destruct (decide (this = 0%nat)) as [-> | Hne].
  - assert (edoc = e) as -> by congruence.
    exists (fapp f' (leaf name)). split.
    + rewrite names_valid_fapp, (Hvalid' Hvalid Hname). simpl.
      by rewrite Hname.
    + exists (with_child e (m_child e ++ [length h])).
      split; [by apply attached_top |]. repeat split; try done. simpl.
      apply repr_app; [done |]. apply repr_attached_new; [done | lia].
  - exists f'. split; [by apply Hvalid' |]. exists edoc.
    split; [by apply attached_other |]. by repeat split.
Qed.

Lemma run_steps_tag_document steps :
  tags_only steps ->
  forall h h', tag_document h -> run_steps h steps = Ok h' -> tag_document h'.
Proof.
  induction 1 as [| s steps Hs _ IH]; intros h h' Hdoc Hrun; simpl in Hrun.
  - by injection Hrun as <-.
  - apply bind_Ok in Hrun as (h1 & Hstep & Hrun).
    apply (IH h1); [| done].
    destruct s as [this name | | |]; try done. simpl in Hstep.
    apply bind_Ok in Hstep as ([a h2] & Hadd & [= <-]).
    by eapply add_tag_tag_document.
Qed.

Lemma build_tree_tag_document steps h :
  tags_only steps -> build_tree steps = Ok h -> tag_document h.
Proof.
  intros Hsteps Hbuild. unfold build_tree in Hbuild. simpl in Hbuild.
  eapply run_steps_tag_document; [done | | exact Hbuild].
  exists Fnil. split; [done |]. eexists. by repeat split.
Qed.

(** Writing and reading back a document of tags yields a document of the
    same tags. *)
Lemma round_trip_tag_document h lo f fuel :
  doc_repr h lo 0 f -> names_valid f = true ->
  (fsize f + length (text_of_forest f) + 13 < fuel)%nat ->
  exists h',
    round_trip fuel h 0 = Ok (length h, h') /\
    doc_repr h' (length h) (length h) f.
Proof.
  intros Hdoc Hvalid Hfuel. unfold round_trip.
  rewrite (operator_out_doc_repr h lo 0 f fuel Hdoc) by lia.
  cbn [mbind result_bind].
  unfold xml_dom_parse, xml_dom_build. cbn [new_entity].
  unfold set_type, deref. rewrite lookup_last. cbn [mbind result_bind].
  rewrite insert_last.
  set (edoc := with_type xml_dom_entity_new XML_DOM_DOCUMENT).
  cbn [app].
  destruct (xml_read_document_at (U := builder) xml_dom_callbacks f fuel
              (Ok (h ++ [edoc], [length h])) Hvalid)
    as (st' & Hread & Hu); [lia |].
  unfold builder in *. rewrite Hread.
  cbn [mbind result_bind]. rewrite Hu.
  destruct (build_forest f (h ++ [edoc]) [] (length h) edoc)
    as (h' & cs & edoc' & Hrun & Hlen & Hframe & Hdoc' & Hch & Hsf & Hrepr);
    [apply lookup_last | done |].
  cbn [app] in Hrun. unfold builder in *. rewrite Hrun.
  cbn [mbind result_bind front]. exists h'. split; [done |].
  destruct Hsf as (Ht & Hn & Hv & _).
  exists edoc'. split; [done |]. repeat split; try done.
  simpl in Hch. rewrite Hch.
  eapply repr_frame; [exact Hrepr | rewrite length_app; simpl; lia | done].
Qed.

End BuildTags.

(** C6, amended. For every tree built on a new document with [add_tag]
    only, with names that are a letter followed by letters, digits and
    underscores, writing the document and parsing the text yields a tree
    equal to the original in entity types, names, values and child
    structure. *)
Theorem round_trip_tags_only :
  forall steps : list build_step, tags_only steps -> round_trip_holds steps.
Proof.
  intros steps Hsteps h Hbuild.
  destruct (build_tree_tag_document steps h Hsteps Hbuild)
    as (f & Hvalid & Hdoc).
  exists (fsize f + length (text_of_forest f) + fdepth f + 14)%nat,
         (DomNode XML_DOM_DOCUMENT [] [] (trees_of f)).
  intros fuel Hfuel.
  destruct (round_trip_tag_document h 0 f fuel Hdoc Hvalid)
    as (h' & Hrt & Hdoc');
    [lia |].
  exists (length h), h'. split; [done |].
  split; eapply snapshot_doc_repr; try done; lia.
Qed.

Lemma round_trip_tags_only_witness :
  exists h n t,
    build_tree [AddTag 0 (str "root"); AddTag 1 (str "item");
                AddTag 1 (str "item"); AddTag 0 (str "note_2")] = Ok h /\
    forall fuel, (n <= fuel)%nat ->
      exists root' h',
        round_trip fuel h 0 = Ok (root', h') /\
        snapshot fuel h 0 = Some t /\
        snapshot fuel h' root' = Some t.
Proof.
  set (steps := [AddTag 0 (str "root"); AddTag 1 (str "item");
                 AddTag 1 (str "item"); AddTag 0 (str "note_2")]).
  assert (tags_only steps) as Hsteps by (repeat constructor).
  eassert (build_tree steps = Ok _) as Hbuild by (vm_compute; reflexivity).
  destruct (round_trip_tags_only steps Hsteps _ Hbuild) as (n & t & Hn).
  eexists _, n, t. split; [exact Hbuild | exact Hn].
Defined.

(** *** More fuel never changes what is written or read back *)

Section DomMonotone.

Import Dom.

Lemma next_of_type_S fuel h this child type :
  refines (next_of_type fuel h this child type)
          (next_of_type (S fuel) h this child type).
Proof.
  revert child; induction fuel as [| fuel IH]; intros child;
    [apply refines_out |].
  cbn [next_of_type]. refines_auto.
Qed.

Hint Resolve next_of_type_S : fuel.

Lemma first_child_type_S fuel h this type :
  refines (first_child_type fuel h this type)
          (first_child_type (S fuel) h this type).
Proof. unfold first_child_type. refines_auto. Qed.

Lemma next_sibling_type_S fuel h this type :
  refines (next_sibling_type fuel h this type)
          (next_sibling_type (S fuel) h this type).
Proof. unfold next_sibling_type, next_child_type. refines_auto. Qed.

Hint Resolve first_child_type_S next_sibling_type_S : fuel.

Lemma stream_attributes_S fuel h attr :
  refines (stream_attributes fuel h attr) (stream_attributes (S fuel) h attr).
Proof.
  revert attr; induction fuel as [| fuel IH]; intros attr;
    [apply refines_out |].
  cbn [stream_attributes]. unfold next_sibling_attribute. refines_auto.
Qed.

Lemma has_no_content_S fuel h item :
  refines (has_no_content fuel h item) (has_no_content (S fuel) h item).
Proof. unfold has_no_content, first_child_tag. refines_auto. Qed.

Lemma has_content_S fuel h item :
  refines (has_content fuel h item) (has_content (S fuel) h item).
Proof. unfold has_content, first_child_tag. refines_auto. Qed.

Hint Resolve stream_attributes_S has_no_content_S has_content_S : fuel.

Lemma operator_out_S_both fuel h :
  (forall item,
      refines (operator_out fuel h item) (operator_out (S fuel) h item)) /\
  (forall child,
      refines (stream_children fuel h child)
              (stream_children (S fuel) h child)).
Proof.
  induction fuel as [| fuel [IHo IHc]]; [split; intros; apply refines_out |].
  split; intros.
  - rewrite (operator_out_eq (S fuel)), (operator_out_eq fuel).
    unfold first_child_attribute. refines_auto.
  - rewrite (stream_children_eq (S fuel)), (stream_children_eq fuel).
    refines_auto.
Qed.

Lemma round_trip_S fuel h root :
  refines (round_trip fuel h root) (round_trip (S fuel) h root).
Proof.
  unfold round_trip, xml_dom_parse, xml_dom_build.
  pose proof (operator_out_S_both fuel h) as [Ho _].
  pose proof (@xml_read_document_S builder xml_dom_callbacks) as Hr.
  refines_auto.
Qed.

Lemma round_trip_fuel fuel fuel' h root v :
  round_trip fuel h root = v -> v <> OutOfFuel -> (fuel <= fuel')%nat ->
  round_trip fuel' h root = v.
Proof.
  intros Hv Hne Hle. induction Hle as [| m Hle IH]; [done |].
  eapply refines_eq; [apply round_trip_S | exact IH | exact Hne].
Qed.

Lemma snapshot_fuel fuel fuel' h a t :
  snapshot fuel h a = Some t -> (fuel <= fuel')%nat ->
  snapshot fuel' h a = Some t.
Proof.
  revert fuel' a t. induction fuel as [| fuel IH]; intros fuel' a t; [done |].
  intros Hs Hle. destruct fuel' as [| fuel']; [lia |].
  simpl in *. destruct (h !! a) as [e |]; [| done]. simpl in *.
  destruct (mapM (snapshot fuel h) (m_child e)) as [ts |] eqn:Hts; [| done].
  simpl in Hs. apply mapM_Some in Hts.
  assert (mapM (snapshot fuel' h) (m_child e) = Some ts) as ->; [| done].
  apply mapM_Some. eapply Forall2_impl; [exact Hts |].
  intros c tc Hc. apply (IH fuel'); [done | lia].
Qed.

End DomMonotone.

(** A run of the round trip that returns another tree refutes
    [round_trip_holds]. *)
Lemma round_trip_refuted steps h root' h' t t' :
  build_tree steps = Ok h ->
  round_trip 20 h 0 = Ok (root', h') ->
  snapshot 20 h 0 = Some t -> snapshot 20 h' root' = Some t' -> t <> t' ->
  ~ round_trip_holds steps.
Proof.
  intros Hbuild Hrt20 Hs20 Hs20' Hne Hholds.
  destruct (Hholds h Hbuild) as (n & t0 & Hn).
  destruct (Hn (Nat.max n 20)) as (root1 & h1 & Hrt & Hs & Hs'); [lia |].
  assert (round_trip (Nat.max n 20) h 0 = Ok (root', h')) as Hrt'
    by (apply (round_trip_fuel 20); [done | done | lia]).
  rewrite Hrt in Hrt'. injection Hrt' as -> ->.
  rewrite (snapshot_fuel 20 _ h 0 t Hs20) in Hs by lia.
  rewrite (snapshot_fuel 20 _ h' root' t' Hs20') in Hs' by lia.
  congruence.
Qed.

(** C6, counterexample. The tree built by [add_comment( "c" )] on a new
    document does not survive the round trip: the document is written as
    the header line and [<!-- c-->], and the comment that is read back has
    the value [" c"], with the space that [operator<<] writes after
    [<!--]. *)
Lemma round_trip_comment_differs :
  ~ round_trip_holds [AddComment 0 (str "c")].
Proof.
  eapply (round_trip_refuted _ _ _ _
            (DomNode XML_DOM_DOCUMENT [] []
               [DomNode XML_DOM_COMMENT [] (str "c") []])
            (DomNode XML_DOM_DOCUMENT [] []
               [DomNode XML_DOM_COMMENT [] (str " c") []]));
    [vm_compute; reflexivity .. | discriminate].
Qed.

(** The text of a tag does not survive the round trip either: [hi] is
    written followed by a line feed and read back as [hi] and a line
    feed. *)
Lemma round_trip_text_differs :
  ~ round_trip_holds [AddTag 0 (str "a"); SetValue 1 (str "hi")].
Proof.
  eapply (round_trip_refuted _ _ _ _
            (DomNode XML_DOM_DOCUMENT [] []
               [DomNode XML_DOM_TAG (str "a") (str "hi") []])
            (DomNode XML_DOM_DOCUMENT [] []
               [DomNode XML_DOM_TAG (str "a") (str "hi" ++ [LF]) []]));
    [vm_compute; reflexivity .. | discriminate].
Qed.

(** Nor does the value of an attribute: it is read back with the NUL that
    [xml_parse_string] appends. *)
Lemma round_trip_attribute_differs :
  ~ round_trip_holds [AddTag 0 (str "a"); AddAttribute 1 (str "x") (str "1")].
Proof.
  eapply (round_trip_refuted _ _ _ _
            (DomNode XML_DOM_DOCUMENT [] []
               [DomNode XML_DOM_TAG (str "a") []
                  [DomNode XML_DOM_ATTRIBUTE (str "x") (str "1") []]])
            (DomNode XML_DOM_DOCUMENT [] []
               [DomNode XML_DOM_TAG (str "a") []
                  [DomNode XML_DOM_ATTRIBUTE (str "x") (str "1" ++ [NUL])
                     []]]));
    [vm_compute; reflexivity .. | discriminate].
Qed.

(** ** The index invariant seen from the parent *)

Section ChildrenInvariant.

Import Dom.

(** [add_child] keeps the parent-side invariant when the child it is given
    is not yet in a child sequence.  (Given a child that is, the sequence
    that held it keeps its entry, while the child records its new parent
    and index.) *)
Lemma add_child_children_inv h this child h' :
  children_inv h -> detached h child ->
  add_child h this child = Ok h' -> children_inv h'.
Proof.
  intros Hinv Hdet H.
  destruct (add_child_Ok _ _ _ _ H)
    as (e & c & e' & c' & He & Hc & Hv & He' & Hc' & Hlen & Hframe & Hch
        & _ & _ & _ & Hsame & Hcp & Hci & _).
  assert (forall x ex, x <> child -> h !! x = Some ex ->
            exists ex', h' !! x = Some ex' /\ m_parent ex' = m_parent ex /\
              m_index ex' = m_index ex) as Hkeep.
  { intros x ex Hx Hex. destruct (decide (x = this)) as [-> | Hxt].
    - exists e'. replace ex with e by congruence.
      destruct Hsame as (-> & -> & _); done.
    - exists ex. by rewrite Hframe. }
  assert (forall p ep i x, h !! p = Some ep -> m_child ep !! i = Some x ->
            exists ex, h' !! x = Some ex /\ m_parent ex = Some p /\
              m_index ex = Z.of_nat i) as Hold.
  { intros p ep i x Hp Hx.
    destruct (Hinv p ep i x Hp Hx) as (ex & Hex & Hpx & Hix).
    destruct (Hkeep x ex) as (ex' & Hex' & Hpx' & Hix'); [| done |].
    - intros ->. apply (Hdet p ep Hp). by eapply list_elem_of_lookup_2.
    - exists ex'. by rewrite Hpx', Hix'. }
  intros p ep' i x Hp Hx.
  destruct (decide (p = this)) as [-> | Hpt].
  - replace ep' with e' in * by congruence. rewrite Hch in Hx.
    apply lookup_app_Some in Hx as [Hx | [Hge Hx]].
    + by apply (Hold this e i x).
    + apply list_lookup_singleton_Some in Hx as [Hi <-].
      exists c'. split; [done |]. split; [done |]. rewrite Hci. lia.
  - destruct (decide (p = child)) as [-> | Hpc].
    + replace ep' with c' in * by congruence.
      destruct Hsame as (_ & _ & Hcc); [done |]. rewrite Hcc in Hx.
      by apply (Hold child c i x).
    + rewrite Hframe in Hp by done. by apply (Hold p ep' i x).
Qed.

(** A store that grows by an entity without parent and children. *)
Lemma children_inv_snoc h e :
  children_inv h -> m_child e = [] ->
  children_inv (h ++ [e]) /\ detached (h ++ [e]) (length h).
Proof.
  intros Hinv He.
  assert (forall p ep, (h ++ [e]) !! p = Some ep ->
            m_child ep = [] \/ h !! p = Some ep) as Hcase.
  { intros p ep Hp. destruct (decide (p < length h)%nat) as [Hlt | Hge].
    - right. by rewrite lookup_app_l in Hp.
    - left. rewrite lookup_app_r in Hp by lia.
      destruct (p - length h)%nat; [| done]. by injection Hp as <-. }
  split.
  - intros p ep i c Hp Hc. destruct (Hcase p ep Hp) as [Hnil | Hp'].
    + by rewrite Hnil in Hc.
    + destruct (Hinv p ep i c Hp' Hc) as (ec & Hec & H1 & H2).
      exists ec. split; [by apply lookup_app_l_Some | done].
  - intros p ep Hp Hin. destruct (Hcase p ep Hp) as [Hnil | Hp'].
    + rewrite Hnil in Hin. by apply elem_of_nil in Hin.
    + apply list_elem_of_lookup_1 in Hin as [i Hi].
      destruct (Hinv p ep i _ Hp' Hi) as (ec & Hec & _).
      apply lookup_lt_Some in Hec. lia.
Qed.

(** [add_tag] keeps the parent-side invariant. *)
Lemma add_tag_children_inv h this name a h' :
  children_inv h -> add_tag h this name = Ok (a, h') -> children_inv h'.
Proof.
  intros Hinv Hadd. unfold add_tag in Hadd.
  apply bind_Ok in Hadd as (e & He%deref_Ok & Hadd).
  apply bind_Ok in Hadd as ([] & Htd%assert_Ok & Hadd).
  cbn [new_entity] in Hadd.
  pose proof (new_tag_Ok h name) as Hnew.
  destruct (set_type (h ++ [xml_dom_entity_new]) (length h) XML_DOM_TAG)
    as [h1 | | |]; try done. cbn [mbind result_bind] in *.
  rewrite Hnew in Hadd. cbn [mbind result_bind] in Hadd.
  apply bind_Ok in Hadd as (h2 & Hchild & [= <- <-]).
  destruct (children_inv_snoc h (tag_entity name None (-1)) Hinv eq_refl)
    as [Hinv1 Hdet1].
  by eapply add_child_children_inv.
Qed.

(** Given a child that is already in a child sequence, [add_child] keeps
    the invariant on the side of the entity and loses it on the side of the
    parent: after adding the tag of [two_children] at address 1 to the
    document a second time, the document lists the tag at positions 0 and
    2, and the tag records index 2. *)
Lemma add_child_attached_child :
  exists h h',
    two_children = Ok h /\ add_child h 0 1 = Ok h' /\
    index_inv h' /\ ~ children_inv h'.
Proof.
  eexists _, _. split; [vm_compute; reflexivity |].
  split; [vm_compute; reflexivity |]. split.
  - apply index_invb_true. reflexivity.
  - intros Hinv.
    destruct (Hinv 0%nat _ 0%nat 1%nat eq_refl eq_refl)
      as (ec & Hec & _ & Hidx).
    injection Hec as <-. discriminate Hidx.
Qed.

End ChildrenInvariant.

(** ** What a run ensures when it returns *)

Lemma ensures_Ok {A} (Q : A -> Prop) a : Q a -> ensures Q (Ok a).
Proof. intros H ? [= <-]. done. Qed.

Lemma ensures_not_Ok {A} (Q : A -> Prop) r :
  (forall a, r <> Ok a) -> ensures Q r.
Proof. intros H a Ha. by destruct (H a). Qed.

Lemma ensures_bind {A B} (P : A -> Prop) (Q : B -> Prop) r k :
  ensures P r -> (forall a, P a -> ensures Q (k a)) -> ensures Q (r ≫= k).
Proof.
  intros Hr Hk b Hb. apply bind_Ok in Hb as (a & Ha & Hb).
  by apply (Hk a (Hr a Ha)).
Qed.

Lemma ensures_any {A} (r : result A) : ensures (fun _ => True) r.
Proof. by intros ? _. Qed.

Lemma ensures_impl {A} (P Q : A -> Prop) r :
  ensures P r -> (forall a, P a -> Q a) -> ensures Q r.
Proof. intros Hr HPQ a Ha. by apply HPQ, Hr. Qed.

Section Keeps.

Context {U : Type}.

Local Abbreviation state := (xml_state U).

Lemma user_data_advance (st : state) :
  user_data (xml_advance st) = user_data st.
Proof. unfold xml_advance. by case_bool_decide. Qed.

Lemma keeps_advance (st st' : state) :
  keeps st st' -> keeps (xml_advance st) st'.
Proof. unfold keeps. by rewrite user_data_advance. Qed.

Lemma keeps_trans (st1 st2 st3 : state) :
  keeps st1 st2 -> keeps st2 st3 -> keeps st1 st3.
Proof. unfold keeps. congruence. Qed.

Lemma xml_match_keeps (st : state) c : ensures (keeps st) (xml_match st c).
Proof.
  unfold xml_match. eapply ensures_bind; [apply ensures_any |].
  intros d _. destruct (negb _); [by apply ensures_not_Ok |].
  apply ensures_Ok, user_data_advance.
Qed.

Lemma xml_eat_space_keeps fuel (st : state) :
  ensures (keeps st) (xml_eat_space fuel st).
Proof.
  revert st. induction fuel as [| fuel IH]; intros st;
    [by apply ensures_not_Ok |].
  cbn [xml_eat_space]. destruct (xml_eof st); [by apply ensures_Ok |].
  eapply ensures_bind; [apply ensures_any |]. intros c _.
  destruct (xml_is_space c); [| by apply ensures_Ok].
  eapply ensures_impl; [apply IH |]. intros st' H.
  unfold keeps in *. by rewrite H, user_data_advance.
Qed.

(** The loops that collect a string. *)
Lemma xml_parse_string_loop_keeps fuel (st : state) s :
  ensures (keeps2 st) (xml_parse_string_loop fuel st s).
Proof.
  revert st s. induction fuel as [| fuel IH]; intros st s;
    [by apply ensures_not_Ok |].
  cbn [xml_parse_string_loop]. destruct (xml_eof st); [by apply ensures_Ok |].
  eapply ensures_bind; [apply ensures_any |]. intros c _.
  destruct (negb _); [| by apply ensures_Ok].
  eapply ensures_bind; [apply ensures_any |]. intros c' _.
  eapply ensures_impl; [apply IH |]. intros [s' st'] H.
  unfold keeps2 in *. simpl in *. by rewrite H, user_data_advance.
Qed.

Lemma xml_read_name_loop_keeps fuel (st : state) s :
  ensures (keeps2 st) (xml_read_name_loop fuel st s).
Proof.
  revert st s. induction fuel as [| fuel IH]; intros st s;
    [by apply ensures_not_Ok |].
  cbn [xml_read_name_loop]. destruct (xml_eof st); [by apply ensures_Ok |].
  eapply ensures_bind; [apply ensures_any |]. intros c _.
  destruct (xml_is_valid_name_char c); [| by apply ensures_Ok].
  eapply ensures_bind; [apply ensures_any |]. intros c' _.
  eapply ensures_impl; [apply IH |]. intros [s' st'] H.
  unfold keeps2 in *. simpl in *. by rewrite H, user_data_advance.
Qed.

Lemma xml_read_text_loop_keeps fuel (st : state) s :
  ensures (keeps2 st) (xml_read_text_loop fuel st s).
Proof.
  revert st s. induction fuel as [| fuel IH]; intros st s;
    [by apply ensures_not_Ok |].
  cbn [xml_read_text_loop]. destruct (xml_eof st); [by apply ensures_Ok |].
  eapply ensures_bind; [apply ensures_any |]. intros c _.
  destruct (negb _); [| by apply ensures_Ok].
  eapply ensures_bind; [apply ensures_any |]. intros c' _.
  eapply ensures_impl; [apply IH |]. intros [s' st'] H.
  unfold keeps2 in *. simpl in *. by rewrite H, user_data_advance.
Qed.

Lemma xml_read_comment_loop_keeps fuel (st : state) s b :
  ensures (keeps2 st) (xml_read_comment_loop fuel st s b).
Proof.
  revert st s b. induction fuel as [| fuel IH]; intros st s b;
    [by apply ensures_not_Ok |].
  cbn [xml_read_comment_loop]. destruct (xml_eof st); [by apply ensures_Ok |].
  eapply ensures_bind; [apply ensures_any |]. intros c _.
  destruct (_ && _).
  { eapply ensures_impl; [apply IH |]. intros [s' st'] H.
    unfold keeps2 in *. simpl in *. by rewrite H, user_data_advance. }
  eapply ensures_bind; [apply ensures_any |]. intros c' _.
  destruct (_ && _).
  { eapply ensures_bind; [apply xml_match_keeps |]. intros st' H.
    apply ensures_Ok. unfold keeps, keeps2 in *. simpl.
    by rewrite H, user_data_advance. }
  eapply ensures_bind; [apply ensures_any |]. intros c'' _.
  eapply ensures_impl; [apply IH |]. intros [s' st'] H.
  unfold keeps2 in *. simpl in *. by rewrite H, user_data_advance.
Qed.

Lemma xml_parse_string_keeps fuel (st : state) :
  ensures (keeps2 st) (xml_parse_string fuel st).
Proof.
  unfold xml_parse_string.
  eapply ensures_bind; [apply xml_eat_space_keeps |]. intros st1 H1.
  eapply ensures_bind; [apply xml_match_keeps |]. intros st2 H2.
  eapply ensures_bind; [apply xml_parse_string_loop_keeps |].
  intros [s st3] H3.
  eapply ensures_bind; [apply xml_match_keeps |]. intros st4 H4.
  apply ensures_Ok. unfold keeps, keeps2 in *. simpl in *. congruence.
Qed.

Lemma xml_read_name_keeps fuel (st : state) :
  ensures (keeps2 st) (xml_read_name fuel st).
Proof.
  unfold xml_read_name.
  eapply ensures_bind; [apply xml_eat_space_keeps |]. intros st1 H1.
  eapply ensures_bind; [apply ensures_any |]. intros c _.
  destruct (negb _).
  { eapply ensures_bind; [apply ensures_any |]. intros c' _.
    by apply ensures_not_Ok. }
  eapply ensures_impl; [apply xml_read_name_loop_keeps |].
  intros [s st2] H2. unfold keeps, keeps2 in *. simpl in *. congruence.
Qed.

Lemma xml_read_text_keeps fuel (st : state) :
  ensures (keeps2 st) (xml_read_text fuel st).
Proof. apply xml_read_text_loop_keeps. Qed.

Lemma xml_read_comment_keeps fuel (st : state) :
  ensures (keeps2 st) (xml_read_comment fuel st).
Proof.
  unfold xml_read_comment.
  eapply ensures_bind; [apply xml_match_keeps |]. intros st1 H1.
  eapply ensures_bind; [apply xml_match_keeps |]. intros st2 H2.
  eapply ensures_bind; [apply xml_match_keeps |]. intros st3 H3.
  eapply ensures_bind; [apply xml_match_keeps |]. intros st4 H4.
  eapply ensures_impl; [apply xml_read_comment_loop_keeps |].
  intros [s st5] H5. unfold keeps, keeps2 in *. simpl in *. congruence.
Qed.

Lemma xml_read_closing_tag_keeps fuel (st : state) :
  ensures (keeps2 st) (xml_read_closing_tag fuel st).
Proof.
  unfold xml_read_closing_tag.
  eapply ensures_bind; [apply xml_match_keeps |]. intros st1 H1.
  eapply ensures_bind; [apply xml_match_keeps |]. intros st2 H2.
  eapply ensures_bind; [apply xml_read_name_keeps |]. intros [s st3] H3.
  eapply ensures_bind; [apply xml_match_keeps |]. intros st4 H4.
  apply ensures_Ok. unfold keeps, keeps2 in *. simpl in *. congruence.
Qed.

Lemma xml_read_header_loop_keeps fuel (st : state) :
  ensures (keeps st) (xml_read_header_loop fuel st).
Proof.
  revert st. induction fuel as [| fuel IH]; intros st;
    [by apply ensures_not_Ok |].
  cbn [xml_read_header_loop]. destruct (xml_eof st); [by apply ensures_Ok |].
  eapply ensures_bind; [apply xml_eat_space_keeps |]. intros st1 H1.
  eapply ensures_bind; [apply ensures_any |]. intros c _.
  destruct (xml_is_alpha c).
  - eapply ensures_bind; [apply xml_read_name_keeps |]. intros [s st2] H2.
    eapply ensures_bind; [apply xml_eat_space_keeps |]. intros st3 H3.
    eapply ensures_bind; [apply xml_match_keeps |]. intros st4 H4.
    eapply ensures_bind; [apply xml_parse_string_keeps |]. intros [v st5] H5.
    eapply ensures_impl; [apply IH |]. intros st6 H6.
    unfold keeps, keeps2 in *. simpl in *. congruence.
  - eapply ensures_bind; [apply ensures_any |]. intros b _.
    destruct b.
    + eapply ensures_bind; [apply xml_match_keeps |]. intros st2 H2.
      eapply ensures_bind; [apply xml_match_keeps |]. intros st3 H3.
      eapply ensures_impl; [apply xml_eat_space_keeps |]. intros st4 H4.
      unfold keeps in *. congruence.
    + eapply ensures_impl; [apply IH |]. intros st2 H2.
      unfold keeps in *. congruence.
Qed.

Lemma xml_read_header_keeps fuel (st : state) :
  ensures (keeps st) (xml_read_header fuel st).
Proof.
  unfold xml_read_header.
  eapply ensures_bind; [apply xml_match_keeps |]. intros st1 H1.
  eapply ensures_bind; [apply xml_match_keeps |]. intros st2 H2.
  eapply ensures_bind; [apply xml_match_keeps |]. intros st3 H3.
  eapply ensures_bind; [apply xml_match_keeps |]. intros st4 H4.
  eapply ensures_bind; [apply xml_match_keeps |]. intros st5 H5.
  eapply ensures_impl; [apply xml_read_header_loop_keeps |]. intros st6 H6.
  unfold keeps in *. congruence.
Qed.

End Keeps.

(** ** Nesting of the events of a parse that returns *)

Lemma open_tags_app s evs1 evs2 :
  open_tags s (evs1 ++ evs2)
  = open_tags s evs1 ≫= fun s1 => open_tags s1 evs2.
Proof.
  revert s. induction evs1 as [| ev evs1 IH]; intros s; [done |].
  destruct ev; simpl; try apply IH.
  destruct s as [| top s]; [done |]. destruct (string_eqb top name); [| done].
  apply IH.
Qed.

Lemma open_tags_count s evs s' :
  open_tags s evs = Some s' ->
  (length s + count_begin evs = length s' + count_end evs)%nat.
Proof.
  revert s. induction evs as [| ev evs IH]; intros s; simpl.
  - intros [= <-]. lia.
  - destruct ev; simpl; intros H.
    + apply IH in H. simpl in H. lia.
    + destruct s as [| top s]; [done |].
      destruct (string_eqb top name); [| done]. apply IH in H. simpl. lia.
    + by apply IH.
    + by apply IH.
    + by apply IH.
Qed.

Section Nesting.

Local Abbreviation state := (xml_state (list event)).

Lemma closes_nests pre evs : closes pre evs -> nests pre evs.
Proof. intros H s. exists []. apply H. Qed.

Lemma xml_read_tag_attributes_nested fuel name (st : state) :
  ensures
    (fun p => exists evs,
       user_data p.2 = user_data st ++ evs /\
       forall s, open_tags (name :: s) evs
                 = Some (match p.1 with
                         | ByReturn => s
                         | ByBreak => name :: s
                         end))
    (xml_read_tag_attributes event_log fuel name st).
Proof.
  revert st. induction fuel as [| fuel IH]; intros st;
    [by apply ensures_not_Ok |].
  cbn [xml_read_tag_attributes]. destruct (xml_eof st).
  { apply ensures_Ok. exists []. by rewrite app_nil_r. }
  eapply ensures_bind; [apply xml_eat_space_keeps |]. intros st1 H1.
  eapply ensures_bind; [apply ensures_any |]. intros c _.
  destruct (xml_is_alpha c).
  - eapply ensures_bind; [apply xml_read_name_keeps |]. intros [n st2] H2.
    eapply ensures_bind; [apply xml_eat_space_keeps |]. intros st3 H3.
    eapply ensures_bind; [apply xml_match_keeps |]. intros st4 H4.
    eapply ensures_bind; [apply xml_parse_string_keeps |]. intros [v st5] H5.
    eapply ensures_impl; [apply IH |].
    intros [how st6] (evs & Hevs & Hopen). simpl in *.
    exists (Attribute n v :: evs). split; [| done].
    unfold keeps, keeps2 in *. simpl in *.
    rewrite Hevs, <- app_assoc. simpl. congruence.
  - eapply ensures_bind; [apply ensures_any |]. intros b _. destruct b.
    + eapply ensures_bind; [apply xml_match_keeps |]. intros st2 H2.
      apply ensures_Ok. exists []. simpl. rewrite app_nil_r.
      unfold keeps in *. split; [congruence | done].
    + eapply ensures_bind; [apply ensures_any |]. intros b _. destruct b.
      * eapply ensures_bind; [apply xml_match_keeps |]. intros st2 H2.
        eapply ensures_bind; [apply xml_match_keeps |]. intros st3 H3.
        eapply ensures_bind; [apply xml_eat_space_keeps |]. intros st4 H4.
        apply ensures_Ok. exists [EndTag name]. simpl.
        unfold keeps in *. simpl in *. split; [congruence |].
        intros s. by rewrite string_eqb_refl.
      * eapply ensures_impl; [apply IH |].
        intros [how st2] (evs & Hevs & Hopen). simpl in *.
        exists evs. unfold keeps in *. split; [congruence | done].
Qed.

Lemma xml_read_tag_body_eof fuel name (st st' : state) :
  xml_eof st = true -> xml_read_tag_body event_log fuel name st = Ok st' ->
  st' = st.
Proof.
  intros Heof H. destruct fuel as [| fuel]; [done |].
  rewrite xml_read_tag_body_eq, Heof in H. congruence.
Qed.

Lemma nested_run_step pre ev (st st1 st' : state) :
  user_data st1 = user_data st ++ [ev] ->
  (forall s, open_tags s [ev] = Some s) ->
  nested_run pre st1 st' -> nested_run pre st st'.
Proof.
  intros H1 Hev (evs & Hevs & Hcase). exists (ev :: evs). split.
  - rewrite Hevs, H1, <- app_assoc. done.
  - assert (forall s, open_tags s (ev :: evs) = open_tags s evs) as Heq.
    { intros s. change (ev :: evs) with ([ev] ++ evs).
      by rewrite open_tags_app, Hev. }
    destruct Hcase as [Hc | [Heof Hn]]; [left | right; split; [done |]];
      intros s; rewrite Heq; [apply Hc | apply Hn].
Qed.

Lemma xml_read_tag_nested_both fuel :
  (forall st : state,
      ensures (nested_run [] st) (xml_read_tag event_log fuel st)) /\
  (forall name (st : state),
      ensures (nested_run [name] st)
        (xml_read_tag_body event_log fuel name st)).
Proof.
  induction fuel as [| fuel [IHt IHb]];
    [split; intros; by apply ensures_not_Ok |].
  split.
  - intros st. rewrite xml_read_tag_eq.
    eapply ensures_bind; [apply xml_eat_space_keeps |]. intros st1 H1.
    eapply ensures_bind; [apply xml_match_keeps |]. intros st2 H2.
    eapply ensures_bind; [apply xml_read_name_keeps |]. intros [name st3] H3.
    cbn zeta.
    eapply ensures_bind; [apply xml_read_tag_attributes_nested |].
    intros [how st4] (evsa & Hevsa & Hopena). simpl in Hevsa, Hopena.
    assert (user_data st4 = user_data st ++ BeginTag name :: evsa) as Hst4.
    { rewrite Hevsa. unfold keeps, keeps2 in *. simpl in *.
      rewrite <- app_assoc. simpl. congruence. }
    destruct how.
    + (* the attribute loop was left by break: the body follows *)
      eapply ensures_impl; [apply IHb |].
      intros st5 (evsb & Hevsb & Hcase).
      exists (BeginTag name :: evsa ++ evsb). split.
      { rewrite Hevsb, Hst4, <- app_assoc. done. }
      assert (forall s, open_tags s (BeginTag name :: evsa ++ evsb)
                        = open_tags (name :: s) evsb) as Heq.
      { intros s. simpl. by rewrite open_tags_app, Hopena. }
      destruct Hcase as [Hc | [Heof Hn]]; [left | right; split; [done |]];
        intros s; rewrite Heq; [apply (Hc s) | apply (Hn s)].
    + (* the attribute loop returned after "/>" *)
      apply ensures_Ok. exists (BeginTag name :: evsa). split; [done |].
      left. intros s. simpl. apply Hopena.
  - intros name st. rewrite xml_read_tag_body_eq.
    destruct (xml_eof st) eqn:Heof.
    { apply ensures_Ok. exists []. rewrite app_nil_r. split; [done |].
      right. split; [done |]. intros s. by exists [name]. }
    eapply ensures_bind; [apply xml_eat_space_keeps |]. intros st1 H1.
    eapply ensures_bind; [apply ensures_any |]. intros b _. destruct b.
    { (* a closing tag *)
      eapply ensures_bind; [apply xml_read_closing_tag_keeps |].
      intros [close st2] H2. destruct (negb _); [by apply ensures_not_Ok |].
      apply ensures_Ok. exists [EndTag name]. split.
      - unfold keeps, keeps2 in *. simpl in *. congruence.
      - left. intros s. simpl. by rewrite string_eqb_refl. }
    eapply ensures_bind; [apply ensures_any |]. intros b _. destruct b.
    { (* a comment *)
      eapply ensures_bind; [apply xml_read_comment_keeps |].
      intros [c st2] H2. cbn zeta.
      eapply ensures_impl; [apply IHb |]. intros st3 Hrun.
      eapply (nested_run_step _ (Comment c)); [| done | exact Hrun].
      unfold keeps, keeps2 in *. simpl in *. congruence. }
    eapply ensures_bind; [apply ensures_any |]. intros b _. destruct b.
    { (* a child tag *)
      eapply ensures_bind; [apply IHt |].
      intros st2 (evs1 & Hevs1 & Hcase1).
      intros st3 Hbody. unfold keeps in H1. rewrite H1 in Hevs1.
      destruct Hcase1 as [Hc1 | [Heof1 Hn1]].
      - destruct (IHb name st2 st3 Hbody) as (evs2 & Hevs2 & Hcase2).
        exists (evs1 ++ evs2). split.
        { rewrite Hevs2, Hevs1, <- app_assoc. done. }
        assert (forall s, open_tags (name :: s) (evs1 ++ evs2)
                          = open_tags (name :: s) evs2) as Heq.
        { intros s. rewrite open_tags_app.
          pose proof (Hc1 (name :: s)) as Hx. simpl in Hx. by rewrite Hx. }
        destruct Hcase2 as [Hc | [Heof2 Hn]]; [left | right; split; [done |]];
          intros s; simpl; rewrite Heq; [apply (Hc s) | apply (Hn s)].
      - apply xml_read_tag_body_eof in Hbody as ->; [| done].
        exists evs1. split; [done |]. right. split; [done |].
        intros s. destruct (Hn1 (name :: s)) as [s' Hs'].
        exists (s' ++ [name]). simpl in *. by rewrite <- app_assoc. }
    (* text *)
    eapply ensures_bind; [apply xml_read_text_keeps |].
    intros [t st2] H2. cbn zeta.
    eapply ensures_impl; [apply IHb |]. intros st3 Hrun.
    eapply (nested_run_step _ (Text t)); [| done | exact Hrun].
    unfold keeps, keeps2 in *. simpl in *. congruence.
Qed.

Lemma xml_read_document_loop_nested fuel first (st : state) :
  ensures (fun st' => exists evs,
             user_data st' = user_data st ++ evs /\ nests [] evs)
    (xml_read_document_loop event_log fuel first st).
Proof.
  revert st. induction fuel as [| fuel IH]; intros st;
    [by apply ensures_not_Ok |].
  cbn [xml_read_document_loop]. destruct (xml_eof st).
  { apply ensures_Ok. exists []. rewrite app_nil_r. split; [done |].
    intros s. by exists []. }
  eapply ensures_bind; [apply ensures_any |]. intros b _.
  destruct b; [| by apply ensures_not_Ok].
  eapply (ensures_bind (fun st1 => exists evs,
              user_data st1 = user_data st ++ evs /\ nests [] evs)).
  { unfold xml_read_document_construct.
    eapply ensures_bind; [apply ensures_any |]. intros c1 _.
    case_bool_decide.
    { eapply ensures_bind; [apply ensures_any |]. intros _ _.
      eapply ensures_impl; [apply xml_read_header_keeps |]. intros st1 H1.
      exists []. rewrite app_nil_r. split; [done |]. intros s. by exists []. }
    eapply ensures_bind; [apply ensures_any |]. intros c2 _.
    case_bool_decide.
    { eapply ensures_bind; [apply xml_read_comment_keeps |].
      intros [c st1] H1. apply ensures_Ok. exists [Comment c]. split.
      - unfold keeps2 in H1. simpl in *. by rewrite H1.
      - intros s. by exists []. }
    eapply ensures_bind; [apply ensures_any |]. intros c3 _.
    destruct (xml_is_alpha c3).
    - eapply ensures_impl; [apply xml_read_tag_nested_both |].
      intros st1 (evs & Hevs & [Hc | [_ Hn]]); exists evs;
        (split; [done |]); [by apply closes_nests | done].
    - apply ensures_Ok. exists []. rewrite app_nil_r. split; [done |].
      intros s. by exists []. }
  intros st1 (evs1 & Hevs1 & Hn1).
  eapply ensures_bind; [apply xml_eat_space_keeps |]. intros st2 H2.
  eapply ensures_impl; [apply IH |]. intros st3 (evs2 & Hevs2 & Hn2).
  exists (evs1 ++ evs2). split.
  { unfold keeps in H2. rewrite Hevs2, H2, Hevs1, <- app_assoc. done. }
  intros s. destruct (Hn1 s) as [s1 Hs1]. destruct (Hn2 (s1 ++ s)) as [s2 Hs2].
  exists (s2 ++ s1). simpl in *.
  rewrite open_tags_app, Hs1. simpl. by rewrite Hs2, <- app_assoc.
Qed.

(** In the events of a parse that returns, every EndTag closes the
    innermost open tag, and no prefix holds more EndTag than BeginTag
    events. *)
Lemma xml_events_nested fuel buf evs1 evs2 :
  xml_events fuel buf = Ok (evs1 ++ evs2) ->
  (exists s, open_tags [] evs1 = Some s) /\
  (count_end evs1 <= count_begin evs1)%nat.
Proof.
  unfold xml_events, xml_read_document. intros H.
  apply bind_Ok in H as (st2 & H & [= Hevs]).
  apply bind_Ok in H as (st1 & H1 & H).
  apply xml_eat_space_keeps in H1.
  apply xml_read_document_loop_nested in H as (evs & Hu & Hn).
  unfold keeps in H1. simpl in H1. rewrite H1 in Hu. simpl in Hu.
  destruct (Hn []) as [s Hs]. rewrite app_nil_r in Hs. simpl in Hs.
  rewrite <- Hu, Hevs, open_tags_app in Hs.
  destruct (open_tags [] evs1) as [s1 |] eqn:Hs1; [| done].
  split; [by exists s1 |].
  apply open_tags_count in Hs1. simpl in Hs1. lia.
Qed.

End Nesting.

(** ** Searching the children of an entity *)

Section Walk.

Import Dom.

Lemma children_inv_child_at h p ep i c :
  children_inv h -> h !! p = Some ep -> valid ep = true ->
  m_child ep !! i = Some c -> child_at h p i c.
Proof.
  intros Hinv Hp Hv Hc. destruct (Hinv p ep i c Hp Hc) as (ec & Hec & H1 & H2).
  by exists ep, ec.
Qed.

(** A loop that steps through the children of [this] with [next_child] until
    an entity satisfies [P]. *)
Context (h : heap) (this : nat) (P : xml_dom_entity -> bool).
Context (loop : nat -> entity_ptr -> result entity_ptr).
Context (loop_O : forall child, loop O child = OutOfFuel).
Context (loop_S : forall fuel child,
  loop (S fuel) child =
    match child with
    | None => Ok None
    | Some c =>
        e ← deref h c;
        if P e then Ok (Some c)
        else child ← next_child h this c; loop fuel child
    end).

Lemma forward_loop_find ep i fuel :
  children_inv h -> h !! this = Some ep -> valid ep = true ->
  (length (m_child ep) - i < fuel)%nat ->
  loop fuel (m_child ep !! i) = Ok (find_entity h P (drop i (m_child ep))).
Proof.
  intros Hinv Hp Hv. revert i.
  induction fuel as [| fuel IH]; intros i Hfuel; [lia |].
  rewrite loop_S. destruct (m_child ep !! i) as [c |] eqn:Hc.
  - destruct (Hinv this ep i c Hp Hc) as (ec & Hec & Hpar & Hidx).
    rewrite (drop_S _ _ _ Hc). unfold find_entity. cbn [find].
    unfold entity_test at 1. unfold deref. rewrite Hec.
    cbn [mbind result_bind]. destruct (P ec); [done |].
    rewrite (next_child_at h this i c ep); [| by exists ep, ec | done].
    cbn [mbind result_bind]. apply IH.
    apply lookup_lt_Some in Hc. lia.
  - apply lookup_ge_None in Hc. by rewrite drop_ge.
Qed.

End Walk.

Section WalkBack.

Import Dom.

Context (h : heap) (this : nat) (P : xml_dom_entity -> bool).
Context (loop : nat -> entity_ptr -> result entity_ptr).
Context (loop_O : forall child, loop O child = OutOfFuel).
Context (loop_S : forall fuel child,
  loop (S fuel) child =
    match child with
    | None => Ok None
    | Some c =>
        e ← deref h c;
        if P e then Ok (Some c)
        else child ← previous_child h this c; loop fuel child
    end).

(** Walking back from the child at position [i], which is not the last:
    the loop returns the nearest child at or before [i] that satisfies [P],
    and stops at the failed [assert] of [get_child] when there is none. *)
Lemma backward_loop_find ep i c fuel :
  children_inv h -> h !! this = Some ep -> valid ep = true ->
  m_child ep !! i = Some c -> (S i < length (m_child ep))%nat ->
  (i < fuel)%nat ->
  loop fuel (Some c) =
    match find_entity h P (reverse (take (S i) (m_child ep))) with
    | Some d => Ok (Some d)
    | None => Aborted
    end.
Proof.
  intros Hinv Hp Hv. revert i c.
  induction fuel as [| fuel IH]; intros i c Hc Hlast Hfuel; [lia |].
  rewrite loop_S.
  destruct (Hinv this ep i c Hp Hc) as (ec & Hec & Hpar & Hidx).
  rewrite (take_S_r _ _ _ Hc), reverse_snoc. unfold find_entity. cbn [find].
  unfold entity_test at 1. unfold deref. rewrite Hec.
  cbn [mbind result_bind]. destruct (P ec); [done |].
  rewrite (previous_child_at h this i c ep); [| by exists ep, ec | done].
  replace (S i <? length (m_child ep))%nat with true
    by (symmetry; by apply Nat.ltb_lt).
  destruct i as [| j]; [done |].
  destruct (m_child ep !! j) as [d |] eqn:Hd.
  - cbn [mbind result_bind]. apply (IH j d); [done | lia | lia].
  - apply lookup_ge_None in Hd. lia.
Qed.

End WalkBack.

Lemma children_invb_true h : children_invb h = true -> children_inv h.
Proof.
  unfold children_invb, children_inv. rewrite forallb_forall.
  intros Hall p ep i c Hp Hc.
  specialize (Hall (p, ep)). rewrite forallb_forall in Hall.
  assert ((p, ep) ∈ imap pair h) as Hin.
  { apply list_elem_of_lookup. exists p. by rewrite list_lookup_imap, Hp. }
  apply list_elem_of_In in Hin. specialize (Hall Hin (i, c)).
  assert ((i, c) ∈ imap pair (m_child ep)) as Hin2.
  { apply list_elem_of_lookup. exists i. by rewrite list_lookup_imap, Hc. }
  apply list_elem_of_In in Hin2. specialize (Hall Hin2). simpl in Hall.
  destruct (h !! c) as [ec |]; [| done].
  apply andb_true_iff in Hall as [H1%bool_decide_eq_true_1 H2%bool_decide_eq_true_1].
  by exists ec.
Qed.

Section NavigationByType.

Import Dom.

(** [first_child( type )] and [first_child( type, name )] return the first
    child, in order, that matches. *)
Lemma first_child_type_spec h p ep type name fuel :
  children_inv h -> h !! p = Some ep -> valid ep = true ->
  (length (m_child ep) < fuel)%nat ->
  first_child_type fuel h p type
    = Ok (find_entity h (of_type type) (m_child ep)) /\
  first_child_type_name fuel h p type name
    = Ok (find_entity h (of_type_name type name) (m_child ep)).
Proof.
  intros Hinv Hp Hv Hfuel.
  unfold first_child_type, first_child_type_name.
  rewrite (num_children_Ok h p ep Hp Hv). cbn [mbind result_bind].
  destruct (m_child ep) as [| c cs] eqn:Hcs; [done |].
  replace (0 <? Z.of_nat (length (c :: cs))) with true
    by (symmetry; apply Z.ltb_lt; rewrite length_cons; lia).
  rewrite (first_child_Ok h p ep Hp Hv). cbn [mbind result_bind].
  rewrite Hcs. change (head (c :: cs)) with ((c :: cs) !! 0%nat).
  rewrite <- Hcs. split.
  - rewrite (forward_loop_find h p (of_type type)
               (fun fuel child => next_of_type fuel h p child type)
               ltac:(done) ep 0%nat fuel);
      [by rewrite drop_0 | done .. | rewrite Hcs; simpl in *; lia].
  - rewrite (forward_loop_find h p (of_type_name type name)
               (fun fuel child => next_of_type_name fuel h p child type name)
               ltac:(done) ep 0%nat fuel);
      [by rewrite drop_0 | done .. | rewrite Hcs; simpl in *; lia].
Qed.

(** [next_child( child, type )] and its variants return the first child
    after [child] that matches. *)
Lemma next_child_type_spec h p ep i c type name fuel :
  children_inv h -> h !! p = Some ep -> valid ep = true ->
  m_child ep !! i = Some c -> (length (m_child ep) - i <= fuel)%nat ->
  let later := drop (S i) (m_child ep) in
  next_child_type fuel h p c type = Ok (find_entity h (of_type type) later) /\
  next_sibling_type fuel h c type = Ok (find_entity h (of_type type) later) /\
  next_child_type_name fuel h p c type name
    = Ok (find_entity h (of_type_name type name) later) /\
  next_sibling_type_name fuel h c type name
    = Ok (find_entity h (of_type_name type name) later).
Proof.
  intros Hinv Hp Hv Hc Hfuel later.
  destruct (Hinv p ep i c Hp Hc) as (ec & Hec & Hpar & Hidx).
  pose proof (lookup_lt_Some _ _ _ Hc) as Hlt.
  assert (next_child_type fuel h p c type
          = Ok (find_entity h (of_type type) later)) as H1.
  { unfold next_child_type, deref. rewrite Hec. cbn [mbind result_bind].
    rewrite Hpar, bool_decide_eq_true_2 by done.
    cbn [assert mbind result_bind].
    rewrite (next_child_at h p i c ep); [| by exists ep, ec | done].
    cbn [mbind result_bind].
    apply (forward_loop_find h p (of_type type)
             (fun fuel child => next_of_type fuel h p child type)
             ltac:(done) ep (S i) fuel); [done .. | lia]. }
  assert (next_child_type_name fuel h p c type name
          = Ok (find_entity h (of_type_name type name) later)) as H2.
  { unfold next_child_type_name, deref. rewrite Hec. cbn [mbind result_bind].
    rewrite Hpar, bool_decide_eq_true_2 by done.
    cbn [assert mbind result_bind].
    rewrite (next_child_at h p i c ep); [| by exists ep, ec | done].
    cbn [mbind result_bind].
    apply (forward_loop_find h p (of_type_name type name)
             (fun fuel child => next_of_type_name fuel h p child type name)
             ltac:(done) ep (S i) fuel); [done .. | lia]. }
  split; [done |]. split; [| split; [done |]].
  - unfold next_sibling_type, deref. rewrite Hec. cbn [mbind result_bind].
    by rewrite Hpar.
  - unfold next_sibling_type_name, deref. rewrite Hec. cbn [mbind result_bind].
    by rewrite Hpar.
Qed.

(** [previous_child( child, type )] and its variants, from the child at
    position [i]. *)
Lemma previous_child_type_spec h p ep i c type name fuel :
  children_inv h -> h !! p = Some ep -> valid ep = true ->
  m_child ep !! i = Some c -> (i < fuel)%nat ->
  let earlier := reverse (take i (m_child ep)) in
  let found (P : xml_dom_entity -> bool) : result entity_ptr :=
    if (S i <? length (m_child ep))%nat
    then match find_entity h P earlier with
         | Some d => Ok (Some d)
         | None => Aborted
         end
    else Ok None in
  previous_child_type fuel h p c type = found (of_type type) /\
  previous_sibling_type fuel h c type = found (of_type type) /\
  previous_child_type_name fuel h p c type name
    = found (of_type_name type name) /\
  previous_sibling_type_name fuel h c type name
    = found (of_type_name type name).
Proof.
  intros Hinv Hp Hv Hc Hfuel earlier found.
  destruct (Hinv p ep i c Hp Hc) as (ec & Hec & Hpar & Hidx).
  assert (forall (P : xml_dom_entity -> bool)
            (loop : nat -> entity_ptr -> result entity_ptr),
    (forall fuel child,
       loop (S fuel) child =
         match child with
         | None => Ok None
         | Some c =>
             e ← deref h c;
             if P e then Ok (Some c)
             else child ← previous_child h p c; loop fuel child
         end) ->
    (child ← previous_child h p c; loop fuel child) = found P) as Hloop.
  { intros P loop loop_S.
    rewrite (previous_child_at h p i c ep); [| by exists ep, ec | done].
    subst found. cbv beta.
    destruct (S i <? length (m_child ep))%nat eqn:Hlast.
    - apply Nat.ltb_lt in Hlast. subst earlier.
      destruct i as [| j]; [done |].
      destruct (m_child ep !! j) as [d |] eqn:Hd.
      + cbn [mbind result_bind].
        apply (backward_loop_find h p P loop loop_S ep j d);
          [done .. | lia | lia].
      + apply lookup_ge_None in Hd. lia.
    - cbn [mbind result_bind]. destruct fuel as [| fuel]; [lia |].
      by rewrite loop_S. }
  assert (previous_child_type fuel h p c type = found (of_type type)) as H1.
  { unfold previous_child_type, deref. rewrite Hec. cbn [mbind result_bind].
    rewrite Hpar, bool_decide_eq_true_2 by done.
    cbn [assert mbind result_bind].
    by apply (Hloop (of_type type)
                (fun fuel child => previous_of_type fuel h p child type)). }
  assert (previous_child_type_name fuel h p c type name
          = found (of_type_name type name)) as H2.
  { unfold previous_child_type_name, deref. rewrite Hec.
    cbn [mbind result_bind].
    rewrite Hpar, bool_decide_eq_true_2 by done.
    cbn [assert mbind result_bind].
    by apply (Hloop (of_type_name type name)
                (fun fuel child =>
                   previous_of_type_name fuel h p child type name)). }
  split; [done |]. split; [| split; [done |]].
  - unfold previous_sibling_type, deref. rewrite Hec. cbn [mbind result_bind].
    by rewrite Hpar.
  - unfold previous_sibling_type_name, deref. rewrite Hec.
    cbn [mbind result_bind]. by rewrite Hpar.
Qed.

End NavigationByType.

(** ** The text and the listing of a tree *)

Lemma snapshot_S_inv n h a t :
  snapshot (S n) h a = Some t ->
  exists e ts,
    h !! a = Some e /\
    Forall2 (fun c t => snapshot n h c = Some t) (m_child e) ts /\
    t = DomNode (m_type e) (m_name e) (m_value e) ts.
Proof.
  cbn [snapshot]. destruct (h !! a) as [e |]; [| done]. simpl.
  destruct (mapM (snapshot n h) (m_child e)) as [ts |] eqn:Hts; [| done].
  simpl. intros [= <-]. exists e, ts. split; [done |].
  split; [| done]. by apply mapM_Some.
Qed.

Lemma snapshot_fields n h a t :
  snapshot n h a = Some t ->
  exists e, h !! a = Some e /\ m_type e = tree_type t /\
    m_name e = tree_name t /\ m_value e = tree_value t /\
    length (m_child e) = length (tree_children t).
Proof.
  destruct n as [| n]; [done |]. intros H.
  apply snapshot_S_inv in H as (e & ts & He & Hts & ->).
  exists e. repeat split; try done. simpl. by eapply Forall2_length.
Qed.

Section Render.

Import Dom.

Context (h : heap) (Hinv : children_inv h).

Lemma entity_test_type n c t type :
  snapshot n h c = Some t ->
  entity_test h (of_type type) c = is_type type t.
Proof.
  intros (e & He & Ht & _)%snapshot_fields.
  unfold entity_test, of_type, is_type. by rewrite He, Ht.
Qed.

Lemma find_entity_existsb n type cs ts :
  Forall2 (fun c t => snapshot n h c = Some t) cs ts ->
  match find_entity h (of_type type) cs with
  | Some _ => true
  | None => false
  end = existsb (is_type type) ts.
Proof.
  unfold find_entity. induction 1 as [| c t cs ts Hc _ IH]; [done |].
  cbn [find existsb]. rewrite (entity_test_type n c t type Hc).
  by destruct (is_type type t).
Qed.

Lemma lookup_middle_drop {A} (l1 l2 : list A) c :
  (l1 ++ c :: l2) !! length l1 = Some c /\
  drop (S (length l1)) (l1 ++ c :: l2) = l2.
Proof.
  split; [by apply list_lookup_middle |].
  rewrite drop_app_ge by lia.
  by replace (S (length l1) - length l1)%nat with 1%nat by lia.
Qed.

Lemma valid_type e :
  m_type e <> XML_DOM_INVALID -> valid e = true.
Proof. intros H. unfold valid. by rewrite bool_decide_eq_false_2. Qed.

(** The attribute loop writes the attributes among the children, in
    order. *)
Lemma stream_attributes_children n p ep l1 l2 ts fuel :
  h !! p = Some ep -> valid ep = true -> m_child ep = l1 ++ l2 ->
  Forall2 (fun c t => snapshot n h c = Some t) l2 ts ->
  (length l2 < fuel)%nat ->
  stream_attributes fuel h (find_entity h (of_type XML_DOM_ATTRIBUTE) l2)
  = Ok (flat_map (fun c =>
          if is_type XML_DOM_ATTRIBUTE c
          then attribute_text (tree_name c) (tree_value c) else []) ts).
Proof.
  intros Hp Hv Hch Hts. revert l1 fuel Hch.
  induction Hts as [| c t l2 ts Hc _ IH]; intros l1 fuel Hch Hfuel.
  - destruct fuel as [| fuel]; [simpl in Hfuel; lia | done].
  - unfold find_entity. cbn [find flat_map].
    rewrite (entity_test_type n c t _ Hc).
    destruct (snapshot_fields _ _ _ _ Hc) as (e & He & Ht & Hn & Hval & _).
    destruct (lookup_middle_drop l1 l2 c) as [Hlook Hdrop].
    rewrite <- Hch in Hlook, Hdrop.
    assert (m_child ep = (l1 ++ [c]) ++ l2) as Hch'
      by (by rewrite <- app_assoc).
    simpl in Hfuel.
    destruct (is_type XML_DOM_ATTRIBUTE t) eqn:Hattr.
    + destruct fuel as [| fuel]; [lia |].
      cbn [stream_attributes]. unfold get_name, get_value, deref.
      rewrite He. cbn [mbind result_bind].
      apply bool_decide_eq_true_1 in Hattr.
      rewrite valid_type by (rewrite Ht, Hattr; done).
      cbn [assert mbind result_bind].
      unfold next_sibling_attribute.
      destruct (next_child_type_spec h p ep (length l1) c XML_DOM_ATTRIBUTE
                  [] fuel Hinv Hp Hv Hlook) as (_ & -> & _).
      { rewrite Hch, length_app. simpl. lia. }
      cbn [mbind result_bind]. rewrite Hdrop.
      fold (find_entity h (of_type XML_DOM_ATTRIBUTE) l2).
      rewrite (IH (l1 ++ [c]) fuel Hch') by lia.
      cbn [mbind result_bind]. rewrite Hn, Hval. unfold attribute_text.
      f_equal. by rewrite <- !app_assoc.
    + fold (find_entity h (of_type XML_DOM_ATTRIBUTE) l2).
      rewrite (IH (l1 ++ [c]) fuel Hch') by lia. done.
Qed.

(** The loop over the children writes every child that is not an
    attribute, in order. *)
Lemma stream_children_children n p ep l1 l2 ts fuel :
  h !! p = Some ep -> valid ep = true -> m_child ep = l1 ++ l2 ->
  Forall2 (fun c t => snapshot n h c = Some t) l2 ts ->
  (forall c t fuel, snapshot n h c = Some t -> streamable t = true ->
     (tree_fuel t <= fuel)%nat -> operator_out fuel h c = Ok (render t)) ->
  forallb (fun c => is_type XML_DOM_ATTRIBUTE c || streamable c) ts = true ->
  (length l2 + list_sum (map tree_fuel ts) < fuel)%nat ->
  stream_children fuel h (head l2)
  = Ok (flat_map (fun c =>
          if is_type XML_DOM_ATTRIBUTE c then [] else render c) ts).
Proof.
  intros Hp Hv Hch Hts IHop. revert l1 fuel Hch.
  induction Hts as [| c t l2 ts Hc _ IH]; intros l1 fuel Hch Hok Hfuel.
  - destruct fuel as [| fuel]; [simpl in Hfuel; lia | done].
  - destruct fuel as [| fuel]; [simpl in Hfuel; lia |].
    cbn [forallb] in Hok. apply andb_true_iff in Hok as [Hokc Hok].
    simpl in Hfuel.
    destruct (snapshot_fields _ _ _ _ Hc) as (e & He & Ht & _).
    destruct (lookup_middle_drop l1 l2 c) as [Hlook Hdrop].
    rewrite <- Hch in Hlook, Hdrop.
    destruct (Hinv p ep _ c Hp Hlook) as (ec & Hec & Hpar & Hidx).
    assert (ec = e) as -> by congruence.
    assert (m_child ep = (l1 ++ [c]) ++ l2) as Hch'
      by (by rewrite <- app_assoc).
    cbn [head]. rewrite stream_children_eq. unfold get_type at 1, deref.
    rewrite He. cbn [mbind result_bind flat_map].
    assert (bool_decide (m_type e = XML_DOM_ATTRIBUTE)
            = is_type XML_DOM_ATTRIBUTE t) as ->
      by (unfold is_type; by rewrite Ht).
    assert ((if negb (is_type XML_DOM_ATTRIBUTE t)
             then operator_out fuel h c else Ok [])
            = Ok (if is_type XML_DOM_ATTRIBUTE t then [] else render t)) as ->.
    { destruct (is_type XML_DOM_ATTRIBUTE t); [done |]. simpl in Hokc.
      cbn [negb]. apply IHop; [done .. | lia]. }
    cbn [mbind result_bind].
    unfold next_sibling, deref. rewrite He. cbn [mbind result_bind].
    rewrite Hpar.
    rewrite (next_child_at h p (length l1) c ep);
      [| by exists ep, e | done].
    cbn [mbind result_bind]. rewrite <- head_drop, Hdrop.
    rewrite (IH (l1 ++ [c]) fuel Hch' Hok) by lia.
    done.
Qed.

Lemma streamable_inv t :
  streamable t = true ->
  tree_type t <> XML_DOM_INVALID /\ tree_type t <> XML_DOM_ATTRIBUTE /\
  forallb (fun c => is_type XML_DOM_ATTRIBUTE c || streamable c)
    (tree_children t) = true.
Proof.
  destruct t as [type name value children]. cbn [streamable].
  intros [[H1 H2]%andb_true_iff H3]%andb_true_iff.
  apply negb_true_iff, bool_decide_eq_false_1 in H1, H2. done.
Qed.

Lemma operator_out_render n :
  forall a t fuel,
    snapshot n h a = Some t -> streamable t = true ->
    (tree_fuel t <= fuel)%nat ->
    operator_out fuel h a = Ok (render t).
Proof.
  induction n as [| n IH]; intros a t fuel Hsnap Hok Hfuel; [done |].
  apply snapshot_S_inv in Hsnap as (e & ts & He & Hts & ->).
  apply streamable_inv in Hok as (Hninv & Hnattr & Hkids).
  cbn [tree_type tree_children] in *.
  pose proof (valid_type e Hninv) as Hv.
  pose proof (Forall2_length _ _ _ Hts) as Hlen.
  cbn [tree_fuel] in Hfuel. rewrite <- Hlen in Hfuel.
  destruct fuel as [| fuel]; [lia |].
  rewrite operator_out_eq. unfold get_type, deref. rewrite He.
  cbn [mbind result_bind]. rewrite bool_decide_eq_false_2 by done.
  (* the test for content *)
  assert (forall g, (length (m_child e) < g)%nat ->
            first_child_tag g h a
            = Ok (find_entity h (of_type XML_DOM_TAG) (m_child e))) as Htag.
  { intros g Hg. unfold first_child_tag.
    by destruct (first_child_type_spec h a e XML_DOM_TAG [] g Hinv He Hv Hg)
      as [-> _]. }
  pose proof (find_entity_existsb n XML_DOM_TAG _ _ Hts) as Hex.
  set (content := existsb (is_type XML_DOM_TAG) ts
                  || negb (bool_decide (length (m_value e) = 0%nat))).
  assert (has_no_content fuel h a = Ok (negb content)) as Hno.
  { unfold has_no_content. rewrite Htag by lia. cbn [mbind result_bind].
    subst content. rewrite <- Hex.
    destruct (find_entity h (of_type XML_DOM_TAG) (m_child e)); [done |].
    unfold get_value, deref. rewrite He. cbn [mbind result_bind].
    rewrite Hv. cbn [assert mbind result_bind orb]. by rewrite negb_involutive. }
  assert (has_content fuel h a = Ok content) as Hyes.
  { unfold has_content. rewrite Htag by lia. cbn [mbind result_bind].
    subst content. rewrite <- Hex.
    destruct (find_entity h (of_type XML_DOM_TAG) (m_child e)); [done |].
    unfold get_value, deref. rewrite He. cbn [mbind result_bind].
    rewrite Hv. done. }
  (* the children *)
  assert (stream_children fuel h (head (m_child e))
          = Ok (flat_map (fun c =>
                  if is_type XML_DOM_ATTRIBUTE c then [] else render c) ts))
    as Hchildren.
  { apply (stream_children_children n a e [] (m_child e) ts fuel);
      try done. lia. }
  rewrite (first_child_Ok h a e He Hv).
  cbn [render]. fold content.
  destruct (m_type e) eqn:Htype; try done.
  - (* document *)
    cbn [mbind result_bind]. rewrite Hchildren. cbn [mbind result_bind].
    rewrite bool_decide_eq_false_2 by done. cbn [mbind result_bind].
    f_equal. unfold header_text. rewrite app_nil_r.
    by rewrite <- !app_assoc.
  - (* tag *)
    unfold get_name, get_value, deref. rewrite He. cbn [mbind result_bind].
    rewrite Hv. cbn [assert mbind result_bind].
    unfold first_child_attribute.
    destruct (first_child_type_spec h a e XML_DOM_ATTRIBUTE [] fuel
                Hinv He Hv) as [-> _]; [lia |].
    cbn [mbind result_bind].
    rewrite (stream_attributes_children n a e [] (m_child e) ts fuel)
      by (done || lia).
    cbn [mbind result_bind]. rewrite Hno. cbn [mbind result_bind].
    rewrite bool_decide_eq_true_2 by done. rewrite Hyes.
    destruct content; cbn [negb mbind result_bind]; rewrite Hchildren;
      cbn [mbind result_bind]; f_equal; rewrite ?app_nil_r;
      by rewrite <- !app_assoc.
  - (* comment *)
    unfold get_value, deref. rewrite He. cbn [mbind result_bind].
    rewrite Hv. cbn [assert mbind result_bind]. rewrite Hchildren.
    cbn [mbind result_bind]. rewrite bool_decide_eq_false_2 by done.
    cbn [mbind result_bind]. f_equal. rewrite app_nil_r.
    by rewrite <- !app_assoc.
Qed.

End Render.
Section PrintTree.

Import Dom.

Context (h : heap) (Hinv : children_inv h).

Lemma print_eq fuel this scope :
  print (S fuel) h this scope =
    e ← deref h this;
    line ←
      match m_type e with
      | XML_DOM_INVALID => Ok []
      | XML_DOM_DOCUMENT => Ok (str "DOCUMENT" ++ [LF])
      | XML_DOM_TAG =>
          name ← get_name h this;
          Ok (str "TAG: " ++ c_str name ++ [LF])
      | XML_DOM_COMMENT =>
          value ← get_value h this;
          Ok (str "COMMENT: " ++ c_str value ++ [LF])
      | XML_DOM_ATTRIBUTE =>
          name ← get_name h this;
          value ← get_value h this;
          Ok (str "ATTRIBUTE: " ++ c_str name ++ str "=" ++ c_str value
              ++ [LF])
      end;
    child ← first_child h this;
    rest ← print_children fuel h child (scope + 1);
    Ok (print_scope scope ++ line ++ rest).
Proof. done. Qed.

Lemma print_children_eq fuel child scope :
  print_children (S fuel) h child scope =
    match child with
    | None => Ok []
    | Some c =>
        out ← print fuel h c scope;
        child ← next_sibling h c;
        rest ← print_children fuel h child scope;
        Ok (out ++ rest)
    end.
Proof. done. Qed.

Lemma print_children_tree n p ep l1 l2 ts fuel scope :
  h !! p = Some ep -> valid ep = true -> m_child ep = l1 ++ l2 ->
  Forall2 (fun c t => snapshot n h c = Some t) l2 ts ->
  (forall c t fuel scope, snapshot n h c = Some t -> tree_valid t = true ->
     (tree_fuel t <= fuel)%nat ->
     print fuel h c scope = Ok (print_tree scope t)) ->
  forallb tree_valid ts = true ->
  (length l2 + list_sum (map tree_fuel ts) < fuel)%nat ->
  print_children fuel h (head l2) scope
  = Ok (flat_map (print_tree scope) ts).
Proof.
  intros Hp Hv Hch Hts IHp. revert l1 fuel Hch.
  induction Hts as [| c t l2 ts Hc _ IH]; intros l1 fuel Hch Hok Hfuel.
  - destruct fuel as [| fuel]; [simpl in Hfuel; lia | done].
  - destruct fuel as [| fuel]; [simpl in Hfuel; lia |].
    cbn [forallb] in Hok. apply andb_true_iff in Hok as [Hokc Hok].
    simpl in Hfuel.
    destruct (snapshot_fields _ _ _ _ Hc) as (e & He & Ht & _).
    destruct (lookup_middle_drop l1 l2 c) as [Hlook Hdrop].
    rewrite <- Hch in Hlook, Hdrop.
    destruct (Hinv p ep _ c Hp Hlook) as (ec & Hec & Hpar & Hidx).
    assert (ec = e) as -> by congruence.
    assert (m_child ep = (l1 ++ [c]) ++ l2) as Hch'
      by (by rewrite <- app_assoc).
    cbn [head]. rewrite print_children_eq.
    rewrite (IHp c t fuel scope Hc Hokc) by lia.
    cbn [mbind result_bind flat_map].
    unfold next_sibling, deref. rewrite He. cbn [mbind result_bind].
    rewrite Hpar.
    rewrite (next_child_at h p (length l1) c ep);
      [| by exists ep, e | done].
    cbn [mbind result_bind]. rewrite <- head_drop, Hdrop.
    rewrite (IH (l1 ++ [c]) fuel Hch' Hok) by lia.
    done.
Qed.

Lemma print_print_tree n :
  forall a t fuel scope,
    snapshot n h a = Some t -> tree_valid t = true ->
    (tree_fuel t <= fuel)%nat ->
    print fuel h a scope = Ok (print_tree scope t).
Proof.
  induction n as [| n IH]; intros a t fuel scope Hsnap Hok Hfuel; [done |].
  apply snapshot_S_inv in Hsnap as (e & ts & He & Hts & ->).
  cbn [tree_valid] in Hok.
  apply andb_true_iff in Hok as [Hninv Hkids].
  apply negb_true_iff, bool_decide_eq_false_1 in Hninv.
  pose proof (valid_type e Hninv) as Hv.
  pose proof (Forall2_length _ _ _ Hts) as Hlen.
  cbn [tree_fuel] in Hfuel. rewrite <- Hlen in Hfuel.
  destruct fuel as [| fuel]; [lia |].
  rewrite print_eq. unfold deref at 1. rewrite He. cbn [mbind result_bind].
  assert (match m_type e with
          | XML_DOM_INVALID => Ok []
          | XML_DOM_DOCUMENT => Ok (str "DOCUMENT" ++ [LF])
          | XML_DOM_TAG =>
              name ← get_name h a;
              Ok (str "TAG: " ++ c_str name ++ [LF])
          | XML_DOM_COMMENT =>
              value ← get_value h a;
              Ok (str "COMMENT: " ++ c_str value ++ [LF])
          | XML_DOM_ATTRIBUTE =>
              name ← get_name h a;
              value ← get_value h a;
              Ok (str "ATTRIBUTE: " ++ c_str name ++ str "=" ++ c_str value
                  ++ [LF])
          end = Ok (print_line (m_type e) (m_name e) (m_value e))) as ->.
  { unfold get_name, get_value, deref. rewrite He. cbn [mbind result_bind].
    rewrite Hv. by destruct (m_type e). }
  cbn [mbind result_bind].
  rewrite (first_child_Ok h a e He Hv). cbn [mbind result_bind].
  rewrite (print_children_tree n a e [] (m_child e) ts fuel (scope + 1));
    try done. lia.
Qed.

End PrintTree.

(** ** Well-formed stores *)

Section WellFormed.

Import Dom.

Lemma fresh_set_type (h : heap) e t :
  set_type (h ++ [e]) (length h) t = Ok (h ++ [with_type e t]).
Proof.
  unfold set_type, deref. rewrite lookup_last. cbn [mbind result_bind].
  by rewrite insert_last.
Qed.

Lemma fresh_set_name (h : heap) e n :
  valid e = true ->
  set_name (h ++ [e]) (length h) n = Ok (h ++ [with_name e n]).
Proof.
  intros Hv. unfold set_name, deref. rewrite lookup_last.
  cbn [mbind result_bind]. rewrite Hv. cbn [assert mbind result_bind].
  by rewrite insert_last.
Qed.

Lemma fresh_set_value (h : heap) e v :
  valid e = true ->
  set_value (h ++ [e]) (length h) v = Ok (h ++ [with_value e v]).
Proof.
  intros Hv. unfold set_value, deref. rewrite lookup_last.
  cbn [mbind result_bind]. rewrite Hv. cbn [assert mbind result_bind].
  by rewrite insert_last.
Qed.

(** Adding a new entity without children to an entity of a well-formed
    store. *)
Lemma add_child_fresh_wf h e this h' :
  wf_store h -> m_child e = [] -> valid e = true -> (this < length h)%nat ->
  add_child (h ++ [e]) this (length h) = Ok h' -> wf_store h'.
Proof.
  intros (Hinv & Hord & Hval) Hnil Hve Hthis Hadd.
  destruct (children_inv_snoc h e Hinv Hnil) as [Hinv1 Hdet1].
  pose proof (add_child_children_inv _ _ _ _ Hinv1 Hdet1 Hadd) as Hinv'.
  destruct (add_child_Ok _ _ _ _ Hadd)
    as (e0 & c & e' & c' & He0 & Hc & Hv0 & He' & Hc' & Hlen & Hframe & Hch
        & Hty & _ & _ & Hsame & _ & _ & Htyc & _).
  rewrite lookup_app_l in He0 by done.
  rewrite lookup_last in Hc. injection Hc as <-.
  assert (this <> length h) as Hne by lia.
  destruct (Hsame Hne) as (_ & _ & Hcc).
  assert (forall p ep, p <> this -> p <> length h -> h' !! p = Some ep ->
            h !! p = Some ep) as Hold.
  { intros p ep Hp1 Hp2 Hp. rewrite Hframe in Hp by done.
    pose proof (lookup_lt_Some _ _ _ Hp) as Hlt.
    rewrite length_app in Hlt. simpl in Hlt.
    rewrite lookup_app_l in Hp by lia. done. }
  split; [done |]. split.
  - intros p ep x Hp Hx. destruct (decide (p = this)) as [-> | Hp1].
    + replace ep with e' in * by congruence. rewrite Hch in Hx.
      apply elem_of_app in Hx as [Hx | Hx].
      * by eapply Hord.
      * apply list_elem_of_singleton in Hx. lia.
    + destruct (decide (p = length h)) as [-> | Hp2].
      * replace ep with c' in * by congruence. rewrite Hcc, Hnil in Hx.
        by apply elem_of_nil in Hx.
      * eapply Hord; [by apply Hold | done].
  - intros a ea Ha. destruct (decide (a = this)) as [-> | Ha1].
    + replace ea with e' by congruence. unfold valid in *. by rewrite Hty.
    + destruct (decide (a = length h)) as [-> | Ha2].
      * replace ea with c' by congruence. unfold valid in *. by rewrite Htyc.
      * eapply Hval. by apply Hold.
Qed.

(** An update of an entity that keeps its links and leaves it valid. *)
Lemma update_wf h a e e' :
  wf_store h -> h !! a = Some e ->
  m_parent e' = m_parent e -> m_index e' = m_index e ->
  m_child e' = m_child e -> valid e' = true ->
  wf_store (<[a := e']> h).
Proof.
  intros (Hinv & Hord & Hval) Ha Hp Hi Hc Hv.
  pose proof (lookup_lt_Some _ _ _ Ha) as Hlt.
  assert (forall x ex, (<[a := e']> h) !! x = Some ex ->
            exists ex0, h !! x = Some ex0 /\ m_parent ex = m_parent ex0 /\
              m_index ex = m_index ex0 /\ m_child ex = m_child ex0) as Hsame.
  { intros x ex Hx. destruct (decide (x = a)) as [-> | Hne].
    - rewrite list_lookup_insert_eq in Hx by done. injection Hx as <-.
      by exists e.
    - rewrite list_lookup_insert_ne in Hx by done. by exists ex. }
  assert (forall x ex0, h !! x = Some ex0 ->
            exists ex, (<[a := e']> h) !! x = Some ex /\
              m_parent ex = m_parent ex0 /\ m_index ex = m_index ex0) as Hfwd.
  { intros x ex0 Hx. destruct (decide (x = a)) as [-> | Hne].
    - exists e'. rewrite list_lookup_insert_eq by done.
      replace ex0 with e by congruence. done.
    - exists ex0. by rewrite list_lookup_insert_ne. }
  split; [| split].
  - intros p ep i c Hpe Hci.
    destruct (Hsame p ep Hpe) as (ep0 & Hp0 & _ & _ & Hch). rewrite Hch in Hci.
    destruct (Hinv p ep0 i c Hp0 Hci) as (ec0 & Hec0 & H1 & H2).
    destruct (Hfwd c ec0 Hec0) as (ec & Hec & H3 & H4).
    exists ec. split; [done |]. by rewrite H3, H4.
  - intros p ep c Hpe Hcin.
    destruct (Hsame p ep Hpe) as (ep0 & Hp0 & _ & _ & Hch). rewrite Hch in Hcin.
    by eapply Hord.
  - intros x ex Hx. destruct (decide (x = a)) as [-> | Hne].
    + rewrite list_lookup_insert_eq in Hx by done. by injection Hx as <-.
    + rewrite list_lookup_insert_ne in Hx by done. by eapply Hval.
Qed.

Lemma tag_or_document_valid e : is_tag_or_document e = true -> valid e = true.
Proof. unfold is_tag_or_document, valid. by destruct (m_type e). Qed.

Lemma add_tag_wf h this name a h' :
  wf_store h -> add_tag h this name = Ok (a, h') -> wf_store h'.
Proof.
  intros Hwf H. unfold add_tag in H.
  apply bind_Ok in H as (e & He%deref_Ok & H).
  apply bind_Ok in H as ([] & _ & H). cbn [new_entity] in H.
  rewrite fresh_set_type in H. cbn [mbind result_bind] in H.
  rewrite fresh_set_name in H by done. cbn [mbind result_bind] in H.
  apply bind_Ok in H as (h2 & Hadd & [= <- <-]).
  eapply add_child_fresh_wf; [done | | | | exact Hadd]; try done.
  by eapply lookup_lt_Some.
Qed.

Lemma add_attribute_wf h this name value a h' :
  wf_store h -> add_attribute h this name value = Ok (a, h') -> wf_store h'.
Proof.
  intros Hwf H. unfold add_attribute in H.
  apply bind_Ok in H as (e & He%deref_Ok & H).
  apply bind_Ok in H as ([] & _ & H). cbn [new_entity] in H.
  rewrite fresh_set_type in H. cbn [mbind result_bind] in H.
  rewrite fresh_set_name in H by done. cbn [mbind result_bind] in H.
  rewrite fresh_set_value in H by done. cbn [mbind result_bind] in H.
  apply bind_Ok in H as (h2 & Hadd & [= <- <-]).
  eapply add_child_fresh_wf; [done | | | | exact Hadd]; try done.
  by eapply lookup_lt_Some.
Qed.

Lemma add_comment_wf h this c a h' :
  wf_store h -> add_comment h this c = Ok (a, h') -> wf_store h'.
Proof.
  intros Hwf H. unfold add_comment in H.
  apply bind_Ok in H as (e & He%deref_Ok & H).
  apply bind_Ok in H as ([] & _ & H). cbn [new_entity] in H.
  rewrite fresh_set_type in H. cbn [mbind result_bind] in H.
  rewrite fresh_set_value in H by done. cbn [mbind result_bind] in H.
  apply bind_Ok in H as (h2 & Hadd & [= <- <-]).
  eapply add_child_fresh_wf; [done | | | | exact Hadd]; try done.
  by eapply lookup_lt_Some.
Qed.

Lemma set_value_wf h this v h' :
  wf_store h -> set_value h this v = Ok h' -> wf_store h'.
Proof.
  intros Hwf H. unfold set_value in H.
  apply bind_Ok in H as (e & He%deref_Ok & H).
  apply bind_Ok in H as ([] & Hv%assert_Ok & [= <-]).
  by eapply update_wf.
Qed.

Lemma set_name_wf h this n h' :
  wf_store h -> set_name h this n = Ok h' -> wf_store h'.
Proof.
  intros Hwf H. unfold set_name in H.
  apply bind_Ok in H as (e & He%deref_Ok & H).
  apply bind_Ok in H as ([] & Hv%assert_Ok & [= <-]).
  by eapply update_wf.
Qed.

Lemma run_steps_wf steps h h' :
  wf_store h -> run_steps h steps = Ok h' -> wf_store h'.
Proof.
  revert h. induction steps as [| s steps IH]; intros h Hwf H.
  - by injection H as <-.
  - cbn [run_steps] in H. apply bind_Ok in H as (h1 & Hs & H).
    apply (IH h1); [| done]. destruct s; cbn [run_step] in Hs.
    + apply bind_Ok in Hs as ([a h2] & Hs & [= <-]). by eapply add_tag_wf.
    + apply bind_Ok in Hs as ([a h2] & Hs & [= <-]).
      by eapply add_attribute_wf.
    + apply bind_Ok in Hs as ([a h2] & Hs & [= <-]). by eapply add_comment_wf.
    + by eapply set_value_wf.
Qed.

Lemma new_document_wf h :
  wf_store h ->
  wf_store (h ++ [with_type xml_dom_entity_new XML_DOM_DOCUMENT]).
Proof.
  intros (Hinv & Hord & Hval).
  destruct (children_inv_snoc h (with_type xml_dom_entity_new XML_DOM_DOCUMENT)
              Hinv eq_refl) as [Hinv1 _].
  assert (forall p ep,
            (h ++ [with_type xml_dom_entity_new XML_DOM_DOCUMENT]) !! p
            = Some ep ->
            h !! p = Some ep \/
            ep = with_type xml_dom_entity_new XML_DOM_DOCUMENT) as Hcase.
  { intros p ep Hp. destruct (decide (p < length h)%nat) as [Hlt | Hge].
    - left. by rewrite lookup_app_l in Hp.
    - right. rewrite lookup_app_r in Hp by lia.
      destruct (p - length h)%nat; [| done]. by injection Hp as <-. }
  split; [done |]. split.
  - intros p ep c Hp Hc. destruct (Hcase p ep Hp) as [Hp' | ->].
    + by eapply Hord.
    + by apply elem_of_nil in Hc.
  - intros a e Ha. destruct (Hcase a e Ha) as [Ha' | ->]; [| done].
    by eapply Hval.
Qed.

Lemma wf_store_nil : wf_store [].
Proof. split; [| split]; intros ? ? *; by rewrite lookup_nil. Qed.

Lemma build_tree_wf steps h : build_tree steps = Ok h -> wf_store h.
Proof.
  unfold build_tree. cbn [new_entity]. rewrite (fresh_set_type [] _ _).
  cbn [mbind result_bind]. apply run_steps_wf.
  apply (new_document_wf []), wf_store_nil.
Qed.

(** In a well-formed store the entities below an entity form a tree. *)
Lemma wf_store_snapshot h :
  wf_store h ->
  forall k a, (length h <= a + k)%nat -> (a < length h)%nat ->
    exists t, snapshot k h a = Some t /\ tree_valid t = true.
Proof.
  intros (Hinv & Hord & Hval).
  induction k as [| k IH]; intros a Hk Ha; [lia |].
  destruct (lookup_lt_is_Some_2 h a Ha) as [e He].
  assert (exists ts, mapM (snapshot k h) (m_child e) = Some ts /\
            forallb tree_valid ts = true) as (ts & Hts & Hok).
  { assert (forall c, c ∈ m_child e -> (a < c < length h)%nat) as Hcs.
    { intros c Hc. split; [by eapply Hord |].
      apply list_elem_of_lookup_1 in Hc as [i Hi].
      destruct (Hinv a e i c He Hi) as (ec & Hec & _).
      by eapply lookup_lt_Some. }
    induction (m_child e) as [| c cs IHcs].
    - by exists [].
    - destruct (IH c) as (t & Ht & Hvt).
      { specialize (Hcs c ltac:(left)). lia. }
      { by apply Hcs; left. }
      destruct IHcs as (ts & Hts & Hok).
      { intros x Hx. apply Hcs. by right. }
      exists (t :: ts). split.
      + apply mapM_Some. constructor; [done |]. by apply mapM_Some.
      + simpl. by rewrite Hvt, Hok. }
  exists (DomNode (m_type e) (m_name e) (m_value e) ts). split.
  - cbn [snapshot]. rewrite He. simpl. rewrite Hts. done.
  - cbn [tree_valid]. rewrite Hok, andb_true_r.
    specialize (Hval a e He). unfold valid in Hval. done.
Qed.

Lemma tree_valid_streamable t :
  tree_valid t = true -> tree_type t <> XML_DOM_ATTRIBUTE ->
  streamable t = true.
Proof.
  revert t. fix IH 1. intros [type name value children] Hv Hna.
  cbn [tree_valid streamable tree_type] in *.
  apply andb_true_iff in Hv as [Hv1 Hv2].
  rewrite Hv1, (bool_decide_eq_false_2 _ Hna). simpl.
  clear Hv1 Hna. induction children as [| c cs IHcs]; [done |].
  cbn [forallb] in *. apply andb_true_iff in Hv2 as [Hc Hcs].
  rewrite (IHcs Hcs), andb_true_r.
  destruct (is_type XML_DOM_ATTRIBUTE c) eqn:Hattr; [done |].
  simpl. apply IH; [done |]. by apply bool_decide_eq_false_1 in Hattr.
Qed.

End WellFormed.

(** ** A run with any callbacks replays the events *)

Section Parametric.

Context {U : Type} (cb : xml_callbacks U) (u0 : U).

Local Abbreviation state := (xml_state (list event)).
Local Abbreviation play := (played cb u0).
Local Abbreviation play2 := (played2 cb u0).

Lemma play_eof (st : state) : xml_eof (play st) = xml_eof st.
Proof. done. Qed.

Lemma play_peek (st : state) o : xml_peek (play st) o = xml_peek st o.
Proof. done. Qed.

Lemma play_peek_is (st : state) o c : peek_is (play st) o c = peek_is st o c.
Proof. done. Qed.

Lemma play_peek_is_not (st : state) o c :
  peek_is_not (play st) o c = peek_is_not st o c.
Proof. done. Qed.

Lemma play_advance (st : state) : xml_advance (play st) = play (xml_advance st).
Proof.
  unfold xml_advance, played, with_user. simpl. by case_bool_decide.
Qed.

Lemma play_deliver (st : state) ev :
  set_user_data (play st) (deliver cb (user_data (play st)) ev)
  = play (set_user_data st (deliver event_log (user_data st) ev)).
Proof.
  unfold played, with_user, set_user_data. simpl. f_equal.
  destruct ev; simpl; by rewrite replay_app.
Qed.

(** One call of a run: rewrite with its lemma and look at its result. *)
Ltac play_with lem :=
  rewrite lem;
  match goal with
  | |- context [result_map _ ?r ≫= _] =>
      destruct r as [? | ? | |]; cbn [result_map mbind result_bind]; [| reflexivity ..]
  end.

Ltac play_with2 lem :=
  rewrite lem;
  match goal with
  | |- context [result_map _ ?r ≫= _] =>
      destruct r as [[? ?] | ? | |];
      cbn [result_map mbind result_bind played2 fst snd];
      [| reflexivity ..]
  end.

Ltac play_peek :=
  rewrite ?play_peek;
  match goal with
  | |- context [xml_peek ?st ?o ≫= _] =>
      destruct (xml_peek st o) as [? | ? | |];
      cbn [result_map mbind result_bind]; [| reflexivity ..]
  end.

Lemma play_match (st : state) c :
  xml_match (play st) c = result_map play (xml_match st c).
Proof.
  unfold xml_match. play_peek. destruct (negb _); [done |].
  simpl. by rewrite play_advance.
Qed.

Lemma play_eat_space fuel (st : state) :
  xml_eat_space fuel (play st) = result_map play (xml_eat_space fuel st).
Proof.
  revert st. induction fuel as [| fuel IH]; intros st; [done |].
  cbn [xml_eat_space]. rewrite play_eof. destruct (xml_eof st); [done |].
  play_peek. destruct (xml_is_space _); [| done].
  by rewrite play_advance, IH.
Qed.

Lemma play_parse_string_loop fuel (st : state) s :
  xml_parse_string_loop fuel (play st) s
  = result_map play2 (xml_parse_string_loop fuel st s).
Proof.
  revert st s. induction fuel as [| fuel IH]; intros st s; [done |].
  cbn [xml_parse_string_loop]. rewrite play_eof.
  destruct (xml_eof st); [done |].
  play_peek. destruct (negb _); [| done].
  by rewrite play_advance, IH.
Qed.

Lemma play_read_name_loop fuel (st : state) s :
  xml_read_name_loop fuel (play st) s
  = result_map play2 (xml_read_name_loop fuel st s).
Proof.
  revert st s. induction fuel as [| fuel IH]; intros st s; [done |].
  cbn [xml_read_name_loop]. rewrite play_eof.
  destruct (xml_eof st); [done |].
  play_peek. destruct (xml_is_valid_name_char _); [| done].
  by rewrite play_advance, IH.
Qed.

Lemma play_read_text_loop fuel (st : state) s :
  xml_read_text_loop fuel (play st) s
  = result_map play2 (xml_read_text_loop fuel st s).
Proof.
  revert st s. induction fuel as [| fuel IH]; intros st s; [done |].
  cbn [xml_read_text_loop]. rewrite play_eof.
  destruct (xml_eof st); [done |].
  play_peek. destruct (negb _); [| done].
  by rewrite play_advance, IH.
Qed.

Lemma play_read_comment_loop fuel (st : state) s b :
  xml_read_comment_loop fuel (play st) s b
  = result_map play2 (xml_read_comment_loop fuel st s b).
Proof.
  revert st s b. induction fuel as [| fuel IH]; intros st s b; [done |].
  cbn [xml_read_comment_loop]. rewrite play_eof.
  destruct (xml_eof st); [done |].
  play_peek. destruct (_ && _); [by rewrite play_advance, IH |].
  destruct (_ && _); [| by rewrite play_advance, IH].
  rewrite play_advance. by play_with play_match.
Qed.

Lemma play_parse_string fuel (st : state) :
  xml_parse_string fuel (play st)
  = result_map play2 (xml_parse_string fuel st).
Proof.
  unfold xml_parse_string. play_with play_eat_space. play_with play_match.
  play_with2 play_parse_string_loop. by play_with play_match.
Qed.

Lemma play_read_name fuel (st : state) :
  xml_read_name fuel (play st) = result_map play2 (xml_read_name fuel st).
Proof.
  unfold xml_read_name. play_with play_eat_space. play_peek.
  destruct (negb _); [done |]. apply play_read_name_loop.
Qed.

Lemma play_read_text fuel (st : state) :
  xml_read_text fuel (play st) = result_map play2 (xml_read_text fuel st).
Proof. apply play_read_text_loop. Qed.

Lemma play_read_comment fuel (st : state) :
  xml_read_comment fuel (play st)
  = result_map play2 (xml_read_comment fuel st).
Proof.
  unfold xml_read_comment. do 4 play_with play_match.
  apply play_read_comment_loop.
Qed.

Lemma play_read_closing_tag fuel (st : state) :
  xml_read_closing_tag fuel (play st)
  = result_map play2 (xml_read_closing_tag fuel st).
Proof.
  unfold xml_read_closing_tag. do 2 play_with play_match.
  play_with2 play_read_name. by play_with play_match.
Qed.

Lemma play_read_header_loop fuel (st : state) :
  xml_read_header_loop fuel (play st)
  = result_map play (xml_read_header_loop fuel st).
Proof.
  revert st. induction fuel as [| fuel IH]; intros st; [done |].
  cbn [xml_read_header_loop]. rewrite play_eof.
  destruct (xml_eof st); [done |].
  play_with play_eat_space. play_peek. destruct (xml_is_alpha _).
  - play_with2 play_read_name.
    play_with play_eat_space. play_with play_match.
    play_with2 play_parse_string. apply IH.
  - rewrite play_peek_is, play_peek_is.
    destruct (and_then _ _) as [[] | ? | |]; cbn [mbind result_bind];
      [| | reflexivity ..].
    + do 2 play_with play_match. apply play_eat_space.
    + apply IH.
Qed.

Lemma play_read_header fuel (st : state) :
  xml_read_header fuel (play st) = result_map play (xml_read_header fuel st).
Proof.
  unfold xml_read_header. do 5 play_with play_match.
  apply play_read_header_loop.
Qed.


(** The callbacks. *)
Lemma play_begin_tag (st : state) name :
  set_user_data (play st) (begin_tag cb (user_data (play st)) name)
  = play (set_user_data st (begin_tag event_log (user_data st) name)).
Proof. apply (play_deliver st (BeginTag name)). Qed.

Lemma play_end_tag (st : state) name :
  set_user_data (play st) (end_tag cb (user_data (play st)) name)
  = play (set_user_data st (end_tag event_log (user_data st) name)).
Proof. apply (play_deliver st (EndTag name)). Qed.

Lemma play_tag_text (st : state) text :
  set_user_data (play st) (tag_text cb (user_data (play st)) text)
  = play (set_user_data st (tag_text event_log (user_data st) text)).
Proof. apply (play_deliver st (Text text)). Qed.

Lemma play_comment (st : state) c :
  set_user_data (play st) (comment cb (user_data (play st)) c)
  = play (set_user_data st (comment event_log (user_data st) c)).
Proof. apply (play_deliver st (Comment c)). Qed.

Lemma play_attribute (st : state) name value :
  set_user_data (play st) (attribute cb (user_data (play st)) name value)
  = play (set_user_data st (attribute event_log (user_data st) name value)).
Proof. apply (play_deliver st (Attribute name value)). Qed.

Ltac play_and_then :=
  rewrite ?play_peek_is, ?play_peek_is_not;
  match goal with
  | |- context [and_then ?a ?b ≫= _] =>
      destruct (and_then a b) as [[] | ? | |];
      cbn [result_map mbind result_bind]; [| | reflexivity ..]
  end.

Lemma play_read_tag_attributes fuel name (st : state) :
  xml_read_tag_attributes cb fuel name (play st)
  = result_map play2 (xml_read_tag_attributes event_log fuel name st).
Proof.
  revert st. induction fuel as [| fuel IH]; intros st; [done |].
  cbn [xml_read_tag_attributes]. rewrite play_eof.
  destruct (xml_eof st); [done |].
  play_with play_eat_space. play_peek. destruct (xml_is_alpha _).
  - play_with2 play_read_name.
    play_with play_eat_space. play_with play_match.
    play_with2 play_parse_string. cbn zeta.
    rewrite play_attribute. apply IH.
  - rewrite play_peek_is.
    destruct (peek_is _ 0 ">"%char) as [[] | ? | |];
      cbn [result_map mbind result_bind]; [| | reflexivity ..].
    { by play_with play_match. }
    play_and_then.
    + do 2 play_with play_match. cbn zeta. rewrite play_end_tag.
      by play_with play_eat_space.
    + apply IH.
Qed.

Lemma play_read_tag_both fuel :
  (forall st : state,
      xml_read_tag cb fuel (play st)
      = result_map play (xml_read_tag event_log fuel st)) /\
  (forall name (st : state),
      xml_read_tag_body cb fuel name (play st)
      = result_map play (xml_read_tag_body event_log fuel name st)).
Proof.
  induction fuel as [| fuel [IHt IHb]]; [done |]. split.
  - intros st. rewrite !xml_read_tag_eq.
    play_with play_eat_space. play_with play_match.
    play_with2 play_read_name. cbn zeta. rewrite play_begin_tag.
    play_with2 play_read_tag_attributes.
    match goal with how : loop_exit |- _ => destruct how end;
      [apply IHb | done].
  - intros name st. rewrite !xml_read_tag_body_eq. rewrite play_eof.
    destruct (xml_eof st); [done |].
    play_with play_eat_space. play_and_then.
    { play_with2 play_read_closing_tag. destruct (negb _); [done |].
      simpl. by rewrite play_end_tag. }
    play_and_then.
    { play_with2 play_read_comment. cbn zeta. rewrite play_comment.
      apply IHb. }
    play_and_then.
    { play_with IHt. apply IHb. }
    play_with2 play_read_text. cbn zeta. rewrite play_tag_text. apply IHb.
Qed.

Lemma play_read_document_construct fuel first (st : state) :
  xml_read_document_construct cb fuel first (play st)
  = result_map play (xml_read_document_construct event_log fuel first st).
Proof.
  unfold xml_read_document_construct. play_peek. case_bool_decide.
  { destruct (negb first); [done |]. cbn [mbind result_bind].
    apply play_read_header. }
  case_bool_decide.
  { play_with2 play_read_comment. by rewrite play_comment. }
  destruct (xml_is_alpha _); [| done]. apply play_read_tag_both.
Qed.

Lemma play_read_document_loop fuel first (st : state) :
  xml_read_document_loop cb fuel first (play st)
  = result_map play (xml_read_document_loop event_log fuel first st).
Proof.
  revert st. induction fuel as [| fuel IH]; intros st; [done |].
  cbn [xml_read_document_loop]. rewrite play_eof.
  destruct (xml_eof st); [done |]. rewrite play_peek_is.
  destruct (peek_is _ 0 "<"%char) as [[] | ? | |];
    cbn [result_map mbind result_bind]; [| reflexivity ..].
  play_with play_read_document_construct. play_with play_eat_space.
  apply IH.
Qed.

Lemma play_read_document fuel (st : state) :
  xml_read_document cb fuel (play st)
  = result_map play (xml_read_document event_log fuel st).
Proof.
  unfold xml_read_document. play_with play_eat_space.
  apply play_read_document_loop.
Qed.

(** A run with any callbacks, seen through the recording run. *)
Lemma xml_read_document_replay fuel buf :
  xml_read_document cb fuel (xml_state_init buf u0)
  = result_map play (xml_read_document event_log fuel (xml_state_init buf [])).
Proof. apply (play_read_document fuel (xml_state_init buf [])). Qed.

End Parametric.

(** ** The DOM builder on the events of any parse *)

Section BuilderSafe.

Import Dom.

(** Adding a new entity to an entity of the store returns. *)
Lemma add_child_fresh_Ok h e top :
  (forall a x, h !! a = Some x -> valid x = true) -> (top < length h)%nat ->
  exists h', add_child (h ++ [e]) top (length h) = Ok h' /\
    length h' = S (length h).
Proof.
  intros Hval Htop. destruct (lookup_lt_is_Some_2 h top Htop) as [etop He].
  pose proof (Hval top etop He) as Hv.
  unfold add_child, num_children, deref.
  rewrite (lookup_app_l_Some _ _ _ _ He). cbn [mbind result_bind].
  rewrite Hv. cbn [assert mbind result_bind]. rewrite lookup_last.
  cbn [mbind result_bind]. rewrite insert_last.
  rewrite (lookup_app_l_Some _ _ _ _ He). cbn [mbind result_bind].
  rewrite Hv. cbn [assert mbind result_bind]. rewrite lookup_last.
  cbn [mbind result_bind]. rewrite insert_last.
  rewrite (lookup_app_l_Some _ _ _ _ He). cbn [mbind result_bind].
  eexists. split; [done |].
  rewrite length_insert, length_app. simpl. lia.
Qed.

Lemma back_Ok stack :
  stack <> [] -> exists top, back stack = Ok top /\ top ∈ stack.
Proof.
  intros Hne. destruct (last stack) as [top |] eqn:Hlast.
  - exists top. unfold back. rewrite Hlast. split; [done |].
    apply last_Some in Hlast as [l' ->]. apply elem_of_app. right.
    by apply list_elem_of_singleton.
  - by apply last_None in Hlast.
Qed.

Lemma stack_ok_grow h h' stack :
  stack_ok h stack -> (length h <= length h')%nat -> stack_ok h' stack.
Proof. intros H Hle. eapply Forall_impl; [exact H |]. simpl. lia. Qed.

(** A new entity [e], attached to the top of the stack. *)
Lemma attach_to_top h stack e :
  wf_store h -> stack_ok h stack -> stack <> [] ->
  m_child e = [] -> valid e = true ->
  exists top h',
    back stack = Ok top /\ add_child (h ++ [e]) top (length h) = Ok h' /\
    wf_store h' /\ length h' = S (length h) /\ types_kept h h'.
Proof.
  intros Hwf Hst Hne Hnil Hv.
  destruct (back_Ok stack Hne) as (top & Hback & Hin).
  assert (top < length h)%nat as Htop.
  { unfold stack_ok in Hst. rewrite Forall_forall in Hst. by apply Hst. }
  destruct (add_child_fresh_Ok h e top) as (h' & Hadd & Hlen);
    [apply Hwf | done |].
  exists top, h'. split; [done |]. split; [done |].
  split; [by eapply add_child_fresh_wf |]. split; [done |].
  intros a x Ha. pose proof (lookup_lt_Some _ _ _ Ha) as Hlt.
  destruct (add_child_Ok _ _ _ _ Hadd)
    as (e0 & c & e' & c' & He0 & Hc & Hv0 & He' & Hc' & _ & Hframe & _
        & Hty & _).
  destruct (decide (a = top)) as [-> | Hne1].
  - exists e'. split; [done |]. rewrite Hty.
    rewrite lookup_app_l in He0 by done. congruence.
  - exists x. split; [| done]. rewrite Hframe by (done || lia).
    by apply lookup_app_l_Some.
Qed.

(** The builder, through the events of a parse. *)
Lemma replay_dom_builder evs :
  forall s s' h stack,
    open_tags s evs = Some s' ->
    wf_store h -> stack_ok h stack -> length stack = S (length s) ->
    exists h' stack',
      replay xml_dom_callbacks evs (Ok (h, stack)) = Ok (h', stack') /\
      wf_store h' /\ stack_ok h' stack' /\ length stack' = S (length s') /\
      types_kept h h' /\ head stack' = head stack.
Proof.
  induction evs as [| ev evs IH]; intros s s' h stack Hopen Hwf Hst Hlen.
  { injection Hopen as <-. exists h, stack. repeat split; try done; try apply Hwf.
    intros a e Ha. by exists e. }
  assert (stack <> []) as Hne by (intros ->; done).
  assert (forall h1 stack1 s1,
            deliver xml_dom_callbacks (Ok (h, stack)) ev = Ok (h1, stack1) ->
            open_tags s1 evs = Some s' ->
            wf_store h1 -> stack_ok h1 stack1 ->
            length stack1 = S (length s1) ->
            types_kept h h1 -> head stack1 = head stack ->
            exists h' stack',
              replay xml_dom_callbacks (ev :: evs) (Ok (h, stack))
              = Ok (h', stack') /\
              wf_store h' /\ stack_ok h' stack' /\
              length stack' = S (length s') /\
              types_kept h h' /\ head stack' = head stack)
    as Hstep.
  { intros h1 stack1 s1 Hdel Hopen1 Hwf1 Hst1 Hlen1 Hle1 Hhd1.
    destruct (IH s1 s' h1 stack1 Hopen1 Hwf1 Hst1 Hlen1)
      as (h' & stack' & Hrun & Hwf' & Hst' & Hlen' & Hle' & Hhd').
    exists h', stack'. unfold replay in *. cbn [fold_left]. rewrite Hdel.
    split; [done |]. split; [done |]. split; [done |]. split; [done |].
    split; [| congruence].
    intros a e Ha. destruct (Hle1 a e Ha) as (e1 & He1 & Ht1).
    destruct (Hle' a e1 He1) as (e2 & He2 & Ht2).
    exists e2. split; [done | congruence]. }
  destruct ev as [name | name | text | c | name value]; cbn [open_tags] in Hopen.
  - (* BeginTag *)
    destruct (attach_to_top h stack
                (with_name (with_type xml_dom_entity_new XML_DOM_TAG) name)
                Hwf Hst Hne eq_refl eq_refl)
      as (top & h1 & Hback & Hadd & Hwf1 & Hlen1 & Hkept1).
    apply (Hstep h1 (stack ++ [length h]) (name :: s)); try done.
    + cbn [deliver xml_dom_callbacks begin_tag].
      unfold xml_dom_begin_tag_cb. cbn [mbind result_bind new_entity].
      rewrite fresh_set_type. cbn [mbind result_bind].
      rewrite fresh_set_name by done. cbn [mbind result_bind].
      rewrite Hback. cbn [mbind result_bind]. by rewrite Hadd.
    + apply Forall_app. split; [eapply stack_ok_grow; [done | lia] |].
      constructor; [lia | done].
    + rewrite length_app. simpl. lia.
    + by destruct stack.
  - (* EndTag *)
    destruct s as [| top s]; [done |].
    destruct (string_eqb top name); [| done].
    apply (Hstep h (removelast stack) s); try done.
    + cbn [deliver xml_dom_callbacks end_tag].
      unfold xml_dom_end_tag_cb, pop_back. cbn [mbind result_bind].
      by destruct stack.
    + unfold stack_ok in *. rewrite Forall_forall in *.
      intros a Ha. apply Hst. apply list_elem_of_In.
      apply list_elem_of_In in Ha. revert Ha. clear.
      induction stack as [| b [| c stack] IHs]; simpl; [done .. |].
      intros [-> | Ha]; [by left | right; by apply IHs].
    + simpl in Hlen.
      destruct stack as [| a stack] using rev_ind; [done |].
      rewrite removelast_last. rewrite length_app in Hlen. simpl in Hlen. lia.
    + intros a e Ha. by exists e.
    + simpl in Hlen. destruct stack as [| a [| b stack]]; simpl in *; try lia.
      done.
  - (* Text *)
    destruct (back_Ok stack Hne) as (top & Hback & Hin).
    assert (top < length h)%nat as Htop.
    { unfold stack_ok in Hst. rewrite Forall_forall in Hst. by apply Hst. }
    destruct (lookup_lt_is_Some_2 h top Htop) as [etop He].
    assert (valid etop = true) as Hv by (by eapply Hwf).
    assert (set_value h top text = Ok (<[top := with_value etop text]> h))
      as Hset.
    { unfold set_value, deref. rewrite He. cbn [mbind result_bind].
      by rewrite Hv. }
    apply (Hstep (<[top := with_value etop text]> h) stack s); try done.
    + cbn [deliver xml_dom_callbacks tag_text].
      unfold xml_dom_tag_text_cb. cbn [mbind result_bind].
      rewrite Hback. cbn [mbind result_bind]. by rewrite Hset.
    + by eapply set_value_wf.
    + eapply stack_ok_grow; [done |]. by rewrite length_insert.
    + intros a e Ha. destruct (decide (a = top)) as [-> | Hna].
      * exists (with_value etop text).
        rewrite list_lookup_insert_eq by done. split; [done |].
        simpl. congruence.
      * exists e. by rewrite list_lookup_insert_ne.
  - (* Comment *)
    destruct (attach_to_top h stack
                (with_value (with_type xml_dom_entity_new XML_DOM_COMMENT) c)
                Hwf Hst Hne eq_refl eq_refl)
      as (top & h1 & Hback & Hadd & Hwf1 & Hlen1 & Hkept1).
    apply (Hstep h1 stack s); try done.
    + cbn [deliver xml_dom_callbacks comment].
      unfold xml_dom_comment_cb. cbn [mbind result_bind new_entity].
      rewrite fresh_set_type. cbn [mbind result_bind].
      rewrite fresh_set_value by done. cbn [mbind result_bind].
      rewrite Hback. cbn [mbind result_bind]. by rewrite Hadd.
    + eapply stack_ok_grow; [done | lia].
  - (* Attribute *)
    destruct (attach_to_top h stack
                (with_value
                   (with_name (with_type xml_dom_entity_new XML_DOM_ATTRIBUTE)
                      name) value)
                Hwf Hst Hne eq_refl eq_refl)
      as (top & h1 & Hback & Hadd & Hwf1 & Hlen1 & Hkept1).
    apply (Hstep h1 stack s); try done.
    + cbn [deliver xml_dom_callbacks attribute].
      unfold xml_dom_attribute_cb. cbn [mbind result_bind new_entity].
      rewrite fresh_set_type. cbn [mbind result_bind].
      rewrite fresh_set_name by done. cbn [mbind result_bind].
      rewrite fresh_set_value by done. cbn [mbind result_bind].
      rewrite Hback. cbn [mbind result_bind]. by rewrite Hadd.
    + eapply stack_ok_grow; [done | lia].
Qed.

End BuilderSafe.

(** ** The cursor stays in the buffer *)

Lemma safe_Ok {A} (Q : A -> Prop) a : Q a -> safe Q (Ok a).
Proof. done. Qed.

Lemma safe_bind {A B} (P : A -> Prop) (Q : B -> Prop) r k :
  safe P r -> (forall a, P a -> safe Q (k a)) -> safe Q (r ≫= k).
Proof. destruct r as [a | e | |]; simpl; try done. intros H Hk. by apply Hk. Qed.

Lemma safe_impl {A} (P Q : A -> Prop) r :
  safe P r -> (forall a, P a -> Q a) -> safe Q r.
Proof. destruct r as [a | e | |]; simpl; try done. intros H HPQ. by apply HPQ. Qed.

Lemma safe_ensures {A} (Q : A -> Prop) r a : safe Q r -> r = Ok a -> Q a.
Proof. by intros H ->. Qed.

Section CursorInvariant.

Context {U : Type} (cb : xml_callbacks U) (buf : cpp_string).

Local Abbreviation state := (xml_state U).
Local Abbreviation J := (cursor_inv (U := U) buf).
Local Abbreviation J2 := (cursor_inv2 (U := U) (A := cpp_string) buf).

(** A character that [xml_peek] returns is a character of the buffer. *)
Lemma xml_peek_safe (st : state) o :
  safe (fun _ => 0 <= pos st + o < size st) (xml_peek st o).
Proof.
  unfold xml_peek. destruct (_ && _) eqn:H; [| done]. simpl. lia.
Qed.

Lemma cursor_inv_advance (st : state) :
  J st -> pos st < size st -> J (xml_advance st).
Proof.
  intros (Hbuf & Hpos & Hlc) Hlt. unfold cursor_inv.
  assert (buffer (xml_advance st) = buf /\
          pos (xml_advance st) = pos st + 1) as [Hb Hp]
    by (unfold xml_advance; by case_bool_decide).
  assert (size (xml_advance st) = size st) as Hs
    by (unfold size; by rewrite Hb, Hbuf).
  rewrite Hb, Hp, Hs. split; [done |]. split; [lia |].
  unfold size in *. rewrite Hbuf in *.
  destruct (lookup_lt_is_Some_2 buf (Z.to_nat (pos st))) as [c Hc]; [lia |].
  replace (Z.to_nat (pos st + 1)) with (S (Z.to_nat (pos st))) by lia.
  rewrite (take_S_r _ _ _ Hc). unfold position_after in *.
  rewrite fold_left_app, <- Hlc. cbn [fold_left fst snd].
  assert (char_at (buffer st) (pos st) = c) as Hch
    by (unfold char_at; by rewrite Hbuf, nth_lookup, Hc).
  unfold xml_advance. rewrite Hch. by case_bool_decide.
Qed.

Lemma cursor_inv_set_user_data (st : state) u :
  J st -> J (set_user_data st u).
Proof. done. Qed.

Lemma xml_match_safe (st : state) c : J st -> safe J (xml_match st c).
Proof.
  intros HJ. unfold xml_match.
  eapply safe_bind; [apply xml_peek_safe |]. intros d Hd. cbv beta in Hd.
  destruct (negb _); [done |]. apply cursor_inv_advance; [done | lia].
Qed.

(** One step of a loop that consumes the character it has peeked at. *)
Ltac peek_step Hd :=
  eapply safe_bind; [apply xml_peek_safe |]; intros ? Hd; cbv beta in Hd.

Lemma xml_eat_space_safe fuel (st : state) :
  J st -> safe J (xml_eat_space fuel st).
Proof.
  revert st. induction fuel as [| fuel IH]; intros st HJ; [done |].
  cbn [xml_eat_space]. destruct (xml_eof st); [done |].
  peek_step Hd. destruct (xml_is_space _); [| done].
  apply IH, cursor_inv_advance; [done | lia].
Qed.

Lemma xml_parse_string_loop_safe fuel (st : state) s :
  J st -> safe J2 (xml_parse_string_loop fuel st s).
Proof.
  revert st s. induction fuel as [| fuel IH]; intros st s HJ; [done |].
  cbn [xml_parse_string_loop]. destruct (xml_eof st); [done |].
  peek_step Hd. destruct (negb _); [| done]. peek_step Hd'.
  apply IH, cursor_inv_advance; [done | lia].
Qed.

Lemma xml_read_name_loop_safe fuel (st : state) s :
  J st -> safe J2 (xml_read_name_loop fuel st s).
Proof.
  revert st s. induction fuel as [| fuel IH]; intros st s HJ; [done |].
  cbn [xml_read_name_loop]. destruct (xml_eof st); [done |].
  peek_step Hd. destruct (xml_is_valid_name_char _); [| done]. peek_step Hd'.
  apply IH, cursor_inv_advance; [done | lia].
Qed.

Lemma xml_read_text_loop_safe fuel (st : state) s :
  J st -> safe J2 (xml_read_text_loop fuel st s).
Proof.
  revert st s. induction fuel as [| fuel IH]; intros st s HJ; [done |].
  cbn [xml_read_text_loop]. destruct (xml_eof st); [done |].
  peek_step Hd. destruct (negb _); [| done]. peek_step Hd'.
  apply IH, cursor_inv_advance; [done | lia].
Qed.

Lemma xml_read_comment_loop_safe fuel (st : state) s b :
  J st -> safe J2 (xml_read_comment_loop fuel st s b).
Proof.
  revert st s b. induction fuel as [| fuel IH]; intros st s b HJ; [done |].
  cbn [xml_read_comment_loop]. destruct (xml_eof st); [done |].
  peek_step Hd. destruct (_ && _).
  { apply IH, cursor_inv_advance; [done | lia]. }
  peek_step Hd'. destruct (_ && _).
  { eapply safe_bind.
    - apply xml_match_safe, cursor_inv_advance; [done | lia].
    - by intros st1 H1. }
  peek_step Hd''. apply IH, cursor_inv_advance; [done | lia].
Qed.

Lemma xml_parse_string_safe fuel (st : state) :
  J st -> safe J2 (xml_parse_string fuel st).
Proof.
  intros HJ. unfold xml_parse_string.
  eapply safe_bind; [by apply xml_eat_space_safe |]. intros st1 H1.
  eapply safe_bind; [by apply xml_match_safe |]. intros st2 H2.
  eapply safe_bind; [by apply xml_parse_string_loop_safe |].
  intros [s st3] H3.
  eapply safe_bind; [by apply xml_match_safe |]. by intros st4 H4.
Qed.

Lemma xml_read_name_safe fuel (st : state) :
  J st -> safe J2 (xml_read_name fuel st).
Proof.
  intros HJ. unfold xml_read_name.
  eapply safe_bind; [by apply xml_eat_space_safe |]. intros st1 H1.
  peek_step Hd. destruct (negb _).
  { by peek_step Hd'. }
  by apply xml_read_name_loop_safe.
Qed.

Lemma xml_read_text_safe fuel (st : state) :
  J st -> safe J2 (xml_read_text fuel st).
Proof. apply xml_read_text_loop_safe. Qed.

Lemma xml_read_comment_safe fuel (st : state) :
  J st -> safe J2 (xml_read_comment fuel st).
Proof.
  intros HJ. unfold xml_read_comment.
  eapply safe_bind; [by apply xml_match_safe |]. intros st1 H1.
  eapply safe_bind; [by apply xml_match_safe |]. intros st2 H2.
  eapply safe_bind; [by apply xml_match_safe |]. intros st3 H3.
  eapply safe_bind; [by apply xml_match_safe |]. intros st4 H4.
  by apply xml_read_comment_loop_safe.
Qed.

Lemma xml_read_closing_tag_safe fuel (st : state) :
  J st -> safe J2 (xml_read_closing_tag fuel st).
Proof.
  intros HJ. unfold xml_read_closing_tag.
  eapply safe_bind; [by apply xml_match_safe |]. intros st1 H1.
  eapply safe_bind; [by apply xml_match_safe |]. intros st2 H2.
  eapply safe_bind; [by apply xml_read_name_safe |]. intros [s st3] H3.
  eapply safe_bind; [by apply xml_match_safe |]. by intros st4 H4.
Qed.

Lemma and_then_safe (a b : result bool) :
  safe (fun _ => True) a -> safe (fun _ => True) b ->
  safe (fun _ => True) (and_then a b).
Proof.
  intros Ha Hb. unfold and_then. eapply safe_bind; [exact Ha |].
  intros [] _; [done | done].
Qed.

Lemma peek_is_safe (st : state) o c : safe (fun _ => True) (peek_is st o c).
Proof.
  unfold peek_is. eapply safe_bind; [apply xml_peek_safe |]. done.
Qed.

Lemma peek_is_not_safe (st : state) o c :
  safe (fun _ => True) (peek_is_not st o c).
Proof.
  unfold peek_is_not. eapply safe_bind; [apply xml_peek_safe |]. done.
Qed.

Ltac test_step :=
  eapply safe_bind;
  [first [ apply and_then_safe;
           first [apply peek_is_safe | apply peek_is_not_safe]
         | apply peek_is_safe ] |];
  intros [] _.

Lemma xml_read_header_loop_safe fuel (st : state) :
  J st -> safe J (xml_read_header_loop fuel st).
Proof.
  revert st. induction fuel as [| fuel IH]; intros st HJ; [done |].
  cbn [xml_read_header_loop]. destruct (xml_eof st); [done |].
  eapply safe_bind; [by apply xml_eat_space_safe |]. intros st1 H1.
  peek_step Hd. destruct (xml_is_alpha _).
  - eapply safe_bind; [by apply xml_read_name_safe |]. intros [s st2] H2.
    eapply safe_bind; [by apply xml_eat_space_safe |]. intros st3 H3.
    eapply safe_bind; [by apply xml_match_safe |]. intros st4 H4.
    eapply safe_bind; [by apply xml_parse_string_safe |]. intros [v st5] H5.
    by apply IH.
  - test_step.
    + eapply safe_bind; [by apply xml_match_safe |]. intros st2 H2.
      eapply safe_bind; [by apply xml_match_safe |]. intros st3 H3.
      by apply xml_eat_space_safe.
    + by apply IH.
Qed.

Lemma xml_read_header_safe fuel (st : state) :
  J st -> safe J (xml_read_header fuel st).
Proof.
  intros HJ. unfold xml_read_header.
  eapply safe_bind; [by apply xml_match_safe |]. intros st1 H1.
  eapply safe_bind; [by apply xml_match_safe |]. intros st2 H2.
  eapply safe_bind; [by apply xml_match_safe |]. intros st3 H3.
  eapply safe_bind; [by apply xml_match_safe |]. intros st4 H4.
  eapply safe_bind; [by apply xml_match_safe |]. intros st5 H5.
  by apply xml_read_header_loop_safe.
Qed.

Lemma xml_read_tag_attributes_safe fuel name (st : state) :
  J st ->
  safe (cursor_inv2 (A := loop_exit) buf)
    (xml_read_tag_attributes cb fuel name st).
Proof.
  revert st. induction fuel as [| fuel IH]; intros st HJ; [done |].
  cbn [xml_read_tag_attributes]. destruct (xml_eof st); [done |].
  eapply safe_bind; [by apply xml_eat_space_safe |]. intros st1 H1.
  peek_step Hd. destruct (xml_is_alpha _).
  - eapply safe_bind; [by apply xml_read_name_safe |]. intros [s st2] H2.
    eapply safe_bind; [by apply xml_eat_space_safe |]. intros st3 H3.
    eapply safe_bind; [by apply xml_match_safe |]. intros st4 H4.
    eapply safe_bind; [by apply xml_parse_string_safe |]. intros [v st5] H5.
    by apply IH.
  - test_step.
    { eapply safe_bind; [by apply xml_match_safe |]. by intros st2 H2. }
    test_step.
    + eapply safe_bind; [by apply xml_match_safe |]. intros st2 H2.
      eapply safe_bind; [by apply xml_match_safe |]. intros st3 H3.
      eapply safe_bind; [by apply xml_eat_space_safe |]. by intros st4 H4.
    + by apply IH.
Qed.

Lemma xml_read_tag_safe_both fuel :
  (forall st : state, J st -> safe J (xml_read_tag cb fuel st)) /\
  (forall name (st : state),
      J st -> safe J (xml_read_tag_body cb fuel name st)).
Proof.
  induction fuel as [| fuel [IHt IHb]]; [done |]. split.
  - intros st HJ. rewrite xml_read_tag_eq.
    eapply safe_bind; [by apply xml_eat_space_safe |]. intros st1 H1.
    eapply safe_bind; [by apply xml_match_safe |]. intros st2 H2.
    eapply safe_bind; [by apply xml_read_name_safe |]. intros [s st3] H3.
    cbn zeta.
    eapply safe_bind; [by apply xml_read_tag_attributes_safe |].
    intros [[] st4] H4; [by apply IHb | done].
  - intros name st HJ. rewrite xml_read_tag_body_eq.
    destruct (xml_eof st); [done |].
    eapply safe_bind; [by apply xml_eat_space_safe |]. intros st1 H1.
    test_step.
    { eapply safe_bind; [by apply xml_read_closing_tag_safe |].
      intros [s st2] H2. by destruct (negb _). }
    test_step.
    { eapply safe_bind; [by apply xml_read_comment_safe |].
      intros [s st2] H2. by apply IHb. }
    test_step.
    { eapply safe_bind; [by apply IHt |]. intros st2 H2. by apply IHb. }
    eapply safe_bind; [by apply xml_read_text_safe |].
    intros [s st2] H2. by apply IHb.
Qed.

Lemma xml_read_document_construct_safe fuel first (st : state) :
  J st -> safe J (xml_read_document_construct cb fuel first st).
Proof.
  intros HJ. unfold xml_read_document_construct.
  peek_step Hd. case_bool_decide.
  { destruct (negb first); [done |]. by apply xml_read_header_safe. }
  peek_step Hd'. case_bool_decide.
  { eapply safe_bind; [by apply xml_read_comment_safe |].
    by intros [s st2] H2. }
  peek_step Hd''. destruct (xml_is_alpha _); [| done].
  by apply xml_read_tag_safe_both.
Qed.

(** The document loop returns at the end of the buffer only. *)
Lemma xml_read_document_loop_safe fuel first (st : state) :
  J st ->
  safe (fun st' => J st' /\ xml_eof st' = true)
    (xml_read_document_loop cb fuel first st).
Proof.
  revert st. induction fuel as [| fuel IH]; intros st HJ; [done |].
  cbn [xml_read_document_loop]. destruct (xml_eof st) eqn:Heof; [done |].
  test_step; [| done].
  eapply safe_bind; [by apply xml_read_document_construct_safe |].
  intros st1 H1.
  eapply safe_bind; [by apply xml_eat_space_safe |]. intros st2 H2.
  by apply IH.
Qed.

Lemma xml_read_document_safe fuel (st : state) :
  J st ->
  safe (fun st' => J st' /\ xml_eof st' = true) (xml_read_document cb fuel st).
Proof.
  intros HJ. unfold xml_read_document.
  eapply safe_bind; [by apply xml_eat_space_safe |]. intros st1 H1.
  by apply xml_read_document_loop_safe.
Qed.

Lemma cursor_inv_init (u : U) : J (xml_state_init buf u).
Proof.
  unfold cursor_inv, xml_state_init, size. simpl. split; [done |].
  split; [lia | done].
Qed.

End CursorInvariant.

(** The events of a parse that returns leave a stack of open tags. *)
Lemma xml_events_open_tags fuel buf evs :
  xml_events fuel buf = Ok evs -> exists s, open_tags [] evs = Some s.
Proof.
  unfold xml_events, xml_read_document. intros H.
  apply bind_Ok in H as (st2 & H & [= Hevs]).
  apply bind_Ok in H as (st1 & H1 & H).
  apply xml_eat_space_keeps in H1.
  apply xml_read_document_loop_nested in H as (evs' & Hu & Hn).
  unfold keeps in H1. simpl in H1. rewrite H1 in Hu. simpl in Hu.
  destruct (Hn []) as [s Hs]. rewrite app_nil_r in Hs. simpl in Hs.
  exists (s ++ []). by rewrite <- Hevs, Hu.
Qed.

Lemma xml_events_not_Aborted fuel buf : xml_events fuel buf <> Aborted.
Proof.
  unfold xml_events. intros H.
  pose proof (xml_read_document_safe event_log buf fuel
                (xml_state_init buf []) (cursor_inv_init buf [])) as Hs.
  by destruct (xml_read_document event_log fuel (xml_state_init buf [])).
Qed.

(** [xml_dom_parse] follows the events of the parse and builds a
    well-formed store. *)
Lemma xml_dom_parse_wf fuel h buf :
  wf_store h ->
  match xml_events fuel buf with
  | Ok evs =>
      exists h' s,
        Dom.xml_dom_parse fuel h buf = Ok (length h, h') /\
        wf_store h' /\ types_kept h h' /\
        (exists e, h' !! length h = Some e /\ m_type e = XML_DOM_DOCUMENT) /\
        open_tags [] evs = Some s /\
        exists stack,
          Dom.xml_dom_build fuel h buf = Ok (h', length h :: stack) /\
          length stack = length s
  | Fatal e => Dom.xml_dom_parse fuel h buf = Fatal e
  | OutOfFuel => Dom.xml_dom_parse fuel h buf = OutOfFuel
  | Aborted => False
  end.
Proof.
  intros Hwf. pose proof (xml_events_not_Aborted fuel buf) as Hna.
  pose proof (xml_events_open_tags fuel buf) as Hopen.
  unfold Dom.xml_dom_parse, Dom.xml_dom_build. cbn [Dom.new_entity].
  rewrite fresh_set_type. cbn [mbind result_bind app].
  rewrite (xml_read_document_replay Dom.xml_dom_callbacks).
  unfold xml_events in *.
  destruct (xml_read_document event_log fuel (xml_state_init buf []))
    as [st | e | |]; cbn [result_map mbind result_bind] in *; try done.
  destruct (Hopen _ eq_refl) as [s Hs].
  set (doc := Dom.with_type Dom.xml_dom_entity_new XML_DOM_DOCUMENT).
  destruct (replay_dom_builder (user_data st) [] s (h ++ [doc]) [length h] Hs)
    as (h' & stack' & Hrun & Hwf' & Hst' & Hlen' & Hkept & Hhd).
  { by apply new_document_wf. }
  { constructor; [| done]. rewrite length_app. simpl. lia. }
  { done. }
  cbn [played with_user user_data]. rewrite Hrun. cbn [mbind result_bind].
  destruct stack' as [| d stack']; [done |]. injection Hhd as ->.
  cbn [Dom.front mbind result_bind].
  exists h', s. split; [done |]. split; [done |]. split.
  { intros a e Ha. apply (Hkept a e). by apply lookup_app_l_Some. }
  split.
  { destruct (Hkept (length h) doc (lookup_last h doc)) as (e & He & Ht).
    by exists e. }
  split; [done |]. exists stack'. split; [done |]. simpl in Hlen'. lia.
Qed.

(** ** The events of a parse are well formed *)

Lemma ensures_and {A} (P Q : A -> Prop) r :
  ensures P r -> ensures Q r -> ensures (fun a => P a /\ Q a) r.
Proof. intros HP HQ a Ha. split; [by apply HP | by apply HQ]. Qed.

Lemma ensures_peek {U} (st : xml_state U) o :
  ensures (fun c => xml_peek st o = Ok c) (xml_peek st o).
Proof. by intros c Hc. Qed.

Section Lexemes.

Context {U : Type}.

Local Abbreviation state := (xml_state U).

Lemma xml_peek_not_eof (st : state) c :
  xml_peek st 0 = Ok c -> xml_eof st = false.
Proof.
  unfold xml_peek, xml_eof. destruct (_ && _) eqn:H; [| done]. intros _. lia.
Qed.

(** After white space was eaten, the next character is not white space. *)
Lemma xml_eat_space_ahead fuel (st : state) :
  ensures (fun st' => forall c, xml_peek st' 0 = Ok c -> xml_is_space c = false)
    (xml_eat_space fuel st).
Proof.
  revert st. induction fuel as [| fuel IH]; intros st;
    [by apply ensures_not_Ok |].
  cbn [xml_eat_space]. destruct (xml_eof st) eqn:Heof.
  { apply ensures_Ok. intros c Hc. apply xml_peek_not_eof in Hc. congruence. }
  destruct (xml_peek st 0) as [c | | |] eqn:Hc; try by apply ensures_not_Ok.
  cbn [mbind result_bind]. destruct (xml_is_space c) eqn:Hsp; [apply IH |].
  apply ensures_Ok. intros d Hd. congruence.
Qed.

Lemma xml_read_name_loop_chars fuel (st : state) acc :
  ensures (fun p => exists s, p.1 = acc ++ s /\
             forallb xml_is_valid_name_char s = true)
    (xml_read_name_loop fuel st acc).
Proof.
  revert st acc. induction fuel as [| fuel IH]; intros st acc;
    [by apply ensures_not_Ok |].
  cbn [xml_read_name_loop].
  destruct (xml_eof st).
  { apply ensures_Ok. exists []. by rewrite app_nil_r. }
  destruct (xml_peek st 0) as [c | | |] eqn:Hc; try by apply ensures_not_Ok.
  cbn [mbind result_bind]. destruct (xml_is_valid_name_char c) eqn:Hv.
  - eapply ensures_impl; [apply IH |]. intros p (s & Hs & Hall).
    exists (c :: s). split; [by rewrite Hs, <- app_assoc |].
    simpl. by rewrite Hv.
  - apply ensures_Ok. exists []. by rewrite app_nil_r.
Qed.

(** A name that [xml_read_name] returns is a valid name. *)
Lemma xml_read_name_valid fuel (st : state) :
  ensures (fun p => valid_name p.1 = true) (xml_read_name fuel st).
Proof.
  unfold xml_read_name.
  eapply ensures_bind; [apply ensures_any |]. intros st1 _.
  destruct (xml_peek st1 0) as [c | | |] eqn:Hc; try by apply ensures_not_Ok.
  cbn [mbind result_bind]. destruct (xml_is_alpha c) eqn:Hal;
    [| by apply ensures_not_Ok].
  cbn [negb]. destruct fuel as [| fuel]; [by apply ensures_not_Ok |].
  cbn [xml_read_name_loop]. rewrite (xml_peek_not_eof _ _ Hc), Hc.
  cbn [mbind result_bind]. rewrite (alpha_name_char c Hal).
  eapply ensures_impl; [apply xml_read_name_loop_chars |].
  intros p (s & Hs & Hall). rewrite Hs. simpl. by rewrite Hal.
Qed.

Lemma xml_parse_string_loop_chars fuel (st : state) acc :
  ensures (fun p => exists s, p.1 = acc ++ s /\ DQUOTE ∉ s)
    (xml_parse_string_loop fuel st acc).
Proof.
  revert st acc. induction fuel as [| fuel IH]; intros st acc;
    [by apply ensures_not_Ok |].
  cbn [xml_parse_string_loop].
  destruct (xml_eof st).
  { apply ensures_Ok. exists []. rewrite app_nil_r. split; [done |].
    apply not_elem_of_nil. }
  destruct (xml_peek st 0) as [c | | |] eqn:Hc; try by apply ensures_not_Ok.
  cbn [mbind result_bind]. case_bool_decide as Hq; cbn [negb].
  - apply ensures_Ok. exists []. rewrite app_nil_r. split; [done |].
    apply not_elem_of_nil.
  - eapply ensures_impl; [apply IH |]. intros p (s & Hs & Hall).
    exists (c :: s). split; [by rewrite Hs, <- app_assoc |].
    apply not_elem_of_cons. split; [congruence | done].
Qed.

(** A value that [xml_parse_string] returns ends with a NUL. *)
Lemma xml_parse_string_value fuel (st : state) :
  ensures (fun p => exists s, p.1 = s ++ [NUL] /\ DQUOTE ∉ s)
    (xml_parse_string fuel st).
Proof.
  unfold xml_parse_string.
  eapply ensures_bind; [apply ensures_any |]. intros st1 _.
  eapply ensures_bind; [apply ensures_any |]. intros st2 _.
  eapply ensures_bind; [apply xml_parse_string_loop_chars |].
  intros [s st3] (s' & Hs & Hq). simpl in Hs. subst s.
  eapply ensures_bind; [apply ensures_any |]. intros st4 _.
  apply ensures_Ok. by exists s'.
Qed.

Lemma xml_read_text_loop_chars fuel (st : state) acc :
  ensures (fun p => exists s, p.1 = acc ++ s /\ ("<"%char) ∉ s)
    (xml_read_text_loop fuel st acc).
Proof.
  revert st acc. induction fuel as [| fuel IH]; intros st acc;
    [by apply ensures_not_Ok |].
  cbn [xml_read_text_loop].
  destruct (xml_eof st).
  { apply ensures_Ok. exists []. rewrite app_nil_r. split; [done |].
    apply not_elem_of_nil. }
  destruct (xml_peek st 0) as [c | | |] eqn:Hc; try by apply ensures_not_Ok.
  cbn [mbind result_bind]. case_bool_decide as Hq; cbn [negb].
  - apply ensures_Ok. exists []. rewrite app_nil_r. split; [done |].
    apply not_elem_of_nil.
  - eapply ensures_impl; [apply IH |]. intros p (s & Hs & Hall).
    exists (c :: s). split; [by rewrite Hs, <- app_assoc |].
    apply not_elem_of_cons. split; [congruence | done].
Qed.

(** The text read from a character that is not ['<'] starts with it. *)
Lemma xml_read_text_starts fuel (st : state) c :
  xml_peek st 0 = Ok c -> c <> "<"%char ->
  ensures (fun p => (("<"%char) ∉ p.1) /\ exists text', p.1 = c :: text')
    (xml_read_text fuel st).
Proof.
  intros Hc Hne. unfold xml_read_text.
  destruct fuel as [| fuel]; [by apply ensures_not_Ok |].
  cbn [xml_read_text_loop]. rewrite (xml_peek_not_eof _ _ Hc), Hc.
  cbn [mbind result_bind]. rewrite bool_decide_eq_false_2 by done.
  cbn [negb]. eapply ensures_impl; [apply xml_read_text_loop_chars |].
  intros p (s & Hs & Hall). rewrite Hs. simpl. split; [| by exists s].
  apply not_elem_of_cons. split; [congruence | done].
Qed.

Lemma xml_read_comment_loop_chars fuel (st : state) acc b :
  ("-"%char) ∉ acc ->
  ensures (fun p => ("-"%char) ∉ p.1) (xml_read_comment_loop fuel st acc b).
Proof.
  revert st acc b. induction fuel as [| fuel IH]; intros st acc b Hacc;
    [by apply ensures_not_Ok |].
  cbn [xml_read_comment_loop].
  destruct (xml_eof st).
  { apply ensures_Ok. apply not_elem_of_nil. }
  destruct (xml_peek st 0) as [c | | |] eqn:Hc; try by apply ensures_not_Ok.
  cbn [mbind result_bind].
  destruct (bool_decide (c = "-"%char)) eqn:Hh; cbn [andb].
  - destruct b; cbn [negb].
    + eapply ensures_bind; [apply ensures_any |]. intros st1 _.
      by apply ensures_Ok.
    + by apply IH.
  - apply IH. apply bool_decide_eq_false_1 in Hh.
    rewrite elem_of_app, list_elem_of_singleton. intros [? | ?]; congruence.
Qed.

(** A comment that [xml_read_comment] returns holds no hyphen. *)
Lemma xml_read_comment_chars fuel (st : state) :
  ensures (fun p => ("-"%char) ∉ p.1) (xml_read_comment fuel st).
Proof.
  unfold xml_read_comment.
  do 4 (eapply ensures_bind; [apply ensures_any |]; intros ? _).
  apply xml_read_comment_loop_chars, not_elem_of_nil.
Qed.

Lemma xml_read_closing_tag_valid fuel (st : state) :
  ensures (fun p => valid_name p.1 = true) (xml_read_closing_tag fuel st).
Proof.
  unfold xml_read_closing_tag.
  do 2 (eapply ensures_bind; [apply ensures_any |]; intros ? _).
  eapply ensures_bind; [apply xml_read_name_valid |]. intros [s st3] Hs.
  eapply ensures_bind; [apply ensures_any |]; intros ? _.
  by apply ensures_Ok.
Qed.

End Lexemes.

Section EventsOk.

Local Abbreviation state := (xml_state (list event)).

Lemma delivers_ok_keeps (st st' : state) : keeps st st' -> delivers_ok st st'.
Proof. intros H. exists []. by rewrite app_nil_r. Qed.

Lemma delivers_ok_trans (st1 st2 st3 : state) :
  delivers_ok st1 st2 -> delivers_ok st2 st3 -> delivers_ok st1 st3.
Proof.
  intros (evs1 & H1 & Hok1) (evs2 & H2 & Hok2). exists (evs1 ++ evs2).
  split; [by rewrite H2, H1, <- app_assoc | by apply Forall_app].
Qed.

Lemma delivers_ok_event (st st' : state) ev :
  keeps st st' -> event_ok ev ->
  delivers_ok st (set_user_data st' (deliver event_log (user_data st') ev)).
Proof.
  intros H Hev. exists [ev]. split; [| by constructor].
  unfold keeps in H. rewrite <- H. by destruct ev.
Qed.

(** The character at the cursor when the body loop reads a text. *)
Lemma text_branch_peek (st : state) :
  and_then (peek_is st 0 "<"%char) (peek_is st 1 "/"%char) = Ok false ->
  and_then (peek_is st 0 "<"%char) (peek_is_not st 1 "/"%char) = Ok false ->
  exists c, xml_peek st 0 = Ok c /\ c <> "<"%char.
Proof.
  unfold and_then, peek_is, peek_is_not.
  destruct (xml_peek st 0) as [c | | |]; try done. cbn [mbind result_bind].
  case_bool_decide as Hc; [| by exists c].
  destruct (xml_peek st 1) as [d | | |]; try done. cbn [mbind result_bind].
  by case_bool_decide.
Qed.

Lemma xml_read_tag_attributes_ok fuel name (st : state) :
  valid_name name = true ->
  ensures (fun p => delivers_ok st p.2)
    (xml_read_tag_attributes event_log fuel name st).
Proof.
  intros Hname. revert st. induction fuel as [| fuel IH]; intros st;
    [by apply ensures_not_Ok |].
  cbn [xml_read_tag_attributes]. destruct (xml_eof st).
  { apply ensures_Ok. by apply delivers_ok_keeps. }
  eapply ensures_bind; [apply xml_eat_space_keeps |]. intros st1 H1.
  eapply ensures_bind; [apply ensures_any |]. intros c _.
  destruct (xml_is_alpha c).
  - eapply ensures_bind;
      [apply ensures_and; [apply xml_read_name_keeps | apply xml_read_name_valid] |].
    intros [n st2] [H2 Hn].
    eapply ensures_bind; [apply xml_eat_space_keeps |]. intros st3 H3.
    eapply ensures_bind; [apply xml_match_keeps |]. intros st4 H4.
    eapply ensures_bind;
      [apply ensures_and;
       [apply xml_parse_string_keeps | apply xml_parse_string_value] |].
    intros [v st5] [H5 Hv]. cbn zeta.
    eapply ensures_impl; [apply IH |]. intros [how st6] H6.
    eapply delivers_ok_trans; [| exact H6].
    apply (delivers_ok_event st st5 (Attribute n v)); [| done].
    unfold keeps, keeps2 in *. simpl in *. congruence.
  - eapply ensures_bind; [apply ensures_any |]. intros b _. destruct b.
    + eapply ensures_bind; [apply xml_match_keeps |]. intros st2 H2.
      apply ensures_Ok. apply delivers_ok_keeps.
      unfold keeps in *. simpl. congruence.
    + eapply ensures_bind; [apply ensures_any |]. intros b _. destruct b.
      * eapply ensures_bind; [apply xml_match_keeps |]. intros st2 H2.
        eapply ensures_bind; [apply xml_match_keeps |]. intros st3 H3.
        eapply ensures_bind; [apply xml_eat_space_keeps |]. intros st4 H4.
        apply ensures_Ok. simpl.
        eapply delivers_ok_trans;
          [apply (delivers_ok_event st st3 (EndTag name)); [| done] |].
        { unfold keeps in *. congruence. }
        by apply delivers_ok_keeps.
      * eapply ensures_impl; [apply IH |]. intros [how st2] H2.
        eapply delivers_ok_trans; [| exact H2].
        by apply delivers_ok_keeps.
Qed.

Lemma xml_read_tag_ok_both fuel :
  (forall st : state,
      ensures (delivers_ok st) (xml_read_tag event_log fuel st)) /\
  (forall name (st : state),
      valid_name name = true ->
      ensures (delivers_ok st) (xml_read_tag_body event_log fuel name st)).
Proof.
  induction fuel as [| fuel [IHt IHb]];
    [split; intros; by apply ensures_not_Ok |].
  split.
  - intros st. rewrite xml_read_tag_eq.
    eapply ensures_bind; [apply xml_eat_space_keeps |]. intros st1 H1.
    eapply ensures_bind; [apply xml_match_keeps |]. intros st2 H2.
    eapply ensures_bind;
      [apply ensures_and; [apply xml_read_name_keeps | apply xml_read_name_valid] |].
    intros [name st3] [H3 Hname]. cbn zeta. simpl in Hname.
    assert (delivers_ok st
              (set_user_data st3 (begin_tag event_log (user_data st3) name)))
      as Hbegin.
    { apply (delivers_ok_event st st3 (BeginTag name)); [| done].
      unfold keeps, keeps2 in *. simpl in *. congruence. }
    eapply ensures_bind; [by apply xml_read_tag_attributes_ok |].
    intros [how st4] H4. simpl in H4.
    pose proof (delivers_ok_trans _ _ _ Hbegin H4) as H04.
    destruct how; [| by apply ensures_Ok].
    eapply ensures_impl; [by apply IHb |]. intros st5 H5.
    by eapply delivers_ok_trans.
  - intros name st Hname. rewrite xml_read_tag_body_eq.
    destruct (xml_eof st).
    { apply ensures_Ok. by apply delivers_ok_keeps. }
    eapply ensures_bind;
      [apply ensures_and; [apply xml_eat_space_keeps | apply xml_eat_space_ahead] |].
    intros st1 [H1 Hsp].
    destruct (and_then (peek_is st1 0 "<") (peek_is st1 1 "/"))
      as [[] | | |] eqn:Hb1; try by apply ensures_not_Ok.
    { (* a closing tag *)
      cbn [mbind result_bind].
      eapply ensures_bind; [apply xml_read_closing_tag_keeps |].
      intros [close st2] H2. destruct (negb _); [by apply ensures_not_Ok |].
      apply ensures_Ok.
      apply (delivers_ok_event st st2 (EndTag name)); [| done].
      unfold keeps, keeps2 in *. simpl in *. congruence. }
    cbn [mbind result_bind].
    eapply ensures_bind; [apply ensures_any |]. intros b _. destruct b.
    { (* a comment *)
      eapply ensures_bind;
        [apply ensures_and;
         [apply xml_read_comment_keeps | apply xml_read_comment_chars] |].
      intros [c st2] [H2 Hc]. cbn zeta.
      eapply ensures_impl; [by apply IHb |]. intros st3 H3.
      eapply delivers_ok_trans; [| exact H3].
      apply (delivers_ok_event st st2 (Comment c)); [| done].
      unfold keeps, keeps2 in *. simpl in *. congruence. }
    destruct (and_then (peek_is st1 0 "<") (peek_is_not st1 1 "/"))
      as [[] | | |] eqn:Hb3; try by apply ensures_not_Ok.
    { (* a child tag *)
      cbn [mbind result_bind].
      eapply ensures_bind; [apply IHt |]. intros st2 H2.
      eapply ensures_impl; [by apply IHb |]. intros st3 H3.
      eapply delivers_ok_trans; [| exact H3].
      eapply delivers_ok_trans; [| exact H2]. by apply delivers_ok_keeps. }
    (* text *)
    cbn [mbind result_bind].
    destruct (text_branch_peek st1 Hb1 Hb3) as (c & Hc & Hne).
    eapply ensures_bind;
      [apply ensures_and;
       [apply xml_read_text_keeps | by apply (xml_read_text_starts _ _ c)] |].
    intros [t st2] [H2 [Hlt (t' & Ht)]]. cbn zeta. simpl in Hlt, Ht.
    eapply ensures_impl; [by apply IHb |]. intros st3 H3.
    eapply delivers_ok_trans; [| exact H3].
    apply (delivers_ok_event st st2 (Text t)).
    + unfold keeps, keeps2 in *. simpl in *. congruence.
    + split; [done |]. exists c, t'. split; [done |]. by apply Hsp.
Qed.

Lemma xml_read_document_loop_ok fuel first (st : state) :
  ensures (delivers_ok st) (xml_read_document_loop event_log fuel first st).
Proof.
  revert st. induction fuel as [| fuel IH]; intros st;
    [by apply ensures_not_Ok |].
  cbn [xml_read_document_loop]. destruct (xml_eof st).
  { apply ensures_Ok. by apply delivers_ok_keeps. }
  eapply ensures_bind; [apply ensures_any |]. intros b _.
  destruct b; [| by apply ensures_not_Ok].
  eapply (ensures_bind (delivers_ok st)).
  { unfold xml_read_document_construct.
    eapply ensures_bind; [apply ensures_any |]. intros c1 _.
    case_bool_decide.
    { eapply ensures_bind; [apply ensures_any |]. intros _ _.
      eapply ensures_impl; [apply xml_read_header_keeps |].
      intros st1 H1. by apply delivers_ok_keeps. }
    eapply ensures_bind; [apply ensures_any |]. intros c2 _.
    case_bool_decide.
    { eapply ensures_bind;
        [apply ensures_and;
         [apply xml_read_comment_keeps | apply xml_read_comment_chars] |].
      intros [c st1] [H1 Hc]. apply ensures_Ok.
      by apply (delivers_ok_event st st1 (Comment c)). }
    eapply ensures_bind; [apply ensures_any |]. intros c3 _.
    destruct (xml_is_alpha c3).
    - apply xml_read_tag_ok_both.
    - apply ensures_Ok. by apply delivers_ok_keeps. }
  intros st1 H1.
  eapply ensures_bind; [apply xml_eat_space_keeps |]. intros st2 H2.
  eapply ensures_impl; [apply IH |]. intros st3 H3.
  eapply delivers_ok_trans; [exact H1 |].
  eapply delivers_ok_trans; [| exact H3]. by apply delivers_ok_keeps.
Qed.

(** X1. Every event that a parse delivers, when it
    returns, is well formed: the name of a BeginTag, EndTag or Attribute
    event is a letter followed by letters, digits and underscores; the value
    of an Attribute event is a text without a double quote with one NUL
    appended to it (the text may itself hold NUL characters, also at its
    end); the text of a Text event is not empty, starts with a character
    that is not white space and holds no ['<']; the text of a Comment event
    holds no hyphen. *)
Theorem delivered_events_well_formed fuel buf evs :
  xml_events fuel buf = Ok evs -> Forall event_ok evs.
Proof.
  unfold xml_events, xml_read_document. intros H.
  apply bind_Ok in H as (st2 & H & [= Hevs]).
  apply bind_Ok in H as (st1 & H1 & H).
  apply xml_eat_space_keeps in H1.
  apply xml_read_document_loop_ok in H as (evs' & Hu & Hok).
  unfold keeps in H1. simpl in H1. rewrite H1 in Hu. simpl in Hu.
  congruence.
Qed.

End EventsOk.

Lemma delivered_events_well_formed_witness :
  Forall event_ok [BeginTag (str "a");
                   Attribute (str "x") (str "1" ++ [NUL]);
                   Attribute (str "y") (str "2" ++ [NUL]);
                   Text (str "hi");
                   EndTag (str "a")].
Proof.
  apply (delivered_events_well_formed 6 doc_attributes). reflexivity.
Defined.

(** ** The lexical loops end *)

Lemma finishes_bind {A B} (P : A -> Prop) (Q : B -> Prop) r k :
  finishes P r -> (forall a, P a -> finishes Q (k a)) -> finishes Q (r ≫= k).
Proof.
  destruct r as [a | e | |]; simpl; try done. intros H Hk. by apply Hk.
Qed.

Lemma finishes_impl {A} (P Q : A -> Prop) r :
  finishes P r -> (forall a, P a -> Q a) -> finishes Q r.
Proof.
  destruct r as [a | e | |]; simpl; try done. intros H HPQ. by apply HPQ.
Qed.

Lemma finishes_not_OutOfFuel {A} (Q : A -> Prop) r :
  finishes Q r -> r <> OutOfFuel.
Proof. by destruct r. Qed.

Section Finishes.

Context {U : Type}.

Local Abbreviation state := (xml_state U).

Lemma forward_refl (st : state) : 0 <= pos st <= size st -> forward st st.
Proof. unfold forward. intros H. split; [done | lia]. Qed.

Lemma forward_trans (st1 st2 st3 : state) :
  forward st1 st2 -> forward st2 st3 -> forward st1 st3.
Proof.
  unfold forward, size. intros [Hb1 Hp1] [Hb2 Hp2]. rewrite Hb1 in *.
  split; [done | lia].
Qed.

Lemma forward_left (st st' : state) :
  forward st st' -> (chars_left st' <= chars_left st)%nat.
Proof.
  unfold forward, chars_left, size. intros [-> Hp]. lia.
Qed.

Lemma forward_advance (st : state) :
  0 <= pos st < size st ->
  forward st (xml_advance st) /\
  S (chars_left (xml_advance st)) = chars_left st.
Proof.
  intros Hp.
  assert (buffer (xml_advance st) = buffer st /\
          pos (xml_advance st) = pos st + 1) as [Hb Hpos]
    by (unfold xml_advance; by case_bool_decide).
  unfold forward, chars_left, size. rewrite Hb, Hpos. unfold size in Hp.
  split; [split; [done | lia] | lia].
Qed.

Lemma xml_peek_finishes (st : state) o :
  finishes (fun _ => 0 <= pos st + o < size st) (xml_peek st o).
Proof.
  unfold xml_peek. destruct (_ && _) eqn:H; [| done]. simpl. lia.
Qed.

Lemma xml_match_finishes (st : state) c :
  finishes (fun st' => forward st st' /\
              S (chars_left st') = chars_left st) (xml_match st c).
Proof.
  unfold xml_match. eapply finishes_bind; [apply xml_peek_finishes |].
  intros d Hd. cbv beta in Hd. destruct (negb _); [done |].
  apply forward_advance. lia.
Qed.

Ltac peek_step Hd :=
  eapply finishes_bind; [apply xml_peek_finishes |];
  intros ? Hd; cbv beta in Hd.

Lemma xml_eat_space_finishes fuel (st : state) :
  0 <= pos st <= size st -> (chars_left st < fuel)%nat ->
  finishes (forward st) (xml_eat_space fuel st).
Proof.
  revert st. induction fuel as [| fuel IH]; intros st Hp Hfuel; [lia |].
  cbn [xml_eat_space]. destruct (xml_eof st); [by apply forward_refl |].
  peek_step Hd. destruct (xml_is_space _); [| by apply forward_refl].
  destruct (forward_advance st) as [Hf Hl]; [lia |].
  eapply finishes_impl; [apply IH |].
  - unfold forward in Hf. unfold size in *. destruct Hf as [-> ?]. lia.
  - lia.
  - intros st' H'. by eapply forward_trans.
Qed.

Lemma xml_parse_string_loop_finishes fuel (st : state) s :
  0 <= pos st <= size st -> (chars_left st < fuel)%nat ->
  finishes (forward2 st) (xml_parse_string_loop fuel st s).
Proof.
  revert st s. induction fuel as [| fuel IH]; intros st s Hp Hfuel; [lia |].
  cbn [xml_parse_string_loop]. destruct (xml_eof st); [by apply forward_refl |].
  peek_step Hd. destruct (negb _); [| by apply forward_refl]. peek_step Hd'.
  destruct (forward_advance st) as [Hf Hl]; [lia |].
  eapply finishes_impl; [apply IH |].
  - unfold forward in Hf. unfold size in *. destruct Hf as [-> ?]. lia.
  - lia.
  - intros [s' st'] H'. by eapply forward_trans.
Qed.

Lemma xml_read_name_loop_finishes fuel (st : state) s :
  0 <= pos st <= size st -> (chars_left st < fuel)%nat ->
  finishes (forward2 st) (xml_read_name_loop fuel st s).
Proof.
  revert st s. induction fuel as [| fuel IH]; intros st s Hp Hfuel; [lia |].
  cbn [xml_read_name_loop]. destruct (xml_eof st); [by apply forward_refl |].
  peek_step Hd. destruct (xml_is_valid_name_char _); [| by apply forward_refl].
  peek_step Hd'.
  destruct (forward_advance st) as [Hf Hl]; [lia |].
  eapply finishes_impl; [apply IH |].
  - unfold forward in Hf. unfold size in *. destruct Hf as [-> ?]. lia.
  - lia.
  - intros [s' st'] H'. by eapply forward_trans.
Qed.

Lemma xml_read_text_loop_finishes fuel (st : state) s :
  0 <= pos st <= size st -> (chars_left st < fuel)%nat ->
  finishes (forward2 st) (xml_read_text_loop fuel st s).
Proof.
  revert st s. induction fuel as [| fuel IH]; intros st s Hp Hfuel; [lia |].
  cbn [xml_read_text_loop]. destruct (xml_eof st); [by apply forward_refl |].
  peek_step Hd. destruct (negb _); [| by apply forward_refl]. peek_step Hd'.
  destruct (forward_advance st) as [Hf Hl]; [lia |].
  eapply finishes_impl; [apply IH |].
  - unfold forward in Hf. unfold size in *. destruct Hf as [-> ?]. lia.
  - lia.
  - intros [s' st'] H'. by eapply forward_trans.
Qed.

Lemma forward_bounds (st st' : state) :
  forward st st' -> 0 <= pos st -> 0 <= pos st' <= size st'.
Proof. unfold forward, size. intros [-> ?] ?. lia. Qed.

Lemma xml_read_comment_loop_finishes fuel (st : state) s b :
  0 <= pos st <= size st -> (chars_left st < fuel)%nat ->
  finishes (forward2 st) (xml_read_comment_loop fuel st s b).
Proof.
  revert st s b. induction fuel as [| fuel IH]; intros st s b Hp Hfuel; [lia |].
  cbn [xml_read_comment_loop]. destruct (xml_eof st); [by apply forward_refl |].
  peek_step Hd.
  destruct (forward_advance st) as [Hf Hl]; [lia |].
  pose proof (forward_bounds _ _ Hf ltac:(lia)) as Hp'.
  destruct (_ && _).
  { eapply finishes_impl; [apply IH; [done | lia] |].
    intros [s' st'] H'. by eapply forward_trans. }
  peek_step Hd'. destruct (_ && _).
  { eapply finishes_bind; [apply xml_match_finishes |].
    intros st1 [H1 _]. simpl. unfold forward2. simpl.
    by eapply forward_trans. }
  peek_step Hd''.
  eapply finishes_impl; [apply IH; [done | lia] |].
  intros [s' st'] H'. by eapply forward_trans.
Qed.

Lemma xml_parse_string_finishes fuel (st : state) :
  0 <= pos st <= size st -> (chars_left st < fuel)%nat ->
  finishes (forward2 st) (xml_parse_string fuel st).
Proof.
  intros Hp Hfuel. unfold xml_parse_string.
  eapply finishes_bind; [by apply xml_eat_space_finishes |]. intros st1 H1.
  eapply finishes_bind; [apply xml_match_finishes |]. intros st2 [H2 _].
  pose proof (forward_trans _ _ _ H1 H2) as H02.
  eapply finishes_bind.
  { apply xml_parse_string_loop_finishes.
    - eapply forward_bounds; [exact H02 | lia].
    - apply forward_left in H02. lia. }
  intros [s st3] H3. unfold forward2 in H3. simpl in H3.
  pose proof (forward_trans _ _ _ H02 H3) as H03.
  eapply finishes_bind; [apply xml_match_finishes |]. intros st4 [H4 _].
  simpl. unfold forward2. simpl. by eapply forward_trans.
Qed.

Lemma xml_read_name_finishes fuel (st : state) :
  0 <= pos st <= size st -> (chars_left st < fuel)%nat ->
  finishes (forward2 st) (xml_read_name fuel st).
Proof.
  intros Hp Hfuel. unfold xml_read_name.
  eapply finishes_bind; [by apply xml_eat_space_finishes |]. intros st1 H1.
  peek_step Hd. destruct (negb _).
  { by peek_step Hd'. }
  eapply finishes_impl.
  { apply xml_read_name_loop_finishes.
    - eapply forward_bounds; [exact H1 | lia].
    - apply forward_left in H1. lia. }
  intros [s st2] H2. by eapply forward_trans.
Qed.

Lemma xml_read_text_finishes fuel (st : state) :
  0 <= pos st <= size st -> (chars_left st < fuel)%nat ->
  finishes (forward2 st) (xml_read_text fuel st).
Proof. apply xml_read_text_loop_finishes. Qed.

Lemma xml_read_comment_finishes fuel (st : state) :
  0 <= pos st <= size st -> (chars_left st < fuel)%nat ->
  finishes (forward2 st) (xml_read_comment fuel st).
Proof.
  intros Hp Hfuel. unfold xml_read_comment.
  eapply finishes_bind; [apply xml_match_finishes |]. intros st1 [H1 _].
  eapply finishes_bind; [apply xml_match_finishes |]. intros st2 [H2 _].
  eapply finishes_bind; [apply xml_match_finishes |]. intros st3 [H3 _].
  eapply finishes_bind; [apply xml_match_finishes |]. intros st4 [H4 _].
  pose proof (forward_trans _ _ _ (forward_trans _ _ _
                (forward_trans _ _ _ H1 H2) H3) H4) as H04.
  eapply finishes_impl.
  { apply xml_read_comment_loop_finishes.
    - eapply forward_bounds; [exact H04 | lia].
    - apply forward_left in H04. lia. }
  intros [s st5] H5. by eapply forward_trans.
Qed.

Lemma xml_read_closing_tag_finishes fuel (st : state) :
  0 <= pos st <= size st -> (chars_left st < fuel)%nat ->
  finishes (forward2 st) (xml_read_closing_tag fuel st).
Proof.
  intros Hp Hfuel. unfold xml_read_closing_tag.
  eapply finishes_bind; [apply xml_match_finishes |]. intros st1 [H1 _].
  eapply finishes_bind; [apply xml_match_finishes |]. intros st2 [H2 _].
  pose proof (forward_trans _ _ _ H1 H2) as H02.
  eapply finishes_bind.
  { apply xml_read_name_finishes.
    - eapply forward_bounds; [exact H02 | lia].
    - apply forward_left in H02. lia. }
  intros [s st3] H3. unfold forward2 in H3. simpl in H3.
  eapply finishes_bind; [apply xml_match_finishes |]. intros st4 [H4 _].
  simpl. unfold forward2. simpl.
  eapply forward_trans; [| exact H4]. by eapply forward_trans.
Qed.

End Finishes.

(** ** The lexical functions on the text that remains *)

Section Lexical.

Context {U : Type}.

Local Abbreviation state := (xml_state U).

Lemma without_hyphens_cons c body :
  without_hyphens (c :: body)
  = if bool_decide (c = "-"%char) then without_hyphens body
    else c :: without_hyphens body.
Proof.
  unfold without_hyphens. rewrite filter_cons.
  case_bool_decide; by destruct (decide _).
Qed.

(** The loop of [xml_read_comment] on a body that is closed by ["-->"]. *)
Lemma xml_read_comment_loop_at fuel (st : state) body rest u acc hyphen :
  at_ st (body ++ str "-->" ++ rest) u ->
  comment_body true hyphen body = true ->
  (length body + 1 < fuel)%nat ->
  exists st',
    xml_read_comment_loop fuel st acc hyphen
    = Ok (acc ++ without_hyphens body, st') /\ at_ st' rest u.
Proof.
  revert fuel st acc hyphen.
  induction body as [| c body IH]; intros fuel st acc hyphen Hat Hok Hfuel.
  - simpl in Hok, Hat. destruct hyphen; [done |].
    destruct fuel as [| fuel]; [simpl in Hfuel; lia |].
    cbn [xml_read_comment_loop].
    rewrite (at_cons_eof _ _ _ _ Hat), (at_peek0 _ _ _ _ Hat).
    cbn [mbind result_bind]. rewrite bool_decide_eq_true_2 by done.
    cbn [andb negb].
    pose proof (at_advance _ _ _ _ Hat) as Hat1.
    destruct fuel as [| fuel]; [simpl in Hfuel; lia |].
    cbn [xml_read_comment_loop].
    rewrite (at_cons_eof _ _ _ _ Hat1), (at_peek0 _ _ _ _ Hat1).
    cbn [mbind result_bind]. rewrite bool_decide_eq_true_2 by done.
    cbn [andb negb mbind result_bind].
    pose proof (at_advance _ _ _ _ Hat1) as Hat2.
    rewrite (at_match _ _ _ _ Hat2). cbn [mbind result_bind].
    eexists. split; [by rewrite app_nil_r |]. by eapply at_advance.
  - destruct fuel as [| fuel]; [simpl in Hfuel; lia |].
    simpl in Hat. cbn [comment_body] in Hok.
    cbn [xml_read_comment_loop].
    rewrite (at_cons_eof _ _ _ _ Hat), (at_peek0 _ _ _ _ Hat).
    cbn [mbind result_bind]. rewrite without_hyphens_cons.
    pose proof (at_advance _ _ _ _ Hat) as Hat1.
    case_bool_decide as Hc.
    + apply andb_true_iff in Hok as [Hh Hok]. rewrite Hh. cbn [andb].
      apply (IH fuel (xml_advance st) acc true); [done .. |].
      simpl in Hfuel. lia.
    + cbn [andb].
      destruct (IH fuel (xml_advance st) (acc ++ [c]) false)
        as (st' & Hrun & Hat'); [done .. | simpl in Hfuel; lia |].
      exists st'. split; [| done]. rewrite Hrun. by rewrite <- app_assoc.
Qed.

(** X2. On a comment [<!--body-->] whose body holds no two
    hyphens in a row and does not end with a hyphen, [xml_read_comment]
    returns the body without its hyphens, with the cursor after ["-->"]:
    every single hyphen of a comment is dropped. *)
Theorem comment_without_hyphens fuel (st : state) body rest u :
  at_ st (str "<!--" ++ body ++ str "-->" ++ rest) u ->
  comment_body true false body = true ->
  (length body + 1 < fuel)%nat ->
  exists st',
    xml_read_comment fuel st = Ok (without_hyphens body, st') /\
    at_ st' rest u.
Proof.
  intros Hat Hok Hfuel. unfold xml_read_comment. simpl in Hat.
  rewrite (at_match _ _ _ _ Hat). cbn [mbind result_bind].
  pose proof (at_advance _ _ _ _ Hat) as Hat1.
  rewrite (at_match _ _ _ _ Hat1). cbn [mbind result_bind].
  pose proof (at_advance _ _ _ _ Hat1) as Hat2.
  rewrite (at_match _ _ _ _ Hat2). cbn [mbind result_bind].
  pose proof (at_advance _ _ _ _ Hat2) as Hat3.
  rewrite (at_match _ _ _ _ Hat3). cbn [mbind result_bind].
  pose proof (at_advance _ _ _ _ Hat3) as Hat4.
  by apply (xml_read_comment_loop_at fuel _ body rest u [] false).
Qed.

(** The loop of [xml_read_comment] on a body that the end of the input
    cuts short. *)
Lemma xml_read_comment_loop_eof fuel (st : state) body u acc hyphen :
  at_ st body u -> comment_body false hyphen body = true ->
  (length body < fuel)%nat ->
  exists st',
    xml_read_comment_loop fuel st acc hyphen = Ok ([], st') /\ at_ st' [] u.
Proof.
  revert fuel st acc hyphen.
  induction body as [| c body IH]; intros fuel st acc hyphen Hat Hok Hfuel.
  - destruct fuel as [| fuel]; [simpl in Hfuel; lia |].
    cbn [xml_read_comment_loop]. rewrite (at_nil_eof _ _ Hat). by exists st.
  - destruct fuel as [| fuel]; [simpl in Hfuel; lia |].
    cbn [comment_body] in Hok. cbn [xml_read_comment_loop].
    rewrite (at_cons_eof _ _ _ _ Hat), (at_peek0 _ _ _ _ Hat).
    cbn [mbind result_bind].
    pose proof (at_advance _ _ _ _ Hat) as Hat1.
    case_bool_decide as Hc.
    + apply andb_true_iff in Hok as [Hh Hok]. rewrite Hh. cbn [andb].
      apply (IH fuel (xml_advance st) acc true); [done .. |].
      simpl in Hfuel. lia.
    + cbn [andb].
      apply (IH fuel (xml_advance st) (acc ++ [c]) false); [done .. |].
      simpl in Hfuel. lia.
Qed.

(** X3. On [<!--body] followed by the end of the input,
    where [body] has no two hyphens in a row, [xml_read_comment] returns
    without an error, and what it returns is the empty string: the text
    read so far is lost.  (After two hyphens in a row the function expects
    ['>'] and throws when it finds something else or the end of the
    input; that case is not this one.) *)
Theorem comment_cut_short fuel (st : state) body u :
  at_ st (str "<!--" ++ body) u -> comment_body false false body = true ->
  (length body < fuel)%nat ->
  exists st', xml_read_comment fuel st = Ok ([], st') /\ at_ st' [] u.
Proof.
  intros Hat Hok Hfuel. unfold xml_read_comment. simpl in Hat.
  rewrite (at_match _ _ _ _ Hat). cbn [mbind result_bind].
  pose proof (at_advance _ _ _ _ Hat) as Hat1.
  rewrite (at_match _ _ _ _ Hat1). cbn [mbind result_bind].
  pose proof (at_advance _ _ _ _ Hat1) as Hat2.
  rewrite (at_match _ _ _ _ Hat2). cbn [mbind result_bind].
  pose proof (at_advance _ _ _ _ Hat2) as Hat3.
  rewrite (at_match _ _ _ _ Hat3). cbn [mbind result_bind].
  pose proof (at_advance _ _ _ _ Hat3) as Hat4.
  by apply (xml_read_comment_loop_eof fuel _ body u [] false).
Qed.

(** The text loop stops at the first ['<'] or at the end of the input. *)
Lemma xml_read_text_loop_at fuel (st : state) text rest u acc :
  at_ st (text ++ rest) u -> ("<"%char) ∉ text ->
  ahead (fun c => negb (bool_decide (c = "<"%char))) rest ->
  (length text < fuel)%nat ->
  exists st',
    xml_read_text_loop fuel st acc = Ok (acc ++ text, st') /\ at_ st' rest u.
Proof.
  revert fuel st acc.
  induction text as [| c text IH]; intros fuel st acc Hat Htext Hrest Hfuel.
  - destruct fuel as [| fuel]; [simpl in Hfuel; lia |].
    exists st. rewrite app_nil_r. split; [| done].
    cbn [xml_read_text_loop]. simpl in Hat. destruct rest as [| d rest].
    + by rewrite (at_nil_eof _ _ Hat).
    + rewrite (at_cons_eof _ _ _ _ Hat), (at_peek0 _ _ _ _ Hat).
      cbn [mbind result_bind]. simpl in Hrest. by rewrite Hrest.
  - destruct fuel as [| fuel]; [simpl in Hfuel; lia |].
    apply not_elem_of_cons in Htext as [Hc Htext].
    cbn [xml_read_text_loop]. simpl in Hat.
    rewrite (at_cons_eof _ _ _ _ Hat), (at_peek0 _ _ _ _ Hat).
    cbn [mbind result_bind]. rewrite bool_decide_eq_false_2 by done.
    cbn [negb mbind result_bind].
    destruct (IH fuel (xml_advance st) (acc ++ [c])) as (st' & Hrun & Hat');
      [by eapply at_advance | done .. | simpl in Hfuel; lia |].
    exists st'. split; [| done]. rewrite Hrun. by rewrite <- app_assoc.
Qed.

Lemma xml_read_text_at fuel (st : state) text rest u :
  at_ st (text ++ rest) u -> ("<"%char) ∉ text ->
  ahead (fun c => negb (bool_decide (c = "<"%char))) rest ->
  (length text < fuel)%nat ->
  exists st', xml_read_text fuel st = Ok (text, st') /\ at_ st' rest u.
Proof. apply (xml_read_text_loop_at fuel st text rest u []). Qed.

(** A name after white space. *)
Lemma xml_read_name_space_at fuel (st : state) ws name rest u :
  at_ st (ws ++ name ++ rest) u ->
  Forall (fun c => xml_is_space c = true) ws -> valid_name name = true ->
  ahead xml_is_valid_name_char rest ->
  (length ws + length name < fuel)%nat ->
  exists st', xml_read_name fuel st = Ok (name, st') /\ at_ st' rest u.
Proof.
  intros Hat Hws Hname Hrest Hfuel.
  destruct (valid_name_inv name Hname) as (c & name' & -> & Hc & Hn').
  destruct (xml_eat_space_at fuel st ws ((c :: name') ++ rest) u Hat Hws)
    as (st1 & Hsp & Hat1); [simpl; by apply alpha_not_space | lia |].
  destruct (xml_read_name_at fuel st1 (c :: name') rest u Hat1 Hname Hrest)
    as (st2 & Hrun & Hat2); [simpl in *; lia |].
  exists st2. split; [| done]. unfold xml_read_name in *. rewrite Hsp.
  cbn [mbind result_bind].
  rewrite (xml_eat_space_none fuel st1 _ u Hat1) in Hrun;
    [done | simpl; by apply alpha_not_space | lia].
Qed.

(** What [xml_read_name] throws when no name follows the white space. *)
Lemma xml_read_name_error fuel (st : state) ws c rest u :
  at_ st (ws ++ c :: rest) u ->
  Forall (fun c => xml_is_space c = true) ws ->
  xml_is_space c = false -> xml_is_alpha c = false ->
  (length ws < fuel)%nat ->
  exists line, xml_read_name fuel st = Fatal (NameExpected c line).
Proof.
  intros Hat Hws Hsp Hal Hfuel.
  destruct (xml_eat_space_at fuel st ws (c :: rest) u Hat Hws)
    as (st1 & Heat & Hat1); [done .. |].
  exists (line_number st1). unfold xml_read_name. rewrite Heat.
  cbn [mbind result_bind]. rewrite (at_peek0 _ _ _ _ Hat1).
  cbn [mbind result_bind]. by rewrite Hal.
Qed.

Lemma at_nil_peek0 (st : state) u :
  at_ st [] u -> xml_peek st 0 = Fatal (PeekOutOfRange (size st) (size st)).
Proof.
  intros Hat. pose proof (at_nil_eof _ _ Hat) as Heof.
  unfold xml_eof in Heof. apply Z.eqb_eq in Heof. unfold xml_peek.
  rewrite Z.add_0_r, Heof. by rewrite Z.ltb_irrefl, andb_false_r.
Qed.

Lemma xml_read_name_eof fuel (st : state) ws u :
  at_ st ws u -> Forall (fun c => xml_is_space c = true) ws ->
  (length ws < fuel)%nat ->
  exists p, xml_read_name fuel st = Fatal (PeekOutOfRange p p).
Proof.
  intros Hat Hws Hfuel.
  destruct (xml_eat_space_at fuel st ws [] u) as (st1 & Heat & Hat1);
    [by rewrite app_nil_r | done .. |].
  exists (size st1). unfold xml_read_name. rewrite Heat.
  cbn [mbind result_bind]. by rewrite (at_nil_peek0 _ _ Hat1).
Qed.

End Lexical.

Lemma comment_without_hyphens_witness :
  exists st',
    xml_read_comment 8 (xml_state_init (str "<!--a-b c-->rest") [] : xml_state (list event))
    = Ok (str "ab c", st') /\ at_ st' (str "rest") [].
Proof.
  apply (comment_without_hyphens 8 _ (str "a-b c") (str "rest") []).
  - apply at_init.
  - reflexivity.
  - simpl. lia.
Defined.

Lemma comment_cut_short_witness :
  exists st',
    xml_read_comment 6 (xml_state_init (str "<!--lost-") [] : xml_state (list event))
    = Ok ([], st') /\ at_ st' [] [].
Proof.
  apply (comment_cut_short 6 _ (str "lost-") []).
  - apply at_init.
  - reflexivity.
  - simpl. lia.
Defined.

Section LexicalStrings.

Context {U : Type}.

Local Abbreviation state := (xml_state U).

(** A quoted string after white space. *)
Lemma xml_parse_string_space_at fuel (st : state) ws s rest u :
  at_ st (ws ++ DQUOTE :: s ++ DQUOTE :: rest) u ->
  Forall (fun c => xml_is_space c = true) ws -> DQUOTE ∉ s ->
  (length ws + length s < fuel)%nat ->
  exists st',
    xml_parse_string fuel st = Ok (s ++ [NUL], st') /\ at_ st' rest u.
Proof.
  intros Hat Hws Hs Hfuel.
  destruct (xml_eat_space_at fuel st ws _ u Hat Hws)
    as (st1 & Hsp & Hat1); [done | lia |].
  destruct (xml_parse_string_at fuel st1 s rest u Hat1 Hs)
    as (st2 & Hrun & Hat2); [lia |].
  exists st2. split; [| done]. unfold xml_parse_string in *. rewrite Hsp.
  cbn [mbind result_bind].
  rewrite (xml_eat_space_none fuel st1 _ u Hat1) in Hrun; [done .. | lia].
Qed.

Lemma xml_parse_string_loop_eof fuel (st : state) s u acc :
  at_ st s u -> DQUOTE ∉ s -> (length s < fuel)%nat ->
  exists st',
    xml_parse_string_loop fuel st acc = Ok (acc ++ s, st') /\ at_ st' [] u.
Proof.
  revert fuel st acc.
  induction s as [| c s IH]; intros fuel st acc Hat Hs Hfuel.
  - destruct fuel as [| fuel]; [simpl in Hfuel; lia |].
    exists st. rewrite app_nil_r. split; [| done].
    cbn [xml_parse_string_loop]. by rewrite (at_nil_eof _ _ Hat).
  - destruct fuel as [| fuel]; [simpl in Hfuel; lia |].
    apply not_elem_of_cons in Hs as [Hc Hs].
    cbn [xml_parse_string_loop].
    rewrite (at_cons_eof _ _ _ _ Hat), (at_peek0 _ _ _ _ Hat).
    cbn [mbind result_bind]. rewrite bool_decide_eq_false_2 by done.
    cbn [negb mbind result_bind].
    destruct (IH fuel (xml_advance st) (acc ++ [c])) as (st' & Hrun & Hat');
      [by eapply at_advance | done | simpl in Hfuel; lia |].
    exists st'. split; [| done]. rewrite Hrun. by rewrite <- app_assoc.
Qed.

(** A quoted string that the end of the input cuts short. *)
Lemma xml_parse_string_eof fuel (st : state) ws s u :
  at_ st (ws ++ DQUOTE :: s) u ->
  Forall (fun c => xml_is_space c = true) ws -> DQUOTE ∉ s ->
  (length ws + length s < fuel)%nat ->
  exists p, xml_parse_string fuel st = Fatal (PeekOutOfRange p p).
Proof.
  intros Hat Hws Hs Hfuel.
  destruct (xml_eat_space_at fuel st ws _ u Hat Hws)
    as (st1 & Hsp & Hat1); [done | lia |].
  unfold xml_parse_string. rewrite Hsp. cbn [mbind result_bind].
  rewrite (at_match _ _ _ _ Hat1). cbn [mbind result_bind].
  destruct (xml_parse_string_loop_eof fuel (xml_advance st1) s u [])
    as (st2 & Hrun & Hat2); [by eapply at_advance | done | lia |].
  rewrite Hrun. cbn [mbind result_bind]. exists (size st2).
  unfold xml_match. by rewrite (at_nil_peek0 _ _ Hat2).
Qed.

(** A text that does not start with a double quote. *)
Lemma xml_parse_string_unquoted fuel (st : state) ws c rest u :
  at_ st (ws ++ c :: rest) u ->
  Forall (fun c => xml_is_space c = true) ws ->
  xml_is_space c = false -> c <> DQUOTE -> (length ws < fuel)%nat ->
  exists line,
    xml_parse_string fuel st = Fatal (MatchExpected DQUOTE c line).
Proof.
  intros Hat Hws Hsp Hc Hfuel.
  destruct (xml_eat_space_at fuel st ws _ u Hat Hws)
    as (st1 & Heat & Hat1); [done .. |].
  exists (line_number st1). unfold xml_parse_string. rewrite Heat.
  cbn [mbind result_bind]. by rewrite (at_match_fail _ DQUOTE c _ _ Hat1).
Qed.

End LexicalStrings.

Section Documents.

Context {U : Type} (cb : xml_callbacks U).

Local Abbreviation state := (xml_state U).

(** An input of white space only. *)
Lemma xml_read_document_blank fuel ws (u : U) :
  Forall (fun c => xml_is_space c = true) ws -> (length ws < fuel)%nat ->
  exists st',
    xml_read_document cb fuel (xml_state_init ws u) = Ok st' /\ at_ st' [] u.
Proof.
  intros Hws Hfuel. unfold xml_read_document.
  destruct (xml_eat_space_at fuel (xml_state_init ws u) ws [] u)
    as (st1 & -> & Hat1); [rewrite app_nil_r; apply at_init | done .. |].
  cbn [mbind result_bind]. destruct fuel as [| fuel]; [lia |].
  cbn [xml_read_document_loop]. rewrite (at_nil_eof _ _ Hat1). by exists st1.
Qed.

(** An input whose first character after the white space is not ['<']. *)
Lemma xml_read_document_not_lt fuel ws c rest (u : U) :
  Forall (fun c => xml_is_space c = true) ws ->
  xml_is_space c = false -> c <> "<"%char -> (length ws < fuel)%nat ->
  xml_read_document cb fuel (xml_state_init (ws ++ c :: rest) u)
  = Fatal ExpectedLt.
Proof.
  intros Hws Hsp Hc Hfuel. unfold xml_read_document.
  destruct (xml_eat_space_at fuel (xml_state_init (ws ++ c :: rest) u)
              ws (c :: rest) u) as (st1 & -> & Hat1);
    [apply at_init | done .. |].
  cbn [mbind result_bind]. destruct fuel as [| fuel]; [lia |].
  cbn [xml_read_document_loop]. rewrite (at_cons_eof _ _ _ _ Hat1).
  rewrite (at_peek_is _ "<"%char _ _ _ Hat1). cbn [mbind result_bind].
  by rewrite bool_decide_eq_false_2.
Qed.

(** The body loop on a text followed by the closing tag. *)
Lemma xml_read_tag_body_text fuel name (st : state) ws c text tl u :
  at_ st (ws ++ c :: text ++ str "</" ++ name ++ str ">" ++ tl) u ->
  Forall (fun c => xml_is_space c = true) ws ->
  xml_is_space c = false -> ("<"%char) ∉ c :: text ->
  valid_name name = true ->
  (length ws + length text + length name + 3 < fuel)%nat ->
  exists st',
    xml_read_tag_body cb fuel name st = Ok st' /\
    at_ st' tl (replay cb [Text (c :: text); EndTag name] u).
Proof.
  intros Hat Hws Hsp Hlt Hname Hfuel.
  destruct fuel as [| fuel]; [lia |]. rewrite xml_read_tag_body_eq.
  rewrite (at_not_eof _ _ _ Hat) by (by destruct ws).
  destruct (xml_eat_space_at fuel st ws _ u Hat Hws)
    as (st1 & -> & Hat1); [done | lia |].
  cbn [mbind result_bind].
  pose proof Hlt as Hlt'. apply not_elem_of_cons in Hlt' as [Hc _].
  unfold and_then. rewrite (at_peek_is _ "<"%char _ _ _ Hat1).
  cbn [mbind result_bind]. rewrite bool_decide_eq_false_2 by done.
  cbn [mbind result_bind].
  destruct (xml_read_text_at fuel st1 (c :: text)
              (str "</" ++ name ++ str ">" ++ tl) u)
    as (st2 & -> & Hat2); [done | done | done | simpl; lia |].
  cbn [mbind result_bind]. rewrite (at_user_data _ _ _ Hat2).
  apply (at_set_user_data _ _ _ (tag_text cb u (c :: text))) in Hat2.
  set (st3 := set_user_data st2 (tag_text cb u (c :: text))) in *.
  (* the closing tag *)
  destruct fuel as [| fuel]; [lia |]. rewrite xml_read_tag_body_eq.
  rewrite (at_not_eof _ _ _ Hat2) by done.
  rewrite (xml_eat_space_none fuel st3 _ _ Hat2); [| done | lia].
  cbn [mbind result_bind]. simpl in Hat2.
  rewrite (at_peek_is _ "<"%char _ _ _ Hat2).
  rewrite (at_peek_is1 _ "/"%char _ _ _ _ Hat2).
  cbn [mbind result_bind].
  change (bool_decide ("<"%char = "<"%char)) with true.
  change (bool_decide ("/"%char = "/"%char)) with true.
  cbn [mbind result_bind]. unfold xml_read_closing_tag.
  rewrite (at_match _ _ _ _ Hat2). cbn [mbind result_bind].
  pose proof (at_advance _ _ _ _ Hat2) as Hat3.
  rewrite (at_match _ _ _ _ Hat3). cbn [mbind result_bind].
  pose proof (at_advance _ _ _ _ Hat3) as Hat4.
  destruct (xml_read_name_at fuel _ name (str ">" ++ tl) _ Hat4 Hname)
    as (st5 & -> & Hat5); [done | lia |].
  cbn [mbind result_bind]. simpl in Hat5.
  rewrite (at_match _ _ _ _ Hat5). cbn [mbind result_bind].
  rewrite string_eqb_refl. cbn [negb].
  pose proof (at_advance _ _ _ _ Hat5) as Hat6.
  eexists. split; [done |]. rewrite (at_user_data _ _ _ Hat6).
  by eapply at_set_user_data.
Qed.

(** X4. On a tag [<name>], white space, a text without ['<'] that
    starts with a character other than white space, and [</name>],
    [xml_read_tag] delivers BeginTag, one Text event and EndTag, and returns
    with the cursor after the closing tag.  The Text event holds the text
    from its first character that is not white space up to the ['<'], white
    space at its end included: the white space before a text is dropped. *)
Theorem tag_with_text fuel name (st : state) ws c text tl u :
  at_ st (str "<" ++ name ++ str ">" ++ ws ++ c :: text
          ++ str "</" ++ name ++ str ">" ++ tl) u ->
  Forall (fun c => xml_is_space c = true) ws ->
  xml_is_space c = false -> ("<"%char) ∉ c :: text ->
  valid_name name = true ->
  (length ws + length text + 2 * length name + 5 < fuel)%nat ->
  exists st',
    xml_read_tag cb fuel st = Ok st' /\
    at_ st' tl
      (replay cb [BeginTag name; Text (c :: text); EndTag name] u).
Proof.
  intros Hat Hws Hsp Hlt Hname Hfuel.
  destruct fuel as [| fuel]; [lia |].
  destruct (xml_read_tag_open cb fuel st name _ u Hat Hname)
    as (st1 & Hat1 & ->); [done | lia |].
  destruct (xml_read_tag_attributes_open cb fuel name st1 [] _ _ Hat1)
    as (st2 & -> & Hat2); [done | simpl; lia |].
  cbn [mbind result_bind].
  destruct (xml_read_tag_body_text fuel name st2 ws c text tl _ Hat2)
    as (st3 & -> & Hat3); [done .. | lia |].
  by exists st3.
Qed.

(** A tag whose opening tag is the last thing in the input. *)
Lemma xml_read_tag_unclosed fuel name (st : state) u :
  at_ st (str "<" ++ name ++ str ">") u -> valid_name name = true ->
  (length name + 2 < fuel)%nat ->
  exists st', xml_read_tag cb fuel st = Ok st' /\
    at_ st' [] (replay cb [BeginTag name] u).
Proof.
  intros Hat Hname Hfuel.
  destruct fuel as [| fuel]; [lia |].
  destruct (xml_read_tag_open cb fuel st name _ u Hat Hname)
    as (st1 & Hat1 & ->); [done | lia |].
  destruct (xml_read_tag_attributes_open cb fuel name st1 [] _ _ Hat1)
    as (st2 & -> & Hat2); [done | simpl; lia |].
  cbn [mbind result_bind]. destruct fuel as [| fuel]; [lia |].
  rewrite xml_read_tag_body_eq, (at_nil_eof _ _ Hat2). by exists st2.
Qed.

(** A tag whose opening tag is followed by white space and the end of the
    input. *)
Lemma xml_read_tag_unclosed_space fuel name (st : state) c ws u :
  at_ st (str "<" ++ name ++ str ">" ++ c :: ws) u -> valid_name name = true ->
  Forall (fun c => xml_is_space c = true) (c :: ws) ->
  (length name + length ws + 3 < fuel)%nat ->
  exists p, xml_read_tag cb fuel st = Fatal (PeekOutOfRange p p).
Proof.
  intros Hat Hname Hws Hfuel.
  destruct fuel as [| fuel]; [lia |].
  destruct (xml_read_tag_open cb fuel st name _ u Hat Hname)
    as (st1 & Hat1 & ->); [done | lia |].
  destruct (xml_read_tag_attributes_open cb fuel name st1 [] _ _ Hat1)
    as (st2 & -> & Hat2); [done | simpl; lia |].
  cbn [mbind result_bind]. destruct fuel as [| fuel]; [lia |].
  rewrite xml_read_tag_body_eq, (at_cons_eof _ _ _ _ Hat2).
  destruct (xml_eat_space_at fuel st2 (c :: ws) [] (begin_tag cb u name))
    as (st3 & -> & Hat3);
    [by rewrite app_nil_r | done | done | simpl; lia |].
  cbn [mbind result_bind]. exists (size st3).
  unfold and_then, peek_is. by rewrite (at_nil_peek0 _ _ Hat3).
Qed.

End Documents.

Lemma tag_with_text_witness :
  exists st',
    xml_read_tag event_log 16 (xml_state_init (str "<p>  hi you </p>") [])
    = Ok st' /\
    at_ st' [] [BeginTag (str "p"); Text (str "hi you "); EndTag (str "p")].
Proof.
  apply (tag_with_text event_log 16 (str "p") _ (str "  ") "h"%char
           (str "i you ") [] []).
  - apply at_init.
  - by repeat constructor.
  - reflexivity.
  - intros H. by repeat (apply elem_of_cons in H as [H | H]; [done |]);
      apply elem_of_nil in H.
  - reflexivity.
  - simpl. lia.
Defined.

Section Header.

Context {U : Type}.

Local Abbreviation state := (xml_state U).

Lemma xml_match_at (st : state) c rest u :
  at_ st (c :: rest) u ->
  exists st', xml_match st c = Ok st' /\ at_ st' rest u.
Proof.
  intros Hat. exists (xml_advance st).
  split; [by eapply at_match | by eapply at_advance].
Qed.

Lemma xml_read_header_loop_attrs attrs :
  forall fuel (st : state) ws tl u,
    at_ st (attributes_text attrs ++ str "?>" ++ ws ++ tl) u ->
    Forall attribute_ok attrs ->
    Forall (fun c => xml_is_space c = true) ws -> ahead xml_is_space tl ->
    (length (attributes_text attrs) + length ws + 2 < fuel)%nat ->
    exists st', xml_read_header_loop fuel st = Ok st' /\ at_ st' tl u.
Proof.
  induction attrs as [| [n v] attrs IH];
    intros fuel st ws tl u Hat Hok Hws Htl Hfuel.
  - simpl in Hat, Hfuel. destruct fuel as [| fuel]; [lia |].
    cbn [xml_read_header_loop]. rewrite (at_cons_eof _ _ _ _ Hat).
    rewrite (xml_eat_space_none fuel _ _ _ Hat); [| done | lia].
    cbn [mbind result_bind]. rewrite (at_peek0 _ _ _ _ Hat).
    cbn [mbind result_bind]. replace (xml_is_alpha "?") with false by done.
    unfold and_then.
    rewrite (at_peek_is _ "?"%char _ _ _ Hat). cbn [mbind result_bind].
    rewrite bool_decide_eq_true_2 by done.
    rewrite (at_peek_is1 _ ">"%char _ _ _ _ Hat). cbn [mbind result_bind].
    rewrite bool_decide_eq_true_2 by done.
    rewrite (at_match _ _ _ _ Hat). cbn [mbind result_bind].
    apply at_advance in Hat.
    rewrite (at_match _ _ _ _ Hat). cbn [mbind result_bind].
    apply at_advance in Hat.
    apply (xml_eat_space_at fuel _ ws _ _ Hat); [done .. | lia].
  - inversion Hok as [| ? ? [Hn Hv] Hok']; subst. simpl in Hn, Hv.
    destruct (valid_name_inv n Hn) as (c & n' & -> & Hc & Hn').
    unfold attributes_text in *. cbn [flat_map fst snd] in Hat, Hfuel.
    rewrite length_app in Hfuel.
    assert (length (attribute_text (c :: n') v)
            = (length n' + length v + 5)%nat) as Hlen
      by (unfold attribute_text; rewrite !length_app; simpl; lia).
    rewrite Hlen in Hfuel. clear Hlen.
    unfold attribute_text in Hat.
    repeat rewrite <- app_assoc in Hat. simpl in Hat.
    destruct fuel as [| fuel]; [lia |].
    cbn [xml_read_header_loop]. rewrite (at_cons_eof _ _ _ _ Hat).
    destruct (xml_eat_space_at fuel _ [" "%char] _ _ Hat)
      as (st1 & -> & Hat1);
      [by repeat constructor | simpl; by apply alpha_not_space
       | simpl; lia |].
    cbn [mbind result_bind]. rewrite (at_peek0 _ _ _ _ Hat1).
    cbn [mbind result_bind]. rewrite Hc.
    destruct (xml_read_name_at fuel st1 (c :: n') _ _ Hat1 Hn)
      as (st2 & -> & Hat2); [done | simpl; lia |].
    cbn [mbind result_bind].
    rewrite (xml_eat_space_none fuel _ _ _ Hat2); [| done | lia].
    cbn [mbind result_bind]. rewrite (at_match _ _ _ _ Hat2).
    cbn [mbind result_bind]. apply at_advance in Hat2.
    destruct (xml_parse_string_at fuel _ v _ _ Hat2 Hv)
      as (st3 & -> & Hat3); [lia |].
    cbn [mbind result_bind].
    apply (IH fuel st3 ws tl u); try done. lia.
Qed.

(** X5. On a header [<?xml], any number of attributes
    written as [ name="value"] (a valid name, a value without a double
    quote), [?>] and white space, [xml_read_header] returns with the cursor
    after that white space and with the user data it was given: the
    attributes of the header are read and no callback is called. *)
Theorem header_with_attributes fuel (st : state) attrs ws tl u :
  at_ st (str "<?xml" ++ attributes_text attrs ++ str "?>" ++ ws ++ tl) u ->
  Forall attribute_ok attrs ->
  Forall (fun c => xml_is_space c = true) ws -> ahead xml_is_space tl ->
  (length (attributes_text attrs) + length ws + 2 < fuel)%nat ->
  exists st', xml_read_header fuel st = Ok st' /\ at_ st' tl u.
Proof.
  intros Hat Hok Hws Htl Hfuel. unfold xml_read_header. simpl in Hat.
  do 5 (destruct (xml_match_at _ _ _ _ Hat) as (? & -> & Hat');
        cbn [mbind result_bind]; clear Hat; rename Hat' into Hat).
  by apply (xml_read_header_loop_attrs attrs fuel _ ws tl u).
Qed.

End Header.

Lemma header_with_attributes_witness :
  exists st',
    xml_read_header 40
      (xml_state_init
         (str "<?xml version=" ++ [DQUOTE] ++ str "1.0" ++ [DQUOTE]
          ++ str " encoding=" ++ [DQUOTE] ++ str "UTF-8" ++ [DQUOTE]
          ++ str "?>" ++ [LF] ++ str "<a/>") [])
    = Ok st' /\ at_ st' (str "<a/>") ([] : list event).
Proof.
  apply (header_with_attributes 40 _
           [(str "version", str "1.0"); (str "encoding", str "UTF-8")]
           [LF] (str "<a/>") []).
  - apply at_init.
  - repeat constructor; simpl;
      intros H; by repeat (apply elem_of_cons in H as [H | H]; [done |]);
        apply elem_of_nil in H.
  - by repeat constructor.
  - reflexivity.
  - simpl. lia.
Defined.

(** ** Edits of a tree *)

Section TreeEdits.

Import Dom.

(** The tree below an entity depends on the entities at its address and
    after it only. *)
Lemma snapshot_frame h h' :
  wf_store h ->
  forall n a,
    (forall x, (a <= x < length h)%nat -> h' !! x = h !! x) ->
    (a < length h)%nat ->
    snapshot n h' a = snapshot n h a.
Proof.
  intros (Hinv & Hord & _). induction n as [| n IH]; intros a Hframe Ha;
    [done |].
  cbn [snapshot]. rewrite (Hframe a) by lia.
  destruct (h !! a) as [e |] eqn:He; [| done]. simpl.
  assert (mapM (snapshot n h') (m_child e) = mapM (snapshot n h) (m_child e))
    as ->; [| done].
  assert (forall c, c ∈ m_child e -> (a < c < length h)%nat) as Hcs.
  { intros c Hc. split; [by eapply Hord |].
    apply list_elem_of_lookup_1 in Hc as [i Hi].
    destruct (Hinv a e i c He Hi) as (ec & Hec & _).
    by eapply lookup_lt_Some. }
  induction (m_child e) as [| c cs IHcs]; [done |].
  cbn [mapM]. rewrite IH.
  - rewrite IHcs; [done |]. intros x Hx. apply Hcs. by right.
  - intros x Hx. apply Hframe. specialize (Hcs c ltac:(left)). lia.
  - by apply Hcs; left.
Qed.

(** A new entity without children, added to [this]. *)
Lemma add_child_fresh_snapshot h e this h' n t :
  wf_store h -> m_child e = [] -> valid e = true ->
  add_child (h ++ [e]) this (length h) = Ok h' ->
  snapshot n h this = Some t ->
  snapshot (S n) h' this
  = Some (tree_snoc t (DomNode (m_type e) (m_name e) (m_value e) [])).
Proof.
  intros Hwf Hnil Hve Hadd Hsnap.
  destruct n as [| n]; [done |].
  apply snapshot_S_inv in Hsnap as (e0 & ts & He0 & Hts & ->).
  pose proof (lookup_lt_Some _ _ _ He0) as Hlt.
  pose proof Hwf as (Hinv & Hord & Hval).
  destruct (add_child_Ok _ _ _ _ Hadd)
    as (e1 & c & e' & c' & He1 & Hc & _ & He' & Hc' & Hlen & Hframe & Hch
        & Hty & Hnm & Hvl & Hsame & _ & _ & Htyc & Hnc & Hvc).
  rewrite lookup_app_l in He1 by done.
  assert (e1 = e0) as -> by congruence.
  rewrite lookup_last in Hc. injection Hc as <-.
  destruct (Hsame ltac:(lia)) as (_ & _ & Hcc).
  cbn [tree_snoc]. change (snapshot (S (S n)) h' this)
    with (e ← h' !! this;
          children ← mapM (snapshot (S n) h') (m_child e);
          Some (DomNode (m_type e) (m_name e) (m_value e) children)).
  rewrite He'. cbn [mbind option_bind]. rewrite Hty, Hnm, Hvl, Hch.
  assert (mapM (snapshot (S n) h') (m_child e0 ++ [length h])
          = Some (ts ++ [DomNode (m_type e) (m_name e) (m_value e) []]))
    as ->; [| done].
  apply mapM_Some. apply Forall2_app.
  - apply Forall2_same_length_lookup. split; [by eapply Forall2_length |].
    intros i x tx Hx Htx.
    pose proof (Forall2_lookup_lr _ _ _ _ _ _ Hts Hx Htx) as Hxt.
    cbv beta in Hxt.
    assert (this < x < length h)%nat as Hxr.
    { split; [eapply Hord; [exact He0 |]; by eapply list_elem_of_lookup_2 |].
      destruct (Hinv this e0 i x He0 Hx) as (ex & Hex & _).
      by eapply lookup_lt_Some. }
    rewrite (snapshot_frame h h' Hwf); [| | lia].
    + apply (snapshot_fuel n); [done | lia].
    + intros y Hy. rewrite Hframe by lia. by rewrite lookup_app_l by lia.
  - constructor; [| done]. cbn [snapshot]. rewrite Hc'. simpl.
    rewrite Hcc, Hnil. simpl. by rewrite Htyc, Hnc, Hvc.
Qed.

Lemma set_value_snapshot h this v h' n t :
  wf_store h -> set_value h this v = Ok h' ->
  snapshot n h this = Some t ->
  snapshot n h' this = Some (tree_with_value t v).
Proof.
  intros Hwf Hset Hsnap. destruct n as [| n]; [done |].
  apply snapshot_S_inv in Hsnap as (e0 & ts & He0 & Hts & ->).
  pose proof (lookup_lt_Some _ _ _ He0) as Hlt.
  pose proof Hwf as (Hinv & Hord & Hval).
  unfold set_value in Hset.
  apply bind_Ok in Hset as (e1 & He1%deref_Ok & Hset).
  apply bind_Ok in Hset as ([] & _ & [= <-]).
  assert (e1 = e0) as -> by congruence.
  cbn [snapshot tree_with_value].
  rewrite list_lookup_insert_eq by done. simpl.
  assert (mapM (snapshot n (<[this := with_value e0 v]> h)) (m_child e0)
          = Some ts) as ->; [| done].
  apply mapM_Some. apply Forall2_same_length_lookup.
  split; [by eapply Forall2_length |].
  intros i x tx Hx Htx.
  pose proof (Forall2_lookup_lr _ _ _ _ _ _ Hts Hx Htx) as Hxt.
  cbv beta in Hxt.
  assert (this < x < length h)%nat as Hxr.
  { split; [eapply Hord; [exact He0 |]; by eapply list_elem_of_lookup_2 |].
    destruct (Hinv this e0 i x He0 Hx) as (ex & Hex & _).
    by eapply lookup_lt_Some. }
  rewrite (snapshot_frame h _ Hwf); [done | | lia].
  intros y Hy. by rewrite list_lookup_insert_ne by lia.
Qed.

(** X6. In a well-formed store, on an entity whose tree is
    [t]: after [add_tag], [add_attribute] or [add_comment] the tree of the
    entity is [t] with one more child at the end, a leaf with the type,
    name and value of the call; after [set_value] it is [t] with the new
    value at its root.  The children that were there keep their order and
    their own trees. *)
Theorem edits_of_the_tree h this n t :
  wf_store h -> snapshot n h this = Some t ->
  (forall name a h',
     add_tag h this name = Ok (a, h') ->
     snapshot (S n) h' this
     = Some (tree_snoc t (DomNode XML_DOM_TAG name [] []))) /\
  (forall name value a h',
     add_attribute h this name value = Ok (a, h') ->
     snapshot (S n) h' this
     = Some (tree_snoc t (DomNode XML_DOM_ATTRIBUTE name value []))) /\
  (forall c a h',
     add_comment h this c = Ok (a, h') ->
     snapshot (S n) h' this
     = Some (tree_snoc t (DomNode XML_DOM_COMMENT [] c []))) /\
  (forall v h',
     set_value h this v = Ok h' ->
     snapshot n h' this = Some (tree_with_value t v)).
Proof.
  intros Hwf Hsnap. split; [| split; [| split]].
  - intros name a h' H. unfold add_tag in H.
    apply bind_Ok in H as (e & He%deref_Ok & H).
    apply bind_Ok in H as ([] & _ & H). cbn [new_entity] in H.
    rewrite fresh_set_type in H. cbn [mbind result_bind] in H.
    rewrite fresh_set_name in H by done. cbn [mbind result_bind] in H.
    apply bind_Ok in H as (h2 & Hadd & [= <- <-]).
    refine (add_child_fresh_snapshot h _ this h2 n t Hwf _ _ Hadd Hsnap);
      done.
  - intros name value a h' H. unfold add_attribute in H.
    apply bind_Ok in H as (e & He%deref_Ok & H).
    apply bind_Ok in H as ([] & _ & H). cbn [new_entity] in H.
    rewrite fresh_set_type in H. cbn [mbind result_bind] in H.
    rewrite fresh_set_name in H by done. cbn [mbind result_bind] in H.
    rewrite fresh_set_value in H by done. cbn [mbind result_bind] in H.
    apply bind_Ok in H as (h2 & Hadd & [= <- <-]).
    refine (add_child_fresh_snapshot h _ this h2 n t Hwf _ _ Hadd Hsnap);
      done.
  - intros c a h' H. unfold add_comment in H.
    apply bind_Ok in H as (e & He%deref_Ok & H).
    apply bind_Ok in H as ([] & _ & H). cbn [new_entity] in H.
    rewrite fresh_set_type in H. cbn [mbind result_bind] in H.
    rewrite fresh_set_value in H by done. cbn [mbind result_bind] in H.
    apply bind_Ok in H as (h2 & Hadd & [= <- <-]).
    refine (add_child_fresh_snapshot h _ this h2 n t Hwf _ _ Hadd Hsnap);
      done.
  - intros v h' H. by eapply set_value_snapshot.
Qed.

End TreeEdits.

(** ** The example program *)

Section ExampleScope.

Import ParseExample.

Lemma replay_scope evs :
  forall s s' u,
    open_tags s evs = Some s' -> scope u = Z.of_nat (length s) ->
    scope (replay callbacks evs u) = Z.of_nat (length s').
Proof.
  unfold replay.
  induction evs as [| ev evs IH]; intros s s' u Hopen Hu.
  { injection Hopen as <-. done. }
  destruct ev as [name | name | text | c | name value];
    cbn [open_tags fold_left deliver] in *.
  - apply (IH (name :: s)); [done |]. simpl. lia.
  - destruct s as [| top s]; [done |].
    destruct (string_eqb top name); [| done].
    apply (IH s); [done |]. simpl in *. lia.
  - by apply (IH s).
  - by apply (IH s).
  - by apply (IH s).
Qed.

(** X7. When [main] of the example program returns,
    its user data is the result of its callbacks applied, in order, to the
    events of the parse from the scope 0, and its scope is the number of
    tags that the input leaves open: 0 when every tag is closed, and never
    negative. *)
Theorem example_scope_counts_open_tags fuel buf u :
  main fuel buf = Ok u ->
  exists evs s,
    xml_events fuel buf = Ok evs /\ open_tags [] evs = Some s /\
    u = replay callbacks evs {| scope := 0; written := [] |} /\
    scope u = Z.of_nat (length s).
Proof.
  unfold main. cbn zeta. rewrite (xml_read_document_replay callbacks).
  pose proof (xml_events_open_tags fuel buf) as Hopen.
  unfold xml_events in *.
  destruct (xml_read_document event_log fuel (xml_state_init buf []))
    as [st | e | |]; cbn [result_map mbind result_bind]; try done.
  intros [= <-]. destruct (Hopen _ eq_refl) as [s Hs].
  exists (user_data st), s. split; [done |]. split; [done |].
  split; [done |]. by apply (replay_scope _ [] s).
Qed.

Lemma example_scope_counts_open_tags_witness :
  exists evs s,
    xml_events 6 (str "<a><b/>") = Ok evs /\ open_tags [] evs = Some s /\
    {| scope := 1;
       written := str "BEGIN TAG: a" ++ [LF] ++ str "  BEGIN TAG: b" ++ [LF]
                  ++ str "  END TAG: b" ++ [LF] |}
    = replay callbacks evs {| scope := 0; written := [] |} /\
    1 = Z.of_nat (length s).
Proof.
  apply (example_scope_counts_open_tags 6 (str "<a><b/>")
           {| scope := 1;
              written := str "BEGIN TAG: a" ++ [LF] ++ str "  BEGIN TAG: b"
                         ++ [LF] ++ str "  END TAG: b" ++ [LF] |}).
  vm_compute. reflexivity.
Defined.

End ExampleScope.

(** ** Adding, looking up, writing *)

Section Lookup.

Import Dom.

Lemma find_entity_app h P l1 l2 :
  find_entity h P (l1 ++ l2)
  = match find_entity h P l1 with
    | Some c => Some c
    | None => find_entity h P l2
    end.
Proof.
  unfold find_entity. induction l1 as [| c l1 IH]; [done |].
  simpl. by destruct (entity_test h P c).
Qed.

Lemma find_entity_ext h h' P l :
  (forall c, c ∈ l -> h' !! c = h !! c) ->
  find_entity h' P l = find_entity h P l.
Proof.
  unfold find_entity. induction l as [| c l IH]; intros Hl; [done |].
  simpl. unfold entity_test at 1 3. rewrite (Hl c) by left.
  rewrite IH; [done |]. intros x Hx. apply Hl. by right.
Qed.

(** X8. In a well-formed store, when an entity has no
    attribute named [name], after [add_attribute( name, value )] the
    search [first_child_attribute( name )] finds the new attribute; the new
    entity has the type, name and value given and the entity as its
    parent, and it is the last child: [num_children] is one more than
    before and [get_child] at the old count returns it. *)
Theorem add_attribute_then_lookup h this e name value a h' fuel :
  wf_store h -> h !! this = Some e ->
  add_attribute h this name value = Ok (a, h') ->
  (length (m_child e) + 1 < fuel)%nat ->
  first_child_attribute_name fuel h this name = Ok None ->
  first_child_attribute_name fuel h' this name = Ok (Some a) /\
  get_type h' a = Ok XML_DOM_ATTRIBUTE /\ get_name h' a = Ok name /\
  get_value h' a = Ok value /\ get_parent h' a = Ok (Some this) /\
  num_children h' this = Ok (Z.of_nat (length (m_child e)) + 1) /\
  get_child h' this (Z.of_nat (length (m_child e))) = Ok a.
Proof.
  intros Hwf He Hadd Hfuel Hnone.
  pose proof (add_attribute_wf _ _ _ _ _ _ Hwf Hadd) as Hwf'.
  destruct Hwf as (Hinv & Hord & Hval).
  destruct Hwf' as (Hinv' & Hord' & Hval').
  pose proof (Hval this e He) as Hv.
  unfold add_attribute in Hadd.
  apply bind_Ok in Hadd as (e0 & He0%deref_Ok & Hadd).
  assert (e0 = e) as -> by congruence.
  apply bind_Ok in Hadd as ([] & _ & Hadd). cbn [new_entity] in Hadd.
  rewrite fresh_set_type in Hadd. cbn [mbind result_bind] in Hadd.
  rewrite fresh_set_name in Hadd by done. cbn [mbind result_bind] in Hadd.
  rewrite fresh_set_value in Hadd by done. cbn [mbind result_bind] in Hadd.
  apply bind_Ok in Hadd as (h2 & Hadd & [= <- ->]).
  destruct (add_child_Ok _ _ _ _ Hadd)
    as (e1 & c & e' & c' & He1 & Hc & _ & He' & Hc' & Hlen & Hframe & Hch
        & Hty & _ & _ & _ & Hcp & Hci & Htyc & Hnc & Hvc).
  pose proof (lookup_lt_Some _ _ _ He) as Hlt.
  rewrite lookup_app_l in He1 by done.
  assert (e1 = e) as -> by congruence.
  rewrite lookup_last in Hc. injection Hc as <-. simpl in Htyc, Hnc, Hvc.
  assert (valid e' = true) as Hv' by (by eapply Hval').
  assert (valid c' = true) as Hvc' by (by eapply Hval').
  (* the lookup before the call found nothing *)
  destruct (first_child_type_spec h this e XML_DOM_ATTRIBUTE name fuel
              Hinv He Hv) as [_ Hfind]; [lia |].
  unfold first_child_attribute_name in *. rewrite Hfind in Hnone.
  injection Hnone as Hnone.
  (* the lookup after the call *)
  split.
  { destruct (first_child_type_spec h' this e' XML_DOM_ATTRIBUTE name fuel
                Hinv' He' Hv') as [_ ->].
    { rewrite Hch, length_app. simpl. lia. }
    f_equal. rewrite Hch, find_entity_app.
    rewrite (find_entity_ext h h').
    - rewrite Hnone. unfold find_entity. cbn [find]. unfold entity_test.
      rewrite Hc'. unfold of_type_name, type_name_match.
      rewrite Htyc, Hnc, bool_decide_eq_true_2 by done.
      by rewrite string_eqb_refl.
    - intros x Hx. pose proof (Hord this e x He Hx) as Hgt.
      apply list_elem_of_lookup_1 in Hx as [i Hi].
      destruct (Hinv this e i x He Hi) as (ex & Hex & _).
      pose proof (lookup_lt_Some _ _ _ Hex) as Hltx.
      rewrite Hframe by lia. by rewrite lookup_app_l. }
  unfold get_type, get_name, get_value, get_parent, deref. rewrite Hc'.
  cbn [mbind result_bind]. rewrite Hvc'. cbn [assert mbind result_bind].
  rewrite Htyc, Hnc, Hvc, Hcp. do 4 (split; [done |]).
  rewrite (num_children_Ok h' this e' He' Hv'), Hch, length_app.
  split; [simpl; f_equal; lia |].
  apply (get_child_Ok h' this e' (length (m_child e)) (length h) He' Hv').
  rewrite Hch. by apply list_lookup_middle.
Qed.

Lemma add_attribute_then_lookup_witness :
  exists h',
    add_attribute sample_store 4 (str "k") (str "v") = Ok (6%nat, h') /\
    first_child_attribute_name 3 h' 4 (str "k") = Ok (Some 6%nat) /\
    get_type h' 6 = Ok XML_DOM_ATTRIBUTE /\ get_name h' 6 = Ok (str "k") /\
    get_value h' 6 = Ok (str "v") /\ get_parent h' 6 = Ok (Some 4%nat) /\
    num_children h' 4 = Ok 1 /\ get_child h' 4 0 = Ok 6%nat.
Proof.
  eexists. split; [vm_compute; reflexivity |].
  eapply (add_attribute_then_lookup sample_store 4 _ (str "k") (str "v")
            6%nat _ 3%nat (build_tree_wf sample_steps _ eq_refl) eq_refl).
  - vm_compute. reflexivity.
  - simpl. lia.
  - vm_compute. reflexivity.
Defined.

(** X9. In a store whose links are consistent, for the child
    [c] at position [i] of a valid entity: [num_children] is the length of
    the list of children, [first_child] its first element, [get_child( i )]
    is [c], and [next_child( c )] and [next_sibling] of [c] are the child
    at position [i + 1], NULL after the last child.  [get_child] with an
    index that is negative or not below [num_children] stops at its
    assertion. *)
Theorem child_navigation h p ep i c :
  children_inv h -> h !! p = Some ep -> valid ep = true ->
  m_child ep !! i = Some c ->
  num_children h p = Ok (Z.of_nat (length (m_child ep))) /\
  first_child h p = Ok (m_child ep !! 0%nat) /\
  get_child h p (Z.of_nat i) = Ok c /\
  next_child h p c = Ok (m_child ep !! S i) /\
  next_sibling h c = Ok (m_child ep !! S i) /\
  (forall index : Z,
     index < 0 \/ Z.of_nat (length (m_child ep)) <= index ->
     get_child h p index = Aborted).
Proof.
  intros Hinv Hp Hv Hc.
  destruct (Hinv p ep i c Hp Hc) as (ec & Hec & Hpar & Hidx).
  assert (child_at h p i c) as Hat by (by exists ep, ec).
  split; [by apply num_children_Ok |].
  split; [by rewrite (first_child_Ok h p ep Hp Hv), head_lookup |].
  split; [by eapply get_child_Ok |].
  split; [by apply next_child_at |].
  split.
  { unfold next_sibling, deref. rewrite Hec. cbn [mbind result_bind].
    rewrite Hpar. by apply next_child_at. }
  intros index Hout. unfold get_child.
  rewrite (num_children_Ok h p ep Hp Hv). unfold deref. rewrite Hp.
  cbn [mbind result_bind]. rewrite Hv. cbn [assert mbind result_bind].
  replace ((0 <=? index) && (index <? Z.of_nat (length (m_child ep))))
    with false; [done |].
  symmetry. apply andb_false_iff. lia.
Qed.

Lemma child_navigation_witness :
  num_children sample_store 1 = Ok 4 /\
  first_child sample_store 1 = Ok (Some 2%nat) /\
  get_child sample_store 1 (Z.of_nat 3) = Ok 5%nat /\
  next_child sample_store 1 5 = Ok None /\
  next_sibling sample_store 5 = Ok None /\
  (forall index : Z,
     index < 0 \/ 4 <= index -> get_child sample_store 1 index = Aborted).
Proof.
  apply (child_navigation sample_store 1 _ 3%nat 5%nat
           (children_invb_true sample_store eq_refl) eq_refl eq_refl eq_refl).
Defined.

(** X10. In a store whose links are consistent, for the
    child [c] at position [i] of a valid entity, [previous_child( c )] and
    [previous_sibling] of [c] return NULL when [c] is the last child
    (also when it is not the first one), the child at position [i - 1]
    when [c] is neither the first nor the last child, and stop at the
    assertion of [get_child] when [c] is the first of several children. *)
Theorem previous_child_positions h p ep i c :
  children_inv h -> h !! p = Some ep -> valid ep = true ->
  m_child ep !! i = Some c ->
  let answer : result entity_ptr :=
    if (S i <? length (m_child ep))%nat
    then match i with
         | O => Aborted
         | S j => Ok (m_child ep !! j)
         end
    else Ok None in
  previous_child h p c = answer /\ previous_sibling h c = answer.
Proof.
  intros Hinv Hp Hv Hc answer.
  destruct (Hinv p ep i c Hp Hc) as (ec & Hec & Hpar & Hidx).
  assert (previous_child h p c = answer) as Hprev.
  { rewrite (previous_child_at h p i c ep); [| by exists ep, ec | done].
    subst answer. cbv beta.
    destruct (S i <? length (m_child ep))%nat; [| done].
    destruct i as [| j]; [done |].
    destruct (m_child ep !! j) as [d |] eqn:Hd; [done |].
    apply lookup_ge_None in Hd. apply lookup_lt_Some in Hc. lia. }
  split; [done |].
  unfold previous_sibling, deref. rewrite Hec. cbn [mbind result_bind].
  by rewrite Hpar.
Qed.

Lemma previous_child_positions_witness :
  previous_child sample_store 1 4 = Ok (Some 3%nat) /\
  previous_sibling sample_store 4 = Ok (Some 3%nat).
Proof.
  apply (previous_child_positions sample_store 1 _ 2%nat 4%nat
           (children_invb_true sample_store eq_refl) eq_refl eq_refl eq_refl).
Defined.

End Lookup.

Section ParseThenWrite.

Import Dom.

(** X11. Every entity of a well-formed store has a tree with
    no [XML_DOM_INVALID] entity, [print] on it writes the listing of that
    tree, and [operator<<] on it writes the text of that tree, or raises
    the error CannotStreamAttribute when the entity is an attribute. *)
Theorem written_and_printed h :
  wf_store h ->
  forall a e, h !! a = Some e ->
    exists t,
      snapshot (length h) h a = Some t /\ tree_valid t = true /\
      tree_type t = m_type e /\
      (forall fuel scope, (tree_fuel t <= fuel)%nat ->
         print fuel h a scope = Ok (print_tree scope t)) /\
      (forall fuel, (tree_fuel t <= fuel)%nat ->
         operator_out fuel h a
         = if bool_decide (m_type e = XML_DOM_ATTRIBUTE)
           then Fatal CannotStreamAttribute else Ok (render t)).
Proof.
  intros Hwf a e He. pose proof (lookup_lt_Some _ _ _ He) as Hlt.
  destruct (wf_store_snapshot h Hwf (length h) a) as (t & Hsnap & Hvalid);
    [lia | done |].
  destruct (snapshot_fields _ _ _ _ Hsnap) as (e' & He' & Ht & _).
  assert (e' = e) as -> by congruence.
  exists t. split; [done |]. split; [done |]. split; [done |].
  destruct Hwf as (Hinv & _). split.
  - intros fuel scope Hfuel. by eapply print_print_tree.
  - intros fuel Hfuel. case_bool_decide as Hattr.
    + destruct fuel as [| fuel]; [destruct t; simpl in Hfuel; lia |].
      rewrite operator_out_eq. unfold get_type, deref. rewrite He.
      cbn [mbind result_bind]. by rewrite bool_decide_eq_true_2.
    + eapply operator_out_render; [done .. | | done].
      apply tree_valid_streamable; [done | congruence].
Qed.

Lemma written_and_printed_witness :
  exists t,
    snapshot (length sample_store) sample_store 4 = Some t /\
    tree_valid t = true /\ tree_type t = XML_DOM_TAG /\
    (forall fuel scope, (tree_fuel t <= fuel)%nat ->
       print fuel sample_store 4 scope = Ok (print_tree scope t)) /\
    (forall fuel, (tree_fuel t <= fuel)%nat ->
       operator_out fuel sample_store 4 = Ok (render t)).
Proof.
  apply (written_and_printed sample_store
           (build_tree_wf sample_steps sample_store eq_refl) 4%nat _ eq_refl).
Defined.

(** X12. The document that [xml_dom_parse] returns for
    an empty store can always be written and printed: it has a tree with
    no [XML_DOM_INVALID] entity, [operator<<] writes the text of that tree
    and [print] its listing, without an error and without stopping at an
    assertion. *)
Theorem parsed_document_is_written fuel buf doc h :
  xml_dom_parse fuel [] buf = Ok (doc, h) ->
  exists t,
    snapshot (length h) h doc = Some t /\
    tree_type t = XML_DOM_DOCUMENT /\ tree_valid t = true /\
    forall fuel', (tree_fuel t <= fuel')%nat ->
      operator_out fuel' h doc = Ok (render t) /\
      print fuel' h doc 0 = Ok (print_tree 0 t).
Proof.
  intros Hparse.
  pose proof (xml_dom_parse_wf fuel [] buf wf_store_nil)
    as Hsafe.
  assert (exists e, wf_store h /\ h !! doc = Some e /\
            m_type e = XML_DOM_DOCUMENT) as (e & Hwf & He & Hdoc).
  { destruct (xml_events fuel buf) as [evs | err | |]; try congruence;
      [| done].
    destruct Hsafe as (h' & s & Hp & Hwf & _ & (e & He & Ht) & _).
    rewrite Hp in Hparse. injection Hparse as <- <-. by exists e. }
  pose proof (lookup_lt_Some _ _ _ He) as Hlt.
  destruct (wf_store_snapshot h Hwf (length h) doc) as (t & Hsnap & Hvalid);
    [lia | done |].
  destruct (snapshot_fields _ _ _ _ Hsnap) as (e' & He' & Ht & _).
  assert (e' = e) as -> by congruence.
  exists t. split; [done |]. split; [congruence |]. split; [done |].
  intros fuel' Hfuel. destruct Hwf as (Hinv & _). split.
  - eapply operator_out_render; [done .. | | done].
    apply tree_valid_streamable; [done | congruence].
  - by eapply print_print_tree.
Qed.

End ParseThenWrite.

(** ** The navigation methods that take a type *)

Section NavigationTheorems.

Import Dom.

(** X13. In a store whose links are consistent,
    [first_child( type )] returns the first child of that type, in the order
    of the parent's list, and [first_child( type, name )] the first child
    of that type and name; both return NULL when no child matches, and so
    when there is no child.  [first_child_tag], [first_child_attribute],
    [first_child_comment] and their variants with a name are these searches
    for the three types. *)
Theorem first_child_by_type h p ep type name fuel :
  children_inv h -> h !! p = Some ep -> valid ep = true ->
  (length (m_child ep) < fuel)%nat ->
  let found P := Ok (find_entity h P (m_child ep)) in
  first_child_type fuel h p type = found (of_type type) /\
  first_child_type_name fuel h p type name = found (of_type_name type name) /\
  first_child_tag fuel h p = found (of_type XML_DOM_TAG) /\
  first_child_attribute fuel h p = found (of_type XML_DOM_ATTRIBUTE) /\
  first_child_comment fuel h p = found (of_type XML_DOM_COMMENT) /\
  first_child_tag_name fuel h p name
    = found (of_type_name XML_DOM_TAG name) /\
  first_child_attribute_name fuel h p name
    = found (of_type_name XML_DOM_ATTRIBUTE name) /\
  first_child_comment_name fuel h p name
    = found (of_type_name XML_DOM_COMMENT name).
Proof.
  intros Hinv Hp Hv Hfuel found.
  pose proof (fun type =>
    first_child_type_spec h p ep type name fuel Hinv Hp Hv Hfuel) as H.
  destruct (H type) as [H1 H2].
  destruct (H XML_DOM_TAG) as [Ht1 Ht2].
  destruct (H XML_DOM_ATTRIBUTE) as [Ha1 Ha2].
  destruct (H XML_DOM_COMMENT) as [Hc1 Hc2].
  by repeat split.
Qed.

(** X14. In a store whose links are consistent, from the child
    at position [i] of a parent, [next_child( child, type )] and
    [next_sibling( type )] return the first later child of that type, and
    the variants with a name the first later child of that type and name;
    they return NULL when no later child matches.  The methods named after
    a type are these searches for that type. *)
Theorem next_child_by_type h p ep i c type name fuel :
  children_inv h -> h !! p = Some ep -> valid ep = true ->
  m_child ep !! i = Some c -> (length (m_child ep) - i <= fuel)%nat ->
  let found P := Ok (find_entity h P (drop (S i) (m_child ep))) in
  next_child_type fuel h p c type = found (of_type type) /\
  next_sibling_type fuel h c type = found (of_type type) /\
  next_child_type_name fuel h p c type name
    = found (of_type_name type name) /\
  next_sibling_type_name fuel h c type name
    = found (of_type_name type name) /\
  next_child_tag fuel h p c = found (of_type XML_DOM_TAG) /\
  next_child_attribute fuel h p c = found (of_type XML_DOM_ATTRIBUTE) /\
  next_child_comment fuel h p c = found (of_type XML_DOM_COMMENT) /\
  next_sibling_tag fuel h c = found (of_type XML_DOM_TAG) /\
  next_sibling_attribute fuel h c = found (of_type XML_DOM_ATTRIBUTE) /\
  next_sibling_comment fuel h c = found (of_type XML_DOM_COMMENT) /\
  next_child_tag_name fuel h p c name
    = found (of_type_name XML_DOM_TAG name) /\
  next_child_attribute_name fuel h p c name
    = found (of_type_name XML_DOM_ATTRIBUTE name) /\
  next_sibling_tag_name fuel h c name
    = found (of_type_name XML_DOM_TAG name) /\
  next_sibling_attribute_name fuel h c name
    = found (of_type_name XML_DOM_ATTRIBUTE name).
Proof.
  intros Hinv Hp Hv Hc Hfuel found.
  pose proof (fun type =>
    next_child_type_spec h p ep i c type name fuel Hinv Hp Hv Hc Hfuel) as H.
  cbv zeta in H.
  destruct (H type) as (H1 & H2 & H3 & H4).
  destruct (H XML_DOM_TAG) as (Ht1 & Ht2 & Ht3 & Ht4).
  destruct (H XML_DOM_ATTRIBUTE) as (Ha1 & Ha2 & Ha3 & Ha4).
  destruct (H XML_DOM_COMMENT) as (Hc1 & Hc2 & Hc3 & Hc4).
  by repeat split.
Qed.

(** X15. In a store whose links are consistent, from the
    child at position [i] of a parent, [previous_child( child, type )],
    [previous_sibling( type )] and their variants with a name return NULL
    when the child is the last one.  From any other child they return the
    nearest earlier child that matches, and when no earlier child matches
    they stop at an assertion: a search that walks back past the first
    child asks for the child before it. *)
Theorem previous_child_by_type h p ep i c type name fuel :
  children_inv h -> h !! p = Some ep -> valid ep = true ->
  m_child ep !! i = Some c -> (i < fuel)%nat ->
  let found (P : xml_dom_entity -> bool) : result entity_ptr :=
    if (S i <? length (m_child ep))%nat
    then match find_entity h P (reverse (take i (m_child ep))) with
         | Some d => Ok (Some d)
         | None => Aborted
         end
    else Ok None in
  previous_child_type fuel h p c type = found (of_type type) /\
  previous_sibling_type fuel h c type = found (of_type type) /\
  previous_child_type_name fuel h p c type name
    = found (of_type_name type name) /\
  previous_sibling_type_name fuel h c type name
    = found (of_type_name type name) /\
  previous_child_tag fuel h p c = found (of_type XML_DOM_TAG) /\
  previous_child_attribute fuel h p c = found (of_type XML_DOM_ATTRIBUTE) /\
  previous_child_comment fuel h p c = found (of_type XML_DOM_COMMENT) /\
  previous_sibling_tag fuel h c = found (of_type XML_DOM_TAG) /\
  previous_sibling_attribute fuel h c = found (of_type XML_DOM_ATTRIBUTE) /\
  previous_sibling_comment fuel h c = found (of_type XML_DOM_COMMENT) /\
  previous_child_tag_name fuel h p c name
    = found (of_type_name XML_DOM_TAG name) /\
  previous_child_attribute_name fuel h p c name
    = found (of_type_name XML_DOM_ATTRIBUTE name) /\
  previous_sibling_tag_name fuel h c name
    = found (of_type_name XML_DOM_TAG name) /\
  previous_sibling_attribute_name fuel h c name
    = found (of_type_name XML_DOM_ATTRIBUTE name).
Proof.
  intros Hinv Hp Hv Hc Hfuel found.
  pose proof (fun type =>
    previous_child_type_spec h p ep i c type name fuel Hinv Hp Hv Hc Hfuel)
    as H.
  cbv zeta in H.
  destruct (H type) as (H1 & H2 & H3 & H4).
  destruct (H XML_DOM_TAG) as (Ht1 & Ht2 & Ht3 & Ht4).
  destruct (H XML_DOM_ATTRIBUTE) as (Ha1 & Ha2 & Ha3 & Ha4).
  destruct (H XML_DOM_COMMENT) as (Hc1 & Hc2 & Hc3 & Hc4).
  by repeat split.
Qed.

End NavigationTheorems.

Lemma first_child_by_type_witness :
  Dom.first_child_type 5 sample_store 1 XML_DOM_TAG = Ok (Some 4%nat) /\
  Dom.first_child_type_name 5 sample_store 1 XML_DOM_TAG (str "last")
  = Ok (Some 5%nat) /\
  Dom.first_child_tag 5 sample_store 1 = Ok (Some 4%nat) /\
  Dom.first_child_attribute 5 sample_store 1 = Ok (Some 2%nat) /\
  Dom.first_child_comment 5 sample_store 1 = Ok (Some 3%nat) /\
  Dom.first_child_tag_name 5 sample_store 1 (str "last") = Ok (Some 5%nat) /\
  Dom.first_child_attribute_name 5 sample_store 1 (str "last") = Ok None /\
  Dom.first_child_comment_name 5 sample_store 1 (str "last") = Ok None.
Proof.
  apply (first_child_by_type sample_store 1 _ XML_DOM_TAG (str "last") 5
           (children_invb_true sample_store eq_refl) eq_refl eq_refl).
  simpl. lia.
Defined.

Lemma next_child_by_type_witness :
  Dom.next_child_type 3 sample_store 1 3 XML_DOM_TAG = Ok (Some 4%nat) /\
  Dom.next_sibling_type 3 sample_store 3 XML_DOM_TAG = Ok (Some 4%nat) /\
  Dom.next_child_type_name 3 sample_store 1 3 XML_DOM_TAG (str "last")
  = Ok (Some 5%nat) /\
  Dom.next_sibling_type_name 3 sample_store 3 XML_DOM_TAG (str "last")
  = Ok (Some 5%nat) /\
  Dom.next_child_tag 3 sample_store 1 3 = Ok (Some 4%nat) /\
  Dom.next_child_attribute 3 sample_store 1 3 = Ok None /\
  Dom.next_child_comment 3 sample_store 1 3 = Ok None /\
  Dom.next_sibling_tag 3 sample_store 3 = Ok (Some 4%nat) /\
  Dom.next_sibling_attribute 3 sample_store 3 = Ok None /\
  Dom.next_sibling_comment 3 sample_store 3 = Ok None /\
  Dom.next_child_tag_name 3 sample_store 1 3 (str "last") = Ok (Some 5%nat) /\
  Dom.next_child_attribute_name 3 sample_store 1 3 (str "last") = Ok None /\
  Dom.next_sibling_tag_name 3 sample_store 3 (str "last") = Ok (Some 5%nat) /\
  Dom.next_sibling_attribute_name 3 sample_store 3 (str "last") = Ok None.
Proof.
  apply (next_child_by_type sample_store 1 _ 1 3 XML_DOM_TAG (str "last") 3
           (children_invb_true sample_store eq_refl) eq_refl eq_refl eq_refl).
  simpl. lia.
Defined.

Lemma previous_child_by_type_witness :
  Dom.previous_child_type 3 sample_store 1 4 XML_DOM_TAG = Aborted /\
  Dom.previous_sibling_type 3 sample_store 4 XML_DOM_TAG = Aborted /\
  Dom.previous_child_type_name 3 sample_store 1 4 XML_DOM_TAG (str "id")
  = Aborted /\
  Dom.previous_sibling_type_name 3 sample_store 4 XML_DOM_TAG (str "id")
  = Aborted /\
  Dom.previous_child_tag 3 sample_store 1 4 = Aborted /\
  Dom.previous_child_attribute 3 sample_store 1 4 = Ok (Some 2%nat) /\
  Dom.previous_child_comment 3 sample_store 1 4 = Ok (Some 3%nat) /\
  Dom.previous_sibling_tag 3 sample_store 4 = Aborted /\
  Dom.previous_sibling_attribute 3 sample_store 4 = Ok (Some 2%nat) /\
  Dom.previous_sibling_comment 3 sample_store 4 = Ok (Some 3%nat) /\
  Dom.previous_child_tag_name 3 sample_store 1 4 (str "id") = Aborted /\
  Dom.previous_child_attribute_name 3 sample_store 1 4 (str "id")
  = Ok (Some 2%nat) /\
  Dom.previous_sibling_tag_name 3 sample_store 4 (str "id") = Aborted /\
  Dom.previous_sibling_attribute_name 3 sample_store 4 (str "id")
  = Ok (Some 2%nat).
Proof.
  apply (previous_child_by_type sample_store 1 _ 2 4 XML_DOM_TAG (str "id") 3
           (children_invb_true sample_store eq_refl) eq_refl eq_refl eq_refl).
  lia.
Defined.

(** ** Writing and printing a tree *)

(** X16. In a store whose links are consistent,
    [operator<<] on an entity whose tree is [t] writes [render t], when
    [t] has no [XML_DOM_INVALID] entity and no attribute outside the
    list of children of a tag or of the document: the header and the
    children for a document, [<!--value-->] for a comment, and for a tag
    its name, its attributes in order, then [/>] when it has no tag among
    its children and an empty value, otherwise its value, its tags and
    comments in order and the closing tag. *)
Theorem operator_out_writes_render h a n t fuel :
  children_inv h -> snapshot n h a = Some t -> streamable t = true ->
  (tree_fuel t <= fuel)%nat ->
  Dom.operator_out fuel h a = Ok (render t).
Proof. intros Hinv. by apply operator_out_render. Qed.

Lemma operator_out_writes_render_witness :
  Dom.operator_out (tree_fuel sample_tree) sample_store 0
  = Ok (render sample_tree).
Proof.
  apply (operator_out_writes_render sample_store 0 4 sample_tree
           (tree_fuel sample_tree)
           (children_invb_true sample_store eq_refl) eq_refl eq_refl).
  apply le_n.
Defined.

(** X17. In a store whose links are consistent, [print]
    on an entity whose tree is [t], with no [XML_DOM_INVALID] entity in
    it, writes one line per entity of [t], parents before children and
    children in order, each line indented by two spaces per level below
    [scope]; the line of an attribute holds its name and value, that of a
    comment its value, that of a tag its name only, and a name or value is
    written up to its first NUL. *)
Theorem print_writes_print_tree h a n t fuel scope :
  children_inv h -> snapshot n h a = Some t -> tree_valid t = true ->
  (tree_fuel t <= fuel)%nat ->
  Dom.print fuel h a scope = Ok (print_tree scope t).
Proof. intros Hinv. by apply print_print_tree. Qed.

Lemma print_writes_print_tree_witness :
  Dom.print (tree_fuel sample_tree) sample_store 0 0
  = Ok (print_tree 0 sample_tree).
Proof.
  apply (print_writes_print_tree sample_store 0 4 sample_tree
           (tree_fuel sample_tree) 0
           (children_invb_true sample_store eq_refl) eq_refl eq_refl).
  apply le_n.
Defined.

(** ** Stores built with the methods of an entity *)

(** X18. The methods that build a tree keep the
    store well formed: after [add_tag], [add_attribute], [add_comment],
    [set_value] or [set_name] on a well-formed store, the links between
    parents and children still agree, every child is at a later address
    than its parent, and no entity has the type [XML_DOM_INVALID].  The
    empty store is well formed, and so is a store built from a new document
    by any sequence of these calls that returns. *)
Theorem construction_keeps_well_formed h :
  wf_store h ->
  (forall this name a h',
     Dom.add_tag h this name = Ok (a, h') -> wf_store h') /\
  (forall this name value a h',
     Dom.add_attribute h this name value = Ok (a, h') -> wf_store h') /\
  (forall this c a h',
     Dom.add_comment h this c = Ok (a, h') -> wf_store h') /\
  (forall this v h', Dom.set_value h this v = Ok h' -> wf_store h') /\
  (forall this n h', Dom.set_name h this n = Ok h' -> wf_store h') /\
  (forall steps h', run_steps h steps = Ok h' -> wf_store h') /\
  (forall steps h', build_tree steps = Ok h' -> wf_store h').
Proof.
  intros Hwf. refine (conj _ (conj _ (conj _ (conj _ (conj _ (conj _ _)))))).
  - intros this name a h'. by apply add_tag_wf.
  - intros this name value a h'. by apply add_attribute_wf.
  - intros this c a h'. by apply add_comment_wf.
  - intros this v h'. by apply set_value_wf.
  - intros this n h'. by apply set_name_wf.
  - intros steps h'. by apply run_steps_wf.
  - intros steps h'. by apply build_tree_wf.
Qed.

Lemma construction_keeps_well_formed_witness :
  exists h',
    Dom.add_attribute sample_store 4 (str "k") (str "v") = Ok (6%nat, h') /\
    wf_store h'.
Proof.
  eassert (Dom.add_attribute sample_store 4 (str "k") (str "v")
           = Ok (6%nat, _)) as Hadd by (vm_compute; reflexivity).
  eexists. split; [exact Hadd |].
  destruct (construction_keeps_well_formed sample_store
              (build_tree_wf sample_steps sample_store eq_refl))
    as (_ & H & _).
  exact (H _ _ _ _ _ Hadd).
Defined.

Lemma edits_of_the_tree_witness :
  exists h',
    Dom.add_tag sample_store 4 (str "x") = Ok (6%nat, h') /\
    snapshot 2 h' 4
    = Some (DomNode XML_DOM_TAG (str "item") (str "text")
              [DomNode XML_DOM_TAG (str "x") [] []]).
Proof.
  eassert (Dom.add_tag sample_store 4 (str "x") = Ok (6%nat, _)) as Hadd
    by (vm_compute; reflexivity).
  eexists. split; [exact Hadd |].
  destruct (edits_of_the_tree sample_store 4 1 _
              (build_tree_wf sample_steps sample_store eq_refl) eq_refl)
    as (H & _).
  exact (H _ _ _ Hadd).
Defined.

(** ** The parser and its callbacks *)

(** X20. [xml_dom_parse] on a well-formed store never
    stops at an assertion.  It raises the error of the parser when the
    parser raises one; when the parser returns, it returns a new document
    at the first free address of a well-formed store in which the entities
    of the old store have kept their types, and the stack of the builder
    holds the document and one entity for each tag that the input leaves
    open. *)
Theorem xml_dom_parse_follows_events fuel h buf :
  wf_store h ->
  match xml_events fuel buf with
  | Ok evs =>
      exists h' s,
        Dom.xml_dom_parse fuel h buf = Ok (length h, h') /\
        wf_store h' /\ types_kept h h' /\
        (exists e, h' !! length h = Some e /\ m_type e = XML_DOM_DOCUMENT) /\
        open_tags [] evs = Some s /\
        exists stack,
          Dom.xml_dom_build fuel h buf = Ok (h', length h :: stack) /\
          length stack = length s
  | Fatal e => Dom.xml_dom_parse fuel h buf = Fatal e
  | OutOfFuel => Dom.xml_dom_parse fuel h buf = OutOfFuel
  | Aborted => False
  end.
Proof. apply xml_dom_parse_wf. Qed.

Lemma xml_dom_parse_follows_events_witness :
  exists h' s,
    Dom.xml_dom_parse 6 sample_store (str "<a><b>") = Ok (6%nat, h') /\
    wf_store h' /\ types_kept sample_store h' /\
    (exists e, h' !! 6%nat = Some e /\ m_type e = XML_DOM_DOCUMENT) /\
    open_tags [] [BeginTag (str "a"); BeginTag (str "b")] = Some s /\
    exists stack,
      Dom.xml_dom_build 6 sample_store (str "<a><b>")
      = Ok (h', 6%nat :: stack) /\
      length stack = length s.
Proof.
  apply (xml_dom_parse_follows_events 6 sample_store (str "<a><b>")
           (build_tree_wf sample_steps sample_store eq_refl)).
Defined.

Lemma parsed_document_is_written_witness :
  exists h t,
    Dom.xml_dom_parse 6 [] doc_attributes = Ok (0%nat, h) /\
    snapshot (length h) h 0 = Some t /\
    tree_type t = XML_DOM_DOCUMENT /\ tree_valid t = true /\
    forall fuel', (tree_fuel t <= fuel')%nat ->
      Dom.operator_out fuel' h 0 = Ok (render t) /\
      Dom.print fuel' h 0 0 = Ok (print_tree 0 t).
Proof.
  eassert (Dom.xml_dom_parse 6 [] doc_attributes = Ok (0%nat, _)) as Hparse
    by (vm_compute; reflexivity).
  destruct (parsed_document_is_written _ _ _ _ Hparse) as (t & Ht).
  eexists _, t. split; [exact Hparse | exact Ht].
Defined.

(** X21. A parse that returns has read the whole
    buffer: its cursor is at the end of the buffer it was given, its line
    number is the number of line feeds in the buffer, and its column number
    is the number of characters after the last line feed. *)
Theorem parse_ends_at_end_of_buffer {U} (cb : xml_callbacks U) fuel buf u st' :
  xml_read_document cb fuel (xml_state_init buf u) = Ok st' ->
  buffer st' = buf /\ pos st' = Z.of_nat (length buf) /\
  (line_number st', column_number st') = position_after buf.
Proof.
  intros H.
  pose proof (xml_read_document_safe cb buf fuel (xml_state_init buf u)
                (cursor_inv_init buf u)) as Hs.
  rewrite H in Hs. destruct Hs as ((Hbuf & Hpos & Hlc) & Heof).
  unfold xml_eof in Heof. apply Z.eqb_eq in Heof. unfold size in Heof.
  rewrite Hbuf in Heof. split; [done |]. split; [done |].
  rewrite Hlc, Heof, Nat2Z.id. by rewrite firstn_all.
Qed.

Lemma parse_ends_at_end_of_buffer_witness :
  exists st',
    xml_read_document event_log 8
      (xml_state_init (str "<a>" ++ [LF] ++ str "</a>" ++ [LF] ++ str "  ") [])
    = Ok st' /\
    pos st' = 11 /\ (line_number st', column_number st') = (2, 2).
Proof.
  eassert (xml_read_document event_log 8
             (xml_state_init
                (str "<a>" ++ [LF] ++ str "</a>" ++ [LF] ++ str "  ") [])
           = Ok _) as Hrun by (vm_compute; reflexivity).
  eexists. split; [exact Hrun |].
  destruct (parse_ends_at_end_of_buffer _ _ _ _ _ Hrun) as (_ & Hpos & Hlc).
  split; [exact Hpos | exact Hlc].
Defined.

(** X22. At every point of a parse that returns, the events
    delivered so far are nested: each EndTag event has the name of the last
    BeginTag event that is still open, and so there are never more EndTag
    events than BeginTag events.  Tags may be left open at the end. *)
Theorem delivered_events_nest fuel buf evs1 evs2 :
  xml_events fuel buf = Ok (evs1 ++ evs2) ->
  (exists s, open_tags [] evs1 = Some s) /\
  (count_end evs1 <= count_begin evs1)%nat.
Proof. apply xml_events_nested. Qed.

Lemma delivered_events_nest_witness :
  (exists s, open_tags [] [BeginTag (str "a"); BeginTag (str "b");
                           EndTag (str "b")] = Some s) /\
  (count_end [BeginTag (str "a"); BeginTag (str "b"); EndTag (str "b")]
   <= count_begin [BeginTag (str "a"); BeginTag (str "b"); EndTag (str "b")])%nat.
Proof.
  apply (delivered_events_nest 12 (str "<a><b></b><c>")
           [BeginTag (str "a"); BeginTag (str "b"); EndTag (str "b")]
           [BeginTag (str "c")]).
  reflexivity.
Defined.

(** ** The lexical functions on any input *)

Lemma span_class (P : ascii -> bool) (l : cpp_string) :
  exists l1 l2,
    l = l1 ++ l2 /\ Forall (fun c => P c = true) l1 /\
    ahead P l2.
Proof.
  induction l as [| c l (l1 & l2 & -> & H1 & H2)].
  - by exists [], [].
  - destruct (P c) eqn:Hc.
    + exists (c :: l1), l2. split; [done |]. split; [by constructor | done].
    + by exists [], (c :: l1 ++ l2).
Qed.

(** X23. The loops of the lexical functions end: from a
    cursor inside the buffer, [xml_eat_space], [xml_read_name],
    [xml_parse_string], [xml_read_text], [xml_read_comment] and
    [xml_read_closing_tag] return or raise an error within as many steps
    as there are characters left, and when they return the cursor is on
    the same buffer, at or after the place where it was and not after the
    end. *)
Theorem lexical_functions_finish {U} fuel (st : xml_state U) :
  0 <= pos st <= size st -> (chars_left st < fuel)%nat ->
  finishes (forward st) (xml_eat_space fuel st) /\
  finishes (forward2 st) (xml_read_name fuel st) /\
  finishes (forward2 st) (xml_parse_string fuel st) /\
  finishes (forward2 st) (xml_read_text fuel st) /\
  finishes (forward2 st) (xml_read_comment fuel st) /\
  finishes (forward2 st) (xml_read_closing_tag fuel st).
Proof.
  intros Hpos Hfuel.
  refine (conj _ (conj _ (conj _ (conj _ (conj _ _))))).
  - by apply xml_eat_space_finishes.
  - by apply xml_read_name_finishes.
  - by apply xml_parse_string_finishes.
  - by apply xml_read_text_finishes.
  - by apply xml_read_comment_finishes.
  - by apply xml_read_closing_tag_finishes.
Qed.

Lemma lexical_functions_finish_witness :
  finishes (forward (xml_state_init (str " <!--x") ([] : list event)))
    (xml_eat_space 7 (xml_state_init (str " <!--x") [])) /\
  finishes (forward2 (xml_state_init (str " <!--x") ([] : list event)))
    (xml_read_name 7 (xml_state_init (str " <!--x") [])) /\
  finishes (forward2 (xml_state_init (str " <!--x") ([] : list event)))
    (xml_parse_string 7 (xml_state_init (str " <!--x") [])) /\
  finishes (forward2 (xml_state_init (str " <!--x") ([] : list event)))
    (xml_read_text 7 (xml_state_init (str " <!--x") [])) /\
  finishes (forward2 (xml_state_init (str " <!--x") ([] : list event)))
    (xml_read_comment 7 (xml_state_init (str " <!--x") [])) /\
  finishes (forward2 (xml_state_init (str " <!--x") ([] : list event)))
    (xml_read_closing_tag 7 (xml_state_init (str " <!--x") [])).
Proof.
  apply (lexical_functions_finish 7 (xml_state_init (str " <!--x") [])).
  - by vm_compute.
  - vm_compute. lia.
Defined.

(** X24. From any cursor, [xml_eat_space] returns
    with the cursor on the first character that is not white space, or at
    the end of the buffer when there is none, and with the user data it
    was given. *)
Theorem xml_eat_space_skips_white_space {U} fuel (st : xml_state U) l u :
  at_ st l u -> (length l < fuel)%nat ->
  exists ws rest st',
    l = ws ++ rest /\ Forall (fun c => xml_is_space c = true) ws /\
    ahead xml_is_space rest /\
    xml_eat_space fuel st = Ok st' /\ at_ st' rest u.
Proof.
  intros Hat Hfuel.
  destruct (span_class xml_is_space l) as (ws & rest & -> & Hws & Hrest).
  rewrite length_app in Hfuel.
  destruct (xml_eat_space_at fuel st ws rest u Hat Hws Hrest) as (st' & H);
    [lia |].
  by exists ws, rest, st'.
Qed.

Lemma xml_eat_space_skips_white_space_witness :
  exists ws rest st',
    [" "%char; LF; "a"%char; " "%char] = ws ++ rest /\
    Forall (fun c => xml_is_space c = true) ws /\
    ahead xml_is_space rest /\
    xml_eat_space 5
      (xml_state_init [" "%char; LF; "a"%char; " "%char] ([] : list event))
    = Ok st' /\ at_ st' rest [].
Proof.
  apply (xml_eat_space_skips_white_space 5 _ _ []).
  - apply at_init.
  - simpl. lia.
Defined.

(** X25. From any cursor, [xml_read_text] returns the text
    from the cursor up to the next ['<'], or up to the end of the buffer
    when there is none, with the cursor after that text: a text that the
    end of the input cuts short is returned without an error. *)
Theorem xml_read_text_up_to_lt {U} fuel (st : xml_state U) l u :
  at_ st l u -> (length l < fuel)%nat ->
  exists text rest st',
    l = text ++ rest /\ (("<"%char) ∉ text) /\
    match rest with [] => True | c :: _ => c = "<"%char end /\
    xml_read_text fuel st = Ok (text, st') /\ at_ st' rest u.
Proof.
  intros Hat Hfuel.
  destruct (span_class (fun c => negb (bool_decide (c = "<"%char))) l)
    as (text & rest & -> & Htext & Hrest).
  rewrite length_app in Hfuel.
  assert (("<"%char) ∉ text) as Hnot.
  { intros Hin. rewrite Forall_forall in Htext. apply Htext in Hin.
    by rewrite bool_decide_eq_true_2 in Hin. }
  destruct (xml_read_text_at fuel st text rest u Hat Hnot Hrest) as (st' & H);
    [lia |].
  exists text, rest, st'. split; [done |]. split; [done |]. split; [| done].
  destruct rest as [| c rest]; [done |]. simpl in Hrest.
  apply negb_false_iff in Hrest. by apply bool_decide_eq_true in Hrest.
Qed.

Lemma xml_read_text_up_to_lt_witness :
  exists text rest st',
    str "no end" = text ++ rest /\ (("<"%char) ∉ text) /\
    match rest with [] => True | c :: _ => c = "<"%char end /\
    xml_read_text 7 (xml_state_init (str "no end") ([] : list event))
    = Ok (text, st') /\ at_ st' rest [].
Proof.
  apply (xml_read_text_up_to_lt 7 _ _ []).
  - apply at_init.
  - simpl. lia.
Defined.

(** X26. After white space, which it skips,
    [xml_read_name] returns the longest run of letters, digits and
    underscores when the first character is a letter, raises the error
    that names the character otherwise, and raises the error of a read
    outside the buffer when the input ends before the name. *)
Theorem xml_read_name_outcomes {U} fuel (st : xml_state U) ws u :
  Forall (fun c => xml_is_space c = true) ws ->
  (forall name rest,
     at_ st (ws ++ name ++ rest) u -> valid_name name = true ->
     ahead xml_is_valid_name_char rest ->
     (length ws + length name < fuel)%nat ->
     exists st', xml_read_name fuel st = Ok (name, st') /\ at_ st' rest u) /\
  (forall c rest,
     at_ st (ws ++ c :: rest) u ->
     xml_is_space c = false -> xml_is_alpha c = false ->
     (length ws < fuel)%nat ->
     exists line, xml_read_name fuel st = Fatal (NameExpected c line)) /\
  (at_ st ws u -> (length ws < fuel)%nat ->
   exists p, xml_read_name fuel st = Fatal (PeekOutOfRange p p)).
Proof.
  intros Hws. refine (conj _ (conj _ _)).
  - intros name rest Hat Hname Hrest Hfuel.
    by apply (xml_read_name_space_at fuel st ws name rest u).
  - intros c rest Hat Hsp Hal Hfuel.
    by apply (xml_read_name_error fuel st ws c rest u).
  - intros Hat Hfuel. by apply (xml_read_name_eof fuel st ws u).
Qed.

Lemma xml_read_name_outcomes_witness :
  (exists st',
     xml_read_name 8 (xml_state_init (str "  ab_1 =") ([] : list event))
     = Ok (str "ab_1", st') /\ at_ st' (str " =") []) /\
  (exists line,
     xml_read_name 8 (xml_state_init (str "  1a") ([] : list event))
     = Fatal (NameExpected "1"%char line)) /\
  (exists p,
     xml_read_name 8 (xml_state_init (str "  ") ([] : list event))
     = Fatal (PeekOutOfRange p p)).
Proof.
  assert (Forall (fun c => xml_is_space c = true) (str "  ")) as Hws
    by (by repeat constructor).
  refine (conj _ (conj _ _)).
  - apply (proj1 (xml_read_name_outcomes 8 _ (str "  ") [] Hws)
             (str "ab_1") (str " ="));
      [apply at_init | reflexivity | reflexivity | simpl; lia].
  - apply (proj1 (proj2 (xml_read_name_outcomes 8 _ (str "  ") [] Hws))
             "1"%char (str "a"));
      [apply at_init | reflexivity | reflexivity | simpl; lia].
  - apply (proj2 (proj2 (xml_read_name_outcomes 8 _ (str "  ") [] Hws)));
      [apply at_init | simpl; lia].
Defined.

(** X27. After white space, which it skips,
    [xml_parse_string] on a double quote, a text without a double quote
    and a double quote returns that text followed by one NUL character,
    with the cursor after the closing quote.  It raises the error of a
    read outside the buffer when the input ends before the closing quote,
    and the error that names the character when the first character after
    the white space is not a double quote; a single quote is not accepted. *)
Theorem xml_parse_string_outcomes {U} fuel (st : xml_state U) ws u :
  Forall (fun c => xml_is_space c = true) ws ->
  (forall s rest,
     at_ st (ws ++ DQUOTE :: s ++ DQUOTE :: rest) u -> DQUOTE ∉ s ->
     (length ws + length s < fuel)%nat ->
     exists st',
       xml_parse_string fuel st = Ok (s ++ [NUL], st') /\ at_ st' rest u) /\
  (forall s,
     at_ st (ws ++ DQUOTE :: s) u -> DQUOTE ∉ s ->
     (length ws + length s < fuel)%nat ->
     exists p, xml_parse_string fuel st = Fatal (PeekOutOfRange p p)) /\
  (forall c rest,
     at_ st (ws ++ c :: rest) u ->
     xml_is_space c = false -> c <> DQUOTE -> (length ws < fuel)%nat ->
     exists line,
       xml_parse_string fuel st = Fatal (MatchExpected DQUOTE c line)).
Proof.
  intros Hws. refine (conj _ (conj _ _)).
  - intros s rest Hat Hs Hfuel.
    by apply (xml_parse_string_space_at fuel st ws s rest u).
  - intros s Hat Hs Hfuel. by apply (xml_parse_string_eof fuel st ws s u).
  - intros c rest Hat Hsp Hc Hfuel.
    by apply (xml_parse_string_unquoted fuel st ws c rest u).
Qed.

Lemma xml_parse_string_outcomes_witness :
  exists line,
    xml_parse_string 4 (xml_state_init (str " 'v'") ([] : list event))
    = Fatal (MatchExpected DQUOTE "'"%char line).
Proof.
  assert (Forall (fun c => xml_is_space c = true) (str " ")) as Hws
    by (by repeat constructor).
  apply (proj2 (proj2 (xml_parse_string_outcomes 4 _ (str " ") [] Hws))
           "'"%char (str "v'"));
    [apply at_init | reflexivity | done | simpl; lia].
Defined.

(** ** Documents without a tag, and tags that the input leaves open *)

(** X28. [xml_read_document] accepts an input of white space
    only, the empty input included, and calls no callback.  When the first
    character after leading white space is not ['<'], it raises the error
    ExpectedLt: text outside a tag is refused. *)
Theorem documents_without_a_tag {U} (cb : xml_callbacks U) fuel ws (u : U) :
  Forall (fun c => xml_is_space c = true) ws -> (length ws < fuel)%nat ->
  (exists st',
     xml_read_document cb fuel (xml_state_init ws u) = Ok st' /\
     at_ st' [] u) /\
  (forall c rest,
     xml_is_space c = false -> c <> "<"%char ->
     xml_read_document cb fuel (xml_state_init (ws ++ c :: rest) u)
     = Fatal ExpectedLt).
Proof.
  intros Hws Hfuel. split.
  - by apply xml_read_document_blank.
  - intros c rest Hsp Hc. by apply xml_read_document_not_lt.
Qed.

Lemma documents_without_a_tag_witness :
  (exists st',
     xml_read_document event_log 1 (xml_state_init [] []) = Ok st' /\
     at_ st' [] []) /\
  (forall c rest,
     xml_is_space c = false -> c <> "<"%char ->
     xml_read_document event_log 1 (xml_state_init ([] ++ c :: rest) [])
     = Fatal ExpectedLt).
Proof.
  apply (documents_without_a_tag event_log 1 [] []).
  - constructor.
  - simpl. lia.
Defined.

(** X29. On [<name>] at the end of the input, [xml_read_tag]
    delivers BeginTag and returns: the tag is accepted without its closing
    tag and no EndTag is delivered.  With white space after [<name>] and
    then the end of the input, it raises the error of a read outside the
    buffer. *)
Theorem tag_left_open_at_end {U} (cb : xml_callbacks U) fuel name
    (st : xml_state U) u :
  valid_name name = true ->
  (at_ st (str "<" ++ name ++ str ">") u -> (length name + 2 < fuel)%nat ->
   exists st', xml_read_tag cb fuel st = Ok st' /\
     at_ st' [] (replay cb [BeginTag name] u)) /\
  (forall c ws,
     at_ st (str "<" ++ name ++ str ">" ++ c :: ws) u ->
     Forall (fun c => xml_is_space c = true) (c :: ws) ->
     (length name + length ws + 3 < fuel)%nat ->
     exists p, xml_read_tag cb fuel st = Fatal (PeekOutOfRange p p)).
Proof.
  intros Hname. split.
  - intros Hat Hfuel. by apply xml_read_tag_unclosed.
  - intros c ws Hat Hws Hfuel.
    by apply (xml_read_tag_unclosed_space cb fuel name st c ws u).
Qed.

Lemma tag_left_open_at_end_witness :
  (exists st',
     xml_read_tag event_log 6 (xml_state_init (str "<tag>") []) = Ok st' /\
     at_ st' [] [BeginTag (str "tag")]) /\
  (exists p,
     xml_read_tag event_log 8 (xml_state_init (str "<tag> " ++ [LF]) [])
     = Fatal (PeekOutOfRange p p)).
Proof.
  split.
  - apply (proj1 (tag_left_open_at_end event_log 6 (str "tag") _ [] eq_refl));
      [apply at_init | simpl; lia].
  - apply (proj2 (tag_left_open_at_end event_log 8 (str "tag") _ [] eq_refl)
             " "%char [LF]);
      [apply at_init | by repeat constructor | simpl; lia].
Defined.

(** ** Tags with any attributes and any body *)

Lemma space_only_Forall ws :
  space_only ws = true -> Forall (fun c => xml_is_space c = true) ws.
Proof.
  unfold space_only. induction ws as [| c ws IH]; simpl; [by constructor |].
  intros [Hc Hws]%andb_true_iff. constructor; [done | by apply IH].
Qed.

Lemma forallb_not_elem_of (c : ascii) l :
  forallb (fun d => negb (bool_decide (d = c))) l = true -> c ∉ l.
Proof.
  induction l as [| d l IH]; simpl; [intros _; apply not_elem_of_nil |].
  intros [Hd Hl]%andb_true_iff. apply not_elem_of_cons. split; [| by apply IH].
  apply negb_true_iff, bool_decide_eq_false in Hd. congruence.
Qed.

Lemma attr_text_length a : (3 <= length (attr_text a))%nat.
Proof. unfold attr_text. rewrite !length_app. simpl. rewrite length_app. simpl. lia. Qed.

Section Elements.

Context {U : Type} (cb : xml_callbacks U).

Local Abbreviation state := (xml_state U).

(** One turn of the attribute loop on an attribute. *)
Lemma xml_read_tag_attributes_step fuel name (st : state) a tl u :
  at_ st (attr_text a ++ tl) u -> attr_ok a = true ->
  (length (attr_text a) <= fuel)%nat ->
  exists st',
    at_ st' tl (attribute cb u (a_name a) (a_value a ++ [NUL])) /\
    xml_read_tag_attributes cb (S fuel) name st
    = xml_read_tag_attributes cb fuel name st'.
Proof.
  intros Hat Hok Hfuel. unfold attr_ok in Hok.
  repeat (apply andb_true_iff in Hok as [Hok ?]).
  destruct a as [ws an ws1 ws2 av]. simpl in *.
  unfold attr_text in *. simpl in *.
  assert (length ws + length an + length ws1 + length ws2 + length av + 3
          <= fuel)%nat as Hlen.
  { rewrite !length_app in Hfuel. simpl in Hfuel. rewrite !length_app in Hfuel.
    simpl in Hfuel. rewrite length_app in Hfuel. simpl in Hfuel. lia. }
  clear Hfuel.
  destruct (valid_name_inv an) as (c & an' & -> & Hc & Han'); [done |].
  cbn [xml_read_tag_attributes].
  rewrite (at_not_eof _ _ _ Hat) by (by destruct ws).
  rewrite <- !app_assoc in Hat.
  destruct (xml_eat_space_at fuel st ws _ u Hat) as (st1 & -> & Hat1);
    [by apply space_only_Forall | simpl; by apply alpha_not_space | lia |].
  cbn [mbind result_bind]. simpl in Hat1.
  rewrite (at_peek0 _ _ _ _ Hat1). cbn [mbind result_bind]. rewrite Hc.
  destruct (xml_read_name_at fuel st1 (c :: an') _ u Hat1)
    as (st2 & -> & Hat2);
    [done | apply ahead_space_name_char; [by apply space_only_Forall | done]
    | simpl in *; lia |].
  cbn [mbind result_bind].
  destruct (xml_eat_space_at fuel st2 ws1 _ u Hat2) as (st3 & -> & Hat3);
    [by apply space_only_Forall | done | lia |].
  cbn [mbind result_bind]. simpl in Hat3.
  destruct (xml_match_at _ _ _ _ Hat3) as (st4 & -> & Hat4).
  cbn [mbind result_bind].
  destruct (xml_parse_string_space_at fuel st4 ws2 av tl u) as (st5 & -> & Hat5);
    [eapply at_eq; [exact Hat4 | same_text] | by apply space_only_Forall
    | by apply forallb_not_elem_of | lia |].
  cbn [mbind result_bind]. rewrite (at_user_data _ _ _ Hat5).
  eexists. split; [| done]. by eapply at_set_user_data.
Qed.

Lemma replay_cons ev evs u :
  replay cb (ev :: evs) u = replay cb evs (deliver cb u ev).
Proof. done. Qed.

(** The attribute loop on a list of attributes, left at ['>']. *)
Lemma xml_read_tag_attributes_list_open attrs :
  forall fuel name (st : state) sp tl u,
    at_ st (attrs_text attrs ++ sp ++ str ">" ++ tl) u ->
    forallb attr_ok attrs = true -> space_only sp = true ->
    (length (attrs_text attrs) + length sp + 1 < fuel)%nat ->
    exists st',
      xml_read_tag_attributes cb fuel name st = Ok (ByBreak, st') /\
      at_ st' tl (replay cb (map attr_event attrs) u).
Proof.
  induction attrs as [| a attrs IH]; intros fuel name st sp tl u Hat Hok Hsp
    Hfuel.
  - apply (xml_read_tag_attributes_open cb fuel name st sp tl u Hat);
      [by apply space_only_Forall | simpl in Hfuel; lia].
  - simpl in Hok. apply andb_true_iff in Hok as [Ha Hok].
    cbn [attrs_text flat_map] in Hat, Hfuel. fold (attrs_text attrs) in *.
    rewrite length_app in Hfuel. rewrite <- app_assoc in Hat.
    destruct fuel as [| fuel]; [lia |].
    destruct (xml_read_tag_attributes_step fuel name st a _ u Hat Ha)
      as (st1 & Hat1 & ->); [lia |].
    pose proof (attr_text_length a).
    destruct (IH fuel name st1 sp tl _ Hat1 Hok Hsp) as (st2 & -> & Hat2);
      [lia |].
    by exists st2.
Qed.

(** The attribute loop on a list of attributes, left at ["/>"]. *)
Lemma xml_read_tag_attributes_list_close attrs :
  forall fuel name (st : state) sp ws' tl u,
    at_ st (attrs_text attrs ++ sp ++ str "/>" ++ ws' ++ tl) u ->
    forallb attr_ok attrs = true -> space_only sp = true ->
    Forall (fun c => xml_is_space c = true) ws' -> ahead xml_is_space tl ->
    (length (attrs_text attrs) + length sp + length ws' + 1 < fuel)%nat ->
    exists st',
      xml_read_tag_attributes cb fuel name st = Ok (ByReturn, st') /\
      at_ st' tl (replay cb (map attr_event attrs ++ [EndTag name]) u).
Proof.
  induction attrs as [| a attrs IH];
    intros fuel name st sp ws' tl u Hat Hok Hsp Hws' Htl Hfuel.
  - apply (xml_read_tag_attributes_close cb fuel name st sp ws' tl u Hat);
      [by apply space_only_Forall | done | done | simpl in Hfuel; lia].
  - simpl in Hok. apply andb_true_iff in Hok as [Ha Hok].
    cbn [attrs_text flat_map] in Hat, Hfuel. fold (attrs_text attrs) in *.
    rewrite length_app in Hfuel. rewrite <- app_assoc in Hat.
    destruct fuel as [| fuel]; [lia |].
    destruct (xml_read_tag_attributes_step fuel name st a _ u Hat Ha)
      as (st1 & Hat1 & ->); [lia |].
    pose proof (attr_text_length a).
    destruct (IH fuel name st1 sp ws' tl _ Hat1 Hok Hsp Hws' Htl)
      as (st2 & -> & Hat2); [lia |].
    by exists st2.
Qed.

Lemma ahead_attrs attrs sp tl :
  forallb attr_ok attrs = true -> space_only sp = true ->
  ahead xml_is_valid_name_char tl ->
  ahead xml_is_valid_name_char (attrs_text attrs ++ sp ++ tl).
Proof.
  intros Hok Hsp Htl. destruct attrs as [| a attrs].
  - simpl. apply ahead_space_name_char; [by apply space_only_Forall | done].
  - simpl in Hok. apply andb_true_iff in Hok as [Ha _]. unfold attr_ok in Ha.
    repeat (apply andb_true_iff in Ha as [Ha ?]).
    cbn [attrs_text flat_map]. unfold attr_text. rewrite <- !app_assoc.
    destruct (a_space a) as [| c ws] eqn:Hws; [done |].
    match goal with
    | H : space_only (c :: ws) = true |- _ =>
        exact (ahead_space_name_char (c :: ws) [] (space_only_Forall _ H) I)
    end.
Qed.

(** The opening tag of an element that has a body: BeginTag and the
    attributes are delivered, and the body loop starts after ['>']. *)
Lemma xml_read_tag_opening fuel (st : state) name attrs sp tl u :
  at_ st (str "<" ++ name ++ attrs_text attrs ++ sp ++ str ">" ++ tl) u ->
  valid_name name = true -> forallb attr_ok attrs = true ->
  space_only sp = true ->
  (length name + length (attrs_text attrs) + length sp + 1 < fuel)%nat ->
  exists st',
    at_ st' tl (replay cb (BeginTag name :: map attr_event attrs) u) /\
    xml_read_tag cb (S fuel) st = xml_read_tag_body cb fuel name st'.
Proof.
  intros Hat Hname Hok Hsp Hfuel.
  destruct (xml_read_tag_open cb fuel st name _ u Hat Hname)
    as (st1 & Hat1 & ->); [by apply ahead_attrs | lia |].
  destruct (xml_read_tag_attributes_list_open attrs fuel name st1 sp tl _ Hat1)
    as (st2 & -> & Hat2); [done | done | lia |].
  by exists st2.
Qed.

(** An element written as [<name attrs/>]. *)
Lemma xml_read_tag_empty_element fuel (st : state) name attrs sp ws' tl u :
  at_ st (str "<" ++ name ++ attrs_text attrs ++ sp ++ str "/>" ++ ws' ++ tl)
    u ->
  valid_name name = true -> forallb attr_ok attrs = true ->
  space_only sp = true ->
  Forall (fun c => xml_is_space c = true) ws' -> ahead xml_is_space tl ->
  (length name + length (attrs_text attrs) + length sp + length ws' + 2
   < fuel)%nat ->
  exists st',
    xml_read_tag cb fuel st = Ok st' /\
    at_ st' tl
      (replay cb (BeginTag name :: map attr_event attrs ++ [EndTag name]) u).
Proof.
  intros Hat Hname Hok Hsp Hws' Htl Hfuel.
  destruct fuel as [| fuel]; [lia |].
  destruct (xml_read_tag_open cb fuel st name _ u Hat Hname)
    as (st1 & Hat1 & ->); [by apply ahead_attrs | lia |].
  destruct (xml_read_tag_attributes_list_close attrs fuel name st1 sp ws' tl _
              Hat1) as (st2 & -> & Hat2); [done .. | lia |].
  by exists st2.
Qed.

(** *** One turn of the body loop *)

Lemma xml_read_comment_at fuel (st : state) body rest u :
  at_ st (str "<!--" ++ body ++ str "-->" ++ rest) u ->
  comment_body true false body = true ->
  (length body + 1 < fuel)%nat ->
  exists st',
    xml_read_comment fuel st = Ok (without_hyphens body, st') /\
    at_ st' rest u.
Proof.
  intros Hat Hok Hfuel. unfold xml_read_comment. simpl in Hat.
  do 4 (destruct (xml_match_at _ _ _ _ Hat) as (? & -> & Hat');
        cbn [mbind result_bind]; clear Hat; rename Hat' into Hat).
  by apply (xml_read_comment_loop_at fuel _ body rest u [] false).
Qed.

(** At a closing tag. *)
Lemma xml_read_tag_body_close fuel name close (st : state) ws sp_close tl u :
  at_ st (ws ++ str "</" ++ sp_close ++ close ++ str ">" ++ tl) u ->
  space_only ws = true -> space_only sp_close = true ->
  valid_name close = true ->
  (length ws + length sp_close + length close < fuel)%nat ->
  closes_with cb name close tl u (xml_read_tag_body cb (S fuel) name st).
Proof.
  intros Hat Hws Hsp Hclose Hfuel. rewrite xml_read_tag_body_eq.
  rewrite (at_not_eof _ _ _ Hat) by (by destruct ws).
  destruct (xml_eat_space_at fuel st ws _ u Hat) as (st1 & -> & Hat1);
    [by apply space_only_Forall | done | lia |].
  cbn [mbind result_bind]. simpl in Hat1. unfold and_then.
  rewrite (at_peek_is _ "<"%char _ _ _ Hat1).
  rewrite (at_peek_is1 _ "/"%char _ _ _ _ Hat1).
  cbn [mbind result_bind].
  change (bool_decide ("<"%char = "<"%char)) with true.
  change (bool_decide ("/"%char = "/"%char)) with true.
  cbn [mbind result_bind]. unfold xml_read_closing_tag.
  destruct (xml_match_at _ _ _ _ Hat1) as (st2 & -> & Hat2).
  cbn [mbind result_bind].
  destruct (xml_match_at _ _ _ _ Hat2) as (st3 & -> & Hat3).
  cbn [mbind result_bind].
  destruct (xml_read_name_space_at fuel st3 sp_close close (str ">" ++ tl) u
              Hat3) as (st4 & -> & Hat4);
    [by apply space_only_Forall | done | done | lia |].
  cbn [mbind result_bind]. simpl in Hat4.
  destruct (xml_match_at _ _ _ _ Hat4) as (st5 & -> & Hat5).
  cbn [mbind result_bind]. unfold closes_with.
  destruct (string_eqb close name); cbn [negb].
  - eexists. split; [done |]. rewrite (at_user_data _ _ _ Hat5).
    by eapply at_set_user_data.
  - by eexists.
Qed.

(** At a text. *)
Lemma xml_read_tag_body_text_step fuel name (st : state) ws text tl u :
  at_ st (ws ++ text ++ "<"%char :: tl) u ->
  space_only ws = true -> text_ok text = true ->
  (length ws + length text < fuel)%nat ->
  exists st',
    at_ st' ("<"%char :: tl) (tag_text cb u text) /\
    xml_read_tag_body cb (S fuel) name st = xml_read_tag_body cb fuel name st'.
Proof.
  intros Hat Hws Htext Hfuel. rewrite xml_read_tag_body_eq.
  destruct text as [| c text]; [done |]. simpl in Htext.
  apply andb_true_iff in Htext as [Hc Hlt]. apply negb_true_iff in Hc.
  apply andb_true_iff in Hlt as [Hc' Hlt].
  apply negb_true_iff, bool_decide_eq_false in Hc'.
  rewrite (at_not_eof _ _ _ Hat) by (by destruct ws).
  destruct (xml_eat_space_at fuel st ws _ u Hat) as (st1 & -> & Hat1);
    [by apply space_only_Forall | done | lia |].
  cbn [mbind result_bind]. simpl in Hat1. unfold and_then.
  rewrite (at_peek_is _ "<"%char _ _ _ Hat1). cbn [mbind result_bind].
  rewrite bool_decide_eq_false_2 by done. cbn [mbind result_bind].
  destruct (xml_read_text_at fuel st1 (c :: text) ("<"%char :: tl) u)
    as (st2 & -> & Hat2).
  - done.
  - apply not_elem_of_cons. split; [congruence | by apply forallb_not_elem_of].
  - done.
  - simpl in *. lia.
  - cbn [mbind result_bind]. rewrite (at_user_data _ _ _ Hat2).
    eexists. split; [| done]. by eapply at_set_user_data.
Qed.

(** At a comment. *)
Lemma xml_read_tag_body_comment_step fuel name (st : state) ws body tl u :
  at_ st (ws ++ str "<!--" ++ body ++ str "-->" ++ tl) u ->
  space_only ws = true -> comment_body true false body = true ->
  (length ws + length body + 1 < fuel)%nat ->
  exists st',
    at_ st' tl (comment cb u (without_hyphens body)) /\
    xml_read_tag_body cb (S fuel) name st = xml_read_tag_body cb fuel name st'.
Proof.
  intros Hat Hws Hbody Hfuel. rewrite xml_read_tag_body_eq.
  rewrite (at_not_eof _ _ _ Hat) by (by destruct ws).
  destruct (xml_eat_space_at fuel st ws _ u Hat) as (st1 & -> & Hat1);
    [by apply space_only_Forall | done | lia |].
  cbn [mbind result_bind]. pose proof Hat1 as Hat1'. simpl in Hat1'.
  unfold and_then.
  rewrite (at_peek_is _ "<"%char _ _ _ Hat1').
  rewrite (at_peek_is1 _ "/"%char _ _ _ _ Hat1').
  rewrite (at_peek_is1 _ "!"%char _ _ _ _ Hat1').
  cbn [mbind result_bind].
  change (bool_decide ("<"%char = "<"%char)) with true.
  change (bool_decide ("!"%char = "/"%char)) with false.
  change (bool_decide ("!"%char = "!"%char)) with true.
  cbn [mbind result_bind].
  destruct (xml_read_comment_at fuel st1 body tl u Hat1 Hbody)
    as (st2 & -> & Hat2); [lia |].
  cbn [mbind result_bind]. rewrite (at_user_data _ _ _ Hat2).
  eexists. split; [| done]. by eapply at_set_user_data.
Qed.

(** At a child tag. *)
Lemma xml_read_tag_body_child_step fuel name (st : state) ws c tl u :
  at_ st (ws ++ "<"%char :: c :: tl) u ->
  space_only ws = true -> xml_is_alpha c = true ->
  (length ws < fuel)%nat ->
  exists st0,
    at_ st0 ("<"%char :: c :: tl) u /\
    xml_read_tag_body cb (S fuel) name st
    = st1 ← xml_read_tag cb fuel st0; xml_read_tag_body cb fuel name st1.
Proof.
  intros Hat Hws Hc Hfuel. rewrite xml_read_tag_body_eq.
  rewrite (at_not_eof _ _ _ Hat) by (by destruct ws).
  destruct (xml_eat_space_at fuel st ws _ u Hat) as (st1 & -> & Hat1);
    [by apply space_only_Forall | done | lia |].
  cbn [mbind result_bind]. unfold and_then.
  rewrite (at_peek_is _ "<"%char _ _ _ Hat1).
  rewrite (at_peek_is1 _ "/"%char _ _ _ _ Hat1).
  rewrite (at_peek_is1 _ "!"%char _ _ _ _ Hat1).
  rewrite (at_peek_is_not1 _ "/"%char _ _ _ _ Hat1).
  cbn [mbind result_bind].
  change (bool_decide ("<"%char = "<"%char)) with true.
  cbn [mbind result_bind].
  assert (c <> "/"%char) as H1 by (intros ->; done).
  assert (c <> "!"%char) as H2 by (intros ->; done).
  rewrite !bool_decide_eq_false_2 by done. cbn [negb].
  by exists st1.
Qed.

(** *** The body loop on any content *)

Lemma content_starts_lt c tl :
  is_text c = false ->
  exists tl', text_of_content c ++ "<"%char :: tl = "<"%char :: tl'.
Proof. destruct c; simpl; try done; intros _; by eexists. Qed.

Lemma content_ahead_space c tl :
  content_ok c = true ->
  ahead xml_is_space (text_of_content c ++ "<"%char :: tl).
Proof.
  destruct c as [| text rest | | |]; simpl; try done.
  intros Hok. do 2 apply andb_true_iff in Hok as [Hok _].
  destruct text as [| d text]; [done |]. simpl in *.
  apply andb_true_iff in Hok as [Hd _]. by apply negb_true_iff in Hd.
Qed.

Ltac len_norm H :=
  cbn [text_of_content] in H; repeat (rewrite ?length_app in H; simpl in H).

(** The body loop of [xml_read_tag] on any content: it delivers the events
    of the content and reaches the closing tag. *)
Lemma xml_read_tag_body_content c :
  forall fuel name close sp_close ws0 (st : state) tl u,
    content_ok c = true -> valid_name close = true ->
    space_only sp_close = true -> space_only ws0 = true ->
    at_ st (ws0 ++ text_of_content c ++ str "</" ++ sp_close ++ close
            ++ str ">" ++ tl) u ->
    (length ws0 + length (text_of_content c) + length sp_close
     + length close + 3 < fuel)%nat ->
    closes_with cb name close tl (replay cb (events_of_content c) u)
      (xml_read_tag_body cb fuel name st).
Proof.
  induction c as [| text rest IHrest | body ws rest IHrest
                  | ename attrs sp ws rest IHrest
                  | ename attrs sp ws_in kids IHkids sp_close' ws rest IHrest];
    intros fuel name close sp_close ws0 st tl u Hok Hclose Hsp Hws0 Hat Hfuel;
    (destruct fuel as [| fuel]; [lia |]); cbn [content_ok] in Hok;
    cbn [events_of_content].
  - (* the closing tag *)
    apply (xml_read_tag_body_close fuel name close st ws0 sp_close tl u);
      [done .. | len_norm Hfuel; lia].
  - (* a text *)
    apply andb_true_iff in Hok as [Hok Hrest].
    apply andb_true_iff in Hok as [Htext Hnot].
    apply negb_true_iff in Hnot.
    destruct (content_starts_lt rest
                ("/"%char :: sp_close ++ close ++ str ">" ++ tl) Hnot)
      as [tl' Htl'].
    assert (at_ st (ws0 ++ text ++ "<"%char :: tl') u) as Hat'.
    { eapply at_eq; [exact Hat |]. rewrite <- Htl'. same_text. }
    assert (0 < length text)%nat as Hlen by (destruct text; [done | simpl; lia]).
    len_norm Hfuel.
    destruct (xml_read_tag_body_text_step fuel name st ws0 text tl' u Hat')
      as (st1 & Hat1 & ->); [done | done | lia |].
    rewrite replay_cons. cbn [deliver].
    rewrite <- Htl' in Hat1.
    apply (IHrest fuel name close sp_close [] st1 tl _ Hrest Hclose Hsp);
      [done | done | simpl; lia].
  - (* a comment *)
    apply andb_true_iff in Hok as [Hok Hrest].
    apply andb_true_iff in Hok as [Hbody Hws].
    len_norm Hfuel.
    destruct (xml_read_tag_body_comment_step fuel name st ws0 body
                (ws ++ text_of_content rest ++ str "</" ++ sp_close ++ close
                 ++ str ">" ++ tl) u) as (st1 & Hat1 & ->);
      [eapply at_eq; [exact Hat | same_text] | done | done | lia |].
    rewrite replay_cons. cbn [deliver].
    apply (IHrest fuel name close sp_close ws st1 tl _ Hrest Hclose Hsp Hws);
      [done | lia].
  - (* an element without a body *)
    repeat (apply andb_true_iff in Hok as [Hok ?]).
    destruct (valid_name_inv ename) as (c & ename' & -> & Hc & Hn'); [done |].
    len_norm Hfuel.
    destruct (xml_read_tag_body_child_step fuel name st ws0 c
                (ename' ++ attrs_text attrs ++ sp ++ str "/>" ++ ws
                 ++ text_of_content rest ++ str "</" ++ sp_close ++ close
                 ++ str ">" ++ tl) u) as (st0 & Hat0 & ->);
      [eapply at_eq; [exact Hat | same_text] | done | done | lia |].
    destruct (xml_read_tag_empty_element fuel st0 (c :: ename') attrs sp ws
                (text_of_content rest ++ str "</" ++ sp_close ++ close
                 ++ str ">" ++ tl) u) as (st1 & -> & Hat1);
      [eapply at_eq; [exact Hat0 | same_text] | done | done | done
      | by apply space_only_Forall | by apply content_ahead_space
      | simpl; lia |].
    cbn [mbind result_bind].
    replace (BeginTag (c :: ename') :: map attr_event attrs
             ++ EndTag (c :: ename') :: events_of_content rest)
      with ((BeginTag (c :: ename') :: map attr_event attrs
             ++ [EndTag (c :: ename')]) ++ events_of_content rest)
      by (simpl; by rewrite <- app_assoc).
    rewrite replay_app.
    apply (IHrest fuel name close sp_close [] st1 tl _); try done.
    simpl. lia.
  - (* an element with a body *)
    repeat (apply andb_true_iff in Hok as [Hok ?]).
    destruct (valid_name_inv ename) as (c & ename' & -> & Hc & Hn'); [done |].
    len_norm Hfuel.
    destruct (xml_read_tag_body_child_step fuel name st ws0 c
                (ename' ++ attrs_text attrs ++ sp ++ str ">" ++ ws_in
                 ++ text_of_content kids ++ str "</" ++ sp_close'
                 ++ (c :: ename') ++ str ">" ++ ws ++ text_of_content rest
                 ++ str "</" ++ sp_close ++ close ++ str ">" ++ tl) u)
      as (st0 & Hat0 & ->);
      [eapply at_eq; [exact Hat | same_text] | done | done | lia |].
    destruct fuel as [| fuel]; [lia |].
    destruct (xml_read_tag_opening fuel st0 (c :: ename') attrs sp
                (ws_in ++ text_of_content kids ++ str "</" ++ sp_close'
                 ++ (c :: ename') ++ str ">" ++ ws ++ text_of_content rest
                 ++ str "</" ++ sp_close ++ close ++ str ">" ++ tl) u)
      as (st1 & Hat1 & ->);
      [eapply at_eq; [exact Hat0 | same_text] | done | done | done
      | simpl; lia |].
    assert (closes_with cb (c :: ename') (c :: ename')
              (ws ++ text_of_content rest ++ str "</" ++ sp_close
               ++ close ++ str ">" ++ tl)
              (replay cb (events_of_content kids)
                 (replay cb (BeginTag (c :: ename') :: map attr_event attrs)
                    u))
              (xml_read_tag_body cb fuel (c :: ename') st1)) as Hkids.
    { apply (IHkids fuel (c :: ename') (c :: ename') sp_close' ws_in st1);
        [done .. | simpl; lia]. }
    unfold closes_with in Hkids. rewrite string_eqb_refl in Hkids.
    destruct Hkids as (st2 & -> & Hat2).
    cbn [mbind result_bind].
    replace (BeginTag (c :: ename') :: map attr_event attrs
             ++ events_of_content kids
             ++ EndTag (c :: ename') :: events_of_content rest)
      with ((BeginTag (c :: ename') :: map attr_event attrs)
            ++ events_of_content kids
            ++ [EndTag (c :: ename')] ++ events_of_content rest)
      by (simpl; by rewrite <- ?app_assoc).
    rewrite !replay_app.
    apply (IHrest (S fuel) name close sp_close ws st2 tl _); try done.
    lia.
Qed.

(** An element with attributes and a body, closed by a tag that carries
    the name [close]. *)
Lemma xml_read_tag_element fuel (st : state) name attrs sp ws c sp_close
    close tl u :
  at_ st (str "<" ++ name ++ attrs_text attrs ++ sp ++ str ">" ++ ws
          ++ text_of_content c ++ str "</" ++ sp_close ++ close ++ str ">"
          ++ tl) u ->
  valid_name name = true -> valid_name close = true ->
  forallb attr_ok attrs = true -> space_only sp = true ->
  space_only ws = true -> content_ok c = true ->
  space_only sp_close = true ->
  (length name + length (attrs_text attrs) + length sp + length ws
   + length (text_of_content c) + length sp_close + length close + 5
   < fuel)%nat ->
  closes_with cb name close tl
    (replay cb (BeginTag name :: map attr_event attrs ++ events_of_content c)
       u)
    (xml_read_tag cb fuel st).
Proof.
  intros Hat Hname Hclose Hattrs Hsp Hws Hc Hspc Hfuel.
  destruct fuel as [| fuel]; [lia |].
  destruct (xml_read_tag_opening fuel st name attrs sp _ u Hat)
    as (st1 & Hat1 & ->); [done | done | done | lia |].
  replace (BeginTag name :: map attr_event attrs ++ events_of_content c)
    with ((BeginTag name :: map attr_event attrs) ++ events_of_content c)
    by done.
  rewrite replay_app.
  apply (xml_read_tag_body_content c fuel name close sp_close ws st1 tl);
    [done .. | lia].
Qed.

End Elements.

(** ** Self-closing tags and mismatched closing tags *)

(** C8. Parsing [<a/>] returns and delivers exactly BeginTag("a") and
    EndTag("a").  In general, on a tag with a valid name, any list of
    attributes and ["/>"] (white space allowed before and after it),
    [xml_read_tag] delivers BeginTag, one Attribute event for each
    attribute, in order, and EndTag, and nothing else, and returns with the
    cursor at the first character after the white space that follows
    ["/>"], whatever text comes next: no body is scanned. *)
Theorem self_closing_tag :
  (forall fuel : nat, (4 <= fuel)%nat ->
     xml_events fuel (str "<a/>") = Ok [BeginTag (str "a"); EndTag (str "a")])
  /\
  (forall (U : Type) (cb : xml_callbacks U) (fuel : nat) (st : xml_state U)
          (name : cpp_string) (attrs : list attr) (ws ws' tl : cpp_string)
          (u : U),
     at_ st (str "<" ++ name ++ attrs_text attrs ++ ws ++ str "/>" ++ ws'
             ++ tl) u ->
     valid_name name = true -> forallb attr_ok attrs = true ->
     space_only ws = true -> space_only ws' = true ->
     ahead xml_is_space tl ->
     (length name + length (attrs_text attrs) + length ws + length ws' + 2
      < fuel)%nat ->
     exists st',
       xml_read_tag cb fuel st = Ok st' /\
       at_ st' tl
         (replay cb
            (BeginTag name :: map attr_event attrs ++ [EndTag name]) u)).
Proof.
  split.
  - intros fuel Hfuel. by apply (xml_events_fuel 4).
  - intros U cb fuel st name attrs ws ws' tl u Hat Hname Hattrs Hws Hws' Htl
      Hfuel.
    apply (xml_read_tag_empty_element cb fuel st name attrs ws ws' tl u);
      try done.
    by apply space_only_Forall.
Qed.

Lemma self_closing_tag_witness :
  xml_events 4 (str "<a/>") = Ok [BeginTag (str "a"); EndTag (str "a")] /\
  exists st',
    xml_read_tag event_log 40
      (xml_state_init
         (str "<br id=" ++ [DQUOTE] ++ str "1" ++ [DQUOTE] ++ str " class = "
          ++ [DQUOTE] ++ str "x y" ++ [DQUOTE] ++ str " />" ++ [LF]
          ++ str "</text") []) = Ok st' /\
    at_ st' (str "</text")
      [BeginTag (str "br"); Attribute (str "id") (str "1" ++ [NUL]);
       Attribute (str "class") (str "x y" ++ [NUL]); EndTag (str "br")].
Proof.
  destruct self_closing_tag as [Hdoc Htag]. split.
  - apply Hdoc. lia.
  - apply (Htag _ event_log 40%nat _ (str "br")
             [ {| a_space := str " "; a_name := str "id"; a_space_eq := [];
                  a_space_value := []; a_value := str "1" |};
               {| a_space := str " "; a_name := str "class";
                  a_space_eq := str " "; a_space_value := str " ";
                  a_value := str "x y" |} ]
             (str " ") [LF] (str "</text") []).
    + apply at_init.
    + reflexivity.
    + reflexivity.
    + reflexivity.
    + reflexivity.
    + reflexivity.
    + simpl. lia.
Defined.

(** C7. Parsing [<a></b>] throws the error of [xml_read_tag] that carries
    the closing name [b], the tag name [a] and the line number 0.  In
    general, on a tag with a valid name, any list of attributes, any body
    (texts, comments and elements, nested to any depth, with attributes of
    their own) and a closing tag with another valid name, [xml_read_tag]
    throws that error with both names and a line number; and whenever the
    body loop of [xml_read_tag] reads a closing tag whose name differs from
    the name of the tag, it throws that error with the line number of the
    state after the closing tag. *)
Theorem closing_name_mismatch :
  (forall fuel : nat, (5 <= fuel)%nat ->
     xml_events fuel (str "<a></b>")
     = Fatal (ClosingNameMismatch (str "b") (str "a") 0))
  /\
  (forall (U : Type) (cb : xml_callbacks U) (fuel : nat) (st : xml_state U)
          (name close : cpp_string) (attrs : list attr)
          (sp ws : cpp_string) (c : content) (sp_close tl : cpp_string)
          (u : U),
     at_ st (str "<" ++ name ++ attrs_text attrs ++ sp ++ str ">" ++ ws
             ++ text_of_content c ++ str "</" ++ sp_close ++ close
             ++ str ">" ++ tl) u ->
     valid_name name = true -> valid_name close = true ->
     forallb attr_ok attrs = true -> space_only sp = true ->
     space_only ws = true -> content_ok c = true ->
     space_only sp_close = true -> close <> name ->
     (length name + length (attrs_text attrs) + length sp + length ws
      + length (text_of_content c) + length sp_close + length close + 5
      < fuel)%nat ->
     exists line,
       xml_read_tag cb fuel st = Fatal (ClosingNameMismatch close name line))
  /\
  (forall (U : Type) (cb : xml_callbacks U) (fuel : nat)
          (st st1 st2 : xml_state U) (name close : cpp_string),
     xml_eof st = false ->
     xml_eat_space fuel st = Ok st1 ->
     xml_peek st1 0 = Ok "<"%char -> xml_peek st1 1 = Ok "/"%char ->
     xml_read_closing_tag fuel st1 = Ok (close, st2) ->
     close <> name ->
     xml_read_tag_body cb (S fuel) name st
     = Fatal (ClosingNameMismatch close name (line_number st2))).
Proof.
  split; [| split].
  - intros fuel Hfuel. by apply (xml_events_fuel 5).
  - intros U cb fuel st name close attrs sp ws c sp_close tl u Hat Hname
      Hclose Hattrs Hsp Hws Hc Hspc Hne Hfuel.
    pose proof (xml_read_tag_element cb fuel st name attrs sp ws c sp_close
                  close tl u Hat Hname Hclose Hattrs Hsp Hws Hc Hspc Hfuel)
      as Hrun.
    unfold closes_with, string_eqb in Hrun.
    by rewrite bool_decide_eq_false_2 in Hrun.
  - intros U cb fuel st st1 st2 name close Heof Hsp Hp0 Hp1 Hclose Hne.
    rewrite xml_read_tag_body_eq, Heof, Hsp. cbn [mbind result_bind].
    unfold and_then, peek_is. rewrite Hp0, Hp1. cbn [mbind result_bind].
    change (bool_decide ("<"%char = "<"%char)) with true.
    change (bool_decide ("/"%char = "/"%char)) with true.
    cbn [mbind result_bind]. rewrite Hclose.
    cbn [mbind result_bind]. unfold string_eqb.
    by rewrite bool_decide_eq_false_2.
Qed.

Lemma closing_name_mismatch_witness :
  xml_events 5 (str "<a></b>")
  = Fatal (ClosingNameMismatch (str "b") (str "a") 0) /\
  (exists line,
     xml_read_tag event_log 60
       (xml_state_init
          (str "<a x=" ++ [DQUOTE] ++ str "1" ++ [DQUOTE]
           ++ str "> hi <!--c--><e/>" ++ [LF]
           ++ str "<i k=" ++ [DQUOTE] ++ [DQUOTE] ++ str ">t</i></b>") [])
     = Fatal (ClosingNameMismatch (str "b") (str "a") line)) /\
  xml_read_tag_body event_log 3 (str "a")
    (Nat.iter 3 xml_advance (xml_state_init (str "<a></b>") []))
  = Fatal (ClosingNameMismatch (str "b") (str "a") 0).
Proof.
  destruct closing_name_mismatch as (Hdoc & Htag & Hloop).
  split; [| split].
  - apply Hdoc. lia.
  - apply (Htag _ event_log 60%nat _ (str "a") (str "b")
             [ {| a_space := str " "; a_name := str "x"; a_space_eq := [];
                  a_space_value := []; a_value := str "1" |} ]
             [] (str " ")
             (CText (str "hi ")
                (CComment (str "c") []
                   (CEmpty (str "e") [] [] [LF]
                      (CTag (str "i")
                         [ {| a_space := str " "; a_name := str "k";
                              a_space_eq := []; a_space_value := [];
                              a_value := [] |} ]
                         [] [] (CText (str "t") CEnd) [] [] CEnd))))
             [] [] []).
    + apply at_init.
    + reflexivity.
    + reflexivity.
    + reflexivity.
    + reflexivity.
    + reflexivity.
    + reflexivity.
    + reflexivity.
    + discriminate.
    + simpl. lia.
  - apply (Hloop _ event_log 2%nat _
             (Nat.iter 3 xml_advance (xml_state_init (str "<a></b>") []))
             (Nat.iter 7 xml_advance (xml_state_init (str "<a></b>") []))).
    + reflexivity.
    + reflexivity.
    + reflexivity.
    + reflexivity.
    + reflexivity.
    + discriminate.
Defined.
